(** * Wallet microservice: a shallow embedding of the reliability core

    The development follows the TypeScript sources of the wallet service:
    the [Wallet] and [TransferSaga] entities, the [TransactionManager], the
    [WalletRepository], the [WalletService] with its controller, the
    [TransferSagaService] and the [FraudDetectionConsumer].

    Modelling conventions.
    - Money in the store is an exact decimal with two fractional digits (the
      columns are DECIMAL(20,2)); the services are modelled on its number
      of minor units in [Z].  The arithmetic that the [Wallet] class does
      on JavaScript numbers, with IEEE-754 rounding, is modelled apart, on
      binary64 values, in [DoubleEntity].
    - A [Date] is its number of milliseconds since the epoch, in [Z]; the
      date part of [toISOString()] is represented by the UTC day number.
    - The relational store, the cache and the broker are explicit components
      of a [World]; an [async] method is a state transformer over the world
      that either returns a value or throws an [Error].
    - The model is sequential: row locks are no-ops and a store transaction
      works on a private copy of the committed tables.
    - The store can refuse a commit, by a schedule held in the world.  The
      other calls on the infrastructure succeed in the services as first
      modelled; the coordinator and the transfer saga are modelled a second
      time with every awaited call able to reject ([executeUnder],
      [executeTransferUnder], [recoverSagaUnder]), the calls that are
      refused being given by [Outages] and [SagaOutages].  With no outage
      the two coincide. *)

From Stdlib Require Import ZArith String Ascii List Lia Bool FunctionalExtensionality.
From Stdlib Require Floats Uint63.
From stdpp Require Import base option gmap strings list sorting pretty.

Local Open Scope string_scope.
Local Open Scope Z_scope.

(** ** Enumerations *)

Inductive WalletStatus := ACTIVE | FROZEN | CLOSED.

Inductive TransferSagaState := PENDING | DEBITED | COMPLETED | COMPENSATED | FAILED.

Inductive WalletEventType :=
| WALLET_CREATED | FUNDS_DEPOSITED | FUNDS_WITHDRAWN
| TRANSFER_INITIATED | TRANSFER_COMPLETED | TRANSFER_FAILED | TRANSFER_COMPENSATED
| WALLET_FROZEN | WALLET_UNFROZEN | WALLET_CLOSED.

#[global] Instance WalletStatus_eq_dec : EqDecision WalletStatus.
Proof. solve_decision. Defined.

#[global] Instance TransferSagaState_eq_dec : EqDecision TransferSagaState.
Proof. solve_decision. Defined.

#[global] Instance WalletEventType_eq_dec : EqDecision WalletEventType.
Proof. solve_decision. Defined.

Definition WalletStatus_toString (s : WalletStatus) : string :=
  match s with ACTIVE => "ACTIVE" | FROZEN => "FROZEN" | CLOSED => "CLOSED" end.

Definition TransferSagaState_toString (s : TransferSagaState) : string :=
  match s with
  | PENDING => "PENDING" | DEBITED => "DEBITED" | COMPLETED => "COMPLETED"
  | COMPENSATED => "COMPENSATED" | FAILED => "FAILED"
  end.

Definition WalletEventType_toString (t : WalletEventType) : string :=
  match t with
  | WALLET_CREATED => "WALLET_CREATED" | FUNDS_DEPOSITED => "FUNDS_DEPOSITED"
  | FUNDS_WITHDRAWN => "FUNDS_WITHDRAWN" | TRANSFER_INITIATED => "TRANSFER_INITIATED"
  | TRANSFER_COMPLETED => "TRANSFER_COMPLETED" | TRANSFER_FAILED => "TRANSFER_FAILED"
  | TRANSFER_COMPENSATED => "TRANSFER_COMPENSATED" | WALLET_FROZEN => "WALLET_FROZEN"
  | WALLET_UNFROZEN => "WALLET_UNFROZEN" | WALLET_CLOSED => "WALLET_CLOSED"
  end.

(** ** JavaScript numbers and strings *)

(** [`${n}`] for a money amount held in minor units: the shortest decimal
    notation, without trailing zeros ("100", "100.5", "100.05"). *)
Definition numberToString (cents : Z) : string :=
  let a := Z.abs cents in
  let units := pretty (a / 100) in
  let frac := a mod 100 in
  let body :=
    if frac =? 0 then units
    else if frac mod 10 =? 0 then units +:+ "." +:+ pretty (frac / 10)
    else if frac <? 10 then units +:+ ".0" +:+ pretty frac
    else units +:+ "." +:+ pretty frac in
  if cents <? 0 then "-" +:+ body else body.

(** [n.toFixed(2)] for a money amount held in minor units. *)
Definition toFixed2 (cents : Z) : string :=
  let a := Z.abs cents in
  let frac := a mod 100 in
  let body :=
    pretty (a / 100) +:+ "." +:+ (if frac <? 10 then "0" +:+ pretty frac else pretty frac) in
  if cents <? 0 then "-" +:+ body else body.

(** JavaScript truthiness of a string that may be [undefined]. *)
Definition truthy (s : option string) : bool :=
  match s with
  | Some r => if decide (r = "") then false else true
  | None => false
  end.

(** ** Exceptions *)

Inductive Error :=
| InvalidAmountError (amount : Z) (operation : string)
| WalletNotActiveError (currentStatus : WalletStatus)
| WithdrawalLimitExceededError (requestedAmount dailyLimit : Z)
| InsufficientFundsError (currentBalance requestedAmount : Z)
| WalletClosedError
| NonZeroBalanceError (balance : Z)
| CurrencyMismatchError (fromCurrency toCurrency fromWalletId toWalletId : string)
| NotFoundException (msg : string)
| ConflictException (msg : string)
| PlainError (msg : string)
| QueryFailedError (code : string)
| OptimisticLockVersionMismatchError.

(** [error.message] *)
Definition message (e : Error) : string :=
  match e with
  | InvalidAmountError amount operation =>
      operation +:+ " amount must be positive, got: " +:+ numberToString amount
  | WalletNotActiveError st =>
      "Wallet is not active. Current status: " +:+ WalletStatus_toString st
  | WithdrawalLimitExceededError requested limit =>
      "Withdrawal limit exceeded: requested=" +:+ toFixed2 requested
        +:+ ", daily limit=" +:+ toFixed2 limit
  | InsufficientFundsError bal requested =>
      "Insufficient funds: balance=" +:+ toFixed2 bal
        +:+ ", requested=" +:+ toFixed2 requested
  | WalletClosedError => "Cannot perform operations on a closed wallet"
  | NonZeroBalanceError bal =>
      "Cannot close wallet with non-zero balance: " +:+ toFixed2 bal
  | CurrencyMismatchError fc tc _ _ =>
      "Currency mismatch: " +:+ fc +:+ " vs " +:+ tc
  | NotFoundException msg => msg
  | ConflictException msg => msg
  | PlainError msg => msg
  | QueryFailedError code => "query failed: " +:+ code
  | OptimisticLockVersionMismatchError => "optimistic lock version mismatch"
  end.

(** ** A state-and-exception monad

    [M S A] is a computation over a mutable state [S] that returns an [A]
    or throws.  The state that was reached when the exception was thrown is
    kept, as it is in JavaScript. *)

Definition M (S A : Type) : Type := S -> S * (Error + A).

Definition ret {S A} (a : A) : M S A := fun s => (s, inr a).

Definition throw {S A} (e : Error) : M S A := fun s => (s, inl e).

Definition bind {S A B} (m : M S A) (f : A -> M S B) : M S B :=
  fun s => match m s with
           | (s', inr a) => f a s'
           | (s', inl e) => (s', inl e)
           end.

Definition gets {S A} (f : S -> A) : M S A := fun s => (s, inr (f s)).

Definition modify {S} (f : S -> S) : M S unit := fun s => (f s, inr tt).

(** [try { body } catch (e) { handler e }] *)
Definition try_catch {S A} (body : M S A) (handler : Error -> M S A) : M S A :=
  fun s => match body s with
           | (s', inr a) => (s', inr a)
           | (s', inl e) => handler e s'
           end.

(** [try { body } finally { fin }]: the finaliser runs on both exits; an
    exception of the finaliser replaces the outcome of the body. *)
Definition try_finally {S A} (body : M S A) (fin : M S unit) : M S A :=
  fun s => match body s with
           | (s', r) =>
               match fin s' with
               | (s'', inr _) => (s'', r)
               | (s'', inl e) => (s'', inl e)
               end
           end.

Declare Scope m_scope.
Delimit Scope m_scope with M.
Notation "x <- m ;; k" := (bind m (fun x => k))
  (at level 100, m at next level, right associativity) : m_scope.
Notation "m ;;; k" := (bind m (fun _ => k))
  (at level 100, right associativity) : m_scope.
Local Open Scope m_scope.

(** ** The Wallet entity (wallet.entity.ts) *)

Record Wallet := mkWallet {
  wallet_id : string;
  balance : Z;
  currency : string;
  status : WalletStatus;
  dailyWithdrawalLimit : option Z;
  dailyWithdrawalTotal : Z;
  lastWithdrawalDate : option Z
}.

Definition new_Wallet (id : string) (cur : string) : Wallet :=
  {| wallet_id := id; balance := 0; currency := cur; status := ACTIVE;
     dailyWithdrawalLimit := None; dailyWithdrawalTotal := 0;
     lastWithdrawalDate := None |}.

Definition set_balance (b : Z) (w : Wallet) : Wallet :=
  {| wallet_id := wallet_id w; balance := b; currency := currency w;
     status := status w; dailyWithdrawalLimit := dailyWithdrawalLimit w;
     dailyWithdrawalTotal := dailyWithdrawalTotal w;
     lastWithdrawalDate := lastWithdrawalDate w |}.

Definition set_status (st : WalletStatus) (w : Wallet) : Wallet :=
  {| wallet_id := wallet_id w; balance := balance w; currency := currency w;
     status := st; dailyWithdrawalLimit := dailyWithdrawalLimit w;
     dailyWithdrawalTotal := dailyWithdrawalTotal w;
     lastWithdrawalDate := lastWithdrawalDate w |}.

Definition set_dailyWithdrawalLimit (l : option Z) (w : Wallet) : Wallet :=
  {| wallet_id := wallet_id w; balance := balance w; currency := currency w;
     status := status w; dailyWithdrawalLimit := l;
     dailyWithdrawalTotal := dailyWithdrawalTotal w;
     lastWithdrawalDate := lastWithdrawalDate w |}.

Definition set_dailyWithdrawalTotal (t : Z) (w : Wallet) : Wallet :=
  {| wallet_id := wallet_id w; balance := balance w; currency := currency w;
     status := status w; dailyWithdrawalLimit := dailyWithdrawalLimit w;
     dailyWithdrawalTotal := t;
     lastWithdrawalDate := lastWithdrawalDate w |}.

Definition set_lastWithdrawalDate (d : option Z) (w : Wallet) : Wallet :=
  {| wallet_id := wallet_id w; balance := balance w; currency := currency w;
     status := status w; dailyWithdrawalLimit := dailyWithdrawalLimit w;
     dailyWithdrawalTotal := dailyWithdrawalTotal w;
     lastWithdrawalDate := d |}.

(** Milliseconds in a day; [utcDay t] stands for [t.toISOString().split('T')[0]]. *)
Definition MS_PER_DAY : Z := 86400000.

Definition utcDay (t : Z) : Z := t / MS_PER_DAY.

Module WalletEntity.

Definition ensureWalletActive : M Wallet unit :=
  st <- gets status ;;
  if decide (st <> ACTIVE) then throw (WalletNotActiveError st) else ret tt.

Definition validatePositiveAmount (amount : Z) (operation : string) : M Wallet unit :=
  if amount <=? 0 then throw (InvalidAmountError amount operation) else ret tt.

(** [getTodayDate] reads the system clock, here the argument [now]. *)
Definition getTodayDate (now : Z) : Z := utcDay now.

Definition resetDailyLimitIfNewDay (now : Z) : M Wallet unit :=
  let today := getTodayDate now in
  last <- gets lastWithdrawalDate ;;
  let lastDate := utcDay <$> last in
  if decide (lastDate <> Some today)
  then modify (set_dailyWithdrawalTotal 0)
  else ret tt.

Definition validateDailyLimit (amount : Z) : M Wallet unit :=
  lim <- gets dailyWithdrawalLimit ;;
  match lim with
  | None => ret tt
  | Some limit =>
      total <- gets dailyWithdrawalTotal ;;
      let totalAfterWithdrawal := total + amount in
      if totalAfterWithdrawal >? limit
      then throw (WithdrawalLimitExceededError amount limit)
      else ret tt
  end.

Definition trackWithdrawal (amount : Z) (now : Z) : M Wallet unit :=
  modify (fun w => set_dailyWithdrawalTotal (dailyWithdrawalTotal w + amount) w) ;;;
  modify (set_lastWithdrawalDate (Some now)).

Definition deposit (amount : Z) : M Wallet unit :=
  validatePositiveAmount amount "Deposit" ;;;
  ensureWalletActive ;;;
  modify (fun w => set_balance (balance w + amount) w).

Definition withdraw (amount : Z) (now : Z) : M Wallet unit :=
  validatePositiveAmount amount "Withdrawal" ;;;
  ensureWalletActive ;;;
  resetDailyLimitIfNewDay now ;;;
  validateDailyLimit amount ;;;
  bal <- gets balance ;;
  (if bal <? amount then throw (InsufficientFundsError bal amount) else ret tt) ;;;
  modify (fun w => set_balance (balance w - amount) w) ;;;
  trackWithdrawal amount now.

Definition credit (amount : Z) : M Wallet unit :=
  validatePositiveAmount amount "Credit" ;;;
  ensureWalletActive ;;;
  modify (fun w => set_balance (balance w + amount) w).

Definition canDebit (amount : Z) (w : Wallet) : bool :=
  bool_decide (status w = ACTIVE)
  && (amount <=? balance w)
  && (0 <? amount)
  && match dailyWithdrawalLimit w with
     | None => true
     | Some l => amount <=? l
     end.

Definition freeze : M Wallet unit :=
  st <- gets status ;;
  if decide (st = CLOSED) then throw WalletClosedError
  else modify (set_status FROZEN).

Definition unfreeze : M Wallet unit :=
  st <- gets status ;;
  if decide (st = FROZEN) then modify (set_status ACTIVE) else ret tt.

Definition close : M Wallet unit :=
  bal <- gets balance ;;
  if decide (bal <> 0) then throw (NonZeroBalanceError bal)
  else modify (set_status CLOSED).

Definition setDailyWithdrawalLimit (limit : option Z) : M Wallet unit :=
  match limit with
  | Some l =>
      if l <=? 0 then throw (InvalidAmountError l "Daily withdrawal limit")
      else modify (set_dailyWithdrawalLimit limit)
  | None => modify (set_dailyWithdrawalLimit limit)
  end.

Definition isActive (w : Wallet) : bool := bool_decide (status w = ACTIVE).

End WalletEntity.

(** ** The Wallet entity on JavaScript numbers

    The same class with its amounts as the values it computes with: the
    decimal columns are read with [parseFloat], the amount of a request is
    a JSON number, and [+], [-], [<], [<=] and [>] are the operations of
    IEEE-754 binary64, rounding to nearest. *)


Declare Scope method_scope.

Module DoubleEntity.

Record Wallet := mkWallet {
  wallet_id : string;
  balance : PrimFloat.float;
  currency : string;
  status : WalletStatus;
  dailyWithdrawalLimit : option PrimFloat.float;
  dailyWithdrawalTotal : PrimFloat.float;
  lastWithdrawalDate : option Z
}.

(** The exceptions of the entity, with the numbers they carry. *)
Inductive Exception :=
| InvalidAmountError (amount : PrimFloat.float) (operation : string)
| WalletNotActiveError (st : WalletStatus)
| WithdrawalLimitExceededError (requested limit : PrimFloat.float)
| InsufficientFundsError (currentBalance requestedAmount : PrimFloat.float).

(** A method: it mutates the object, and returns or throws. *)
Definition Method (A : Type) : Type := Wallet -> Wallet * (Exception + A).

Definition ret {A} (a : A) : Method A := fun w => (w, inr a).

Definition throw {A} (e : Exception) : Method A := fun w => (w, inl e).

Definition bind {A B} (m : Method A) (f : A -> Method B) : Method B :=
  fun w => match m w with
           | (w', inr a) => f a w'
           | (w', inl e) => (w', inl e)
           end.

Definition gets {A} (f : Wallet -> A) : Method A := fun w => (w, inr (f w)).

Definition modify (f : Wallet -> Wallet) : Method unit := fun w => (f w, inr tt).

Notation "x <- m ;; k" := (bind m (fun x => k))
  (at level 100, m at next level, right associativity) : method_scope.
Notation "m ;;; k" := (bind m (fun _ => k))
  (at level 100, right associativity) : method_scope.
Local Open Scope method_scope.

Definition set_balance (b : PrimFloat.float) (w : Wallet) : Wallet :=
  {| wallet_id := wallet_id w; balance := b; currency := currency w;
     status := status w; dailyWithdrawalLimit := dailyWithdrawalLimit w;
     dailyWithdrawalTotal := dailyWithdrawalTotal w;
     lastWithdrawalDate := lastWithdrawalDate w |}.

Definition set_dailyWithdrawalTotal (t : PrimFloat.float) (w : Wallet) : Wallet :=
  {| wallet_id := wallet_id w; balance := balance w; currency := currency w;
     status := status w; dailyWithdrawalLimit := dailyWithdrawalLimit w;
     dailyWithdrawalTotal := t;
     lastWithdrawalDate := lastWithdrawalDate w |}.

Definition set_lastWithdrawalDate (d : option Z) (w : Wallet) : Wallet :=
  {| wallet_id := wallet_id w; balance := balance w; currency := currency w;
     status := status w; dailyWithdrawalLimit := dailyWithdrawalLimit w;
     dailyWithdrawalTotal := dailyWithdrawalTotal w;
     lastWithdrawalDate := d |}.

Definition ensureWalletActive : Method unit :=
  st <- gets status ;;
  if decide (st <> ACTIVE) then throw (WalletNotActiveError st) else ret tt.

(** [amount <= 0] *)
Definition validatePositiveAmount (amount : PrimFloat.float) (operation : string)
    : Method unit :=
  if PrimFloat.leb amount PrimFloat.zero
  then throw (InvalidAmountError amount operation)
  else ret tt.

Definition getTodayDate (now : Z) : Z := utcDay now.

Definition resetDailyLimitIfNewDay (now : Z) : Method unit :=
  let today := getTodayDate now in
  last <- gets lastWithdrawalDate ;;
  let lastDate := utcDay <$> last in
  if decide (lastDate <> Some today)
  then modify (set_dailyWithdrawalTotal PrimFloat.zero)
  else ret tt.

(** [this.dailyWithdrawalTotal + amount > this.dailyWithdrawalLimit] *)
Definition validateDailyLimit (amount : PrimFloat.float) : Method unit :=
  lim <- gets dailyWithdrawalLimit ;;
  match lim with
  | None => ret tt
  | Some limit =>
      total <- gets dailyWithdrawalTotal ;;
      let totalAfterWithdrawal := PrimFloat.add total amount in
      if PrimFloat.ltb limit totalAfterWithdrawal
      then throw (WithdrawalLimitExceededError amount limit)
      else ret tt
  end.

Definition trackWithdrawal (amount : PrimFloat.float) (now : Z) : Method unit :=
  modify (fun w =>
    set_dailyWithdrawalTotal (PrimFloat.add (dailyWithdrawalTotal w) amount) w) ;;;
  modify (set_lastWithdrawalDate (Some now)).

Definition deposit (amount : PrimFloat.float) : Method unit :=
  validatePositiveAmount amount "Deposit" ;;;
  ensureWalletActive ;;;
  modify (fun w => set_balance (PrimFloat.add (balance w) amount) w).

Definition withdraw (amount : PrimFloat.float) (now : Z) : Method unit :=
  validatePositiveAmount amount "Withdrawal" ;;;
  ensureWalletActive ;;;
  resetDailyLimitIfNewDay now ;;;
  validateDailyLimit amount ;;;
  bal <- gets balance ;;
  (if PrimFloat.ltb bal amount then throw (InsufficientFundsError bal amount)
   else ret tt) ;;;
  modify (fun w => set_balance (PrimFloat.sub (balance w) amount) w) ;;;
  trackWithdrawal amount now.

Definition credit (amount : PrimFloat.float) : Method unit :=
  validatePositiveAmount amount "Credit" ;;;
  ensureWalletActive ;;;
  modify (fun w => set_balance (PrimFloat.add (balance w) amount) w).

End DoubleEntity.

(** ** The TransferSaga entity (transfer-saga.entity.ts) *)

Record TransferSaga := mkTransferSaga {
  saga_id : string;
  fromWalletId : string;
  toWalletId : string;
  saga_amount : Z;
  saga_currency : string;
  state : TransferSagaState;
  saga_metadata : gmap string string
}.

Definition set_state (st : TransferSagaState) (s : TransferSaga) : TransferSaga :=
  {| saga_id := saga_id s; fromWalletId := fromWalletId s; toWalletId := toWalletId s;
     saga_amount := saga_amount s; saga_currency := saga_currency s;
     state := st; saga_metadata := saga_metadata s |}.

Definition set_saga_metadata (m : gmap string string) (s : TransferSaga) : TransferSaga :=
  {| saga_id := saga_id s; fromWalletId := fromWalletId s; toWalletId := toWalletId s;
     saga_amount := saga_amount s; saga_currency := saga_currency s;
     state := state s; saga_metadata := m |}.

Definition set_saga_id (id : string) (s : TransferSaga) : TransferSaga :=
  {| saga_id := id; fromWalletId := fromWalletId s; toWalletId := toWalletId s;
     saga_amount := saga_amount s; saga_currency := saga_currency s;
     state := state s; saga_metadata := saga_metadata s |}.

(** The constructor; the identifier is generated by the store on insert.
    A [null] metadata object is the empty map: spreading [null] adds no key. *)
Definition new_TransferSaga (from to : string) (amount : Z) (cur : string) : TransferSaga :=
  {| saga_id := ""; fromWalletId := from; toWalletId := to; saga_amount := amount;
     saga_currency := cur; state := PENDING; saga_metadata := ∅ |}.

Module SagaEntity.

Definition markAsDebited : M TransferSaga unit :=
  st <- gets state ;;
  if decide (st <> PENDING)
  then throw (PlainError ("Cannot mark as debited from state: " +:+ TransferSagaState_toString st))
  else modify (set_state DEBITED).

Definition markAsCompleted : M TransferSaga unit :=
  st <- gets state ;;
  if decide (st <> DEBITED)
  then throw (PlainError ("Cannot mark as completed from state: " +:+ TransferSagaState_toString st))
  else modify (set_state COMPLETED).

Definition markAsCompensated (error : string) : M TransferSaga unit :=
  st <- gets state ;;
  if decide (st <> DEBITED)
  then throw (PlainError ("Cannot compensate from state: " +:+ TransferSagaState_toString st))
  else
    modify (set_state COMPENSATED) ;;;
    modify (fun s => set_saga_metadata (<["compensationReason" := error]> (saga_metadata s)) s).

Definition markAsFailed (error : string) : M TransferSaga unit :=
  modify (set_state FAILED) ;;;
  modify (fun s => set_saga_metadata (<["failureReason" := error]> (saga_metadata s)) s).

End SagaEntity.

(** ** Rows of the relational store *)

(** wallet-event.entity.ts; [amount || null] turns a zero amount into [null]. *)
Record WalletEvent := mkWalletEvent {
  event_id : nat;
  event_walletId : string;
  eventType : WalletEventType;
  event_currency : string;
  event_amount : option Z;
  event_metadata : gmap string string;
  createdAt : Z
}.

Definition orNull (amount : option Z) : option Z :=
  match amount with
  | Some a => if a =? 0 then None else Some a
  | None => None
  end.

Definition new_WalletEvent (walletId : string) (ty : WalletEventType) (cur : string)
    (amount : option Z) (metadata : gmap string string) : WalletEvent :=
  {| event_id := 0%nat; event_walletId := walletId; eventType := ty;
     event_currency := cur; event_amount := orNull amount;
     event_metadata := metadata; createdAt := 0 |}.

(** event-publisher.service.ts: the message put on the bus. *)
Record WalletEventMessage := mkMessage {
  msg_eventType : WalletEventType;
  msg_walletId : string;
  msg_amount : option Z;
  msg_metadata : gmap string string;
  msg_timestamp : Z
}.

(** outbox-event.entity.ts *)
Record OutboxEvent := mkOutboxEvent {
  outbox_id : string;
  aggregateId : string;
  outbox_eventType : WalletEventType;
  payload : WalletEventMessage;
  published : bool
}.

Definition new_OutboxEvent (aggregate : string) (ty : WalletEventType)
    (p : WalletEventMessage) : OutboxEvent :=
  {| outbox_id := ""; aggregateId := aggregate; outbox_eventType := ty;
     payload := p; published := false |}.

Record TransferResult := mkTransferResult {
  res_sagaId : string;
  res_state : TransferSagaState;
  res_fromWalletId : string;
  res_toWalletId : string;
  res_amount : Z
}.

(** The JSON response kept in an idempotency record. *)
Inductive Response :=
| BalanceResponse (bal : Z) (walletId : string)
| TransferResponse (r : TransferResult).

(** idempotency-key.entity.ts *)
Record IdempotencyKey := mkIdempotencyKey {
  requestId : string;
  response : Response
}.

(** A metadata object with one key whose value may be [undefined]: the key
    is dropped when the object is serialised. *)
Definition optField (k : string) (v : option string) : gmap string string :=
  match v with
  | Some s => {[ k := s ]}
  | None => ∅
  end.

(** ** The store

    The tables, and the two sequences that generate event ids and UUIDs. *)
Record Store := mkStore {
  wallets : gmap string Wallet;
  wallet_events : list WalletEvent;
  transfer_sagas : gmap string TransferSaga;
  idempotency_keys : gmap string Response;
  outbox_events : list OutboxEvent;
  event_seq : nat;
  uuid_seq : nat
}.

Definition set_wallets (f : gmap string Wallet -> gmap string Wallet) (s : Store) : Store :=
  {| wallets := f (wallets s); wallet_events := wallet_events s;
     transfer_sagas := transfer_sagas s; idempotency_keys := idempotency_keys s;
     outbox_events := outbox_events s; event_seq := event_seq s; uuid_seq := uuid_seq s |}.

Definition set_transfer_sagas (f : gmap string TransferSaga -> gmap string TransferSaga)
    (s : Store) : Store :=
  {| wallets := wallets s; wallet_events := wallet_events s;
     transfer_sagas := f (transfer_sagas s); idempotency_keys := idempotency_keys s;
     outbox_events := outbox_events s; event_seq := event_seq s; uuid_seq := uuid_seq s |}.

Definition set_idempotency_keys (f : gmap string Response -> gmap string Response)
    (s : Store) : Store :=
  {| wallets := wallets s; wallet_events := wallet_events s;
     transfer_sagas := transfer_sagas s; idempotency_keys := f (idempotency_keys s);
     outbox_events := outbox_events s; event_seq := event_seq s; uuid_seq := uuid_seq s |}.

(** The generated UUID of the [n]-th generated row. *)
Definition uuid (n : nat) : string := "uuid-" +:+ pretty n.

(** INSERT of an event row: the id comes from the sequence, [created_at]
    is the time of the insertion. *)
Definition insert_event (now : Z) (ev : WalletEvent) (s : Store) : Store :=
  let row := {| event_id := S (event_seq s); event_walletId := event_walletId ev;
                eventType := eventType ev; event_currency := event_currency ev;
                event_amount := event_amount ev; event_metadata := event_metadata ev;
                createdAt := now |} in
  {| wallets := wallets s; wallet_events := wallet_events s ++ [row];
     transfer_sagas := transfer_sagas s; idempotency_keys := idempotency_keys s;
     outbox_events := outbox_events s; event_seq := S (event_seq s); uuid_seq := uuid_seq s |}.

(** INSERT of one outbox row with a generated id. *)
Definition insert_outbox (ev : OutboxEvent) (s : Store) : Store :=
  let row := {| outbox_id := uuid (uuid_seq s); aggregateId := aggregateId ev;
                outbox_eventType := outbox_eventType ev; payload := payload ev;
                published := published ev |} in
  {| wallets := wallets s; wallet_events := wallet_events s;
     transfer_sagas := transfer_sagas s; idempotency_keys := idempotency_keys s;
     outbox_events := outbox_events s ++ [row]; event_seq := event_seq s;
     uuid_seq := S (uuid_seq s) |}.

(** [save] of a saga: INSERT with a generated id for a new entity (empty
    id), UPDATE by primary key otherwise.  Returns the saved entity. *)
Definition save_saga (sg : TransferSaga) (s : Store) : Store * TransferSaga :=
  if decide (saga_id sg = "")
  then
    let sg' := set_saga_id (uuid (uuid_seq s)) sg in
    ({| wallets := wallets s; wallet_events := wallet_events s;
        transfer_sagas := <[saga_id sg' := sg']> (transfer_sagas s);
        idempotency_keys := idempotency_keys s; outbox_events := outbox_events s;
        event_seq := event_seq s; uuid_seq := S (uuid_seq s) |}, sg')
  else (set_transfer_sagas (insert (saga_id sg) sg) s, sg).

(** The writes of a transaction, in the order they were issued. *)
Inductive WriteOp :=
| SaveWallet (id : string)
| InsertWallet (id : string)
| InsertEvent (walletId : string) (ty : WalletEventType)
| SaveSaga (id : string) (st : TransferSagaState)
| SaveIdempotencyKey (requestId : string)
| SaveOutbox (ty : WalletEventType).

(** ** The cache (Redis)

    String keys hold a value and an optional expiry instant; sorted sets
    hold scored members. *)
Record Redis := mkRedis {
  strings : gmap string (string * option Z);
  zsets : gmap string (list (Z * string));
  zset_expiry : gmap string Z
}.

Definition redis_live (now : Z) (r : Redis) (key : string) : option string :=
  match strings r !! key with
  | Some (v, Some exp) => if exp <=? now then None else Some v
  | Some (v, None) => Some v
  | None => None
  end.

(** [SET key value EX ttl NX]: ["OK"] when the key was absent, [null] otherwise. *)
Definition redis_set_nx (now : Z) (key value : string) (ttl : Z) (r : Redis)
    : Redis * option string :=
  match redis_live now r key with
  | Some _ => (r, None)
  | None =>
      ({| strings := <[key := (value, Some (now + ttl * 1000))]> (strings r);
          zsets := zsets r; zset_expiry := zset_expiry r |}, Some "OK")
  end.

(** [SET key value EX ttl] *)
Definition redis_set_ex (now : Z) (key value : string) (ttl : Z) (r : Redis) : Redis :=
  {| strings := <[key := (value, Some (now + ttl * 1000))]> (strings r);
     zsets := zsets r; zset_expiry := zset_expiry r |}.

(** [DEL key] *)
Definition redis_del (key : string) (r : Redis) : Redis :=
  {| strings := delete key (strings r); zsets := zsets r;
     zset_expiry := zset_expiry r |}.

Definition zset_of (r : Redis) (key : string) : list (Z * string) :=
  default [] (zsets r !! key).

(** [ZADD key score member]: a member is held once, with its latest score. *)
Definition redis_zadd (key : string) (score : Z) (member : string) (r : Redis) : Redis :=
  let others := filter (fun e => e.2 <> member) (zset_of r key) in
  {| strings := strings r; zsets := <[key := (others ++ [(score, member)])%list]> (zsets r);
     zset_expiry := zset_expiry r |}.

(** [ZREMRANGEBYSCORE key -inf max] *)
Definition redis_zremrangebyscore (key : string) (max : Z) (r : Redis) : Redis :=
  {| strings := strings r;
     zsets := <[key := filter (fun e => max < e.1) (zset_of r key)]> (zsets r);
     zset_expiry := zset_expiry r |}.

(** [EXPIRE key seconds] *)
Definition redis_expire (now : Z) (key : string) (seconds : Z) (r : Redis) : Redis :=
  {| strings := strings r; zsets := zsets r;
     zset_expiry := <[key := now + seconds * 1000]> (zset_expiry r) |}.

(** [ZCARD key] *)
Definition redis_zcard (key : string) (r : Redis) : Z :=
  Z.of_nat (length (zset_of r key)).

(** ** Configuration (app-config.service.ts) *)

Record AppConfigService := mkConfig {
  rabbitMqExchange : string;
  fraudDetectionQueue : string;
  maxRetries : nat;
  initialBackoffMs : Z;
  fraudDetectionThreshold : Z;
  fraudDetectionMaxWithdrawals : Z;
  fraudDetectionTimeWindowMinutes : Z;
  sagaStuckThreshold : Z
}.

(** The values used when the environment overrides nothing.  The fraud
    threshold is an amount of money, here in minor units. *)
Definition defaultConfig : AppConfigService :=
  {| rabbitMqExchange := "wallet_events";
     fraudDetectionQueue := "fraud_detection";
     maxRetries := 10;
     initialBackoffMs := 50;
     fraudDetectionThreshold := 10000 * 100;
     fraudDetectionMaxWithdrawals := 3;
     fraudDetectionTimeWindowMinutes := 5;
     sagaStuckThreshold := 60000 |}.

(** ** The world *)

(** A query runner inside a transaction: its private view of the tables and
    the writes issued so far. *)
Record QueryRunner := mkQueryRunner {
  work : Store;
  writes : list WriteOp
}.

Record World := mkWorld {
  db : Store;                               (* committed tables *)
  runner : option QueryRunner;              (* the active query runner *)
  eventsToPublish : list OutboxEvent;       (* buffer of the running [execute] *)
  redis : Redis;
  bus : list (string * string * WalletEventMessage); (* exchange, routing key, body *)
  publisherConnected : bool;                (* [channelWrapper] is set *)
  clock : Z;                                (* [Date.now()] *)
  commitFaults : list (option Error);       (* outcome of the next commits *)
  jitterSource : nat -> Z;                  (* draws of [Math.random() * 100], in whole ms *)
  jitterCount : nat;
  sleeps : list Z;                          (* delays passed to [setTimeout] *)
  journal : list (list WriteOp);            (* committed transactions, oldest first *)
  config : AppConfigService
}.

Definition set_db (f : Store -> Store) (w : World) : World :=
  {| db := f (db w); runner := runner w; eventsToPublish := eventsToPublish w;
     redis := redis w; bus := bus w; publisherConnected := publisherConnected w;
     clock := clock w; commitFaults := commitFaults w; jitterSource := jitterSource w;
     jitterCount := jitterCount w; sleeps := sleeps w; journal := journal w;
     config := config w |}.

Definition set_runner (q : option QueryRunner) (w : World) : World :=
  {| db := db w; runner := q; eventsToPublish := eventsToPublish w;
     redis := redis w; bus := bus w; publisherConnected := publisherConnected w;
     clock := clock w; commitFaults := commitFaults w; jitterSource := jitterSource w;
     jitterCount := jitterCount w; sleeps := sleeps w; journal := journal w;
     config := config w |}.

Definition set_eventsToPublish (l : list OutboxEvent) (w : World) : World :=
  {| db := db w; runner := runner w; eventsToPublish := l;
     redis := redis w; bus := bus w; publisherConnected := publisherConnected w;
     clock := clock w; commitFaults := commitFaults w; jitterSource := jitterSource w;
     jitterCount := jitterCount w; sleeps := sleeps w; journal := journal w;
     config := config w |}.

Definition set_redis (f : Redis -> Redis) (w : World) : World :=
  {| db := db w; runner := runner w; eventsToPublish := eventsToPublish w;
     redis := f (redis w); bus := bus w; publisherConnected := publisherConnected w;
     clock := clock w; commitFaults := commitFaults w; jitterSource := jitterSource w;
     jitterCount := jitterCount w; sleeps := sleeps w; journal := journal w;
     config := config w |}.

Definition set_bus (l : list (string * string * WalletEventMessage)) (w : World) : World :=
  {| db := db w; runner := runner w; eventsToPublish := eventsToPublish w;
     redis := redis w; bus := l; publisherConnected := publisherConnected w;
     clock := clock w; commitFaults := commitFaults w; jitterSource := jitterSource w;
     jitterCount := jitterCount w; sleeps := sleeps w; journal := journal w;
     config := config w |}.

Definition set_commitFaults (l : list (option Error)) (w : World) : World :=
  {| db := db w; runner := runner w; eventsToPublish := eventsToPublish w;
     redis := redis w; bus := bus w; publisherConnected := publisherConnected w;
     clock := clock w; commitFaults := l; jitterSource := jitterSource w;
     jitterCount := jitterCount w; sleeps := sleeps w; journal := journal w;
     config := config w |}.

Definition set_journal (l : list (list WriteOp)) (w : World) : World :=
  {| db := db w; runner := runner w; eventsToPublish := eventsToPublish w;
     redis := redis w; bus := bus w; publisherConnected := publisherConnected w;
     clock := clock w; commitFaults := commitFaults w; jitterSource := jitterSource w;
     jitterCount := jitterCount w; sleeps := sleeps w; journal := l;
     config := config w |}.

(** [setTimeout(resolve, ms)]: the delay is recorded and the clock advances. *)
Definition sleep (ms : Z) : M World unit :=
  modify (fun w =>
    {| db := db w; runner := runner w; eventsToPublish := eventsToPublish w;
       redis := redis w; bus := bus w; publisherConnected := publisherConnected w;
       clock := clock w + ms; commitFaults := commitFaults w;
       jitterSource := jitterSource w; jitterCount := jitterCount w;
       sleeps := sleeps w ++ [ms]; journal := journal w; config := config w |}).

(** [Math.random() * 100]: the next draw of the jitter source. *)
Definition randomJitter : M World Z :=
  fun w =>
    ({| db := db w; runner := runner w; eventsToPublish := eventsToPublish w;
        redis := redis w; bus := bus w; publisherConnected := publisherConnected w;
        clock := clock w; commitFaults := commitFaults w;
        jitterSource := jitterSource w; jitterCount := S (jitterCount w);
        sleeps := sleeps w; journal := journal w; config := config w |},
     inr (jitterSource w (jitterCount w))).

(** [new Date()] *)
Definition newDate : M World Z := gets clock.

(** A wallet or saga method applied to a loaded entity object: the method
    mutates the object; when it throws, the exception propagates. *)
Definition call {S E A} (method : M E A) (obj : E) : M S (E * A) :=
  match method obj with
  | (obj', inr a) => ret (obj', a)
  | (_, inl e) => throw e
  end.

(** ** The query runner and its entity manager (TypeORM) *)

(** The manager of the active query runner. *)
Inductive EntityManager := QueryRunnerManager.

Definition startTransaction : M World unit :=
  modify (fun w => set_runner (Some {| work := db w; writes := [] |}) w).

(** COMMIT publishes the private view and appends the writes of the
    transaction to the journal; the store may refuse it with the next
    scheduled fault. *)
Definition commitTransaction : M World unit :=
  fun w =>
    match runner w with
    | None => (w, inl (PlainError "TransactionNotStartedError"))
    | Some q =>
        let commit w0 :=
          set_runner (Some {| work := work q; writes := [] |})
            (set_journal (journal w0 ++ [writes q]) (set_db (fun _ => work q) w0)) in
        match commitFaults w with
        | Some e :: rest => (set_commitFaults rest w, inl e)
        | None :: rest => (commit (set_commitFaults rest w), inr tt)
        | [] => (commit w, inr tt)
        end
    end.

(** ROLLBACK discards the private view. *)
Definition rollbackTransaction : M World unit :=
  modify (fun w => set_runner (Some {| work := db w; writes := [] |}) w).

Definition release : M World unit := modify (set_runner None).

Definition em_read {A} (f : Store -> A) : M World A :=
  fun w =>
    match runner w with
    | Some q => (w, inr (f (work q)))
    | None => (w, inl (PlainError "QueryRunnerAlreadyReleasedError"))
    end.

Definition em_write (op : WriteOp) (f : Store -> Store) : M World unit :=
  fun w =>
    match runner w with
    | Some q => (set_runner (Some {| work := f (work q); writes := writes q ++ [op] |}) w, inr tt)
    | None => (w, inl (PlainError "QueryRunnerAlreadyReleasedError"))
    end.

(** A repository bound to [manager] when one is given, to the data source
    otherwise; a write through the data source commits on its own. *)
Definition repo_read {A} (manager : option EntityManager) (f : Store -> A) : M World A :=
  match manager with
  | Some _ => em_read f
  | None => gets (fun w => f (db w))
  end.

Definition repo_write (manager : option EntityManager) (op : WriteOp)
    (f : Store -> Store) : M World unit :=
  match manager with
  | Some _ => em_write op f
  | None => modify (fun w => set_journal (journal w ++ [[op]]) (set_db f w))
  end.

(** ** ASCII lower case, for routing keys *)

Definition lowerAscii (c : ascii) : ascii :=
  let n := nat_of_ascii c in
  if (65 <=? n)%nat && (n <=? 90)%nat then ascii_of_nat (n + 32) else c.

Fixpoint toLowerCase (s : string) : string :=
  match s with
  | EmptyString => EmptyString
  | String c rest => String (lowerAscii c) (toLowerCase rest)
  end.

(** ** [Date.prototype.toISOString]

    The calendar date of a day number (days since 1970-01-01, proleptic
    Gregorian calendar), then the ISO 8601 text in UTC.  Years outside
    0..9999 take a sign and six digits. *)

Definition civilFromDays (days : Z) : Z * Z * Z :=
  let z := days + 719468 in
  let era := z / 146097 in
  let doe := z mod 146097 in
  let yoe := (doe - doe / 1460 + doe / 36524 - doe / 146096) / 365 in
  let doy := doe - (365 * yoe + yoe / 4 - yoe / 100) in
  let mp := (5 * doy + 2) / 153 in
  let d := doy - (153 * mp + 2) / 5 + 1 in
  let m := if mp <? 10 then mp + 3 else mp - 9 in
  let y := yoe + era * 400 + (if m <=? 2 then 1 else 0) in
  (y, m, d).

(** [String(n).padStart(width, '0')] for a number that is not negative. *)
Definition padZeros (width : nat) (n : Z) : string :=
  let digits := pretty n in
  String.concat "" (repeat "0" (width - String.length digits)) +:+ digits.

Definition toISOString (t : Z) : string :=
  let '(y, m, d) := civilFromDays (t / MS_PER_DAY) in
  let ms := t mod MS_PER_DAY in
  let year := if (0 <=? y) && (y <=? 9999) then padZeros 4 y
              else (if y <? 0 then "-" else "+") +:+ padZeros 6 (Z.abs y) in
  year +:+ "-" +:+ padZeros 2 m +:+ "-" +:+ padZeros 2 d
    +:+ "T" +:+ padZeros 2 (ms / 3600000)
    +:+ ":" +:+ padZeros 2 (ms / 60000 mod 60)
    +:+ ":" +:+ padZeros 2 (ms / 1000 mod 60)
    +:+ "." +:+ padZeros 3 (ms mod 1000) +:+ "Z".

(** ** EventPublisher (event-publisher.service.ts) *)

Module EventPublisher.

Definition publish (event : WalletEventMessage) (exchange : option string) : M World unit :=
  connected <- gets publisherConnected ;;
  if negb connected then throw (PlainError "EventPublisher not connected")
  else
    cfg <- gets config ;;
    let targetExchange := if truthy exchange then default "" exchange
                          else rabbitMqExchange cfg in
    let routingKey := "wallet." +:+ toLowerCase (WalletEventType_toString (msg_eventType event)) in
    modify (fun w => set_bus (bus w ++ [(targetExchange, routingKey, event)]) w).

End EventPublisher.

(** ** IdempotencyRepository and OutboxRepository *)

Module IdempotencyRepository.

Definition findByRequestId (rid : string) : M World (option IdempotencyKey) :=
  gets (fun w => mkIdempotencyKey rid <$> idempotency_keys (db w) !! rid).

Definition save (key : IdempotencyKey) (manager : option EntityManager)
    : M World IdempotencyKey :=
  repo_write manager (SaveIdempotencyKey (requestId key))
    (set_idempotency_keys (insert (requestId key) (response key))) ;;;
  ret key.

End IdempotencyRepository.

Module OutboxRepository.

Fixpoint saveAll (events : list OutboxEvent) (manager : option EntityManager)
    : M World unit :=
  match events with
  | [] => ret tt
  | ev :: rest =>
      repo_write manager (SaveOutbox (outbox_eventType ev)) (insert_outbox ev) ;;;
      saveAll rest manager
  end.

(** [find({ where: { published: false }, order: { createdAt: 'ASC' }, take })]
    on the committed table; the rows are kept in the order of their
    insertion, which is the order of [created_at]. *)
Definition findUnpublished (limit : nat) : M World (list OutboxEvent) :=
  gets (fun w =>
    take limit (filter (fun ev => published ev = false) (outbox_events (db w)))).

Definition mark_published (ids : list string) (ev : OutboxEvent) : OutboxEvent :=
  if decide (outbox_id ev ∈ ids)
  then {| outbox_id := outbox_id ev; aggregateId := aggregateId ev;
          outbox_eventType := outbox_eventType ev; payload := payload ev;
          published := true |}
  else ev.

(** [update(ids, { published: true })]: one UPDATE, committed on its own,
    of the rows whose id is listed. *)
Definition markAsPublished (ids : list string) : M World unit :=
  if decide (length ids = 0%nat) then ret tt
  else
    modify (fun w =>
      let updated := filter (fun ev => outbox_id ev ∈ ids) (outbox_events (db w)) in
      set_journal (journal w ++ [map (fun ev => SaveOutbox (outbox_eventType ev)) updated])
        (set_db (fun s =>
           {| wallets := wallets s; wallet_events := wallet_events s;
              transfer_sagas := transfer_sagas s; idempotency_keys := idempotency_keys s;
              outbox_events := map (mark_published ids) (outbox_events s);
              event_seq := event_seq s; uuid_seq := uuid_seq s |}) w)).

End OutboxRepository.

(** ** TransactionManager (transaction-manager.service.ts) *)

Inductive IsolationLevel := READ_COMMITTED | SERIALIZABLE.

Record TransactionOptions := mkOptions {
  isolationLevel : option IsolationLevel;
  lockKey : option string;
  lockTtl : option Z
}.

Record TransactionContext := mkContext {
  manager : EntityManager;
  publishEvent : OutboxEvent -> M World unit
}.

(** What the infrastructure refuses during one call of [execute]: for each
    awaited call on Redis or on the query runner, the error with which it
    rejects, if it does. The commit has its own schedule, [commitFaults]. *)
Record Outages := mkOutages {
  lockSetFails : option Error;     (* redis.set(lockKey, ..., 'NX') *)
  connectFails : option Error;     (* queryRunner.connect() *)
  startFails : option Error;       (* queryRunner.startTransaction() *)
  rollbackFails : option Error;    (* queryRunner.rollbackTransaction() *)
  releaseFails : option Error;     (* queryRunner.release() *)
  lockDelFails : option Error      (* redis.del(lockKey) *)
}.

Definition noOutages : Outages :=
  {| lockSetFails := None; connectFails := None; startFails := None;
     rollbackFails := None; releaseFails := None; lockDelFails := None |}.

(** An awaited call that rejects, without effect, when its outage is due. *)
Definition failing {A} (outage : option Error) (call : M World A) : M World A :=
  match outage with
  | Some e => throw e
  | None => call
  end.

Module TransactionManager.

Fixpoint publishEach (events : list OutboxEvent) : M World unit :=
  match events with
  | [] => ret tt
  | ev :: rest =>
      try_catch (EventPublisher.publish (payload ev) None) (fun _ => ret tt) ;;;
      publishEach rest
  end.

(** Fire and forget: a failed publish is logged and dropped. *)
Definition publishEventsAsync (events : list OutboxEvent) : M World unit :=
  if decide (length events = 0%nat) then ret tt else publishEach events.

Definition acquireLock (options : TransactionOptions) : M World unit :=
  if truthy (lockKey options) then
    now <- newDate ;;
    w <- gets redis ;;
    let '(r, acquired) :=
      redis_set_nx now (default "" (lockKey options)) "PROCESSING"
        (default 60 (lockTtl options)) w in
    modify (set_redis (fun _ => r)) ;;;
    match acquired with
    | Some _ => ret tt
    | None => throw (ConflictException "Concurrent request in progress")
    end
  else ret tt.

Definition releaseLock (options : TransactionOptions) : M World unit :=
  if truthy (lockKey options)
  then modify (set_redis (redis_del (default "" (lockKey options))))
  else ret tt.

(** The context handed to the business logic: the manager of the query
    runner, and [publishEvent], which pushes onto [eventsToPublish]. *)
Definition context : TransactionContext :=
  {| manager := QueryRunnerManager;
     publishEvent := fun event =>
       modify (fun w => set_eventsToPublish (eventsToPublish w ++ [event]) w) |}.

Definition execute {A} (operation : TransactionContext -> M World A)
    (options : TransactionOptions) : M World A :=
  (* 1. acquire the distributed lock, if requested *)
  acquireLock options ;;;
  startTransaction ;;;
  modify (set_eventsToPublish []) ;;;
  try_finally
    (try_catch
       ((* 2. business logic *)
        result <- operation context ;;
        (* 3. outbox rows, in the same transaction *)
        events <- gets eventsToPublish ;;
        (if decide (0 < length events)%nat
         then OutboxRepository.saveAll events (Some QueryRunnerManager)
         else ret tt) ;;;
        (* 4. commit *)
        commitTransaction ;;;
        (* 5. best-effort publish after the commit *)
        publishEventsAsync events ;;;
        ret result)
       (fun error => rollbackTransaction ;;; throw error))
    ((* 6. release the runner and the lock *)
     release ;;;
     releaseLock options).

(** [execute] on an infrastructure that may refuse its calls. The lock is
    taken, the runner connected and the transaction started before the
    [try]: an error there leaves [execute] at once, past [catch] and
    [finally]. An error of [rollbackTransaction] leaves the [catch] block in
    place of the one caught; an error of [release] leaves the [finally]
    block before [redis.del] is reached. *)
Definition executeUnder {A} (faults : Outages)
    (operation : TransactionContext -> M World A)
    (options : TransactionOptions) : M World A :=
  (* 1. acquire the distributed lock, if requested *)
  (if truthy (lockKey options)
   then failing (lockSetFails faults) (acquireLock options)
   else ret tt) ;;;
  failing (connectFails faults) (ret tt) ;;;
  failing (startFails faults) startTransaction ;;;
  modify (set_eventsToPublish []) ;;;
  try_finally
    (try_catch
       ((* 2. business logic *)
        result <- operation context ;;
        (* 3. outbox rows, in the same transaction *)
        events <- gets eventsToPublish ;;
        (if decide (0 < length events)%nat
         then OutboxRepository.saveAll events (Some QueryRunnerManager)
         else ret tt) ;;;
        (* 4. commit *)
        commitTransaction ;;;
        (* 5. best-effort publish after the commit *)
        publishEventsAsync events ;;;
        ret result)
       (fun error => failing (rollbackFails faults) rollbackTransaction ;;; throw error))
    ((* 6. release the runner and the lock *)
     failing (releaseFails faults) release ;;;
     (if truthy (lockKey options)
      then failing (lockDelFails faults) (releaseLock options)
      else ret tt)).

End TransactionManager.

(** ** WalletRepository (wallet.repository.ts) *)

Module WalletRepository.

Definition findById (id : string) : M World (option Wallet) :=
  gets (fun w => wallets (db w) !! id).

Definition findByIdWithLock (id : string) (manager : option EntityManager)
    : M World (option Wallet) :=
  repo_read manager (fun s => wallets s !! id).

Definition save (wallet : Wallet) : M World Wallet :=
  repo_write None (SaveWallet (wallet_id wallet))
    (set_wallets (insert (wallet_id wallet) wallet)) ;;;
  ret wallet.

Definition runInTransaction {A} (operation : EntityManager -> M World A) : M World A :=
  startTransaction ;;;
  try_finally
    (try_catch
       (result <- operation QueryRunnerManager ;;
        commitTransaction ;;;
        ret result)
       (fun error => rollbackTransaction ;;; throw error))
    release.

Definition withManager {A} (manager : option EntityManager)
    (execute : EntityManager -> M World A) : M World A :=
  match manager with
  | Some em => execute em
  | None => runInTransaction execute
  end.

Definition saveWithEvent (wallet : Wallet) (ty : WalletEventType) (amount : option Z)
    (metadata : gmap string string) (manager : option EntityManager) : M World Wallet :=
  withManager manager (fun em =>
    em_write (SaveWallet (wallet_id wallet))
      (set_wallets (insert (wallet_id wallet) wallet)) ;;;
    let event := new_WalletEvent (wallet_id wallet) ty (currency wallet) amount metadata in
    now <- newDate ;;
    em_write (InsertEvent (wallet_id wallet) ty) (insert_event now event) ;;;
    ret wallet).

(** INSERT ... ON CONFLICT ("id") DO NOTHING *)
Definition insertIfMissing (wallet : Wallet) (s : Store) : Store :=
  match wallets s !! wallet_id wallet with
  | Some _ => s
  | None => set_wallets (insert (wallet_id wallet) wallet) s
  end.

Definition getOrCreate (id : string) (cur : string) (manager : option EntityManager)
    : M World Wallet :=
  withManager manager (fun em =>
    found <- em_read (fun s => wallets s !! id) ;;
    match found with
    | Some wallet => ret wallet
    | None =>
        em_write (InsertWallet id) (insertIfMissing (new_Wallet id cur)) ;;;
        again <- em_read (fun s => wallets s !! id) ;;
        match again with
        | None => throw (PlainError ("Failed to retrieve or create wallet with ID: " +:+ id))
        | Some wallet =>
            existingEvents <- em_read (fun s =>
              length (filter (fun ev => event_walletId ev = id) (wallet_events s))) ;;
            (if decide (existingEvents = 0%nat) then
               now <- newDate ;;
               em_write (InsertEvent id WALLET_CREATED)
                 (insert_event now (new_WalletEvent id WALLET_CREATED cur None ∅))
             else ret tt) ;;;
            ret wallet
        end
    end).

(** [runInTransaction] and [getOrCreate] on an infrastructure that may
    refuse the calls on the query runner. *)
Definition runInTransactionUnder {A} (faults : Outages)
    (operation : EntityManager -> M World A) : M World A :=
  failing (connectFails faults) (ret tt) ;;;
  failing (startFails faults) startTransaction ;;;
  try_finally
    (try_catch
       (result <- operation QueryRunnerManager ;;
        commitTransaction ;;;
        ret result)
       (fun error => failing (rollbackFails faults) rollbackTransaction ;;; throw error))
    (failing (releaseFails faults) release).

Definition getOrCreateUnder (faults : Outages) (id : string) (cur : string)
    : M World Wallet :=
  runInTransactionUnder faults (fun em => getOrCreate id cur (Some em)).

(** [find({ where: { walletId }, order: { createdAt: 'DESC' }, take, skip })] *)
Definition newerFirst (a b : WalletEvent) : Prop := createdAt b <= createdAt a.

#[global] Instance newerFirst_dec a b : Decision (newerFirst a b).
Proof. unfold newerFirst. apply _. Defined.

Definition getEventHistory (walletId : string) (limit offset : nat)
    : M World (list WalletEvent) :=
  gets (fun w =>
    take limit (drop offset
      (merge_sort newerFirst
         (filter (fun ev => event_walletId ev = walletId) (wallet_events (db w)))))).

(** What the store may answer to that query: the rows of the wallet in an
    order that descends in [created_at], cut to the page.  SQL leaves the
    order of rows with the same [created_at] open, and open anew at each
    query; [getEventHistory] above is the answer that keeps such rows in
    the order of their insertion. *)
Definition historyAnswer (walletId : string) (limit offset : nat) (w : World)
    (rows : list WalletEvent) : Prop :=
  exists ordered,
    ordered ≡ₚ filter (fun ev => event_walletId ev = walletId) (wallet_events (db w))
    /\ StronglySorted newerFirst ordered
    /\ rows = take limit (drop offset ordered).

End WalletRepository.

(** ** WalletService (wallet.service.ts) *)

(** The balance that [getBalance] answers with: [FromCache text] stands
    for [Number(text)], the number that the cached text denotes, and
    [FromStore b] for the balance [b] of the stored wallet (or 0). *)
Inductive BalanceView :=
| FromCache (text : string)
| FromStore (bal : Z).

Module WalletService.

Definition CACHE_TTL : Z := 30.

Definition getBalanceCacheKey (walletId : string) : string :=
  "wallet:balance:" +:+ walletId.

(** [result.balance] of a stored response; a response without that field
    reads as [undefined], written to the cache as the empty string. *)
Definition response_balance (r : Response) : option Z :=
  match r with
  | BalanceResponse b _ => Some b
  | TransferResponse _ => None
  end.

Definition setBalanceCache (walletId : string) (bal : option Z) : M World unit :=
  now <- newDate ;;
  modify (set_redis (redis_set_ex now (getBalanceCacheKey walletId)
                       (default "" (numberToString <$> bal)) CACHE_TTL)).

Definition invalidateBalanceCache (walletId : string) : M World unit :=
  modify (set_redis (redis_del (getBalanceCacheKey walletId))).

(** The closure that [executeIdempotentTransaction] hands to the
    coordinator. *)
Definition idempotentBody
    (walletId : string) (amount : Z) (ty : WalletEventType)
    (operation : Z -> M Wallet unit) (rid : option string)
    (autoCreateWallet : bool) (ctx : TransactionContext) : M World Response :=
  wallet <- (if autoCreateWallet
             then WalletRepository.getOrCreate walletId "USD" (Some (manager ctx))
             else
               found <- WalletRepository.findByIdWithLock walletId (Some (manager ctx)) ;;
               match found with
               | None => throw (PlainError ("Wallet " +:+ walletId +:+ " not found"))
               | Some wallet => ret wallet
               end) ;;
  (* business logic *)
  now <- newDate ;;
  r <- call (operation now) wallet ;;
  let wallet := r.1 in
  WalletRepository.saveWithEvent wallet ty (Some amount)
    (optField "requestId" rid) (Some (manager ctx)) ;;;
  (* outbox event *)
  now <- newDate ;;
  publishEvent ctx (new_OutboxEvent walletId ty
    {| msg_eventType := ty; msg_walletId := walletId; msg_amount := Some amount;
       msg_metadata := optField "requestId" rid; msg_timestamp := now |}) ;;;
  let result := BalanceResponse (balance wallet) (wallet_id wallet) in
  (* the idempotency key goes into the same transaction *)
  (if truthy rid
   then IdempotencyRepository.save
          {| requestId := default "" rid; response := result |}
          (Some (manager ctx)) ;;; ret tt
   else ret tt) ;;;
  ret result.

Definition idempotentOptions (rid : option string) : TransactionOptions :=
  {| lockKey := if truthy rid then Some ("lock:req:" +:+ default "" rid) else None;
     lockTtl := Some 60; isolationLevel := Some READ_COMMITTED |}.

Definition executeIdempotentTransaction
    (walletId : string) (amount : Z) (ty : WalletEventType)
    (operation : Z -> M Wallet unit) (rid : option string)
    (autoCreateWallet : bool) : M World Response :=
  (* idempotency check *)
  existing <- (if truthy rid
               then IdempotencyRepository.findByRequestId (default "" rid)
               else ret None) ;;
  match existing with
  | Some key => ret (response key)
  | None =>
      TransactionManager.execute
        (idempotentBody walletId amount ty operation rid autoCreateWallet)
        (idempotentOptions rid)
  end.

Definition deposit (walletId : string) (amount : Z) (rid : option string)
    : M World Response :=
  result <- executeIdempotentTransaction walletId amount FUNDS_DEPOSITED
              (fun _ => WalletEntity.deposit amount) rid true ;;
  setBalanceCache walletId (response_balance result) ;;;
  ret result.

Definition withdraw (walletId : string) (amount : Z) (rid : option string)
    : M World Response :=
  result <- executeIdempotentTransaction walletId amount FUNDS_WITHDRAWN
              (fun now => WalletEntity.withdraw amount now) rid false ;;
  setBalanceCache walletId (response_balance result) ;;;
  ret result.

Definition getBalance (walletId : string) : M World (BalanceView * string) :=
  (* cache first *)
  now <- newDate ;;
  cachedBalance <- gets (fun w => redis_live now (redis w) (getBalanceCacheKey walletId)) ;;
  match cachedBalance with
  | Some text => ret (FromCache text, walletId)
  | None =>
      wallet <- WalletRepository.findById walletId ;;
      match wallet with
      | None => ret (FromStore 0, walletId)
      | Some wallet =>
          setBalanceCache walletId (Some (balance wallet)) ;;;
          ret (FromStore (balance wallet), wallet_id wallet)
      end
  end.

(** The closure that [executeStateChange] hands to the coordinator.  The
    wallet is read through the repository, outside the transaction. *)
Definition stateChangeBody (walletId : string) (ty : WalletEventType)
    (operation : M Wallet unit) (metadata : gmap string string)
    (ctx : TransactionContext) : M World unit :=
  found <- WalletRepository.findById walletId ;;
  match found with
  | None => throw (PlainError ("Wallet " +:+ walletId +:+ " not found"))
  | Some wallet =>
      r <- call operation wallet ;;
      let wallet := r.1 in
      WalletRepository.saveWithEvent wallet ty None metadata (Some (manager ctx)) ;;;
      now <- newDate ;;
      publishEvent ctx (new_OutboxEvent walletId ty
        {| msg_eventType := ty; msg_walletId := walletId; msg_amount := None;
           msg_metadata := metadata; msg_timestamp := now |})
  end.

Definition executeStateChange (walletId : string) (ty : WalletEventType)
    (operation : M Wallet unit) (metadata : gmap string string) : M World unit :=
  TransactionManager.execute (stateChangeBody walletId ty operation metadata)
    {| isolationLevel := None; lockKey := None; lockTtl := None |}.

Definition freezeWallet (walletId reason : string) (frozenBy : option string)
    : M World unit :=
  now <- newDate ;;
  executeStateChange walletId WALLET_FROZEN WalletEntity.freeze
    (<["reason" := reason]>
       (<["frozenBy" := default "system" frozenBy]> {[ "frozenAt" := toISOString now ]})) ;;;
  invalidateBalanceCache walletId.

Definition unfreezeWallet (walletId : string) (unfrozenBy : option string)
    : M World unit :=
  now <- newDate ;;
  executeStateChange walletId WALLET_UNFROZEN WalletEntity.unfreeze
    (<["unfrozenBy" := default "system" unfrozenBy]>
       {[ "unfrozenAt" := toISOString now ]}) ;;;
  invalidateBalanceCache walletId.

Definition closeWallet (walletId reason : string) (closedBy : option string)
    : M World unit :=
  now <- newDate ;;
  executeStateChange walletId WALLET_CLOSED WalletEntity.close
    (<["reason" := reason]>
       (<["closedBy" := default "system" closedBy]> {[ "closedAt" := toISOString now ]})) ;;;
  invalidateBalanceCache walletId.

(** [{ ...event, amount: event.amount ? Number(event.amount) : null }]: the
    amount of a stored row arrives as the text of a decimal, which is
    truthy also when it reads "0.00"; so every stored amount is passed on
    as a number, and only [null] stays [null]. *)
Definition presentEvent (ev : WalletEvent) : WalletEvent :=
  {| event_id := event_id ev; event_walletId := event_walletId ev;
     eventType := eventType ev; event_currency := event_currency ev;
     event_amount := match event_amount ev with
                     | Some amount => Some amount
                     | None => None
                     end;
     event_metadata := event_metadata ev; createdAt := createdAt ev |}.

Definition getHistory (walletId : string) (limit offset : nat)
    : M World (list WalletEvent) :=
  events <- WalletRepository.getEventHistory walletId limit offset ;;
  ret (map presentEvent events).

End WalletService.

(** ** WalletController.getHistory (wallet.controller.ts, wallet.dto.ts) *)

Record GetHistoryDto := mkGetHistoryDto {
  dto_limit : option nat;
  dto_offset : option nat
}.

Module WalletController.

(** [x || d] on a number that may be [undefined]. *)
Definition orDefault (x : option nat) (d : nat) : nat :=
  match x with
  | Some O => d
  | Some n => n
  | None => d
  end.

Definition getHistory (walletId : string) (query : GetHistoryDto)
    : M World (list WalletEvent) :=
  let limit := orDefault (dto_limit query) 100 in
  let offset := orDefault (dto_offset query) 0 in
  WalletService.getHistory walletId limit offset.

End WalletController.

(** ** TransferSagaRepository (transfer-saga.repository.ts) *)

Module TransferSagaRepository.

Definition save (saga : TransferSaga) : M World TransferSaga :=
  fun w =>
    let '(s, saved) := save_saga saga (db w) in
    (set_journal (journal w ++ [[SaveSaga (saga_id saved) (state saved)]])
       (set_db (fun _ => s) w), inr saved).

Definition findById (id : string) : M World (option TransferSaga) :=
  gets (fun w => transfer_sagas (db w) !! id).

End TransferSagaRepository.

(** ** Outages during a saga *)

(** What is refused during one call of [executeTransfer] or [recoverSaga]:
    for an awaited call outside the legs, the error with which it rejects,
    if it does; for a leg, the outages of each of its attempts. *)
Record SagaOutages := mkSagaOutages {
  findKeyFails : option Error;          (* idempotencyRepository.findByRequestId *)
  findSenderFails : option Error;       (* walletRepository.findById *)
  getReceiverOutages : Outages;         (* walletRepository.getOrCreate *)
  insertSagaFails : option Error;       (* sagaRepository.save(saga) *)
  publishInitiatedFails : option Error; (* publish of TRANSFER_INITIATED *)
  debitOutages : nat -> Outages;        (* the attempts of the debit *)
  debitCacheFails : option Error;       (* invalidateBalanceCache(fromWalletId) *)
  reloadAfterDebitFails : option Error; (* sagaRepository.findById after the debit *)
  creditOutages : nat -> Outages;       (* the attempts of the credit *)
  creditCacheFails : option Error;      (* invalidateBalanceCache(toWalletId) *)
  reloadAfterCreditFails : option Error; (* sagaRepository.findById after the credit *)
  saveCompletedFails : option Error;    (* sagaRepository.save of the completed saga *)
  publishCompletedFails : option Error; (* publish of TRANSFER_COMPLETED *)
  saveKeyFails : option Error;          (* idempotencyRepository.save *)
  findSagaFails : option Error;         (* sagaRepository.findById, in [catch] and in [recoverSaga] *)
  compensationOutages : nat -> Outages; (* the attempts of the compensation *)
  publishFailedFails : option Error;    (* publish of TRANSFER_FAILED *)
  saveFailedFails : option Error        (* sagaRepository.save of the failed saga *)
}.

Definition noSagaOutages : SagaOutages :=
  {| findKeyFails := None; findSenderFails := None; getReceiverOutages := noOutages;
     insertSagaFails := None; publishInitiatedFails := None;
     debitOutages := fun _ => noOutages; debitCacheFails := None;
     reloadAfterDebitFails := None;
     creditOutages := fun _ => noOutages; creditCacheFails := None;
     reloadAfterCreditFails := None; saveCompletedFails := None;
     publishCompletedFails := None; saveKeyFails := None; findSagaFails := None;
     compensationOutages := fun _ => noOutages; publishFailedFails := None;
     saveFailedFails := None |}.

(** ** TransferSagaService (transfer-saga.service.ts) *)

Module TransferSagaService.

(** Serialization failure (40001), deadlock (40P01), unique violation
    (23505), or an optimistic lock version mismatch. *)
Definition isRetryableError (error : Error) : bool :=
  match error with
  | QueryFailedError code =>
      bool_decide (code = "40001") || bool_decide (code = "40P01")
      || bool_decide (code = "23505")
  | OptimisticLockVersionMismatchError => true
  | _ => false
  end.

(** The delay before jitter: [Math.min(Math.pow(2, attempt) * initialBackoffMs, 5000)]. *)
Definition backoffMs (attempt : nat) (initialBackoff : Z) : Z :=
  Z.min (2 ^ Z.of_nat attempt * initialBackoff) 5000.

Definition performExponentialBackoff (attempt : nat) (initialBackoff : Z) : M World unit :=
  let backoff := backoffMs attempt initialBackoff in
  jitter <- randomJitter ;;
  sleep (backoff + jitter).

(** The [for] loop of [executeWithRetry]; [remaining] is
    [maxRetries - attempt]. *)
Fixpoint retryLoop {A} (operation : M World A) (initialBackoff : Z)
    (remaining attempt : nat) : M World A :=
  match remaining with
  | O => throw (PlainError "Operation failed due to concurrent modification. Please retry.")
  | S remaining' =>
      try_catch operation (fun error =>
        if isRetryableError error then
          performExponentialBackoff attempt initialBackoff ;;;
          retryLoop operation initialBackoff remaining' (S attempt)
        else throw error)
  end.

Definition executeWithRetry {A} (operation : M World A) : M World A :=
  cfg <- gets config ;;
  retryLoop operation (initialBackoffMs cfg) (maxRetries cfg) 0.

(** The closure that [executeTransactionalStep] hands to the coordinator:
    the wallet operation, the saga update and the journal event, then the
    outbox event. *)
Definition stepBody
    (sagaId walletId : string) (amount : Z)
    (operation : Z -> M Wallet unit) (ty : WalletEventType)
    (eventMetadata : gmap string string)
    (updateSaga : option (M TransferSaga unit)) (ctx : TransactionContext)
    : M World unit :=
  (* load the wallet under a pessimistic lock *)
  found <- em_read (fun s => wallets s !! walletId) ;;
  match found with
  | None => throw (NotFoundException ("Wallet " +:+ walletId +:+ " not found"))
  | Some wallet =>
      now <- newDate ;;
      r <- call (operation now) wallet ;;
      let wallet := r.1 in
      em_write (SaveWallet (wallet_id wallet))
        (set_wallets (insert (wallet_id wallet) wallet)) ;;;
      (* reload the saga inside this transaction *)
      sg <- em_read (fun s => transfer_sagas s !! sagaId) ;;
      match sg with
      | None => throw (NotFoundException ("Saga " +:+ sagaId +:+ " not found"))
      | Some saga =>
          match updateSaga with
          | Some update =>
              r <- call update saga ;;
              let saga := r.1 in
              em_write (SaveSaga (saga_id saga) (state saga))
                (set_transfer_sagas (insert (saga_id saga) saga))
          | None => ret tt
          end ;;;
          now <- newDate ;;
          em_write (InsertEvent walletId ty)
            (insert_event now
               (new_WalletEvent walletId ty (currency wallet) (Some amount) eventMetadata)) ;;;
          now <- newDate ;;
          publishEvent ctx (new_OutboxEvent walletId ty
            {| msg_eventType := ty; msg_walletId := walletId;
               msg_amount := Some amount; msg_metadata := eventMetadata;
               msg_timestamp := now |})
      end
  end.

Definition stepOptions : TransactionOptions :=
  {| isolationLevel := Some READ_COMMITTED; lockKey := None; lockTtl := None |}.

(** One leg of the saga, under the retry policy. *)
Definition executeTransactionalStep
    (sagaId walletId : string) (amount : Z)
    (operation : Z -> M Wallet unit) (ty : WalletEventType)
    (eventMetadata : gmap string string)
    (updateSaga : option (M TransferSaga unit)) : M World unit :=
  executeWithRetry
    (TransactionManager.execute
       (stepBody sagaId walletId amount operation ty eventMetadata updateSaga)
       stepOptions).

Definition debitFromSender (saga : TransferSaga) : M World unit :=
  executeTransactionalStep (saga_id saga) (fromWalletId saga) (saga_amount saga)
    (fun now => WalletEntity.withdraw (saga_amount saga) now)
    FUNDS_WITHDRAWN
    (<["sagaId" := saga_id saga]> {[ "transferTo" := toWalletId saga ]})
    (Some SagaEntity.markAsDebited) ;;;
  WalletService.invalidateBalanceCache (fromWalletId saga).

Definition creditToReceiver (saga : TransferSaga) : M World unit :=
  executeTransactionalStep (saga_id saga) (toWalletId saga) (saga_amount saga)
    (fun _ => WalletEntity.credit (saga_amount saga))
    FUNDS_DEPOSITED
    (<["sagaId" := saga_id saga]> {[ "transferFrom" := fromWalletId saga ]})
    None ;;;
  WalletService.invalidateBalanceCache (toWalletId saga).

Definition compensate (sagaId from : string) (amount : Z) (errorMessage : string)
    : M World unit :=
  try_catch
    (executeTransactionalStep sagaId from amount
       (fun _ => WalletEntity.credit amount)
       TRANSFER_COMPENSATED
       (<["sagaId" := sagaId]> {[ "reason" := errorMessage ]})
       (Some (SagaEntity.markAsCompensated errorMessage)) ;;;
     now <- newDate ;;
     EventPublisher.publish
       {| msg_eventType := TRANSFER_FAILED; msg_walletId := from;
          msg_amount := Some amount;
          msg_metadata := <["sagaId" := sagaId]> {[ "reason" := errorMessage ]};
          msg_timestamp := now |} None)
    (fun error => throw error).

Definition executeTransfer (from to : string) (amount : Z) (rid : option string)
    : M World Response :=
  existing <- (if truthy rid
               then IdempotencyRepository.findByRequestId (default "" rid)
               else ret None) ;;
  match existing with
  | Some key => ret (response key)
  | None =>
  if decide (from = to) then throw (PlainError "Cannot transfer to the same wallet") else
  fromWallet <- WalletRepository.findById from ;;
  match fromWallet with
  | None => throw (NotFoundException ("Wallet " +:+ from +:+ " not found"))
  | Some fromWallet =>
  toWallet <- WalletRepository.getOrCreate to (currency fromWallet) None ;;
  if decide (currency toWallet <> currency fromWallet)
  then throw (CurrencyMismatchError (currency fromWallet) (currency toWallet) from to)
  else
  saga <- TransferSagaRepository.save
            (new_TransferSaga from to amount (currency fromWallet)) ;;
  now <- newDate ;;
  EventPublisher.publish
    {| msg_eventType := TRANSFER_INITIATED; msg_walletId := from;
       msg_amount := Some amount;
       msg_metadata := <["sagaId" := saga_id saga]> (<["toWalletId" := to]>
                         (optField "requestId" rid));
       msg_timestamp := now |} None ;;;
  try_catch
    (debitFromSender saga ;;;
     updatedSaga <- TransferSagaRepository.findById (saga_id saga) ;;
     match updatedSaga with
     | None => throw (PlainError ("Saga " +:+ saga_id saga +:+ " not found after debit"))
     | Some updatedSaga =>
     creditToReceiver updatedSaga ;;;
     finalSaga <- TransferSagaRepository.findById (saga_id saga) ;;
     match finalSaga with
     | None => throw (PlainError ("Saga " +:+ saga_id saga +:+ " not found after credit"))
     | Some finalSaga =>
     r <- call SagaEntity.markAsCompleted finalSaga ;;
     let finalSaga := r.1 in
     TransferSagaRepository.save finalSaga ;;;
     now <- newDate ;;
     EventPublisher.publish
       {| msg_eventType := TRANSFER_COMPLETED; msg_walletId := from;
          msg_amount := Some amount;
          msg_metadata := <["sagaId" := saga_id saga]> {[ "toWalletId" := to ]};
          msg_timestamp := now |} None ;;;
     let result :=
       {| res_sagaId := saga_id finalSaga; res_state := state finalSaga;
          res_fromWalletId := fromWalletId finalSaga;
          res_toWalletId := toWalletId finalSaga;
          res_amount := saga_amount finalSaga |} in
     (if truthy rid
      then IdempotencyRepository.save
             {| requestId := default "" rid; response := TransferResponse result |}
             None ;;; ret tt
      else ret tt) ;;;
     ret (TransferResponse result)
     end end)
    (fun error =>
       currentSaga <- TransferSagaRepository.findById (saga_id saga) ;;
       match currentSaga with
       | None => throw (PlainError ("Saga " +:+ saga_id saga
                                     +:+ " not found during error handling"))
       | Some currentSaga =>
           (if decide (state currentSaga = DEBITED)
            then compensate (saga_id currentSaga) (fromWalletId currentSaga)
                   (saga_amount currentSaga) (message error)
            else
              r <- call (SagaEntity.markAsFailed (message error)) currentSaga ;;
              TransferSagaRepository.save r.1 ;;; ret tt) ;;;
           throw error
       end)
  end end.

Definition recoverSaga (sagaId : string) : M World unit :=
  found <- TransferSagaRepository.findById sagaId ;;
  match found with
  | None => ret tt
  | Some saga =>
      if decide (state saga = DEBITED) then
        try_catch
          (creditToReceiver saga ;;;
           r <- call SagaEntity.markAsCompleted saga ;;
           let saga := r.1 in
           TransferSagaRepository.save saga ;;;
           now <- newDate ;;
           EventPublisher.publish
             {| msg_eventType := TRANSFER_COMPLETED; msg_walletId := fromWalletId saga;
                msg_amount := Some (saga_amount saga);
                msg_metadata := <["sagaId" := saga_id saga]>
                                  (<["toWalletId" := toWalletId saga]>
                                     {[ "recovered" := "true" ]});
                msg_timestamp := now |} None)
          (fun error =>
             compensate (saga_id saga) (fromWalletId saga) (saga_amount saga)
               ("Recovery failed: " +:+ message error))
      else ret tt
  end.

(** *** The saga on an infrastructure that may refuse its calls

    Every awaited call of the service can reject: the reads and writes on
    the repositories, the deletion of a cache entry, the publisher, and, in
    each attempt of a leg, the calls of the coordinator on the query
    runner. *)

(** The [for] loop of [executeWithRetry], the operation knowing its attempt. *)
Fixpoint retryLoopUnder {A} (operation : nat -> M World A) (initialBackoff : Z)
    (remaining attempt : nat) : M World A :=
  match remaining with
  | O => throw (PlainError "Operation failed due to concurrent modification. Please retry.")
  | S remaining' =>
      try_catch (operation attempt) (fun error =>
        if isRetryableError error then
          performExponentialBackoff attempt initialBackoff ;;;
          retryLoopUnder operation initialBackoff remaining' (S attempt)
        else throw error)
  end.

Definition executeWithRetryUnder {A} (operation : nat -> M World A) : M World A :=
  cfg <- gets config ;;
  retryLoopUnder operation (initialBackoffMs cfg) (maxRetries cfg) 0.

Definition executeTransactionalStepUnder (faults : nat -> Outages)
    (sagaId walletId : string) (amount : Z)
    (operation : Z -> M Wallet unit) (ty : WalletEventType)
    (eventMetadata : gmap string string)
    (updateSaga : option (M TransferSaga unit)) : M World unit :=
  executeWithRetryUnder (fun attempt =>
    TransactionManager.executeUnder (faults attempt)
      (stepBody sagaId walletId amount operation ty eventMetadata updateSaga)
      stepOptions).

Definition debitFromSenderUnder (faults : SagaOutages) (saga : TransferSaga)
    : M World unit :=
  executeTransactionalStepUnder (debitOutages faults)
    (saga_id saga) (fromWalletId saga) (saga_amount saga)
    (fun now => WalletEntity.withdraw (saga_amount saga) now)
    FUNDS_WITHDRAWN
    (<["sagaId" := saga_id saga]> {[ "transferTo" := toWalletId saga ]})
    (Some SagaEntity.markAsDebited) ;;;
  failing (debitCacheFails faults)
    (WalletService.invalidateBalanceCache (fromWalletId saga)).

Definition creditToReceiverUnder (faults : SagaOutages) (saga : TransferSaga)
    : M World unit :=
  executeTransactionalStepUnder (creditOutages faults)
    (saga_id saga) (toWalletId saga) (saga_amount saga)
    (fun _ => WalletEntity.credit (saga_amount saga))
    FUNDS_DEPOSITED
    (<["sagaId" := saga_id saga]> {[ "transferFrom" := fromWalletId saga ]})
    None ;;;
  failing (creditCacheFails faults)
    (WalletService.invalidateBalanceCache (toWalletId saga)).

Definition compensateUnder (faults : SagaOutages) (sagaId from : string) (amount : Z)
    (errorMessage : string) : M World unit :=
  try_catch
    (executeTransactionalStepUnder (compensationOutages faults) sagaId from amount
       (fun _ => WalletEntity.credit amount)
       TRANSFER_COMPENSATED
       (<["sagaId" := sagaId]> {[ "reason" := errorMessage ]})
       (Some (SagaEntity.markAsCompensated errorMessage)) ;;;
     now <- newDate ;;
     failing (publishFailedFails faults)
       (EventPublisher.publish
          {| msg_eventType := TRANSFER_FAILED; msg_walletId := from;
             msg_amount := Some amount;
             msg_metadata := <["sagaId" := sagaId]> {[ "reason" := errorMessage ]};
             msg_timestamp := now |} None))
    (fun error => throw error).

Definition executeTransferUnder (faults : SagaOutages) (from to : string) (amount : Z)
    (rid : option string) : M World Response :=
  existing <- (if truthy rid
               then failing (findKeyFails faults)
                      (IdempotencyRepository.findByRequestId (default "" rid))
               else ret None) ;;
  match existing with
  | Some key => ret (response key)
  | None =>
  if decide (from = to) then throw (PlainError "Cannot transfer to the same wallet") else
  fromWallet <- failing (findSenderFails faults) (WalletRepository.findById from) ;;
  match fromWallet with
  | None => throw (NotFoundException ("Wallet " +:+ from +:+ " not found"))
  | Some fromWallet =>
  toWallet <- WalletRepository.getOrCreateUnder (getReceiverOutages faults) to
                (currency fromWallet) ;;
  if decide (currency toWallet <> currency fromWallet)
  then throw (CurrencyMismatchError (currency fromWallet) (currency toWallet) from to)
  else
  saga <- failing (insertSagaFails faults)
            (TransferSagaRepository.save
               (new_TransferSaga from to amount (currency fromWallet))) ;;
  now <- newDate ;;
  failing (publishInitiatedFails faults)
    (EventPublisher.publish
       {| msg_eventType := TRANSFER_INITIATED; msg_walletId := from;
          msg_amount := Some amount;
          msg_metadata := <["sagaId" := saga_id saga]> (<["toWalletId" := to]>
                            (optField "requestId" rid));
          msg_timestamp := now |} None) ;;;
  try_catch
    (debitFromSenderUnder faults saga ;;;
     updatedSaga <- failing (reloadAfterDebitFails faults)
                      (TransferSagaRepository.findById (saga_id saga)) ;;
     match updatedSaga with
     | None => throw (PlainError ("Saga " +:+ saga_id saga +:+ " not found after debit"))
     | Some updatedSaga =>
     creditToReceiverUnder faults updatedSaga ;;;
     finalSaga <- failing (reloadAfterCreditFails faults)
                    (TransferSagaRepository.findById (saga_id saga)) ;;
     match finalSaga with
     | None => throw (PlainError ("Saga " +:+ saga_id saga +:+ " not found after credit"))
     | Some finalSaga =>
     r <- call SagaEntity.markAsCompleted finalSaga ;;
     let finalSaga := r.1 in
     failing (saveCompletedFails faults) (TransferSagaRepository.save finalSaga) ;;;
     now <- newDate ;;
     failing (publishCompletedFails faults)
       (EventPublisher.publish
          {| msg_eventType := TRANSFER_COMPLETED; msg_walletId := from;
             msg_amount := Some amount;
             msg_metadata := <["sagaId" := saga_id saga]> {[ "toWalletId" := to ]};
             msg_timestamp := now |} None) ;;;
     let result :=
       {| res_sagaId := saga_id finalSaga; res_state := state finalSaga;
          res_fromWalletId := fromWalletId finalSaga;
          res_toWalletId := toWalletId finalSaga;
          res_amount := saga_amount finalSaga |} in
     (if truthy rid
      then failing (saveKeyFails faults)
             (IdempotencyRepository.save
                {| requestId := default "" rid; response := TransferResponse result |}
                None) ;;; ret tt
      else ret tt) ;;;
     ret (TransferResponse result)
     end end)
    (fun error =>
       currentSaga <- failing (findSagaFails faults)
                        (TransferSagaRepository.findById (saga_id saga)) ;;
       match currentSaga with
       | None => throw (PlainError ("Saga " +:+ saga_id saga
                                     +:+ " not found during error handling"))
       | Some currentSaga =>
           (if decide (state currentSaga = DEBITED)
            then compensateUnder faults (saga_id currentSaga) (fromWalletId currentSaga)
                   (saga_amount currentSaga) (message error)
            else
              r <- call (SagaEntity.markAsFailed (message error)) currentSaga ;;
              failing (saveFailedFails faults) (TransferSagaRepository.save r.1) ;;;
              ret tt) ;;;
           throw error
       end)
  end end.

Definition recoverSagaUnder (faults : SagaOutages) (sagaId : string) : M World unit :=
  found <- failing (findSagaFails faults) (TransferSagaRepository.findById sagaId) ;;
  match found with
  | None => ret tt
  | Some saga =>
      if decide (state saga = DEBITED) then
        try_catch
          (creditToReceiverUnder faults saga ;;;
           r <- call SagaEntity.markAsCompleted saga ;;
           let saga := r.1 in
           failing (saveCompletedFails faults) (TransferSagaRepository.save saga) ;;;
           now <- newDate ;;
           failing (publishCompletedFails faults)
             (EventPublisher.publish
                {| msg_eventType := TRANSFER_COMPLETED; msg_walletId := fromWalletId saga;
                   msg_amount := Some (saga_amount saga);
                   msg_metadata := <["sagaId" := saga_id saga]>
                                     (<["toWalletId" := toWalletId saga]>
                                        {[ "recovered" := "true" ]});
                   msg_timestamp := now |} None))
          (fun error =>
             compensateUnder faults (saga_id saga) (fromWalletId saga) (saga_amount saga)
               ("Recovery failed: " +:+ message error))
      else ret tt
  end.

End TransferSagaService.

(** ** OutboxRelayService (outbox-relay.service.ts)

    The relay runs in the process of the service: its state is the world
    and its own [isProcessing] flag. *)

Record RelayProcess := mkRelayProcess {
  isProcessing : bool;
  host : World
}.

Definition set_isProcessing (b : bool) (p : RelayProcess) : RelayProcess :=
  {| isProcessing := b; host := host p |}.

(** A call into the service made by the relay. *)
Definition onHost {A} (m : M World A) : M RelayProcess A :=
  fun p => let '(w, r) := m (host p) in ({| isProcessing := isProcessing p; host := w |}, r).

Module OutboxRelayService.

(** The [for] loop over the batch: an event that cannot be published is
    logged and left for a later pass. *)
Fixpoint publishBatch (events : list OutboxEvent) (publishedIds : list string)
    : M World (list string) :=
  match events with
  | [] => ret publishedIds
  | event :: rest =>
      ids <- try_catch
               (EventPublisher.publish (payload event) None ;;;
                ret (publishedIds ++ [outbox_id event])%list)
               (fun _ => ret publishedIds) ;;
      publishBatch rest ids
  end.

Definition handleCron : M RelayProcess unit :=
  busy <- gets isProcessing ;;
  if busy then ret tt
  else
    modify (set_isProcessing true) ;;;
    try_finally
      (try_catch
         (events <- onHost (OutboxRepository.findUnpublished 100) ;;
          if decide (length events = 0%nat) then ret tt
          else
            publishedIds <- onHost (publishBatch events []) ;;
            (* mark as published *)
            if decide (0 < length publishedIds)%nat
            then onHost (OutboxRepository.markAsPublished publishedIds)
            else ret tt)
         (fun _ => ret tt))
      (modify (set_isProcessing false)).

End OutboxRelayService.

(** ** SHA-256 (FIPS 180-4), as computed by [crypto.createHash('sha256')] *)

Module SHA256.

Definition w32 (x : Z) : Z := x mod 2 ^ 32.

Definition add32 (x y : Z) : Z := w32 (x + y).

Definition rotr (n x : Z) : Z :=
  Z.lor (Z.shiftr x n) (w32 (Z.shiftl x (32 - n))).

Definition not32 (x : Z) : Z := Z.lxor x (2 ^ 32 - 1).

Definition Ch (x y z : Z) : Z := Z.lxor (Z.land x y) (Z.land (not32 x) z).

Definition Maj (x y z : Z) : Z :=
  Z.lxor (Z.lxor (Z.land x y) (Z.land x z)) (Z.land y z).

Definition Sigma0 (x : Z) : Z := Z.lxor (Z.lxor (rotr 2 x) (rotr 13 x)) (rotr 22 x).
Definition Sigma1 (x : Z) : Z := Z.lxor (Z.lxor (rotr 6 x) (rotr 11 x)) (rotr 25 x).
Definition sigma0 (x : Z) : Z := Z.lxor (Z.lxor (rotr 7 x) (rotr 18 x)) (Z.shiftr x 3).
Definition sigma1 (x : Z) : Z := Z.lxor (Z.lxor (rotr 17 x) (rotr 19 x)) (Z.shiftr x 10).

(** The constants of the standard are the first 32 bits of the fractional
    parts of the cube roots (round constants) and of the square roots
    (initial hash value) of the first primes. *)
Definition isPrime (n : nat) : bool :=
  forallb (fun d => negb (n mod d =? 0)%nat) (seq 2 (n - 2)).

Definition primes (count : nat) : list Z :=
  map Z.of_nat (take count (filter (fun n => isPrime n = true) (seq 2 400))).

(** The integer cube root, one bit at a time from bit [bits - 1] down. *)
Fixpoint cbrtBits (bits : nat) (n root : Z) : Z :=
  match bits with
  | O => root
  | S b =>
      let candidate := root + 2 ^ Z.of_nat b in
      cbrtBits b n (if candidate ^ 3 <=? n then candidate else root)
  end.

Definition fracCbrt32 (p : Z) : Z := w32 (cbrtBits 40 (p * 2 ^ 96) 0).

Definition fracSqrt32 (p : Z) : Z := w32 (Z.sqrt (p * 2 ^ 64)).

Definition K : list Z := Eval vm_compute in map fracCbrt32 (primes 64).

Definition H0 : list Z := Eval vm_compute in map fracSqrt32 (primes 8).

Definition bytesOf (s : string) : list Z :=
  map (fun c => Z.of_nat (nat_of_ascii c)) (list_ascii_of_string s).

(** The message, a 1 bit, zeros up to 56 modulo 64 bytes, and the bit
    length on 8 bytes, big endian. *)
Definition pad (msg : list Z) : list Z :=
  let len := Z.of_nat (length msg) in
  let zeros := Z.to_nat ((55 - len) mod 64) in
  let bits := len * 8 in
  (msg ++ [0x80] ++ repeat 0 zeros
     ++ map (fun i => Z.shiftr bits (8 * (7 - Z.of_nat i)) mod 256) (seq 0 8))%list.

Fixpoint toWords (bytes : list Z) : list Z :=
  match bytes with
  | a :: b :: c :: d :: rest =>
      (a * 2 ^ 24 + b * 2 ^ 16 + c * 2 ^ 8 + d) :: toWords rest
  | _ => []
  end.

Fixpoint chunks (fuel : nat) (words : list Z) : list (list Z) :=
  match fuel, words with
  | S fuel', _ :: _ => take 16 words :: chunks fuel' (drop 16 words)
  | _, _ => []
  end.

(** The message schedule, latest word first. *)
Fixpoint extend (n : nat) (rev_w : list Z) : list Z :=
  match n with
  | O => rev_w
  | S n' =>
      let at_ i := nth i rev_w 0 in
      let next := add32 (add32 (sigma1 (at_ 1%nat)) (at_ 6%nat))
                        (add32 (sigma0 (at_ 14%nat)) (at_ 15%nat)) in
      extend n' (next :: rev_w)
  end.

Definition schedule (block : list Z) : list Z := rev (extend 48 (rev block)).

Definition round (st : list Z) (kw : Z * Z) : list Z :=
  match st with
  | [a; b; c; d; e; f; g; h] =>
      let t1 := add32 (add32 (add32 h (Sigma1 e)) (add32 (Ch e f g) kw.1)) kw.2 in
      let t2 := add32 (Sigma0 a) (Maj a b c) in
      [add32 t1 t2; a; b; c; add32 d t1; e; f; g]
  | _ => st
  end.

Definition compress (h : list Z) (block : list Z) : list Z :=
  let out := fold_left round (combine K (schedule block)) h in
  map (fun p => add32 p.1 p.2) (combine h out).

Definition hexDigit (n : Z) : ascii :=
  if n <? 10 then ascii_of_nat (Z.to_nat (48 + n)) else ascii_of_nat (Z.to_nat (87 + n)).

Definition hexWord (x : Z) : string :=
  string_of_list_ascii
    (map (fun i => hexDigit (Z.shiftr x (4 * (7 - Z.of_nat i)) mod 16)) (seq 0 8)).

Definition digest (msg : list Z) : list Z :=
  let words := toWords (pad msg) in
  fold_left compress (chunks (length words) words) H0.

(** [createHash('sha256').update(s).digest('hex')] *)
Definition hex (s : string) : string :=
  String.concat "" (map hexWord (digest (bytesOf s))).

End SHA256.

(** ** The fraud worker (fraud-detection.consumer.ts) *)

Module FRAUD_CONSTANTS.
Definition PROCESSED_EVENT_PREFIX : string := "processed_event:".
Definition WITHDRAWALS_PREFIX : string := "withdrawals:".
Definition DELAYS : list Z := [1000; 2000; 4000].
Definition MAX_ATTEMPTS : Z := 3.
Definition WAIT_QUEUE_SUFFIX : string := ".wait.".
Definition HIGH_VALUE_TRANSACTION : string := "high_value_transaction".
Definition RAPID_WITHDRAWALS : string := "rapid_withdrawals".
Definition IDEMPOTENCY_TTL : Z := 24 * 60 * 60.
End FRAUD_CONSTANTS.

(** amqp.interfaces.ts.  A timestamp arrives as text; [pl_time] is
    [new Date(timestamp).getTime()]. *)
Record WalletEventPayload := mkPayload {
  pl_walletId : string;
  pl_eventType : string;
  pl_amount : option Z;
  pl_timestamp : string;
  pl_time : Z
}.

(** A delivery: [content] is the outcome of [JSON.parse] on the body
    ([None] when the body does not parse), [retryCount] the header
    [x-retry-count]. *)
Record AmqpMessage := mkAmqpMessage {
  deliveryTag : nat;
  content : option WalletEventPayload;
  retryCount : option Z;
  routingKey : string
}.

Inductive ChannelAction :=
| Ack (tag : nat)
| Nack (tag : nat) (allUpTo requeue : bool)
| SendToQueue (queue : string) (body : option WalletEventPayload)
    (retryCountHeader : Z) (type : string).

Record FraudAlert := mkFraudAlert {
  alert_walletId : string;
  alertType : string;
  details : gmap string string
}.

(** The worker process: the cache it shares, the alert table, the calls
    made on the channel, and whether the cache connection is up. *)
Record Worker := mkWorker {
  w_redis : Redis;
  fraud_alerts : list FraudAlert;
  channel : list ChannelAction;
  w_clock : Z;
  redisAvailable : bool;
  w_config : AppConfigService
}.

Definition w_set_redis (f : Redis -> Redis) (w : Worker) : Worker :=
  {| w_redis := f (w_redis w); fraud_alerts := fraud_alerts w; channel := channel w;
     w_clock := w_clock w; redisAvailable := redisAvailable w; w_config := w_config w |}.

Definition w_add_alert (a : FraudAlert) (w : Worker) : Worker :=
  {| w_redis := w_redis w; fraud_alerts := fraud_alerts w ++ [a]; channel := channel w;
     w_clock := w_clock w; redisAvailable := redisAvailable w; w_config := w_config w |}.

Definition w_channel (a : ChannelAction) : M Worker unit :=
  modify (fun w =>
    {| w_redis := w_redis w; fraud_alerts := fraud_alerts w; channel := channel w ++ [a];
       w_clock := w_clock w; redisAvailable := redisAvailable w; w_config := w_config w |}).

(** A command sent to the cache: it throws when the connection is down. *)
Definition redisCommand {A} (f : Redis -> Redis * A) : M Worker A :=
  fun w =>
    if redisAvailable w
    then let '(r, a) := f (w_redis w) in (w_set_redis (fun _ => r) w, inr a)
    else (w, inl (PlainError "Connection is closed."))%string.

Module FraudDetectionConsumer.

(** The text that is hashed. *)
Definition idempotencyPayload (event : WalletEventPayload) : string :=
  pl_walletId event +:+ "-" +:+ pl_eventType event +:+ "-" +:+ pl_timestamp event
    +:+ "-" +:+ default "" (numberToString <$> orNull (pl_amount event)).

Definition generateIdempotencyKey (event : WalletEventPayload) : string :=
  SHA256.hex (idempotencyPayload event).

(** SET NX with a time to live: [true] when this delivery is the first. *)
Definition acquireLock (eventId : string) : M Worker bool :=
  let key := FRAUD_CONSTANTS.PROCESSED_EVENT_PREFIX +:+ eventId in
  now <- gets w_clock ;;
  result <- redisCommand (redis_set_nx now key "true" FRAUD_CONSTANTS.IDEMPOTENCY_TTL) ;;
  ret (bool_decide (result = Some "OK")).

Definition saveFraudAlert (walletId alertType : string) (details : gmap string string)
    : M Worker unit :=
  modify (w_add_alert
    {| alert_walletId := walletId; alertType := alertType; details := details |}).

Definition detectRapidWithdrawals (event : WalletEventPayload) : M Worker unit :=
  let walletId := pl_walletId event in
  let now := pl_time event in
  let key := FRAUD_CONSTANTS.WITHDRAWALS_PREFIX +:+ walletId in
  cfg <- gets w_config ;;
  let timeWindowMinutes := fraudDetectionTimeWindowMinutes cfg in
  let windowMs := timeWindowMinutes * 60 * 1000 in
  redisCommand (fun r => (redis_zadd key now (pretty now) r, tt)) ;;;
  let cutoff := now - windowMs in
  redisCommand (fun r => (redis_zremrangebyscore key cutoff r, tt)) ;;;
  clk <- gets w_clock ;;
  redisCommand (fun r => (redis_expire clk key (timeWindowMinutes * 60) r, tt)) ;;;
  count <- redisCommand (fun r => (r, redis_zcard key r)) ;;
  let maxWithdrawals := fraudDetectionMaxWithdrawals cfg in
  if count >? maxWithdrawals
  then saveFraudAlert walletId FRAUD_CONSTANTS.RAPID_WITHDRAWALS
         (<["withdrawalCount" := pretty count]>
            {[ "timeWindow" := pretty timeWindowMinutes +:+ " minutes" ]})
  else ret tt.

Definition detectHighValueTransaction (event : WalletEventPayload) : M Worker unit :=
  cfg <- gets w_config ;;
  let threshold := fraudDetectionThreshold cfg in
  match orNull (pl_amount event) with
  | Some amount =>
      if amount >? threshold
      then saveFraudAlert (pl_walletId event) FRAUD_CONSTANTS.HIGH_VALUE_TRANSACTION
             (<["amount" := numberToString amount]>
                {[ "threshold" := numberToString threshold ]})
      else ret tt
  | None => ret tt
  end.

Definition processFraudChecks (event : WalletEventPayload) : M Worker unit :=
  if decide (pl_eventType event = WalletEventType_toString FUNDS_WITHDRAWN)
  then detectRapidWithdrawals event ;;; detectHighValueTransaction event
  else ret tt.

(** [DELAYS[retryCount] || DELAYS[DELAYS.length - 1]] *)
Definition retryDelay (count : Z) : Z :=
  let last := default 0 (last FRAUD_CONSTANTS.DELAYS) in
  if count <? 0 then last
  else default last (FRAUD_CONSTANTS.DELAYS !! Z.to_nat count).

Definition handleProcessingError (msg : AmqpMessage) (error : Error) : M Worker unit :=
  let count := default 0 (retryCount msg) in
  if count <? FRAUD_CONSTANTS.MAX_ATTEMPTS then
    cfg <- gets w_config ;;
    let delay := retryDelay count in
    let waitQueue := fraudDetectionQueue cfg +:+ FRAUD_CONSTANTS.WAIT_QUEUE_SUFFIX
                       +:+ pretty delay in
    w_channel (SendToQueue waitQueue (content msg) (count + 1) (routingKey msg)) ;;;
    w_channel (Ack (deliveryTag msg))
  else
    w_channel (Nack (deliveryTag msg) false false).

Definition handleMessage (msg : AmqpMessage) : M Worker unit :=
  match content msg with
  | None =>
      (* unparseable: straight to the dead-letter queue *)
      w_channel (Nack (deliveryTag msg) false false)
  | Some event =>
      try_catch
        (let eventId := generateIdempotencyKey event in
         isNew <- acquireLock eventId ;;
         if negb isNew then w_channel (Ack (deliveryTag msg))
         else
           processFraudChecks event ;;;
           w_channel (Ack (deliveryTag msg)))
        (fun error => handleProcessingError msg error)
  end.

End FraudDetectionConsumer.

(** * Vocabulary of the statements

    Definitions that the theorems below use to speak about the embedding:
    what the specification asks, the worlds that serve as examples, and
    the intermediate states of a transaction. *)

(** The edges the specification declares legal. *)
Definition declaredEdge (a b : TransferSagaState) : bool :=
  match a, b with
  | PENDING, DEBITED | PENDING, FAILED
  | DEBITED, COMPLETED | DEBITED, COMPENSATED
  | COMPENSATED, FAILED => true
  | _, _ => false
  end.

(** The state-mutating operations of the entity. *)
Inductive SagaOp :=
| MarkAsDebited
| MarkAsCompleted
| MarkAsCompensated (error : string)
| MarkAsFailed (error : string).

Definition runSagaOp (op : SagaOp) : M TransferSaga unit :=
  match op with
  | MarkAsDebited => SagaEntity.markAsDebited
  | MarkAsCompleted => SagaEntity.markAsCompleted
  | MarkAsCompensated e => SagaEntity.markAsCompensated e
  | MarkAsFailed e => SagaEntity.markAsFailed e
  end.

Definition isMarkAsFailed (op : SagaOp) : bool :=
  match op with MarkAsFailed _ => true | _ => false end.

(** What the specification asks of one operation on one saga: a successful
    call follows a declared edge, a throwing call leaves the state alone. *)
Definition respectsDeclaredEdges (op : SagaOp) (s : TransferSaga) : Prop :=
  match runSagaOp op s with
  | (s', inr _) => declaredEdge (state s) (state s') = true
  | (s', inl _) => state s' = state s
  end.

(** The running total that the limit check sees: the stored total after
    [resetDailyLimitIfNewDay]. *)
Definition totalAfterReset (w : Wallet) (now : Z) : Z :=
  dailyWithdrawalTotal (WalletEntity.resetDailyLimitIfNewDay now w).1.

Definition withinDailyLimit (w : Wallet) (amount now : Z) : Prop :=
  match dailyWithdrawalLimit w with
  | Some limit => totalAfterReset w now + amount <= limit
  | None => True
  end.

(** A wallet that last withdrew yesterday, close to its daily limit. *)
Definition C7_wallet : Wallet :=
  {| wallet_id := "alice"; balance := 100000; currency := "USD"; status := ACTIVE;
     dailyWithdrawalLimit := Some 15000; dailyWithdrawalTotal := 10000;
     lastWithdrawalDate := Some (1700000000000 - MS_PER_DAY) |}.






(** The rows selected for one wallet, newest first. *)
Definition historyRows (w : World) (walletId : string) : list WalletEvent :=
  merge_sort WalletRepository.newerFirst
    (filter (fun ev => event_walletId ev = walletId) (wallet_events (db w))).

(** One hundred and one events of the same wallet. *)
Definition C8_events : list WalletEvent :=
  map (fun i => {| event_id := S i; event_walletId := "alice";
                   eventType := FUNDS_DEPOSITED; event_currency := "USD";
                   event_amount := Some 100; event_metadata := ∅;
                   createdAt := 1700000000000 + Z.of_nat i |})
      (seq 0 101).

Definition C8_world : World :=
  {| db := {| wallets := ∅; wallet_events := C8_events; transfer_sagas := ∅;
              idempotency_keys := ∅; outbox_events := []; event_seq := 101;
              uuid_seq := 0 |};
     runner := None; eventsToPublish := [];
     redis := {| strings := ∅; zsets := ∅; zset_expiry := ∅ |};
     bus := []; publisherConnected := true; clock := 1700000001000;
     commitFaults := []; jitterSource := fun _ => 0; jitterCount := 0;
     sleeps := []; journal := []; config := defaultConfig |}.

(** The key as the specification words it: the same fields joined with
    [sep]. *)
Definition joinedKey (sep : string) (event : WalletEventPayload) : string :=
  SHA256.hex (String.concat sep
    [pl_walletId event; pl_eventType event; pl_timestamp event;
     default "" (numberToString <$> orNull (pl_amount event))]).

Definition processedKey (event : WalletEventPayload) : string :=
  "processed_event:" +:+ joinedKey "-" event.

(** A withdrawal of 20000.00 as the relay publishes it. *)
Definition C9_event : WalletEventPayload :=
  {| pl_walletId := "w1"; pl_eventType := "FUNDS_WITHDRAWN";
     pl_amount := Some 2000000; pl_timestamp := "2024-01-01T00:00:00.000Z";
     pl_time := 1704067200000 |}.

Definition C9_worker : Worker :=
  {| w_redis := {| strings := ∅; zsets := ∅; zset_expiry := ∅ |};
     fraud_alerts := []; channel := []; w_clock := 1704067205000;
     redisAvailable := true; w_config := defaultConfig |}.

Definition C9_msg : AmqpMessage :=
  {| deliveryTag := 1; content := Some C9_event; retryCount := None;
     routingKey := "wallet.funds_withdrawn" |}.

(** The world right after [startTransaction]: a runner with a private copy
    of the committed tables, and an empty event buffer. *)
Definition began (w : World) : World :=
  set_eventsToPublish [] (set_runner (Some {| work := db w; writes := [] |}) w).

(** The end of [execute]: the runner is released, then the lock. *)
Definition finished (options : TransactionOptions) (w : World) : World :=
  (TransactionManager.releaseLock options (set_runner None w)).1.

(** The outbox rows of the collected events, appended to a store. *)
Definition withOutbox (events : list OutboxEvent) (s : Store) : Store :=
  fold_left (fun s ev => insert_outbox ev s) events s.

Definition outboxWrites (events : list OutboxEvent) : list WriteOp :=
  map (fun ev => SaveOutbox (outbox_eventType ev)) events.

Definition C6_block (ctx : TransactionContext) : M World unit :=
  em_write (SaveWallet "alice") (set_wallets (insert "alice" (new_Wallet "alice" "USD"))) ;;;
  publishEvent ctx (new_OutboxEvent "alice" WALLET_CREATED
    {| msg_eventType := WALLET_CREATED; msg_walletId := "alice"; msg_amount := None;
       msg_metadata := ∅; msg_timestamp := 0 |}) ;;;
  throw (PlainError "boom").

Definition emptyWorld : World :=
  {| db := {| wallets := ∅; wallet_events := []; transfer_sagas := ∅;
              idempotency_keys := ∅; outbox_events := []; event_seq := 0;
              uuid_seq := 0 |};
     runner := None; eventsToPublish := [];
     redis := {| strings := ∅; zsets := ∅; zset_expiry := ∅ |};
     bus := []; publisherConnected := true; clock := 1700000000000;
     commitFaults := []; jitterSource := fun _ => 7; jitterCount := 0;
     sleeps := []; journal := []; config := defaultConfig |}.

(** The state that [try] and [catch] leave to the [finally] block. *)
Definition caught {A} (faults : Outages) (w : World) (e : Error) : World * (Error + A) :=
  match rollbackFails faults with
  | Some e' => (w, inl e')
  | None => (set_runner (Some {| work := db w; writes := [] |}) w, inl e)
  end.

Definition attempted {A} (faults : Outages) (operation : TransactionContext -> M World A)
    (wl : World) : World * (Error + A) :=
  match operation TransactionManager.context (began wl) with
  | (w1, inl e) => caught faults w1 e
  | (w1, inr a) =>
      match (if decide (0 < length (eventsToPublish w1))%nat
             then OutboxRepository.saveAll (eventsToPublish w1) (Some QueryRunnerManager)
             else ret tt) w1 with
      | (w2, inl e) => caught faults w2 e
      | (w2, inr _) =>
          match commitTransaction w2 with
          | (w3, inl e) => caught faults w3 e
          | (w3, inr _) =>
              ((TransactionManager.publishEventsAsync (eventsToPublish w1) w3).1, inr a)
          end
      end
  end.

(** The [finally] block. *)
Definition cleanup (faults : Outages) (options : TransactionOptions) : M World unit :=
  failing (releaseFails faults) release ;;;
  (if truthy (lockKey options)
   then failing (lockDelFails faults) (TransactionManager.releaseLock options)
   else ret tt).

(** The transaction of the block was committed: its writes and the outbox
    rows of the events it collected are in the tables, as one journal
    entry. *)
Definition committedWith {A} (block : World * (Error + A)) (a : A) (w : World) : Prop :=
  block.2 = inr a
  /\ exists q, runner block.1 = Some q
     /\ db w = withOutbox (eventsToPublish block.1) (work q)
     /\ journal w
        = (journal block.1 ++ [writes q ++ outboxWrites (eventsToPublish block.1)])%list.

(** Nothing of the transaction is in the tables. *)
Definition nothingPersisted {A} (block : World * (Error + A)) (w : World) : Prop :=
  db w = db block.1 /\ journal w = journal block.1.





(** The error that [try] hands to [catch]: the one of the block, or, after
    a block that returned, the one of a runner already released or of the
    refused commit. *)
Definition thrownInside {A} (block : World * (Error + A)) (e : Error) : Prop :=
  block.2 = inl e
  \/ exists a, block.2 = inr a
       /\ (runner block.1 = None \/ exists rest, commitFaults block.1 = Some e :: rest).

(** A request is fresh when no idempotency record answers it and no other
    request holds its lock. *)
Definition freshRequest (rid : option string) (w : World) : Prop :=
  truthy rid = true ->
  idempotency_keys (db w) !! default "" rid = None
  /\ redis_live (clock w) (redis w) ("lock:req:" +:+ default "" rid) = None.

Definition frozenWorld : World :=
  set_db (set_wallets (insert "carol"
    (set_status FROZEN (set_balance 5000 (new_Wallet "carol" "USD"))))) emptyWorld.

(** The part of the world that belongs to the timer and to the random
    source. *)
Definition frame (w : World) : list Z * (nat -> Z) * nat :=
  (sleeps w, jitterSource w, jitterCount w).

(** An operation is quiet when it leaves the timer and the jitter source
    alone, as store, cache and broker operations do. *)
Definition quiet {A} (op : M World A) : Prop :=
  forall w, frame (op w).1 = frame w.

(** [transientRun op initial i k w w']: starting in [w] with attempt number
    [i], the next [k] attempts of [op] all fail with a retryable error, each
    followed by its backoff; [w'] is the world after the last backoff. *)
Inductive transientRun {A} (op : M World A) (initial : Z)
    : nat -> nat -> World -> World -> Prop :=
| transient_done i w : transientRun op initial i 0 w w
| transient_again i k w w1 e w' :
    op w = (w1, inl e) ->
    TransferSagaService.isRetryableError e = true ->
    transientRun op initial (S i) k
      (TransferSagaService.performExponentialBackoff i initial w1).1 w' ->
    transientRun op initial i (S k) w w'.

(** The delays of [k] backoffs that start at attempt [i]. *)
Definition delays (initial : Z) (jitter : nat -> Z) (i k : nat) : list Z :=
  map (fun j => TransferSagaService.backoffMs (i + j) initial + jitter j) (seq 0 k).

Definition activeWallet (id : string) (bal : Z) : Wallet :=
  set_balance bal (new_Wallet id "USD").

(** alice holds 100.00 and bob 0.00. *)
Definition twoWallets : World :=
  set_db (set_wallets (fun _ =>
    <["alice" := activeWallet "alice" 10000]> (<["bob" := activeWallet "bob" 0]> ∅)))
    emptyWorld.

Definition debitedSaga : TransferSaga :=
  set_state DEBITED (set_saga_id "saga-1" (new_TransferSaga "alice" "bob" 5000 "USD")).

(** A transfer of 50.00 whose debit leg is done: alice is down to 50.00. *)
Definition debitedWorld : World :=
  set_db (fun s =>
    set_transfer_sagas (insert "saga-1" debitedSaga)
      (set_wallets (insert "alice" (activeWallet "alice" 5000)) s)) twoWallets.

(** The next two commits are refused: a serialization failure, then a
    deadlock. *)
Definition flakyWorld : World :=
  set_commitFaults [Some (QueryFailedError "40001"); Some (QueryFailedError "40P01")]
    debitedWorld.

Definition creditLeg : M World unit :=
  TransactionManager.execute
    (TransferSagaService.stepBody "saga-1" "bob" 5000
       (fun _ => WalletEntity.credit 5000) FUNDS_DEPOSITED
       (<["sagaId" := "saga-1"]> {[ "transferFrom" := "alice" ]}) None)
    TransferSagaService.stepOptions.

Definition compensationMetadata (sagaId reason : string) : gmap string string :=
  <["sagaId" := sagaId]> {[ "reason" := reason ]}.

(** The saga after [markAsCompensated]. *)
Definition compensated (reason : string) (sg : TransferSaga) : TransferSaga :=
  set_saga_metadata (<["compensationReason" := reason]> (saga_metadata sg))
    (set_state COMPENSATED sg).

(** The private view of the compensation transaction before the outbox
    rows are added. *)
Definition compensationView (w : World) (sagaId from : string) (amount : Z)
    (reason : string) (sg : TransferSaga) (src : Wallet) : Store :=
  insert_event (clock w)
    (new_WalletEvent from TRANSFER_COMPENSATED (currency src) (Some amount)
       (compensationMetadata sagaId reason))
    (set_transfer_sagas (insert sagaId (compensated reason sg))
       (set_wallets (insert from (set_balance (balance src + amount) src)) (db w))).

Definition compensationOutbox (w : World) (sagaId from : string) (amount : Z)
    (reason : string) : OutboxEvent :=
  new_OutboxEvent from TRANSFER_COMPENSATED
    {| msg_eventType := TRANSFER_COMPENSATED; msg_walletId := from;
       msg_amount := Some amount;
       msg_metadata := compensationMetadata sagaId reason;
       msg_timestamp := clock w |}.

Definition compensationBody (sagaId from : string) (amount : Z) (reason : string)
    : TransactionContext -> M World unit :=
  TransferSagaService.stepBody sagaId from amount
    (fun _ => WalletEntity.credit amount) TRANSFER_COMPENSATED
    (compensationMetadata sagaId reason)
    (Some (SagaEntity.markAsCompensated reason)).

Definition transferOut : World * (Error + Response) :=
  TransferSagaService.executeTransfer "alice" "bob" 5000 (Some "r2") twoWallets.

(** The methods of the entity that change a wallet. *)
Inductive WalletOp :=
| Deposit (amount : Z)
| Withdraw (amount now : Z)
| Credit (amount : Z)
| Freeze
| Unfreeze
| Close
| SetDailyWithdrawalLimit (limit : option Z).

Definition runWalletOp (op : WalletOp) : M Wallet unit :=
  match op with
  | Deposit amount => WalletEntity.deposit amount
  | Withdraw amount now => WalletEntity.withdraw amount now
  | Credit amount => WalletEntity.credit amount
  | Freeze => WalletEntity.freeze
  | Unfreeze => WalletEntity.unfreeze
  | Close => WalletEntity.close
  | SetDailyWithdrawalLimit limit => WalletEntity.setDailyWithdrawalLimit limit
  end.

(** A caller that catches and ignores the exception of a refused call, and
    goes on with the same object. *)
Fixpoint runWalletOps (ops : list WalletOp) (w : Wallet) : Wallet :=
  match ops with
  | [] => w
  | op :: rest => runWalletOps rest (runWalletOp op w).1
  end.

(** What a run of withdrawal attempts [(amount, now)] takes out of a
    wallet: the sum of the amounts of the calls that did not throw. *)
Fixpoint withdrawnBy (attempts : list (Z * Z)) (w : Wallet) : Z :=
  match attempts with
  | [] => 0
  | (amount, now) :: rest =>
      match WalletEntity.withdraw amount now w with
      | (w', inr _) => amount + withdrawnBy rest w'
      | (w', inl _) => withdrawnBy rest w'
      end
  end.

(** A wallet with 100.00 and a daily limit of 150.00. *)
Definition limitedWallet : Wallet :=
  set_dailyWithdrawalLimit (Some 15000) (set_balance 10000 (new_Wallet "dave" "USD")).

(** The message that [EventPublisher.publish] puts on the bus for the
    payload of an outbox event, on the configured exchange. *)
Definition busMessage (cfg : AppConfigService) (p : WalletEventMessage)
    : string * string * WalletEventMessage :=
  (rabbitMqExchange cfg,
   "wallet." +:+ toLowerCase (WalletEventType_toString (msg_eventType p)), p).

(** What reaches the bus when each of [payloads] is published in turn. *)
Definition published_to_bus (w : World) (payloads : list WalletEventMessage)
    : list (string * string * WalletEventMessage) :=
  if publisherConnected w then map (busMessage (config w)) payloads else [].

(** The options of a call that asks for the lock of request r7. *)
Definition lockedOptions : TransactionOptions :=
  {| isolationLevel := None; lockKey := Some "lock:req:r7"; lockTtl := Some 60 |}.

(** The world in which another request holds that lock since one second. *)
Definition lockHeldWorld : World :=
  set_redis (fun r => (redis_set_nx (clock twoWallets - 1000) "lock:req:r7" "PROCESSING" 60 r).1)
    twoWallets.

(** The part of the world that the broker sees. *)
Definition broker (w : World) : list (string * string * WalletEventMessage) * bool
                                * AppConfigService :=
  (bus w, publisherConnected w, config w).

(** The world after a commit without fault of the transaction of runner
    [q], whose collected events are [events]: the outbox rows join the
    view, the view becomes the committed tables, the writes one entry of
    the journal, and the payloads are handed to the publisher. *)
Definition committed (events : list OutboxEvent) (q : QueryRunner) (w : World) : World :=
  let view := withOutbox events (work q) in
  {| db := view; runner := Some {| work := view; writes := [] |};
     eventsToPublish := eventsToPublish w; redis := redis w;
     bus := (bus w ++ published_to_bus w (map payload events))%list;
     publisherConnected := publisherConnected w; clock := clock w;
     commitFaults := tail (commitFaults w); jitterSource := jitterSource w;
     jitterCount := jitterCount w; sleeps := sleeps w;
     journal := (journal w ++ [writes q ++ outboxWrites events])%list;
     config := config w |}.

(** The options of a call that passes none. *)
Definition noOptions : TransactionOptions :=
  {| isolationLevel := None; lockKey := None; lockTtl := None |}.

(** The next commit is not refused. *)
Definition nextCommitPasses (w : World) : Prop :=
  match commitFaults w with
  | Some _ :: _ => False
  | _ => True
  end.

(** An action on the channel that settles the delivery [tag]. *)
Definition settles (tag : nat) (a : ChannelAction) : bool :=
  match a with
  | Ack t => bool_decide (t = tag)
  | Nack t _ _ => bool_decide (t = tag)
  | SendToQueue _ _ _ _ => false
  end.

Definition isAlert (type : string) (a : FraudAlert) : bool :=
  bool_decide (alertType a = type).

(** The alert of the rapid-withdrawal rule for a count of [count]. *)
Definition rapidAlert (cfg : AppConfigService) (walletId : string) (count : Z) : FraudAlert :=
  {| alert_walletId := walletId; alertType := FRAUD_CONSTANTS.RAPID_WITHDRAWALS;
     details := <["withdrawalCount" := pretty count]>
                  {[ "timeWindow" := pretty (fraudDetectionTimeWindowMinutes cfg)
                                       +:+ " minutes" ]} |}.

(** The rapid-withdrawal rule applied to a run of events, one after the
    other. *)
Fixpoint detectAll (events : list WalletEventPayload) : M Worker unit :=
  match events with
  | [] => ret tt
  | event :: rest =>
      FraudDetectionConsumer.detectRapidWithdrawals event ;;; detectAll rest
  end.

(** A worker whose cache connection is down. *)
Definition C9_worker_down : Worker :=
  {| w_redis := w_redis C9_worker; fraud_alerts := []; channel := [];
     w_clock := w_clock C9_worker; redisAvailable := false; w_config := defaultConfig |}.

(** The sorted set of a wallet after one more withdrawal at [now]: the
    member of that instant is held once, and members at or below the
    cutoff are dropped. *)
Definition windowAfter (windowMs now : Z) (old : list (Z * string)) : list (Z * string) :=
  filter (fun e => now - windowMs < e.1)
    (filter (fun e => e.2 <> pretty now) old ++ [(now, pretty now)])%list.

(** A member per instant. *)
Definition windowEntry (t : Z) : Z * string := (t, pretty t).

(** Five withdrawals of the same wallet, one second apart. *)
Definition fiveWithdrawals : list WalletEventPayload :=
  map (fun k => {| pl_walletId := "w1"; pl_eventType := "FUNDS_WITHDRAWN";
                   pl_amount := Some 1000; pl_timestamp := "";
                   pl_time := 1704067200000 + Z.of_nat k * 1000 |})
      (seq 0 5).

(** The alert of the high-value rule. *)
Definition highValueAlert (cfg : AppConfigService) (event : WalletEventPayload) (amount : Z)
    : FraudAlert :=
  {| alert_walletId := pl_walletId event;
     alertType := FRAUD_CONSTANTS.HIGH_VALUE_TRANSACTION;
     details := <["amount" := numberToString amount]>
                  {[ "threshold" := numberToString (fraudDetectionThreshold cfg) ]} |}.

Definition isHighValue (a : FraudAlert) : Prop :=
  alertType a = FRAUD_CONSTANTS.HIGH_VALUE_TRANSACTION.

#[global] Instance isHighValue_dec a : Decision (isHighValue a).
Proof. unfold isHighValue. apply _. Defined.

(** The outbox rows that wait for the relay. *)
Definition unpublished (ev : OutboxEvent) : Prop := published ev = false.

#[global] Instance unpublished_dec ev : Decision (unpublished ev).
Proof. unfold unpublished. apply _. Defined.

Definition pendingRows (w : World) : list OutboxEvent :=
  filter unpublished (outbox_events (db w)).

(** A relay that is not in the middle of a pass. *)
Definition idleRelay (w : World) : RelayProcess := {| isProcessing := false; host := w |}.

(** The private view of a state-change transaction before the outbox row
    is added: the wallet as the entity method left it, and the event. *)
Definition stateChangeView (w : World) (ty : WalletEventType)
    (metadata : gmap string string) (wallet : Wallet) : Store :=
  insert_event (clock w)
    (new_WalletEvent (wallet_id wallet) ty (currency wallet) None metadata)
    (set_wallets (insert (wallet_id wallet) wallet) (db w)).

Definition stateChangeOutbox (w : World) (walletId : string) (ty : WalletEventType)
    (metadata : gmap string string) : OutboxEvent :=
  new_OutboxEvent walletId ty
    {| msg_eventType := ty; msg_walletId := walletId; msg_amount := None;
       msg_metadata := metadata; msg_timestamp := clock w |}.

(** The world after a state change that went through. *)
Definition stateChanged (w : World) (walletId : string) (ty : WalletEventType)
    (metadata : gmap string string) (wallet : Wallet) : World :=
  set_runner None
    (committed [stateChangeOutbox w walletId ty metadata]
       {| work := stateChangeView w ty metadata wallet;
          writes := [SaveWallet (wallet_id wallet); InsertEvent (wallet_id wallet) ty] |}
       (set_eventsToPublish [stateChangeOutbox w walletId ty metadata] w)).

Definition freezeMetadata (w : World) (reason : string) (frozenBy : option string)
    : gmap string string :=
  <["reason" := reason]>
    (<["frozenBy" := default "system" frozenBy]> {[ "frozenAt" := toISOString (clock w) ]}).

Definition unfreezeMetadata (w : World) (unfrozenBy : option string) : gmap string string :=
  <["unfrozenBy" := default "system" unfrozenBy]> {[ "unfrozenAt" := toISOString (clock w) ]}.

Definition closeMetadata (w : World) (reason : string) (closedBy : option string)
    : gmap string string :=
  <["reason" := reason]>
    (<["closedBy" := default "system" closedBy]> {[ "closedAt" := toISOString (clock w) ]}).

(** carol holds 50.00 on an ACTIVE wallet. *)
Definition carolWorld : World :=
  set_db (set_wallets (insert "carol" (activeWallet "carol" 5000))) emptyWorld.

(** The balance held under an identifier; a wallet that does not exist
    holds nothing. *)
Definition balanceOf (s : Store) (id : string) : Z :=
  default 0 (balance <$> wallets s !! id).

(** Each wallet is stored under its own identifier, the primary key. *)
Definition wellKeyed (s : Store) : Prop :=
  forall id wallet, wallets s !! id = Some wallet -> wallet_id wallet = id.

(** What a committed step of a saga did to the tables: the wallet was
    loaded, the operation accepted it, and the wallet and the updated saga
    were saved. *)
Definition stepDone (sagaId walletId : string) (operation : Z -> M Wallet unit)
    (updateSaga : option (M TransferSaga unit)) (s s' : Store) : Prop :=
  exists wallet wallet' now saga,
    wallets s !! walletId = Some wallet
    /\ operation now wallet = (wallet', inr tt)
    /\ wallets s' = <[wallet_id wallet' := wallet']> (wallets s)
    /\ transfer_sagas s !! sagaId = Some saga
    /\ match updateSaga with
       | None => transfer_sagas s' = transfer_sagas s
       | Some update =>
           exists saga', update saga = (saga', inr tt)
             /\ transfer_sagas s' = <[saga_id saga' := saga']> (transfer_sagas s)
       end.

(** The wallet under [id] was replaced by one that holds [delta] more;
    the other wallets are as they were. *)
Definition adjusted (id : string) (delta : Z) (s s' : Store) : Prop :=
  exists wallet wallet',
    wallets s !! id = Some wallet
    /\ wallets s' = <[id := wallet']> (wallets s)
    /\ wallet_id wallet' = id
    /\ balance wallet' = balance wallet + delta.

(** The row that [getOrCreate] adds to the history of a new wallet. *)
Definition createdEvent (id cur : string) (w : World) : WalletEvent :=
  {| event_id := S (event_seq (db w)); event_walletId := id;
     eventType := WALLET_CREATED; event_currency := cur; event_amount := None;
     event_metadata := ∅; createdAt := clock w |}.

(** The history of [id] is empty. *)
Definition noHistory (id : string) (s : Store) : Prop :=
  filter (fun ev => event_walletId ev = id) (wallet_events s) = [].

(** The release of a query runner never fails with an error that the retry
    policy takes for a conflict. *)
Definition releaseNotRetried (faults : nat -> Outages) : Prop :=
  forall attempt e,
    releaseFails (faults attempt) = Some e ->
    TransferSagaService.isRetryableError e = false.

(** Some attempt of the leg fails to release its runner. *)
Definition releaseFailure (faults : nat -> Outages) : Prop :=
  exists attempt e, releaseFails (faults attempt) = Some e.

(** The [try] block of [executeTransfer]. *)
Definition transferAttemptUnder (faults : SagaOutages) (from to : string) (amount : Z)
    (rid : option string) (saga : TransferSaga) : M World Response :=
  TransferSagaService.debitFromSenderUnder faults saga ;;;
  updatedSaga <- failing (reloadAfterDebitFails faults)
                   (TransferSagaRepository.findById (saga_id saga)) ;;
  match updatedSaga with
  | None => throw (PlainError ("Saga " +:+ saga_id saga +:+ " not found after debit"))
  | Some updatedSaga =>
  TransferSagaService.creditToReceiverUnder faults updatedSaga ;;;
  finalSaga <- failing (reloadAfterCreditFails faults)
                 (TransferSagaRepository.findById (saga_id saga)) ;;
  match finalSaga with
  | None => throw (PlainError ("Saga " +:+ saga_id saga +:+ " not found after credit"))
  | Some finalSaga =>
  r <- call SagaEntity.markAsCompleted finalSaga ;;
  let finalSaga := r.1 in
  failing (saveCompletedFails faults) (TransferSagaRepository.save finalSaga) ;;;
  now <- newDate ;;
  failing (publishCompletedFails faults)
    (EventPublisher.publish
       {| msg_eventType := TRANSFER_COMPLETED; msg_walletId := from;
          msg_amount := Some amount;
          msg_metadata := <["sagaId" := saga_id saga]> {[ "toWalletId" := to ]};
          msg_timestamp := now |} None) ;;;
  let result :=
    {| res_sagaId := saga_id finalSaga; res_state := state finalSaga;
       res_fromWalletId := fromWalletId finalSaga;
       res_toWalletId := toWalletId finalSaga;
       res_amount := saga_amount finalSaga |} in
  (if truthy rid
   then failing (saveKeyFails faults)
          (IdempotencyRepository.save
             {| requestId := default "" rid; response := TransferResponse result |}
             None) ;;; ret tt
   else ret tt) ;;;
  ret (TransferResponse result)
  end end.

(** Its [catch] block. *)
Definition transferRecoveryUnder (faults : SagaOutages) (saga : TransferSaga)
    (error : Error) : M World Response :=
  currentSaga <- failing (findSagaFails faults)
                   (TransferSagaRepository.findById (saga_id saga)) ;;
  match currentSaga with
  | None => throw (PlainError ("Saga " +:+ saga_id saga
                                +:+ " not found during error handling"))
  | Some currentSaga =>
      (if decide (state currentSaga = DEBITED)
       then TransferSagaService.compensateUnder faults (saga_id currentSaga)
              (fromWalletId currentSaga) (saga_amount currentSaga) (message error)
       else
         r <- call (SagaEntity.markAsFailed (message error)) currentSaga ;;
         failing (saveFailedFails faults) (TransferSagaRepository.save r.1) ;;;
         ret tt) ;;;
      throw error
  end.

(** [executeTransfer] past the idempotency check. *)
Definition transferRunUnder (faults : SagaOutages) (from to : string) (amount : Z)
    (rid : option string) : M World Response :=
  if decide (from = to) then throw (PlainError "Cannot transfer to the same wallet") else
  fromWallet <- failing (findSenderFails faults) (WalletRepository.findById from) ;;
  match fromWallet with
  | None => throw (NotFoundException ("Wallet " +:+ from +:+ " not found"))
  | Some fromWallet =>
  toWallet <- WalletRepository.getOrCreateUnder (getReceiverOutages faults) to
                (currency fromWallet) ;;
  if decide (currency toWallet <> currency fromWallet)
  then throw (CurrencyMismatchError (currency fromWallet) (currency toWallet) from to)
  else
  saga <- failing (insertSagaFails faults)
            (TransferSagaRepository.save
               (new_TransferSaga from to amount (currency fromWallet))) ;;
  now <- newDate ;;
  failing (publishInitiatedFails faults)
    (EventPublisher.publish
       {| msg_eventType := TRANSFER_INITIATED; msg_walletId := from;
          msg_amount := Some amount;
          msg_metadata := <["sagaId" := saga_id saga]> (<["toWalletId" := to]>
                            (optField "requestId" rid));
          msg_timestamp := now |} None) ;;;
  try_catch (transferAttemptUnder faults from to amount rid saga)
    (transferRecoveryUnder faults saga)
  end.

(** The saga that [executeTransfer] saves in the store [s]. *)
Definition savedSaga (from to : string) (amount : Z) (cur : string) (s : Store)
    : TransferSaga :=
  set_saga_id (uuid (uuid_seq s)) (new_TransferSaga from to amount cur).

(** The response of a completed transfer. *)
Definition completedTransfer (sagaId from to : string) (amount : Z) : Response :=
  TransferResponse {| res_sagaId := sagaId; res_state := COMPLETED;
                      res_fromWalletId := from; res_toWalletId := to;
                      res_amount := amount |}.

(** A saga in [state] that records a transfer of [amount] from [from] to [to]. *)
Definition sagaRecords (st : TransferSagaState) (from to : string) (amount : Z)
    (s : Store) : Prop :=
  exists sagaId saga,
    transfer_sagas s !! sagaId = Some saga
    /\ state saga = st /\ fromWalletId saga = from /\ toWalletId saga = to
    /\ saga_amount saga = amount.

(** In none of the three legs does the release of a runner fail with an
    error that the retry policy takes for a conflict. *)
Definition releasesNotRetried (faults : SagaOutages) : Prop :=
  releaseNotRetried (debitOutages faults)
  /\ releaseNotRetried (creditOutages faults)
  /\ releaseNotRetried (compensationOutages faults).

(** A call fails after the commit of the credit and before the saga is
    saved as COMPLETED. *)
Definition failsAfterCredit (faults : SagaOutages) : Prop :=
  releaseFailure (creditOutages faults)
  \/ creditCacheFails faults <> None
  \/ reloadAfterCreditFails faults <> None
  \/ saveCompletedFails faults <> None.

(** The four ways a transfer can leave the balances of its two wallets.
    In the last one the receiver holds the amount and the sender has it
    back: this takes a call that fails after the commit of the credit. *)
Inductive TransferOutcome (faults : SagaOutages) (from to : string) (amount : Z)
    (s s' : Store) (r : Error + Response) : Prop :=
| NothingMoved :
    balanceOf s' from = balanceOf s from -> balanceOf s' to = balanceOf s to ->
    TransferOutcome faults from to amount s s' r
| DebitPending :
    0 < amount <= balanceOf s from ->
    balanceOf s' from = balanceOf s from - amount -> balanceOf s' to = balanceOf s to ->
    sagaRecords DEBITED from to amount s' -> (exists e, r = inl e) ->
    TransferOutcome faults from to amount s s' r
| AmountMoved :
    from <> to -> 0 < amount <= balanceOf s from ->
    balanceOf s' from = balanceOf s from - amount ->
    balanceOf s' to = balanceOf s to + amount ->
    TransferOutcome faults from to amount s s' r
| CreditedAndRefunded :
    from <> to -> 0 < amount <= balanceOf s from ->
    failsAfterCredit faults ->
    balanceOf s' from = balanceOf s from ->
    balanceOf s' to = balanceOf s to + amount ->
    sagaRecords COMPENSATED from to amount s' -> (exists e, r = inl e) ->
    TransferOutcome faults from to amount s s' r.

(** Redis is lost when the cached balance of the receiver is to be
    deleted, after the credit. *)
Definition cacheLostAfterCredit : SagaOutages :=
  {| findKeyFails := None; findSenderFails := None; getReceiverOutages := noOutages;
     insertSagaFails := None; publishInitiatedFails := None;
     debitOutages := fun _ => noOutages; debitCacheFails := None;
     reloadAfterDebitFails := None;
     creditOutages := fun _ => noOutages;
     creditCacheFails := Some (PlainError "Connection is closed.");
     reloadAfterCreditFails := None; saveCompletedFails := None;
     publishCompletedFails := None; saveKeyFails := None; findSagaFails := None;
     compensationOutages := fun _ => noOutages; publishFailedFails := None;
     saveFailedFails := None |}.

(** The wallet under [id] holds [amount] more in [s'] than in [s], and
    every other balance is the same. *)
Definition creditedTo (id : string) (amount : Z) (s s' : Store) : Prop :=
  forall k, balanceOf s' k
            = if decide (k = id) then balanceOf s k + amount else balanceOf s k.

(** During a recovery, a call fails after the commit of the credit and
    before the saga is saved as COMPLETED. *)
Definition recoveryFailsAfterCredit (faults : SagaOutages) : Prop :=
  releaseFailure (creditOutages faults)
  \/ creditCacheFails faults <> None
  \/ saveCompletedFails faults <> None.

(** The five ways a recovery can end for a saga that was DEBITED.  In the
    last two the credit is committed and the saga does not record it: this
    takes a call that fails after the commit of the credit. *)
Inductive RecoveryOutcome (faults : SagaOutages) (saga : TransferSaga)
    (s s' : Store) (r : Error + unit) : Prop :=
| NothingSettled :
    s' = s -> (exists e, r = inl e) ->
    RecoveryOutcome faults saga s s' r
| ReceiverCredited :
    creditedTo (toWalletId saga) (saga_amount saga) s s' ->
    state <$> transfer_sagas s' !! saga_id saga = Some COMPLETED ->
    RecoveryOutcome faults saga s s' r
| SenderRefunded :
    creditedTo (fromWalletId saga) (saga_amount saga) s s' ->
    state <$> transfer_sagas s' !! saga_id saga = Some COMPENSATED ->
    RecoveryOutcome faults saga s s' r
| CreditNotRecorded :
    recoveryFailsAfterCredit faults ->
    creditedTo (toWalletId saga) (saga_amount saga) s s' ->
    state <$> transfer_sagas s' !! saga_id saga = Some DEBITED ->
    (exists e, r = inl e) ->
    RecoveryOutcome faults saga s s' r
| SettledTwice :
    recoveryFailsAfterCredit faults ->
    (exists s1, creditedTo (toWalletId saga) (saga_amount saga) s s1
                /\ creditedTo (fromWalletId saga) (saga_amount saga) s1 s') ->
    state <$> transfer_sagas s' !! saga_id saga = Some COMPENSATED ->
    RecoveryOutcome faults saga s s' r.


(** Two deposits of alice that carry the same [created_at]. *)
Definition tiedEvents : list WalletEvent :=
  map (fun i => {| event_id := S i; event_walletId := "alice";
                   eventType := FUNDS_DEPOSITED; event_currency := "USD";
                   event_amount := Some 100; event_metadata := ∅;
                   createdAt := 1700000000000 |})
      (seq 0 2).

Definition tiedWorld : World :=
  set_db (fun s => {| wallets := wallets s; wallet_events := tiedEvents;
                      transfer_sagas := transfer_sagas s;
                      idempotency_keys := idempotency_keys s;
                      outbox_events := outbox_events s; event_seq := 2;
                      uuid_seq := uuid_seq s |}) emptyWorld.

(** The calls that the service answers. *)
Inductive ServiceCall :=
| CallDeposit (walletId : string) (amount : Z) (rid : option string)
| CallWithdraw (walletId : string) (amount : Z) (rid : option string)
| CallTransfer (from to : string) (amount : Z) (rid : option string)
| CallFreeze (walletId reason : string) (frozenBy : option string)
| CallUnfreeze (walletId : string) (unfrozenBy : option string)
| CallClose (walletId reason : string) (closedBy : option string)
| CallGetBalance (walletId : string)
| CallGetHistory (walletId : string) (limit offset : nat)
| CallRecoverSaga (sagaId : string).

(** The world after a call, whether it returned or threw. *)
Definition afterCall (c : ServiceCall) (w : World) : World :=
  match c with
  | CallDeposit walletId amount rid => (WalletService.deposit walletId amount rid w).1
  | CallWithdraw walletId amount rid => (WalletService.withdraw walletId amount rid w).1
  | CallTransfer from to amount rid =>
      (TransferSagaService.executeTransfer from to amount rid w).1
  | CallFreeze walletId reason frozenBy =>
      (WalletService.freezeWallet walletId reason frozenBy w).1
  | CallUnfreeze walletId unfrozenBy => (WalletService.unfreezeWallet walletId unfrozenBy w).1
  | CallClose walletId reason closedBy =>
      (WalletService.closeWallet walletId reason closedBy w).1
  | CallGetBalance walletId => (WalletService.getBalance walletId w).1
  | CallGetHistory walletId limit offset =>
      (WalletService.getHistory walletId limit offset w).1
  | CallRecoverSaga sagaId => (TransferSagaService.recoverSaga sagaId w).1
  end.

Definition afterCalls (calls : list ServiceCall) (w : World) : World :=
  fold_left (fun w c => afterCall c w) calls w.

(** The rows [events] are the oldest rows of the history, in the committed
    table and in the view of the open transaction, if there is one. *)
Definition keepsHistory (events : list WalletEvent) (w : World) : Prop :=
  events `prefix_of` wallet_events (db w)
  /\ forall q, runner w = Some q -> events `prefix_of` wallet_events (work q).

(** An operation that keeps the rows of the history that it finds. *)
Definition appendOnly {A} (op : M World A) : Prop :=
  forall events w, keepsHistory events w -> keepsHistory events (op w).1.

(** A write that keeps the rows of the history that it finds. *)
Definition grows (f : Store -> Store) : Prop :=
  forall s, wallet_events s `prefix_of` wallet_events (f s).

(** The history rows and journal writes of the creation of a wallet: none
    when the identifier already has history. *)
Definition creationEvents (id : string) (s : Store) : list WalletEventType :=
  if decide (noHistory id s) then [WALLET_CREATED] else [].

Definition creationWrites (id : string) (s : Store) : list WriteOp :=
  InsertWallet id :: map (InsertEvent id) (creationEvents id s).

Definition keyWrites (rid : option string) : list WriteOp :=
  if truthy rid then [SaveIdempotencyKey (default "" rid)] else [].

(** * Properties *)

(** ** The saga state machine *)

Ltac saga_cases s :=
  destruct s as [sid sfrom sto samount scur sstate smeta]; destruct sstate.

(** C2, counterexample: [markAsFailed] on a DEBITED saga does not throw and
    moves it to FAILED, which is not a declared edge; the same holds from
    COMPLETED. *)
Lemma C2_markAsFailed_leaves_declared_edges :
  let debited := set_state DEBITED (new_TransferSaga "a" "b" 100 "USD") in
  let completed := set_state COMPLETED (new_TransferSaga "a" "b" 100 "USD") in
  ~ respectsDeclaredEdges (MarkAsFailed "boom") debited
  /\ ~ respectsDeclaredEdges (MarkAsFailed "boom") completed
  /\ (SagaEntity.markAsFailed "boom" debited).2 = inr tt
  /\ state (SagaEntity.markAsFailed "boom" debited).1 = FAILED.
Proof.
  cbn. unfold respectsDeclaredEdges. cbn. repeat split; discriminate.
Qed.

(** C2, amended: the three guarded operations move the saga only along
    PENDING -> DEBITED, DEBITED -> COMPLETED and DEBITED -> COMPENSATED, and
    from any other state they throw and leave the saga as it was;
    [markAsFailed] has no guard: it never throws and sets FAILED from every
    state. *)
Theorem C2_saga_transitions (op : SagaOp) (s : TransferSaga) :
  match runSagaOp op s with
  | (s', inr _) =>
      if isMarkAsFailed op then state s' = FAILED
      else declaredEdge (state s) (state s') = true
           /\ state s' = match op with
                         | MarkAsDebited => DEBITED
                         | MarkAsCompleted => COMPLETED
                         | _ => COMPENSATED
                         end
  | (s', inl _) => isMarkAsFailed op = false /\ s' = s
  end.
Proof.
  destruct op; saga_cases s; cbn; repeat split; reflexivity.
Qed.

(** ** Withdrawals on the wallet entity *)

Lemma withdraw_unfold (w : Wallet) (amount now : Z) :
  status w = ACTIVE -> 0 < amount ->
  WalletEntity.withdraw amount now w =
  let w1 := (WalletEntity.resetDailyLimitIfNewDay now w).1 in
  match dailyWithdrawalLimit w with
  | Some limit =>
      if totalAfterReset w now + amount >? limit
      then (w1, inl (WithdrawalLimitExceededError amount limit))
      else if balance w <? amount
           then (w1, inl (InsufficientFundsError (balance w) amount))
           else (set_lastWithdrawalDate (Some now)
                   (set_dailyWithdrawalTotal (totalAfterReset w now + amount)
                      (set_balance (balance w - amount) w1)), inr tt)
  | None =>
      if balance w <? amount
      then (w1, inl (InsufficientFundsError (balance w) amount))
      else (set_lastWithdrawalDate (Some now)
              (set_dailyWithdrawalTotal (totalAfterReset w now + amount)
                 (set_balance (balance w - amount) w1)), inr tt)
  end.
Proof.
  intros Hactive Hpos.
  destruct w as [wid bal cur st lim tot last]; cbn in Hactive; subst st.
  unfold WalletEntity.withdraw, WalletEntity.validatePositiveAmount,
    WalletEntity.ensureWalletActive, WalletEntity.validateDailyLimit,
    WalletEntity.trackWithdrawal, totalAfterReset,
    WalletEntity.resetDailyLimitIfNewDay, WalletEntity.getTodayDate.
  destruct (amount <=? 0) eqn:Hle; [apply Z.leb_le in Hle; lia|].
  unfold bind, gets, modify, ret, throw.
  cbn -[Z.add Z.sub Z.gtb Z.ltb decide].
  repeat case_decide; cbn in * |-; try congruence;
    cbn -[Z.add Z.sub Z.gtb Z.ltb]; destruct lim as [limit|];
    cbn -[Z.add Z.sub Z.gtb Z.ltb].
  all: repeat (match goal with
               | |- context [?a >? ?b] => destruct (a >? b); cbn -[Z.add Z.sub Z.gtb Z.ltb]
               | |- context [?a <? ?b] => destruct (a <? b); cbn -[Z.add Z.sub Z.gtb Z.ltb]
               end).
  all: reflexivity.
Qed.

(** ** Withdrawals in the arithmetic of the class *)








(** ** History queries *)

#[local] Instance newerFirst_transitive : Transitive WalletRepository.newerFirst.
Proof. unfold WalletRepository.newerFirst. intros a b c Hab Hbc. lia. Qed.

#[local] Instance newerFirst_total : Total WalletRepository.newerFirst.
Proof. unfold WalletRepository.newerFirst. intros a b. lia. Qed.

Lemma StronglySorted_take {A} (R : relation A) (n : nat) (l : list A) :
  StronglySorted R l -> StronglySorted R (take n l).
Proof.
  intros H. rewrite <- (take_drop n l) in H.
  eapply StronglySorted_app_1_l, H.
Qed.

Lemma StronglySorted_drop {A} (R : relation A) (n : nat) (l : list A) :
  StronglySorted R l -> StronglySorted R (drop n l).
Proof.
  intros H. rewrite <- (take_drop n l) in H.
  eapply StronglySorted_app_1_r, H.
Qed.

Lemma presentEvent_sorted (l : list WalletEvent) :
  StronglySorted WalletRepository.newerFirst l ->
  StronglySorted WalletRepository.newerFirst (map WalletService.presentEvent l).
Proof.
  induction 1 as [|x l Hl IH Hx]; cbn; constructor; [assumption|].
  rewrite Forall_forall in *. intros y Hy.
  apply list_elem_of_fmap in Hy as (z & -> & Hz).
  apply (Hx z Hz).
Qed.

Lemma getHistory_unfold (w : World) (walletId : string) (query : GetHistoryDto) :
  WalletController.getHistory walletId query w =
  (w, inr (map WalletService.presentEvent
             (take (WalletController.orDefault (dto_limit query) 100)
                (drop (WalletController.orDefault (dto_offset query) 0)
                   (historyRows w walletId))))).
Proof. reflexivity. Qed.

(** C8, counterexample: with 101 events in the journal, a request with
    [limit=101] returns 101 events: the limit is not capped to 100. *)
Lemma C8_limit_not_capped :
  exists events,
    (WalletController.getHistory "alice"
       {| dto_limit := Some 101%nat; dto_offset := None |} C8_world).2 = inr events
    /\ length events = 101%nat.
Proof.
  eexists. split; [reflexivity|]. vm_compute. reflexivity.
Qed.

(** C8, amended: [getHistory] changes nothing and returns events of the
    requested wallet ordered by [created_at] descending; their number never
    exceeds the requested limit, which is 100 when the request gives none
    (or gives 0) and is otherwise used as it is, without a cap. *)
Theorem C8_history_ordered_and_limited
    (w : World) (walletId : string) (query : GetHistoryDto) :
  exists events,
    WalletController.getHistory walletId query w = (w, inr events)
    /\ StronglySorted (fun a b => createdAt b <= createdAt a) events
    /\ Forall (fun ev => event_walletId ev = walletId) events
    /\ (length events <= match dto_limit query with
                         | Some (S n) => S n
                         | _ => 100
                         end)%nat.
Proof.
  eexists. split; [apply getHistory_unfold|].
  split.
  { apply presentEvent_sorted, StronglySorted_take, StronglySorted_drop.
    apply (StronglySorted_merge_sort WalletRepository.newerFirst). }
  split.
  { apply Forall_forall. intros ev Hev.
    apply list_elem_of_fmap in Hev as (ev0 & -> & Hev).
    apply elem_of_take in Hev as (i & Hev & _).
    apply list_elem_of_lookup_2 in Hev.
    assert (Hin : ev0 ∈ historyRows w walletId).
    { revert Hev. generalize (historyRows w walletId).
      intros l. rewrite <- (take_drop (WalletController.orDefault (dto_offset query) 0) l) at 2.
      intros H. apply elem_of_app. now right. }
    unfold historyRows in Hin. rewrite merge_sort_Permutation in Hin.
    apply list_elem_of_filter in Hin as [Hid _]. exact Hid. }
  rewrite length_map, length_take.
  unfold WalletController.orDefault.
  destruct (dto_limit query) as [[|n]|]; lia.
Qed.

(** ** The idempotent fraud consumer *)

Arguments SHA256.hex : simpl never.
Arguments numberToString : simpl never.

(** The digest function agrees with the test vectors of the standard. *)
Example SHA256_test_vectors :
  SHA256.hex "abc" = "ba7816bf8f01cfea414140de5dae2223b00361a396177a9cb410ff61f20015ad"
  /\ SHA256.hex "" = "e3b0c44298fc1c149afbf4c8996fb92427ae41e4649b934ca495991b7852b855"
  /\ SHA256.hex "abcdbcdecdefdefgefghfghighijhijkijkljklmklmnlmnomnopnopq"
     = "248d6a61d20638b8e5c026930c3e6039a33ce45964ff2167f6ecedd419db06c1".
Proof. repeat split; vm_compute; reflexivity. Qed.

(** C9, counterexample: the key of the consumer is the digest of the fields
    joined with "-", not with "|"; on a concrete withdrawal the two digests
    differ. *)
Lemma C9_separator_is_not_pipe :
  FraudDetectionConsumer.idempotencyPayload C9_event
    = "w1-FUNDS_WITHDRAWN-2024-01-01T00:00:00.000Z-20000"
  /\ FraudDetectionConsumer.generateIdempotencyKey C9_event
     = "052f39223b648a54b8f743620808d678200929642eb450c0bcfd0e2a1e1b3cdc"
  /\ joinedKey "|" C9_event
     = "3f5e47cedbe79881513e322e393862f6744c9db3a37aeaba85f88929663d0803"
  /\ FraudDetectionConsumer.generateIdempotencyKey C9_event <> joinedKey "|" C9_event.
Proof.
  repeat split; try (vm_compute; reflexivity).
  vm_compute. discriminate.
Qed.

Lemma idempotencyPayload_joined (event : WalletEventPayload) :
  FraudDetectionConsumer.generateIdempotencyKey event = joinedKey "-" event.
Proof.
  unfold FraudDetectionConsumer.generateIdempotencyKey, joinedKey,
    FraudDetectionConsumer.idempotencyPayload.
  f_equal.
Qed.

(** The fraud rules write sorted sets and alerts only: the string keys of
    the cache are left alone, and with the cache up they do not throw. *)
Lemma processFraudChecks_strings (event : WalletEventPayload) (w : Worker) :
  redisAvailable w = true ->
  let out := FraudDetectionConsumer.processFraudChecks event w in
  out.2 = inr tt
  /\ strings (w_redis out.1) = strings (w_redis w)
  /\ channel out.1 = channel w
  /\ redisAvailable out.1 = true.
Proof.
  intros Hup. destruct w as [r alerts ch clk up cfg]. cbn in Hup. subst up.
  unfold FraudDetectionConsumer.processFraudChecks.
  case_decide; [|cbn; auto].
  unfold FraudDetectionConsumer.detectRapidWithdrawals,
    FraudDetectionConsumer.detectHighValueTransaction,
    FraudDetectionConsumer.saveFraudAlert, redisCommand, bind, gets, modify, ret.
  cbn -[Z.gtb Z.mul Z.sub pretty].
  destruct (_ >? fraudDetectionMaxWithdrawals cfg); cbn -[Z.gtb Z.mul Z.sub pretty];
    destruct (orNull (pl_amount event)); cbn -[Z.gtb Z.mul Z.sub pretty];
    try destruct (_ >? fraudDetectionThreshold cfg); cbn; auto.
Qed.

(** The set-if-absent of the consumer, with the cache up. *)
Lemma acquireLock_unfold (eventId : string) (w : Worker) :
  redisAvailable w = true ->
  FraudDetectionConsumer.acquireLock eventId w =
  let key := "processed_event:" +:+ eventId in
  match redis_live (w_clock w) (w_redis w) key with
  | Some _ => (w, inr false)
  | None =>
      (w_set_redis (fun r =>
         {| strings := <[key := ("true", Some (w_clock w + 24 * 60 * 60 * 1000))]> (strings r);
            zsets := zsets r; zset_expiry := zset_expiry r |}) w, inr true)
  end.
Proof.
  intros Hup. destruct w as [r alerts ch clk up cfg]. cbn in Hup. subst up.
  unfold FraudDetectionConsumer.acquireLock, redisCommand, redis_set_nx, bind, gets, ret.
  cbn -[Z.mul Z.add bool_decide].
  change (FRAUD_CONSTANTS.PROCESSED_EVENT_PREFIX +:+ eventId)
    with ("processed_event:" +:+ eventId).
  destruct (redis_live clk r ("processed_event:" +:+ eventId)); cbn -[Z.mul Z.add bool_decide].
  - rewrite bool_decide_eq_false_2 by discriminate. reflexivity.
  - rewrite bool_decide_eq_true_2 by reflexivity. reflexivity.
Qed.

(** C9, amended: the idempotency key is the hex SHA-256 digest of walletId,
    eventType, timestamp and the optional amount joined with "-";
    processing is deduplicated by a set-if-absent on [processed_event:<key>]
    with a time to live of 24 hours: when the key is live the message is
    acked and nothing else happens (no rule runs, no alert, no cache write);
    when it is not, the key is written with a 24 hour expiry before the
    rules run and the message is acked. *)
Theorem C9_consumer_deduplicates (msg : AmqpMessage) (event : WalletEventPayload) (w : Worker) :
  content msg = Some event ->
  redisAvailable w = true ->
  let key := processedKey event in
  let out := FraudDetectionConsumer.handleMessage msg w in
  FraudDetectionConsumer.generateIdempotencyKey event = joinedKey "-" event
  /\ (is_Some (redis_live (w_clock w) (w_redis w) key) ->
      out = ({| w_redis := w_redis w; fraud_alerts := fraud_alerts w;
                channel := (channel w ++ [Ack (deliveryTag msg)])%list;
                w_clock := w_clock w; redisAvailable := redisAvailable w;
                w_config := w_config w |}, inr tt))
  /\ (redis_live (w_clock w) (w_redis w) key = None ->
      out.2 = inr tt
      /\ strings (w_redis out.1) !! key
         = Some ("true", Some (w_clock w + 24 * 60 * 60 * 1000))
      /\ channel out.1 = (channel w ++ [Ack (deliveryTag msg)])%list).
Proof.
  intros Hc Hup key out.
  split; [apply idempotencyPayload_joined|].
  assert (Hout : out =
    match FraudDetectionConsumer.acquireLock (joinedKey "-" event) w with
    | (w1, inr isNew) =>
        if negb isNew then w_channel (Ack (deliveryTag msg)) w1
        else match FraudDetectionConsumer.processFraudChecks event w1 with
             | (w2, inr _) => w_channel (Ack (deliveryTag msg)) w2
             | (w2, inl e) => FraudDetectionConsumer.handleProcessingError msg e w2
             end
    | (w1, inl e) => FraudDetectionConsumer.handleProcessingError msg e w1
    end).
  { subst out. unfold FraudDetectionConsumer.handleMessage. rewrite Hc.
    rewrite idempotencyPayload_joined. unfold try_catch, bind.
    destruct (FraudDetectionConsumer.acquireLock (joinedKey "-" event) w) as [w1 [e|[|]]];
      cbn [negb]; try reflexivity.
    destruct (FraudDetectionConsumer.processFraudChecks event w1) as [w2 [e|[]]];
      reflexivity. }
  rewrite Hout. clear Hout out.
  rewrite (acquireLock_unfold _ _ Hup). cbv zeta.
  change ("processed_event:" +:+ joinedKey "-" event) with key.
  split.
  - intros [v Hv]. rewrite Hv. cbn [negb].
    unfold w_channel, modify. destruct w as [r alerts ch clk up cfg]; reflexivity.
  - intros Hnone. rewrite Hnone. cbn [negb].
    set (w1 := w_set_redis _ w).
    assert (Hup1 : redisAvailable w1 = true) by (subst w1; destruct w as [r alerts ch clk up cfg]; exact Hup).
    pose proof (processFraudChecks_strings event w1 Hup1) as Hp. cbv zeta in Hp.
    destruct (FraudDetectionConsumer.processFraudChecks event w1) as [w2 r].
    cbn [fst snd] in Hp. destruct Hp as (-> & Hs & Hch & _).
    unfold w_channel, modify. cbn [fst snd w_redis channel]. rewrite Hs, Hch.
    subst w1. destruct w as [r0 alerts ch clk up cfg]. cbn [w_set_redis w_redis strings channel w_clock].
    split; [reflexivity|]. split; [|reflexivity].
    apply lookup_insert_eq.
Qed.

(** The first delivery raises one alert; the redelivery is acked and adds
    nothing. *)
Lemma C9_consumer_deduplicates_witness :
  let first := (FraudDetectionConsumer.handleMessage C9_msg C9_worker).1 in
  let second := (FraudDetectionConsumer.handleMessage C9_msg first).1 in
  length (fraud_alerts first) = 1%nat
  /\ fraud_alerts second = fraud_alerts first
  /\ w_redis second = w_redis first
  /\ channel second = [Ack 1%nat; Ack 1%nat].
Proof.
  intros first second.
  assert (Hfirst : redisAvailable first = true) by (vm_compute; reflexivity).
  pose proof (C9_consumer_deduplicates C9_msg C9_event first eq_refl Hfirst) as H.
  cbv zeta in H. destruct H as (_ & Hdup & _).
  assert (Hlive : is_Some (redis_live (w_clock first) (w_redis first) (processedKey C9_event))).
  { vm_compute. eexists. reflexivity. }
  specialize (Hdup Hlive).
  subst second. rewrite Hdup. cbn [fst fraud_alerts w_redis channel].
  split; [vm_compute; reflexivity|].
  split; [reflexivity|]. split; [reflexivity|].
  vm_compute. reflexivity.
Defined.

(** ** The transaction coordinator *)

Lemma releaseLock_ok options w :
  TransactionManager.releaseLock options w
  = ((TransactionManager.releaseLock options w).1, inr tt).
Proof.
  unfold TransactionManager.releaseLock. destruct (truthy (lockKey options)); reflexivity.
Qed.

Lemma saveAll_runner (events : list OutboxEvent) (w : World) (q : QueryRunner) :
  runner w = Some q ->
  OutboxRepository.saveAll events (Some QueryRunnerManager) w
  = (set_runner (Some {| work := withOutbox events (work q);
                         writes := (writes q ++ outboxWrites events)%list |}) w, inr tt).
Proof.
  revert w q. induction events as [|ev events IH]; intros w q Hq.
  - cbn. unfold ret. rewrite app_nil_r. destruct w, q; cbn in *. subst. reflexivity.
  - cbn [OutboxRepository.saveAll]. unfold bind, repo_write, em_write. rewrite Hq.
    rewrite (IH _ {| work := insert_outbox ev (work q); writes := (writes q ++ [SaveOutbox (outbox_eventType ev)])%list |})
      by reflexivity.
    cbn. rewrite <- app_assoc. destruct w; reflexivity.
Qed.

Lemma saveAll_no_runner (events : list OutboxEvent) (w : World) :
  runner w = None -> events <> [] ->
  OutboxRepository.saveAll events (Some QueryRunnerManager) w
  = (w, inl (PlainError "QueryRunnerAlreadyReleasedError")).
Proof.
  intros Hq Hne. destruct events as [|ev events]; [congruence|].
  cbn [OutboxRepository.saveAll]. unfold bind, repo_write, em_write. rewrite Hq. reflexivity.
Qed.

(** Post-commit publishing never throws and touches the bus only. *)
Lemma publishEach_bus (events : list OutboxEvent) (w : World) :
  exists b, TransactionManager.publishEach events w = (set_bus b w, inr tt).
Proof.
  revert w. induction events as [|ev events IH]; intros w.
  - exists (bus w). destruct w; reflexivity.
  - cbn [TransactionManager.publishEach]. unfold bind, try_catch, EventPublisher.publish.
    unfold bind, gets. destruct (publisherConnected w); cbn [negb].
    + unfold modify. cbn. destruct (IH (set_bus (bus w ++ [(rabbitMqExchange (config w),
         "wallet." +:+ toLowerCase (WalletEventType_toString (msg_eventType (payload ev))),
         payload ev)]) w)) as [b Hb].
      rewrite Hb. exists b. destruct w; reflexivity.
    + unfold throw, ret. destruct (IH w) as [b Hb]. rewrite Hb. exists b. reflexivity.
Qed.

Lemma publishEventsAsync_bus (events : list OutboxEvent) (w : World) :
  exists b, TransactionManager.publishEventsAsync events w = (set_bus b w, inr tt).
Proof.
  unfold TransactionManager.publishEventsAsync. case_decide.
  - exists (bus w). destruct w; reflexivity.
  - apply publishEach_bus.
Qed.

(** [execute], one case per way the block and the commit can end. *)
Lemma execute_unfold {A} (operation : TransactionContext -> M World A)
    (options : TransactionOptions) (w : World) :
  TransactionManager.execute operation options w =
  match TransactionManager.acquireLock options w with
  | (wl, inl e) => (wl, inl e)
  | (wl, inr _) =>
      match operation TransactionManager.context (began wl) with
      | (w1, inl e) =>
          (finished options (set_runner (Some {| work := db w1; writes := [] |}) w1), inl e)
      | (w1, inr a) =>
          match (if decide (0 < length (eventsToPublish w1))%nat
                 then OutboxRepository.saveAll (eventsToPublish w1) (Some QueryRunnerManager)
                 else ret tt) w1 with
          | (w2, inl e) =>
              (finished options (set_runner (Some {| work := db w2; writes := [] |}) w2), inl e)
          | (w2, inr _) =>
              match commitTransaction w2 with
              | (w3, inl e) =>
                  (finished options (set_runner (Some {| work := db w3; writes := [] |}) w3),
                   inl e)
              | (w3, inr _) =>
                  (finished options
                     (TransactionManager.publishEventsAsync (eventsToPublish w1) w3).1,
                   inr a)
              end
          end
      end
  end.
Proof.
  unfold TransactionManager.execute, finished.
  unfold bind at 1.
  destruct (TransactionManager.acquireLock options w) as [wl [e|[]]]; [reflexivity|].
  unfold bind at 1. unfold startTransaction at 1. unfold modify at 1.
  unfold bind at 1. unfold modify at 1.
  change (set_eventsToPublish [] (set_runner (Some {| work := db wl; writes := [] |}) wl))
    with (began wl).
  unfold try_finally, try_catch. unfold bind at 1.
  destruct (operation TransactionManager.context (began wl)) as [w1 [e|a]].
  - unfold bind, rollbackTransaction, release, modify, throw.
    rewrite (releaseLock_ok options). reflexivity.
  - unfold bind at 1. unfold gets at 1. unfold bind at 1.
    destruct ((if decide (0 < length (eventsToPublish w1))%nat
               then OutboxRepository.saveAll (eventsToPublish w1) (Some QueryRunnerManager)
               else ret tt) w1) as [w2 [e|[]]].
    + unfold bind, rollbackTransaction, release, modify, throw.
      rewrite (releaseLock_ok options). reflexivity.
    + unfold bind at 1. destruct (commitTransaction w2) as [w3 [e|[]]].
      * unfold bind, rollbackTransaction, release, modify, throw.
        rewrite (releaseLock_ok options). reflexivity.
      * unfold bind at 1.
        destruct (publishEventsAsync_bus (eventsToPublish w1) w3) as [b Hb].
        rewrite Hb. unfold ret, bind, release, modify.
        rewrite (releaseLock_ok options). reflexivity.
Qed.

Lemma finished_runner options w : runner (finished options w) = None.
Proof.
  unfold finished, TransactionManager.releaseLock.
  destruct (truthy (lockKey options)); reflexivity.
Qed.

Lemma finished_db options w : db (finished options w) = db w.
Proof.
  unfold finished, TransactionManager.releaseLock.
  destruct (truthy (lockKey options)); reflexivity.
Qed.

Lemma finished_journal options w : journal (finished options w) = journal w.
Proof.
  unfold finished, TransactionManager.releaseLock.
  destruct (truthy (lockKey options)); reflexivity.
Qed.

Lemma finished_lock options w :
  truthy (lockKey options) = true ->
  strings (redis (finished options w)) !! default "" (lockKey options) = None.
Proof.
  intros Hl. unfold finished, TransactionManager.releaseLock. rewrite Hl.
  cbn. apply lookup_delete_eq.
Qed.

(** A commit either publishes the private view of the runner, with its
    writes as one journal entry, or leaves tables and journal alone; it
    is refused when no transaction is open or a fault is due. *)
Lemma commitTransaction_cases (w : World) :
  match commitTransaction w with
  | (w', inr _) =>
      exists q, runner w = Some q /\ db w' = work q
                /\ journal w' = (journal w ++ [writes q])%list
                /\ (forall e rest, commitFaults w <> Some e :: rest)
  | (w', inl e) =>
      db w' = db w /\ journal w' = journal w
      /\ (runner w = None \/ exists rest, commitFaults w = Some e :: rest)
  end.
Proof.
  unfold commitTransaction. destruct (runner w) as [q|] eqn:Hq; [|auto].
  destruct (commitFaults w) as [|[e|] rest]; cbn; eauto 10;
    exists q; repeat split; try reflexivity; intros e rest0; discriminate.
Qed.

(** With a reliable infrastructure: either the writes made through the
    transactional handle and the outbox rows of the buffer are committed
    together, as one transaction, or none of them is; on an error the
    transaction is rolled back, runner and lock are released, and the error
    of the block or of the commit reaches the caller. *)
Lemma execute_all_or_nothing {A}
    (operation : TransactionContext -> M World A)
    (options : TransactionOptions) (w wl : World) :
  TransactionManager.acquireLock options w = (wl, inr tt) ->
  let block := operation TransactionManager.context (began wl) in
  let out := TransactionManager.execute operation options w in
  runner out.1 = None
  /\ (truthy (lockKey options) = true ->
      strings (redis out.1) !! default "" (lockKey options) = None)
  /\ (forall e, block.2 = inl e -> out.2 = inl e)
  /\ (forall a q e rest,
        block.2 = inr a -> runner block.1 = Some q ->
        commitFaults block.1 = Some e :: rest -> out.2 = inl e)
  /\ match out.2 with
     | inl e =>
         db out.1 = db block.1 /\ journal out.1 = journal block.1
     | inr a =>
         block.2 = inr a
         /\ exists q, runner block.1 = Some q
            /\ db out.1 = withOutbox (eventsToPublish block.1) (work q)
            /\ journal out.1
               = (journal block.1
                    ++ [writes q ++ outboxWrites (eventsToPublish block.1)])%list
     end.
Proof.
  intros Hlock block out. subst out. rewrite execute_unfold, Hlock. fold block.
  destruct block as [w1 [e|a]] eqn:Hb; cbn [fst snd].
  { rewrite finished_runner, finished_db, finished_journal.
    split; [reflexivity|]. split; [apply finished_lock|].
    split; [intros e' [= <-]; reflexivity|].
    split; [intros a q e' rest [=]|]. split; reflexivity. }
  destruct (runner w1) as [q|] eqn:Hq.
  - (* the runner is alive: the outbox rows join its private view *)
    assert (Hsave : (if decide (0 < length (eventsToPublish w1))%nat
                     then OutboxRepository.saveAll (eventsToPublish w1) (Some QueryRunnerManager)
                     else ret tt) w1
                    = (set_runner (Some {| work := withOutbox (eventsToPublish w1) (work q);
                         writes := (writes q ++ outboxWrites (eventsToPublish w1))%list |}) w1,
                       inr tt)).
    { case_decide as Hlen.
      - apply saveAll_runner, Hq.
      - destruct (eventsToPublish w1) as [|ev l]; [|cbn in Hlen; lia].
        unfold ret. cbn. rewrite app_nil_r. destruct w1, q; cbn in *; subst; reflexivity. }
    rewrite Hsave.
    pose proof (commitTransaction_cases (set_runner (Some {| work := withOutbox (eventsToPublish w1) (work q);
                         writes := (writes q ++ outboxWrites (eventsToPublish w1))%list |}) w1)) as Hc.
    destruct (commitTransaction _) as [w3 [e|[]]]; cbn [fst snd].
    + destruct Hc as (Hdb & Hj & Hwhy).
      rewrite finished_runner, finished_db, finished_journal.
      split; [reflexivity|]. split; [apply finished_lock|].
      split; [intros e' [=]|].
      split; [|split; assumption].
      intros a' q' e' rest _ _ Hfault.
      destruct Hwhy as [Hnone | [rest' Hrest]]; [discriminate Hnone|].
      cbn in Hrest. rewrite Hfault in Hrest. congruence.
    + destruct Hc as (q' & Hq' & Hdb & Hj & Hnofault). cbn in Hq'. injection Hq' as <-.
      destruct (publishEventsAsync_bus (eventsToPublish w1) w3) as [b Hpub].
      rewrite Hpub. cbn [fst].
      rewrite finished_runner, finished_db, finished_journal.
      split; [reflexivity|]. split; [apply finished_lock|].
      split; [intros e' [=]|].
      split; [intros a' q' e' rest _ _ Hfault; exfalso; exact (Hnofault e' rest Hfault)|].
      split; [reflexivity|].
      exists q. split; [reflexivity|]. split; assumption.
  - (* the block released the runner: nothing can be committed *)
    assert (Hfail : exists w2 e,
      match (if decide (0 < length (eventsToPublish w1))%nat
             then OutboxRepository.saveAll (eventsToPublish w1) (Some QueryRunnerManager)
             else ret tt) w1 with
      | (w2', inl e') => (w2', @inl Error A e')
      | (w2', inr _) =>
          match commitTransaction w2' with
          | (w3, inl e') =>
              (w3, inl e')
          | (w3, inr _) => (w3, inr a)
          end
      end = (w2, inl e) /\ db w2 = db w1 /\ journal w2 = journal w1).
    { case_decide as Hlen.
      - rewrite saveAll_no_runner; [eauto|exact Hq|].
        destruct (eventsToPublish w1); [cbn in Hlen; lia|discriminate].
      - unfold ret, commitTransaction. rewrite Hq. eauto. }
    destruct Hfail as (w2 & e & Hrun & Hdb & Hj).
    destruct ((if decide (0 < length (eventsToPublish w1))%nat
             then OutboxRepository.saveAll (eventsToPublish w1) (Some QueryRunnerManager)
             else ret tt) w1) as [w2' [e'|[]]].
    + injection Hrun as -> ->. cbn [fst snd].
      rewrite finished_runner, finished_db, finished_journal.
      split; [reflexivity|]. split; [apply finished_lock|].
      split; [intros e' [=]|].
      split; [intros a' q' e' rest _ [=]|]. split; assumption.
    + destruct (commitTransaction w2') as [w3 [e'|[]]]; [|discriminate].
      injection Hrun as -> ->. cbn [fst snd].
      rewrite finished_runner, finished_db, finished_journal.
      split; [reflexivity|]. split; [apply finished_lock|].
      split; [intros e' [=]|].
      split; [intros a' q' e' rest _ [=]|]. split; assumption.
Qed.

Lemma executeUnder_noOutages {A} (operation : TransactionContext -> M World A)
    (options : TransactionOptions) (w : World) :
  TransactionManager.executeUnder noOutages operation options w
  = TransactionManager.execute operation options w.
Proof.
  unfold TransactionManager.executeUnder, TransactionManager.execute, noOutages, failing.
  cbn [lockSetFails connectFails startFails rollbackFails releaseFails lockDelFails].
  unfold TransactionManager.acquireLock, TransactionManager.releaseLock.
  destruct (truthy (lockKey options)); reflexivity.
Qed.

Lemma executeUnder_started {A} (faults : Outages)
    (operation : TransactionContext -> M World A)
    (options : TransactionOptions) (w wl : World) :
  (if truthy (lockKey options)
   then failing (lockSetFails faults) (TransactionManager.acquireLock options)
   else ret tt) w = (wl, inr tt) ->
  connectFails faults = None -> startFails faults = None ->
  TransactionManager.executeUnder faults operation options w =
  match cleanup faults options (attempted faults operation wl).1 with
  | (w', inr _) => (w', (attempted faults operation wl).2)
  | (w', inl e) => (w', inl e)
  end.
Proof.
  intros Hacq Hconnect Hstart.
  unfold TransactionManager.executeUnder. rewrite Hconnect, Hstart.
  unfold bind at 1. rewrite Hacq.
  unfold failing at 1 2.
  unfold bind at 1. unfold ret at 1.
  unfold bind at 1. unfold startTransaction at 1. unfold modify at 1.
  unfold bind at 1. unfold modify at 1.
  change (set_eventsToPublish [] (set_runner (Some {| work := db wl; writes := [] |}) wl))
    with (began wl).
  unfold try_finally. fold (cleanup faults options).
  assert (Htry : try_catch
            (result <- operation TransactionManager.context ;;
             events <- gets eventsToPublish ;;
             (if decide (0 < length events)%nat
              then OutboxRepository.saveAll events (Some QueryRunnerManager)
              else ret tt) ;;;
             commitTransaction ;;;
             TransactionManager.publishEventsAsync events ;;; ret result)
            (fun error => failing (rollbackFails faults) rollbackTransaction ;;; throw error)
            (began wl)
          = attempted faults operation wl).
  { unfold try_catch, attempted, caught. unfold bind at 1.
    destruct (operation TransactionManager.context (began wl)) as [w1 [e|a]].
    - unfold failing, bind, rollbackTransaction, modify, throw.
      destruct (rollbackFails faults); reflexivity.
    - unfold bind at 1. unfold gets at 1. unfold bind at 1.
      destruct ((if decide (0 < length (eventsToPublish w1))%nat
                 then OutboxRepository.saveAll (eventsToPublish w1) (Some QueryRunnerManager)
                 else ret tt) w1) as [w2 [e|[]]].
      + unfold failing, bind, rollbackTransaction, modify, throw.
        destruct (rollbackFails faults); reflexivity.
      + unfold bind at 1. destruct (commitTransaction w2) as [w3 [e|[]]].
        * unfold failing, bind, rollbackTransaction, modify, throw.
          destruct (rollbackFails faults); reflexivity.
        * unfold bind at 1.
          destruct (publishEventsAsync_bus (eventsToPublish w1) w3) as [b Hb].
          rewrite Hb. reflexivity. }
  rewrite Htry. destruct (attempted faults operation wl) as [wt r]. reflexivity.
Qed.


(** Before the transaction is started nothing is written: an error of
    [connect] or of [startTransaction] leaves [execute] at once. *)
Lemma executeUnder_not_started {A} (faults : Outages)
    (operation : TransactionContext -> M World A)
    (options : TransactionOptions) (w wl : World) (e : Error) :
  (if truthy (lockKey options)
   then failing (lockSetFails faults) (TransactionManager.acquireLock options)
   else ret tt) w = (wl, inr tt) ->
  connectFails faults = Some e
  \/ (connectFails faults = None /\ startFails faults = Some e) ->
  TransactionManager.executeUnder faults operation options w = (wl, inl e).
Proof.
  intros Hacq Hfail. unfold TransactionManager.executeUnder.
  unfold bind at 1. rewrite Hacq.
  destruct Hfail as [-> | [-> ->]]; reflexivity.
Qed.

(** The [finally] block changes neither tables nor journal. *)
Lemma cleanup_tables (faults : Outages) (options : TransactionOptions) (w : World) :
  db (cleanup faults options w).1 = db w
  /\ journal (cleanup faults options w).1 = journal w.
Proof.
  unfold cleanup, failing, TransactionManager.releaseLock, bind, release, modify, throw, ret.
  destruct (releaseFails faults); [split; reflexivity|].
  destruct (truthy (lockKey options)); [|split; reflexivity].
  destruct (lockDelFails faults); split; reflexivity.
Qed.

(** What [try] and [catch] make of the block: a result means a commit, an
    error means that nothing of the transaction is in the tables; Redis is
    as the block left it. *)
Lemma attempted_cases {A} (faults : Outages)
    (operation : TransactionContext -> M World A) (wl : World) :
  let block := operation TransactionManager.context (began wl) in
  let t := attempted faults operation wl in
  redis t.1 = redis block.1
  /\ match t.2 with
     | inr a =>
         committedWith block a t.1
         /\ (forall e rest, commitFaults block.1 <> Some e :: rest)
     | inl e =>
         nothingPersisted block t.1
         /\ (forall e', rollbackFails faults = Some e' -> e = e')
         /\ (rollbackFails faults = None -> thrownInside block e)
     end.
Proof.
  intros block t. subst t. unfold attempted. fold block.
  assert (Hcaught : forall w1 e,
            redis w1 = redis block.1 -> db w1 = db block.1 -> journal w1 = journal block.1 ->
            thrownInside block e ->
            let c := @caught A faults w1 e in
            redis c.1 = redis block.1
            /\ match c.2 with
               | inr a =>
                   committedWith block a c.1
                   /\ (forall e rest, commitFaults block.1 <> Some e :: rest)
               | inl e0 =>
                   nothingPersisted block c.1
                   /\ (forall e', rollbackFails faults = Some e' -> e0 = e')
                   /\ (rollbackFails faults = None -> thrownInside block e0)
               end).
  { intros w1 e Hr Hd Hj Hprop. unfold caught, nothingPersisted.
    destruct (rollbackFails faults) as [e0|]; cbn [fst snd].
    - split; [exact Hr|]. split; [split; assumption|].
      split; [intros e' [= <-]; reflexivity | intros [=]].
    - split; [exact Hr|]. split; [split; assumption|].
      split; [intros e' [=] | intros _; exact Hprop]. }
  unfold committedWith, nothingPersisted, thrownInside in *.
  destruct block as [w1 [e|a]] eqn:Hb; cbn [fst snd] in *.
  { apply Hcaught; try reflexivity. left. reflexivity. }
  destruct (runner w1) as [q|] eqn:Hq.
  - assert (Hsave : (if decide (0 < length (eventsToPublish w1))%nat
                     then OutboxRepository.saveAll (eventsToPublish w1) (Some QueryRunnerManager)
                     else ret tt) w1
                    = (set_runner (Some {| work := withOutbox (eventsToPublish w1) (work q);
                         writes := (writes q ++ outboxWrites (eventsToPublish w1))%list |}) w1,
                       inr tt)).
    { case_decide as Hlen.
      - apply saveAll_runner, Hq.
      - destruct (eventsToPublish w1) as [|ev l]; [|cbn in Hlen; lia].
        unfold ret. cbn. rewrite app_nil_r. destruct w1, q; cbn in *; subst; reflexivity. }
    rewrite Hsave.
    pose proof (commitTransaction_cases (set_runner (Some {| work := withOutbox (eventsToPublish w1) (work q);
                         writes := (writes q ++ outboxWrites (eventsToPublish w1))%list |}) w1)) as Hc.
    assert (Hredis : redis (commitTransaction (set_runner (Some {| work := withOutbox (eventsToPublish w1) (work q);
                         writes := (writes q ++ outboxWrites (eventsToPublish w1))%list |}) w1)).1
                     = redis w1).
    { unfold commitTransaction. cbn [runner set_runner].
      destruct (commitFaults _) as [|[e|] rest]; reflexivity. }
    destruct (commitTransaction _) as [w3 [e|[]]]; cbn [fst snd] in *.
    + destruct Hc as (Hdb & Hj & Hwhy). apply Hcaught.
      * exact Hredis.
      * exact Hdb.
      * exact Hj.
      * right. exists a. split; [reflexivity|]. right.
        destruct Hwhy as [Hnone | Hfault]; [discriminate Hnone | exact Hfault].
    + destruct Hc as (q' & Hq' & Hdb & Hj & Hnofault). cbn in Hq'. injection Hq' as <-.
      destruct (publishEventsAsync_bus (eventsToPublish w1) w3) as [b Hpub].
      rewrite Hpub. cbn [fst snd].
      split; [exact Hredis|].
      split; [|exact Hnofault].
      split; [reflexivity|]. exists q. split; [reflexivity|].
      split; [exact Hdb | exact Hj].
  - assert (Hfail : exists w2 e,
      match (if decide (0 < length (eventsToPublish w1))%nat
             then OutboxRepository.saveAll (eventsToPublish w1) (Some QueryRunnerManager)
             else ret tt) w1 with
      | (w2', inl e') => @caught A faults w2' e'
      | (w2', inr _) =>
          match commitTransaction w2' with
          | (w3, inl e') => caught faults w3 e'
          | (w3, inr _) =>
              ((TransactionManager.publishEventsAsync (eventsToPublish w1) w3).1, inr a)
          end
      end = caught faults w2 e
      /\ redis w2 = redis w1 /\ db w2 = db w1 /\ journal w2 = journal w1).
    { case_decide as Hlen.
      - rewrite saveAll_no_runner; [eauto 10|exact Hq|].
        destruct (eventsToPublish w1); [cbn in Hlen; lia|discriminate].
      - unfold ret, commitTransaction. rewrite Hq. eauto 10. }
    destruct Hfail as (w2 & e & -> & Hr & Hdb & Hj).
    apply Hcaught; try assumption. right. exists a. split; [reflexivity|]. left. reflexivity.
Qed.




(** ** Deposits on a wallet that is not active *)

Lemma acquireLock_fresh (rid : option string) (w : World) :
  freshRequest rid w ->
  exists r,
    TransactionManager.acquireLock (WalletService.idempotentOptions rid) w
    = (set_redis (fun _ => r) w, inr tt).
Proof.
  intros Hfresh. unfold TransactionManager.acquireLock, WalletService.idempotentOptions.
  cbn [lockKey lockTtl].
  destruct (truthy rid) eqn:Ht.
  - destruct (Hfresh Ht) as [_ Hlock].
    assert (Htt : truthy (Some ("lock:req:" +:+ default "" rid)) = true).
    { unfold truthy. case_decide as Hd; [discriminate Hd | reflexivity]. }
    rewrite Htt. unfold bind, newDate, gets, redis_set_nx.
    cbn in Hlock |- *. rewrite Hlock. unfold modify. cbn. eexists. reflexivity.
  - cbn. exists (redis w). unfold ret. destruct w; reflexivity.
Qed.

Lemma findByRequestId_fresh (rid : option string) (w : World) :
  freshRequest rid w ->
  (if truthy rid then IdempotencyRepository.findByRequestId (default "" rid)
   else ret None) w = (w, inr None).
Proof.
  intros Hfresh. destruct (truthy rid) eqn:Ht; [|reflexivity].
  destruct (Hfresh Ht) as [Hk _].
  unfold IdempotencyRepository.findByRequestId, gets. rewrite Hk. reflexivity.
Qed.

Lemma deposit_body_not_active (walletId : string) (amount : Z) (rid : option string)
    (w : World) (wallet : Wallet) :
  wallets (db w) !! walletId = Some wallet ->
  status wallet <> ACTIVE -> 0 < amount ->
  WalletService.idempotentBody walletId amount FUNDS_DEPOSITED
    (fun _ => WalletEntity.deposit amount) rid true TransactionManager.context (began w)
  = (began w, inl (WalletNotActiveError (status wallet))).
Proof.
  intros Hw Hst Hpos.
  unfold WalletService.idempotentBody, WalletRepository.getOrCreate,
    WalletRepository.withManager.
  cbn [manager TransactionManager.context].
  unfold bind at 1. unfold bind at 1. unfold em_read at 1.
  cbn [began runner set_runner set_eventsToPublish work]. rewrite Hw.
  unfold ret at 1. unfold bind at 1. unfold newDate, gets.
  unfold bind at 1. unfold call, WalletEntity.deposit, WalletEntity.validatePositiveAmount,
    WalletEntity.ensureWalletActive.
  destruct (amount <=? 0) eqn:Hle; [apply Z.leb_le in Hle; lia|].
  unfold bind, gets, ret, throw. cbn.
  case_decide; [reflexivity | contradiction].
Qed.

(** C10: on a wallet that exists and is FROZEN or CLOSED, a deposit of a
    strictly positive amount (a fresh request, if it carries a request id)
    fails with WalletNotActiveError, and the store is unchanged: the
    wallet, with its balance, is as before and nothing was committed. *)
Theorem C10_deposit_requires_active
    (walletId : string) (amount : Z) (rid : option string)
    (w : World) (wallet : Wallet) :
  wallets (db w) !! walletId = Some wallet ->
  status wallet = FROZEN \/ status wallet = CLOSED ->
  0 < amount ->
  freshRequest rid w ->
  let out := WalletService.deposit walletId amount rid w in
  out.2 = inl (WalletNotActiveError (status wallet))
  /\ db out.1 = db w
  /\ wallets (db out.1) !! walletId = Some wallet
  /\ journal out.1 = journal w.
Proof.
  intros Hw Hst Hpos Hfresh out.
  assert (Hna : status wallet <> ACTIVE) by (destruct Hst as [-> | ->]; discriminate).
  destruct (acquireLock_fresh rid w Hfresh) as [r Hr].
  assert (Hrun : WalletService.deposit walletId amount rid w
                 = (finished (WalletService.idempotentOptions rid)
                      (set_runner (Some {| work := db w; writes := [] |})
                         (began (set_redis (fun _ => r) w))),
                    inl (WalletNotActiveError (status wallet)))).
  { unfold WalletService.deposit, WalletService.executeIdempotentTransaction.
    unfold bind at 1. unfold bind at 1.
    rewrite (findByRequestId_fresh rid w Hfresh).
    rewrite execute_unfold, Hr.
    rewrite (deposit_body_not_active walletId amount rid (set_redis (fun _ => r) w) wallet)
      by (try assumption; destruct w; exact Hw).
    destruct w; reflexivity. }
  subst out. rewrite Hrun. cbn [fst snd].
  rewrite finished_db, finished_journal.
  split; [reflexivity|]. split; [destruct w; reflexivity|].
  split; [destruct w; exact Hw | destruct w; reflexivity].
Qed.

Lemma C10_deposit_requires_active_witness :
  let out := WalletService.deposit "carol" 1000 (Some "req-9") frozenWorld in
  out.2 = inl (WalletNotActiveError FROZEN)
  /\ balance <$> wallets (db out.1) !! "carol" = Some 5000.
Proof.
  intros out.
  assert (Hfresh : freshRequest (Some "req-9") frozenWorld).
  { intros _. split; reflexivity. }
  pose proof (C10_deposit_requires_active "carol" 1000 (Some "req-9") frozenWorld
                (set_status FROZEN (set_balance 5000 (new_Wallet "carol" "USD")))
                eq_refl (or_introl eq_refl) ltac:(lia) Hfresh) as H.
  cbv zeta in H. fold out in H. destruct H as (Hr & _ & Hw & _).
  split; [exact Hr|]. rewrite Hw. reflexivity.
Defined.

(** ** The retry policy *)

Create HintDb quiet.

Lemma quiet_ret {A} (a : A) : quiet (ret a).
Proof. intros w. reflexivity. Qed.

Lemma quiet_throw {A} (e : Error) : quiet (@throw World A e).
Proof. intros w. reflexivity. Qed.

Lemma quiet_gets {A} (f : World -> A) : quiet (gets f).
Proof. intros w. reflexivity. Qed.

Lemma quiet_modify (f : World -> World) :
  (forall w, frame (f w) = frame w) -> quiet (modify f).
Proof. intros H w. apply H. Qed.

Lemma quiet_bind {A B} (m : M World A) (f : A -> M World B) :
  quiet m -> (forall a, quiet (f a)) -> quiet (bind m f).
Proof.
  intros Hm Hf w. unfold bind. specialize (Hm w).
  destruct (m w) as [w1 [e|a]]; [exact Hm|].
  rewrite <- Hm. apply Hf.
Qed.

Lemma quiet_try_catch {A} (m : M World A) (h : Error -> M World A) :
  quiet m -> (forall e, quiet (h e)) -> quiet (try_catch m h).
Proof.
  intros Hm Hh w. unfold try_catch. specialize (Hm w).
  destruct (m w) as [w1 [e|a]]; [|exact Hm].
  rewrite <- Hm. apply Hh.
Qed.

Lemma quiet_try_finally {A} (m : M World A) (fin : M World unit) :
  quiet m -> quiet fin -> quiet (try_finally m fin).
Proof.
  intros Hm Hf w. unfold try_finally. specialize (Hm w).
  destruct (m w) as [w1 r]. specialize (Hf w1).
  destruct (fin w1) as [w2 [e|u]]; cbn [fst] in *; congruence.
Qed.

Lemma quiet_call {E A} (method : M E A) (obj : E) : quiet (@call World E A method obj).
Proof. intros w. unfold call. destruct (method obj) as [o [e|a]]; reflexivity. Qed.

Lemma quiet_em_read {A} (f : Store -> A) : quiet (em_read f).
Proof. intros w. unfold em_read. destruct (runner w); reflexivity. Qed.

Lemma quiet_em_write (op : WriteOp) (f : Store -> Store) : quiet (em_write op f).
Proof. intros w. unfold em_write. destruct (runner w); reflexivity. Qed.

Lemma quiet_commitTransaction : quiet commitTransaction.
Proof.
  intros w. unfold commitTransaction.
  destruct (runner w); [|reflexivity].
  destruct (commitFaults w) as [|[e|] rest]; reflexivity.
Qed.

Lemma quiet_publish (event : WalletEventMessage) (exchange : option string) :
  quiet (EventPublisher.publish event exchange).
Proof.
  intros w. unfold EventPublisher.publish, bind, gets.
  destruct (publisherConnected w); reflexivity.
Qed.

#[local] Hint Resolve quiet_ret quiet_throw quiet_gets quiet_call quiet_em_read
  quiet_em_write quiet_commitTransaction quiet_publish : quiet.

Ltac quiet_step :=
  match goal with
  | |- quiet (bind _ _) => apply quiet_bind; [|intros ?]
  | |- quiet (try_catch _ _) => apply quiet_try_catch; [|intros ?]
  | |- quiet (try_finally _ _) => apply quiet_try_finally
  | |- quiet (modify _) => apply quiet_modify; intros ?; reflexivity
  | |- quiet (match ?x with _ => _ end) => destruct x
  | |- quiet (if ?c then _ else _) => destruct c
  | |- quiet _ => solve [auto with quiet]
  end.

Ltac quiet_auto := repeat quiet_step.

Lemma quiet_saveAll (events : list OutboxEvent) (manager : option EntityManager) :
  quiet (OutboxRepository.saveAll events manager).
Proof.
  induction events as [|ev events IH]; cbn [OutboxRepository.saveAll].
  - quiet_auto.
  - apply quiet_bind; [|intros _; exact IH].
    unfold repo_write. quiet_auto.
Qed.

Lemma quiet_publishEach (events : list OutboxEvent) :
  quiet (TransactionManager.publishEach events).
Proof.
  induction events as [|ev events IH]; cbn [TransactionManager.publishEach].
  - quiet_auto.
  - apply quiet_bind; [|intros _; exact IH]. quiet_auto.
Qed.

#[local] Hint Resolve quiet_saveAll quiet_publishEach : quiet.

(** The coordinator adds no delay of its own. *)
Lemma quiet_execute {A} (operation : TransactionContext -> M World A)
    (options : TransactionOptions) :
  quiet (operation TransactionManager.context) ->
  quiet (TransactionManager.execute operation options).
Proof.
  intros Hop.
  unfold TransactionManager.execute, TransactionManager.acquireLock,
    TransactionManager.releaseLock, TransactionManager.publishEventsAsync,
    startTransaction, rollbackTransaction, release, newDate.
  quiet_auto.
Qed.

Lemma quiet_stepBody sagaId walletId amount operation ty metadata updateSaga :
  quiet (TransferSagaService.stepBody sagaId walletId amount operation ty metadata
           updateSaga TransactionManager.context).
Proof.
  unfold TransferSagaService.stepBody, newDate.
  cbn [publishEvent TransactionManager.context].
  quiet_auto.
Qed.

Lemma quiet_idempotentBody walletId amount ty operation rid autoCreate :
  quiet (WalletService.idempotentBody walletId amount ty operation rid autoCreate
           TransactionManager.context).
Proof.
  unfold WalletService.idempotentBody, WalletRepository.getOrCreate,
    WalletRepository.findByIdWithLock, WalletRepository.saveWithEvent,
    WalletRepository.withManager, IdempotencyRepository.save,
    repo_read, repo_write, newDate.
  cbn [manager publishEvent TransactionManager.context].
  quiet_auto.
Qed.

(** The wallet engine never waits and never draws jitter: its deposits and
    withdrawals are not retried with backoff. *)
Lemma quiet_wallet_engine (walletId : string) (amount : Z) (rid : option string) :
  quiet (WalletService.deposit walletId amount rid)
  /\ quiet (WalletService.withdraw walletId amount rid).
Proof.
  split;
    unfold WalletService.deposit, WalletService.withdraw,
      WalletService.executeIdempotentTransaction, WalletService.setBalanceCache,
      IdempotencyRepository.findByRequestId, newDate;
    repeat first [ apply quiet_execute, quiet_idempotentBody | quiet_step ].
Qed.

Lemma isRetryableError_kinds (e : Error) :
  TransferSagaService.isRetryableError e = true <->
  e = QueryFailedError "40001" \/ e = QueryFailedError "40P01"
  \/ e = QueryFailedError "23505" \/ e = OptimisticLockVersionMismatchError.
Proof.
  split.
  - destruct e; cbn; try discriminate; [|auto].
    rewrite !orb_true_iff, !bool_decide_eq_true. intros [[-> | ->] | ->]; auto.
  - intros [-> | [-> | [-> | ->]]]; reflexivity.
Qed.

Lemma performExponentialBackoff_run (attempt : nat) (initial : Z) (w : World) :
  let w' := (TransferSagaService.performExponentialBackoff attempt initial w).1 in
  TransferSagaService.performExponentialBackoff attempt initial w = (w', inr tt)
  /\ sleeps w' = (sleeps w ++ [TransferSagaService.backoffMs attempt initial
                                + jitterSource w (jitterCount w)])%list
  /\ jitterSource w' = jitterSource w
  /\ jitterCount w' = S (jitterCount w)
  /\ config w' = config w.
Proof.
  unfold TransferSagaService.performExponentialBackoff, bind, randomJitter, sleep, modify.
  cbn. auto.
Qed.

Lemma retryLoop_transient {A} (op : M World A) (initial : Z) (i k : nat) (w w' : World) :
  transientRun op initial i k w w' ->
  forall n, (k <= n)%nat ->
  TransferSagaService.retryLoop op initial n i w
  = TransferSagaService.retryLoop op initial (n - k) (i + k) w'.
Proof.
  induction 1 as [i w | i k w w1 e w' Hop Hre Hrun IH]; intros n Hn.
  - rewrite Nat.sub_0_r, Nat.add_0_r. reflexivity.
  - destruct n as [|n]; [lia|].
    cbn [TransferSagaService.retryLoop]. unfold try_catch. rewrite Hop, Hre.
    unfold bind at 1.
    destruct (performExponentialBackoff_run i initial w1) as (Hb & _). cbv zeta in Hb.
    rewrite Hb. rewrite IH by lia.
    replace (S i + k)%nat with (i + S k)%nat by lia. reflexivity.
Qed.

Lemma transientRun_sleeps {A} (op : M World A) (initial : Z) (i k : nat) (w w' : World) :
  quiet op ->
  transientRun op initial i k w w' ->
  sleeps w' = (sleeps w ++ delays initial (fun j => jitterSource w (jitterCount w + j)) i k)%list
  /\ jitterSource w' = jitterSource w
  /\ jitterCount w' = (jitterCount w + k)%nat.
Proof.
  intros Hq. induction 1 as [i w | i k w w1 e w' Hop Hre Hrun IH].
  - unfold delays. cbn. rewrite app_nil_r, Nat.add_0_r. auto.
  - pose proof (Hq w) as Hf. rewrite Hop in Hf. cbn [fst] in Hf. unfold frame in Hf.
    injection Hf as Hs Hj Hc.
    destruct (performExponentialBackoff_run i initial w1) as (_ & Hs1 & Hj1 & Hc1 & _).
    cbv zeta in Hs1, Hj1, Hc1.
    destruct IH as (IHs & IHj & IHc).
    split; [|split; [congruence | lia]].
    rewrite IHs, Hs1, Hs. unfold delays. rewrite <- app_assoc. f_equal.
    cbn [seq map app]. rewrite Hj, Hc. f_equal.
    { rewrite !Nat.add_0_r. reflexivity. }
    rewrite <- seq_shift, map_map. apply map_ext. intros j.
    rewrite Hj1, Hc1, Hj, Hc.
    replace (S i + j)%nat with (i + S j)%nat by lia.
    replace (S (jitterCount w) + j)%nat with (jitterCount w + S j)%nat by lia.
    reflexivity.
Qed.

Lemma backoffMs_bounds (attempt : nat) : 50 <= TransferSagaService.backoffMs attempt 50 <= 5000.
Proof.
  unfold TransferSagaService.backoffMs.
  assert (1 <= 2 ^ Z.of_nat attempt) by (apply Z.pow_le_mono_r with (b := 0); lia).
  lia.
Qed.

Lemma delays_bounds (jitter : nat -> Z) (i k : nat) :
  (forall n, 0 <= jitter n < 100) ->
  Forall (fun d => 50 <= d < 5100) (delays 50 jitter i k).
Proof.
  intros Hj. unfold delays. apply Forall_forall. intros d Hd.
  apply list_elem_of_fmap in Hd as (j & -> & _).
  pose proof (backoffMs_bounds (i + j)). pose proof (Hj j). lia.
Qed.

Lemma retryLoop_first {A} (op : M World A) (initial : Z) (n i : nat) (w w1 : World)
    (r : Error + A) :
  op w = (w1, r) ->
  match r with
  | inl e => TransferSagaService.isRetryableError e = false
  | inr _ => True
  end ->
  TransferSagaService.retryLoop op initial (S n) i w = (w1, r).
Proof.
  intros Hop Hr. cbn [TransferSagaService.retryLoop]. unfold try_catch. rewrite Hop.
  destruct r as [e|a]; [rewrite Hr|]; reflexivity.
Qed.

(** C5, amended: the retry policy is the saga engine's.  With the default
    configuration, when the first [k] attempts of a step fail with a
    transient store error (serialization failure, deadlock, unique
    violation, optimistic version mismatch), [executeWithRetry] sleeps
    after each of them for min(50 * 2^attempt, 5000) ms plus a jitter of
    0 to 100 ms; if [k] is below 10 the outcome of the next attempt (a
    result, or an error that is not transient) is the outcome of the call,
    and after 10 failed attempts it gives up with an error.  The wallet
    engine's deposit and withdraw never wait: they are not retried with
    backoff. *)
Theorem C5_saga_engine_retries {A} (op : M World A) (w w' : World) (k : nat) :
  maxRetries (config w) = 10%nat ->
  initialBackoffMs (config w) = 50 ->
  quiet op ->
  (forall n, 0 <= jitterSource w n < 100) ->
  transientRun op 50 0 k w w' ->
  (k <= 10)%nat ->
  let ds := delays 50 (fun j => jitterSource w (jitterCount w + j)) 0 k in
  sleeps w' = (sleeps w ++ ds)%list
  /\ ds = map (fun j => Z.min (2 ^ Z.of_nat j * 50) 5000
                        + jitterSource w (jitterCount w + j)) (seq 0 k)
  /\ Forall (fun d => 50 <= d < 5100) ds
  /\ (k = 10%nat ->
      TransferSagaService.executeWithRetry op w
      = (w', inl (PlainError "Operation failed due to concurrent modification. Please retry.")))
  /\ (forall w'' r,
        (k < 10)%nat ->
        op w' = (w'', r) ->
        match r with
        | inl e => TransferSagaService.isRetryableError e = false
        | inr _ => True
        end ->
        TransferSagaService.executeWithRetry op w = (w'', r))
  /\ (forall e,
        TransferSagaService.isRetryableError e = true <->
        e = QueryFailedError "40001" \/ e = QueryFailedError "40P01"
        \/ e = QueryFailedError "23505" \/ e = OptimisticLockVersionMismatchError)
  /\ (forall walletId amount rid,
        quiet (WalletService.deposit walletId amount rid)
        /\ quiet (WalletService.withdraw walletId amount rid)).
Proof.
  intros Hmax Hinit Hq Hj Hrun Hk ds.
  destruct (transientRun_sleeps op 50 0 k w w' Hq Hrun) as (Hs & _ & _).
  split; [exact Hs|].
  split; [reflexivity|].
  split; [apply delays_bounds; intros n; apply Hj|].
  assert (Hloop : TransferSagaService.executeWithRetry op w
                  = TransferSagaService.retryLoop op 50 (10 - k) (0 + k) w').
  { unfold TransferSagaService.executeWithRetry, bind, gets.
    rewrite Hmax, Hinit. apply retryLoop_transient; assumption. }
  split; [intros ->; rewrite Hloop; reflexivity|].
  split; [|split; [exact isRetryableError_kinds | exact quiet_wallet_engine]].
  intros w'' r Hlt Hop Hr. rewrite Hloop.
  replace (10 - k)%nat with (S (9 - k)) by lia.
  apply retryLoop_first; assumption.
Qed.

(** *** Concrete worlds *)

(** Two transient failures, then success: two backoffs of 50 and 100 ms
    plus jitter, and the credit is applied once. *)
Lemma C5_saga_engine_retries_witness :
  exists w' out,
    transientRun creditLeg 50 0 2 flakyWorld w'
    /\ TransferSagaService.executeWithRetry creditLeg flakyWorld = (out, inr tt)
    /\ sleeps w' = [57; 107]
    /\ balance <$> wallets (db out) !! "bob" = Some 5000.
Proof.
  assert (Hrun : exists w', transientRun creditLeg 50 0 2 flakyWorld w'
                            /\ (creditLeg w').2 = inr tt
                            /\ balance <$> wallets (db (creditLeg w').1) !! "bob" = Some 5000).
  { eexists. split.
    - eapply transient_again; [vm_compute; reflexivity | reflexivity |].
      eapply transient_again; [vm_compute; reflexivity | reflexivity |].
      apply transient_done.
    - split; vm_compute; reflexivity. }
  destruct Hrun as (w' & Hrun & Hok & Hbob).
  pose proof (C5_saga_engine_retries creditLeg flakyWorld w' 2 eq_refl eq_refl
                (quiet_execute _ _ (quiet_stepBody _ _ _ _ _ _ _))
                ltac:(intros n; cbn; lia) Hrun ltac:(lia)) as H.
  cbv zeta in H. destruct H as (Hs & _ & _ & _ & Hnext & _).
  exists w', (creditLeg w').1. split; [exact Hrun|].
  split.
  - apply Hnext; [lia | | exact I].
    destruct (creditLeg w') as [wo ro]. cbn [snd] in Hok. rewrite Hok. reflexivity.
  - split; [rewrite Hs; reflexivity | exact Hbob].
Defined.

(** C5, counterexample: a withdrawal through the wallet engine whose commit
    hits a serialization failure (a retryable error for the saga engine) is
    not retried: the error reaches the caller after one attempt, with no
    backoff, although the next commit would have succeeded. *)
Lemma C5_wallet_engine_does_not_retry :
  let w := set_commitFaults [Some (QueryFailedError "40001")] twoWallets in
  let out := WalletService.withdraw "alice" 1000 None w in
  TransferSagaService.isRetryableError (QueryFailedError "40001") = true
  /\ out.2 = inl (QueryFailedError "40001")
  /\ sleeps out.1 = []
  /\ commitFaults out.1 = []
  /\ balance <$> wallets (db out.1) !! "alice" = Some 10000
  /\ (WalletService.withdraw "alice" 1000 None out.1).2 = inr (BalanceResponse 9000 "alice").
Proof.
  repeat split; vm_compute; reflexivity.
Qed.

(** ** Compensation *)

Lemma credit_active (amount : Z) (wallet : Wallet) :
  0 < amount -> status wallet = ACTIVE ->
  WalletEntity.credit amount wallet
  = (set_balance (balance wallet + amount) wallet, inr tt).
Proof.
  intros Hpos Hst. unfold WalletEntity.credit, WalletEntity.validatePositiveAmount,
    WalletEntity.ensureWalletActive.
  destruct (amount <=? 0) eqn:Hle; [apply Z.leb_le in Hle; lia|].
  unfold bind, gets, modify, ret. cbn. rewrite Hst.
  case_decide; [congruence | reflexivity].
Qed.

Lemma credit_not_active (amount : Z) (wallet : Wallet) :
  0 < amount -> status wallet <> ACTIVE ->
  WalletEntity.credit amount wallet = (wallet, inl (WalletNotActiveError (status wallet))).
Proof.
  intros Hpos Hst. unfold WalletEntity.credit, WalletEntity.validatePositiveAmount,
    WalletEntity.ensureWalletActive.
  destruct (amount <=? 0) eqn:Hle; [apply Z.leb_le in Hle; lia|].
  unfold bind, gets, modify, ret, throw. cbn.
  case_decide; [reflexivity | contradiction].
Qed.

Lemma markAsCompensated_debited (reason : string) (sg : TransferSaga) :
  state sg = DEBITED ->
  SagaEntity.markAsCompensated reason sg = (compensated reason sg, inr tt).
Proof.
  intros Hst. unfold SagaEntity.markAsCompensated, bind, gets, modify. cbn. rewrite Hst.
  case_decide; [congruence | reflexivity].
Qed.

Ltac run :=
  cbn -[WalletEntity.credit WalletEntity.withdraw WalletEntity.deposit
        SagaEntity.markAsCompensated SagaEntity.markAsDebited
        SagaEntity.markAsCompleted SagaEntity.markAsFailed
        Z.add Z.sub Z.mul Z.pow Z.min String.append].

Lemma compensationBody_not_active (w : World) (sagaId from : string) (amount : Z)
    (reason : string) (src : Wallet) :
  wallets (db w) !! from = Some src ->
  0 < amount -> status src <> ACTIVE ->
  compensationBody sagaId from amount reason TransactionManager.context (began w)
  = (began w, inl (WalletNotActiveError (status src))).
Proof.
  intros Hsrc Hpos Hst.
  unfold compensationBody, TransferSagaService.stepBody, bind, em_read, newDate, gets, call.
  run. rewrite Hsrc. run.
  rewrite (credit_not_active amount src Hpos Hst). reflexivity.
Qed.

Lemma compensationBody_active (w : World) (sagaId from : string) (amount : Z)
    (reason : string) (sg : TransferSaga) (src : Wallet) :
  wallets (db w) !! from = Some src -> wallet_id src = from ->
  transfer_sagas (db w) !! sagaId = Some sg -> saga_id sg = sagaId ->
  state sg = DEBITED ->
  0 < amount -> status src = ACTIVE ->
  compensationBody sagaId from amount reason TransactionManager.context (began w)
  = (set_eventsToPublish [compensationOutbox w sagaId from amount reason]
       (set_runner (Some {| work := compensationView w sagaId from amount reason sg src;
                            writes := [SaveWallet from; SaveSaga sagaId COMPENSATED;
                                       InsertEvent from TRANSFER_COMPENSATED] |}) w),
     inr tt).
Proof.
  intros Hsrc Hid Hsg Hsid Hdeb Hpos Hst.
  unfold compensationBody, TransferSagaService.stepBody, bind, em_read, em_write,
    newDate, gets, call, modify.
  run. rewrite Hsrc. run.
  rewrite (credit_active amount src Hpos Hst). run. rewrite Hsg. run.
  rewrite (markAsCompensated_debited reason sg Hdeb). run.
  rewrite Hid, Hsid. destruct w. reflexivity.
Qed.

Lemma executeWithRetry_first {A} (op : M World A) (w w1 : World) (r : Error + A) :
  (0 < maxRetries (config w))%nat ->
  op w = (w1, r) ->
  match r with
  | inl e => TransferSagaService.isRetryableError e = false
  | inr _ => True
  end ->
  TransferSagaService.executeWithRetry op w = (w1, r).
Proof.
  intros Hmax Hop Hr. unfold TransferSagaService.executeWithRetry, bind, gets.
  destruct (maxRetries (config w)) as [|n]; [lia|].
  apply retryLoop_first; assumption.
Qed.

Lemma acquireLock_none (w : World) :
  TransactionManager.acquireLock TransferSagaService.stepOptions w = (w, inr tt).
Proof. reflexivity. Qed.

Lemma finished_stepOptions (w : World) :
  finished TransferSagaService.stepOptions w = set_runner None w.
Proof. reflexivity. Qed.

(** C1, counterexample: with the source wallet FROZEN, compensation does
    not credit the refund: it throws WalletNotActiveError, the balance is as
    before and the saga stays DEBITED; with the source wallet CLOSED it
    throws as well and the saga stays DEBITED instead of ending FAILED. *)
Lemma C1_compensation_refused_when_not_active :
  let frozen := set_db (set_wallets (insert "alice"
                  (set_status FROZEN (activeWallet "alice" 5000)))) debitedWorld in
  let closed := set_db (set_wallets (insert "alice"
                  (set_status CLOSED (activeWallet "alice" 0)))) debitedWorld in
  let out1 := TransferSagaService.compensate "saga-1" "alice" 5000 "credit failed" frozen in
  let out2 := TransferSagaService.compensate "saga-1" "alice" 5000 "credit failed" closed in
  out1.2 = inl (WalletNotActiveError FROZEN)
  /\ balance <$> wallets (db out1.1) !! "alice" = Some 5000
  /\ state <$> transfer_sagas (db out1.1) !! "saga-1" = Some DEBITED
  /\ out2.2 = inl (WalletNotActiveError CLOSED)
  /\ state <$> transfer_sagas (db out2.1) !! "saga-1" = Some DEBITED.
Proof.
  repeat split; vm_compute; reflexivity.
Qed.

(** C1, amended: for a saga in state DEBITED, compensation credits the
    refund to the source wallet, moves the saga to COMPENSATED and writes
    the TRANSFER_COMPENSATED event and outbox row in one transaction when
    the source wallet is ACTIVE; when the source wallet is FROZEN or CLOSED
    the credit is refused with WalletNotActiveError, nothing is refunded or
    written, and the saga stays DEBITED. *)
Theorem C1_compensation_needs_active_source
    (w : World) (sagaId from : string) (amount : Z) (reason : string)
    (sg : TransferSaga) (src : Wallet) :
  transfer_sagas (db w) !! sagaId = Some sg -> saga_id sg = sagaId ->
  state sg = DEBITED ->
  wallets (db w) !! from = Some src -> wallet_id src = from ->
  0 < amount ->
  (0 < maxRetries (config w))%nat ->
  let out := TransferSagaService.compensate sagaId from amount reason w in
  (status src = FROZEN \/ status src = CLOSED ->
     out.2 = inl (WalletNotActiveError (status src))
     /\ db out.1 = db w
     /\ journal out.1 = journal w)
  /\ (status src = ACTIVE -> commitFaults w = [] ->
     wallets (db out.1) !! from = Some (set_balance (balance src + amount) src)
     /\ transfer_sagas (db out.1) !! sagaId = Some (compensated reason sg)
     /\ state (compensated reason sg) = COMPENSATED
     /\ journal out.1
        = (journal w ++ [[SaveWallet from; SaveSaga sagaId COMPENSATED;
                          InsertEvent from TRANSFER_COMPENSATED;
                          SaveOutbox TRANSFER_COMPENSATED]])%list
     /\ (publisherConnected w = true -> out.2 = inr tt)).
Proof.
  intros Hsg Hsid Hdeb Hsrc Hid Hpos Hmax out.
  split.
  - intros Hst.
    assert (Hna : status src <> ACTIVE) by (destruct Hst as [-> | ->]; discriminate).
    assert (Hrun : out = (set_runner None (set_runner (Some {| work := db w; writes := [] |})
                                             (began w)),
                          inl (WalletNotActiveError (status src)))).
    { subst out. unfold TransferSagaService.compensate, TransferSagaService.executeTransactionalStep.
      fold (compensationMetadata sagaId reason).
      fold (compensationBody sagaId from amount reason).
      unfold try_catch, bind.
      rewrite (executeWithRetry_first _ w
                 (set_runner None (set_runner (Some {| work := db w; writes := [] |}) (began w)))
                 (inl (WalletNotActiveError (status src))) Hmax); [reflexivity| |reflexivity].
      rewrite execute_unfold, acquireLock_none.
      rewrite (compensationBody_not_active w sagaId from amount reason src Hsrc Hpos Hna).
      rewrite finished_stepOptions. destruct w; reflexivity. }
    rewrite Hrun. cbn [fst snd]. destruct w; auto.
  - intros Hst Hnofault.
    pose (w1 := set_eventsToPublish [compensationOutbox w sagaId from amount reason]
       (set_runner (Some {| work := compensationView w sagaId from amount reason sg src;
                            writes := [SaveWallet from; SaveSaga sagaId COMPENSATED;
                                       InsertEvent from TRANSFER_COMPENSATED] |}) w)).
    pose (view := withOutbox [compensationOutbox w sagaId from amount reason]
                    (compensationView w sagaId from amount reason sg src)).
    pose (tx := [SaveWallet from; SaveSaga sagaId COMPENSATED;
                 InsertEvent from TRANSFER_COMPENSATED; SaveOutbox TRANSFER_COMPENSATED]).
    assert (Hstep : exists w4,
      TransferSagaService.executeWithRetry
        (TransactionManager.execute (compensationBody sagaId from amount reason)
           TransferSagaService.stepOptions) w = (w4, inr tt)
      /\ db w4 = view /\ journal w4 = (journal w ++ [tx])%list
      /\ publisherConnected w4 = publisherConnected w).
    { assert (Hex : exists w4,
        TransactionManager.execute (compensationBody sagaId from amount reason)
          TransferSagaService.stepOptions w = (w4, inr tt)
        /\ db w4 = view /\ journal w4 = (journal w ++ [tx])%list
        /\ publisherConnected w4 = publisherConnected w).
      { rewrite execute_unfold, acquireLock_none.
        rewrite (compensationBody_active w sagaId from amount reason sg src
                   Hsrc Hid Hsg Hsid Hdeb Hpos Hst).
        fold w1. cbn [eventsToPublish w1 set_eventsToPublish length].
        case_decide as Hlen; [|cbn in Hlen; lia].
        rewrite (saveAll_runner _ w1 _ eq_refl).
        unfold commitTransaction. cbn [runner set_runner commitFaults w1 set_eventsToPublish].
        rewrite Hnofault.
        match goal with
        | |- context [TransactionManager.publishEventsAsync ?evs ?w3] =>
            destruct (publishEventsAsync_bus evs w3) as [b Hb]; rewrite Hb
        end.
        rewrite finished_stepOptions. eexists. split; [reflexivity|].
        destruct w; cbn; auto. }
      destruct Hex as (w4 & Hex & Hrest). exists w4. split; [|exact Hrest].
      apply executeWithRetry_first; [exact Hmax | exact Hex | exact I]. }
    destruct Hstep as (w4 & Hstep & Hdb & Hj & Hconn).
    assert (Hout : exists wf r,
              TransferSagaService.compensate sagaId from amount reason w = (wf, r)
              /\ db wf = view /\ journal wf = (journal w ++ [tx])%list
              /\ (publisherConnected w = true -> r = inr tt)).
    { unfold TransferSagaService.compensate, TransferSagaService.executeTransactionalStep.
      fold (compensationMetadata sagaId reason).
      fold (compensationBody sagaId from amount reason).
      unfold try_catch. unfold bind at 1. rewrite Hstep.
      unfold bind, newDate, gets, EventPublisher.publish, bind, gets, modify, throw.
      rewrite Hconn.
      destruct (publisherConnected w); cbn [negb]; eexists; eexists;
        (split; [reflexivity|]); cbn [db journal set_bus]; rewrite ?Hdb, ?Hj;
        (split; [reflexivity|]); (split; [reflexivity|]); [reflexivity | discriminate]. }
    destruct Hout as (wf & r & Hrun & Hodb & Hoj & Hres).
    subst out. rewrite Hrun. cbn [fst snd].
    rewrite Hodb, Hoj. subst view tx.
    split; [cbn; apply lookup_insert_eq|].
    split; [cbn; apply lookup_insert_eq|].
    split; [reflexivity|]. split; [reflexivity | exact Hres].
Qed.

Lemma C1_compensation_needs_active_source_witness :
  let out := TransferSagaService.compensate "saga-1" "alice" 5000 "credit failed"
               debitedWorld in
  balance <$> wallets (db out.1) !! "alice" = Some 10000
  /\ state <$> transfer_sagas (db out.1) !! "saga-1" = Some COMPENSATED
  /\ out.2 = inr tt.
Proof.
  intros out.
  pose proof (C1_compensation_needs_active_source debitedWorld "saga-1" "alice" 5000
                "credit failed" debitedSaga (activeWallet "alice" 5000)
                ltac:(vm_compute; reflexivity) eq_refl eq_refl
                ltac:(vm_compute; reflexivity) eq_refl ltac:(lia)
                ltac:(cbn; lia)) as H.
  cbv zeta in H. fold out in H. destruct H as [_ H].
  destruct (H eq_refl eq_refl) as (Hw & Hs & _ & _ & Hr).
  rewrite Hw, Hs. split; [reflexivity|]. split; [reflexivity|]. exact (Hr eq_refl).
Defined.

(** ** Transfers: notifications and the idempotency record *)

(** C3, the code at the failing input: a transfer of 50.00 from alice to
    bob completes, and the only outbox rows and journal events are those of
    the two legs; TRANSFER_INITIATED and TRANSFER_COMPLETED were handed to
    the broker directly and are persisted nowhere. *)
Theorem C3_transfer_notifications_bypass_outbox :
  (exists r, transferOut.2 = inr (TransferResponse r) /\ res_state r = COMPLETED)
  /\ map outbox_eventType (outbox_events (db transferOut.1))
     = [FUNDS_WITHDRAWN; FUNDS_DEPOSITED]
  /\ map eventType (wallet_events (db transferOut.1))
     = [FUNDS_WITHDRAWN; FUNDS_DEPOSITED]
  /\ TRANSFER_INITIATED ∈ map (fun m => msg_eventType m.2) (bus transferOut.1)
  /\ TRANSFER_COMPLETED ∈ map (fun m => msg_eventType m.2) (bus transferOut.1).
Proof.
  split; [eexists; split; vm_compute; reflexivity|].
  split; [vm_compute; reflexivity|]. split; [vm_compute; reflexivity|].
  split; vm_compute; repeat constructor.
Qed.

(** With the publisher down the same transfer stops at the first
    notification: the saga is left PENDING, and no row records that a
    TRANSFER_INITIATED notification is owed. *)
Lemma transfer_with_publisher_down :
  let down := {| db := db twoWallets; runner := None; eventsToPublish := [];
                 redis := redis twoWallets; bus := []; publisherConnected := false;
                 clock := clock twoWallets; commitFaults := [];
                 jitterSource := jitterSource twoWallets; jitterCount := 0;
                 sleeps := []; journal := []; config := defaultConfig |} in
  let out := TransferSagaService.executeTransfer "alice" "bob" 5000 None down in
  out.2 = inl (PlainError "EventPublisher not connected")
  /\ state <$> transfer_sagas (db out.1) !! "uuid-0" = Some PENDING
  /\ outbox_events (db out.1) = []
  /\ bus out.1 = [].
Proof.
  repeat split; vm_compute; reflexivity.
Qed.

(** C4, the code at the failing input: the idempotency record of a
    transfer is written after the saga has completed, as a transaction of
    its own, and not in a transaction that changes a wallet or the saga; a
    deposit writes it in the transaction of the wallet, before the
    coordinator adds the outbox row. *)
Theorem C4_transfer_idempotency_key_outside_transaction :
  journal transferOut.1
  = [ [];
      [SaveSaga "uuid-0" PENDING];
      [SaveWallet "alice"; SaveSaga "uuid-0" DEBITED;
       InsertEvent "alice" FUNDS_WITHDRAWN; SaveOutbox FUNDS_WITHDRAWN];
      [SaveWallet "bob"; InsertEvent "bob" FUNDS_DEPOSITED; SaveOutbox FUNDS_DEPOSITED];
      [SaveSaga "uuid-0" COMPLETED];
      [SaveIdempotencyKey "r2"] ]
  /\ is_Some (idempotency_keys (db transferOut.1) !! "r2")
  /\ journal (WalletService.deposit "alice" 1000 (Some "r1") twoWallets).1
     = [ [SaveWallet "alice"; InsertEvent "alice" FUNDS_DEPOSITED;
          SaveIdempotencyKey "r1"; SaveOutbox FUNDS_DEPOSITED] ].
Proof.
  split; [vm_compute; reflexivity|].
  split; [vm_compute; eexists; reflexivity|].
  vm_compute; reflexivity.
Qed.

(** A replay answers from the stored record: the store, the journal and
    the bus are as before (a transfer replay changes nothing at all). *)
Lemma replay_returns_stored_response
    (w : World) (rid : string) (stored : Response) (walletId to : string) (amount : Z) :
  rid <> "" ->
  idempotency_keys (db w) !! rid = Some stored ->
  let d := WalletService.deposit walletId amount (Some rid) w in
  let wd := WalletService.withdraw walletId amount (Some rid) w in
  TransferSagaService.executeTransfer walletId to amount (Some rid) w = (w, inr stored)
  /\ d.2 = inr stored /\ db d.1 = db w /\ journal d.1 = journal w /\ bus d.1 = bus w
  /\ wd.2 = inr stored /\ db wd.1 = db w /\ journal wd.1 = journal w /\ bus wd.1 = bus w.
Proof.
  intros Hne Hk d wd.
  assert (Ht : truthy (Some rid) = true).
  { unfold truthy. case_decide; [contradiction | reflexivity]. }
  subst d wd.
  unfold TransferSagaService.executeTransfer, WalletService.deposit,
    WalletService.withdraw, WalletService.executeIdempotentTransaction,
    WalletService.setBalanceCache, IdempotencyRepository.findByRequestId,
    bind, gets, ret, newDate, modify.
  rewrite Ht. run. rewrite Hk. run. auto 10.
Qed.

(** The cache is another matter: a replayed deposit writes the balance of
    the stored response over the cached balance, whatever happened to the
    wallet since. *)
Lemma replay_rewrites_balance_cache :
  let w1 := (WalletService.deposit "alice" 1000 (Some "r1") twoWallets).1 in
  let w2 := (WalletService.deposit "alice" 500 (Some "r2") w1).1 in
  let w3 := (WalletService.deposit "alice" 1000 (Some "r1") w2).1 in
  balance <$> wallets (db w3) !! "alice" = Some 11500
  /\ redis_live (clock w2) (redis w2) "wallet:balance:alice" = Some "115"
  /\ redis_live (clock w3) (redis w3) "wallet:balance:alice" = Some "110".
Proof.
  repeat split; vm_compute; reflexivity.
Qed.

(** ** The wallet entity under sequences of calls *)

Ltac entity_unfold :=
  unfold runWalletOp, WalletEntity.deposit, WalletEntity.credit,
    WalletEntity.freeze, WalletEntity.unfreeze, WalletEntity.close,
    WalletEntity.setDailyWithdrawalLimit, WalletEntity.validatePositiveAmount,
    WalletEntity.ensureWalletActive, bind, gets, modify, ret, throw.

Ltac entity_cases :=
  repeat first
    [ case_decide
    | match goal with
      | |- context [?a <=? ?b] => destruct (Z.leb_spec a b)
      | |- context [?a >? ?b] => destruct (Z.gtb_spec a b)
      | |- context [?a <? ?b] => destruct (Z.ltb_spec a b)
      | |- context [match ?l with Some _ => _ | None => _ end] =>
          is_var l; destruct l
      end ];
  cbn -[Z.add Z.sub] in *.

(** The day reset either leaves the wallet alone or clears the total. *)
Lemma resetDailyLimitIfNewDay_cases (now : Z) (w : Wallet) :
  (WalletEntity.resetDailyLimitIfNewDay now w).1 = w
  \/ (WalletEntity.resetDailyLimitIfNewDay now w).1 = set_dailyWithdrawalTotal 0 w.
Proof.
  unfold WalletEntity.resetDailyLimitIfNewDay, bind, gets, modify, ret. cbn.
  case_decide; auto.
Qed.

(** [withdraw] on any wallet and for any amount: the two guards, then the
    sequence of C7. *)
Lemma withdraw_cases (w : Wallet) (amount now : Z) :
  WalletEntity.withdraw amount now w =
  if amount <=? 0 then (w, inl (InvalidAmountError amount "Withdrawal"))
  else if decide (status w <> ACTIVE) then (w, inl (WalletNotActiveError (status w)))
  else
    let w1 := (WalletEntity.resetDailyLimitIfNewDay now w).1 in
    let refusedByLimit :=
      match dailyWithdrawalLimit w with
      | Some limit => totalAfterReset w now + amount >? limit
      | None => false
      end in
    if refusedByLimit
    then (w1, inl (WithdrawalLimitExceededError amount
                     (default 0 (dailyWithdrawalLimit w))))
    else if balance w <? amount
         then (w1, inl (InsufficientFundsError (balance w) amount))
         else (set_lastWithdrawalDate (Some now)
                 (set_dailyWithdrawalTotal (totalAfterReset w now + amount)
                    (set_balance (balance w - amount) w1)), inr tt).
Proof.
  destruct (Z.leb_spec amount 0) as [Hle|Hpos].
  { unfold WalletEntity.withdraw, WalletEntity.validatePositiveAmount, bind, throw.
    destruct (Z.leb_spec amount 0); [reflexivity | lia]. }
  case_decide as Hst.
  { unfold WalletEntity.withdraw, WalletEntity.validatePositiveAmount,
      WalletEntity.ensureWalletActive, bind, gets, throw, ret.
    destruct (Z.leb_spec amount 0); [lia|]. cbn. case_decide; [reflexivity | contradiction]. }
  assert (Hactive : status w = ACTIVE) by (destruct (status w); congruence).
  rewrite (withdraw_unfold w amount now Hactive Hpos). cbv zeta.
  destruct (dailyWithdrawalLimit w) as [limit|]; cbn [default]; reflexivity.
Qed.

Lemma runWalletOp_balance (op : WalletOp) (w : Wallet) :
  0 <= balance w -> 0 <= balance (runWalletOp op w).1.
Proof.
  intros Hb. destruct op.
  2:{ cbn [runWalletOp]. rewrite withdraw_cases. cbv zeta.
      destruct (resetDailyLimitIfNewDay_cases now w) as [-> | ->];
        repeat first [ case_decide
                     | match goal with |- context [if ?c then _ else _] => destruct c eqn:? end ];
        cbn -[Z.sub]; try lia.
      all: match goal with H : (_ <? _) = false |- _ => apply Z.ltb_ge in H; lia end. }
  all: destruct w as [wid bal cur st lim tot last]; cbn in Hb;
    entity_unfold; cbn -[Z.add Z.sub]; entity_cases; lia.
Qed.

(** X1: whatever sequence of entity calls is made on a wallet, refused
    calls included, a balance that is not negative stays so. *)
Theorem X1_balance_never_negative (ops : list WalletOp) (w : Wallet) :
  0 <= balance w -> 0 <= balance (runWalletOps ops w).
Proof.
  revert w. induction ops as [|op ops IH]; intros w Hb; cbn [runWalletOps].
  - exact Hb.
  - apply IH, runWalletOp_balance, Hb.
Qed.

Lemma X1_balance_never_negative_witness :
  0 <= balance (runWalletOps [Deposit 5000; Withdraw 7000 1700000000000; Freeze;
                              Withdraw 100 1700000000000; Unfreeze;
                              Withdraw 5000 1700000000000; Withdraw 1 1700000000000]
                  (new_Wallet "dave" "USD"))
  /\ balance (runWalletOps [Deposit 5000; Withdraw 7000 1700000000000; Freeze;
                            Withdraw 100 1700000000000; Unfreeze;
                            Withdraw 5000 1700000000000; Withdraw 1 1700000000000]
                (new_Wallet "dave" "USD")) = 0.
Proof.
  split; [|reflexivity].
  apply (X1_balance_never_negative _ (new_Wallet "dave" "USD")). cbn. lia.
Defined.

(** ** The daily limit over a day of withdrawals *)

Lemma totalAfterReset_same_day (w : Wallet) (now now' : Z) :
  utcDay now = utcDay now' -> totalAfterReset w now = totalAfterReset w now'.
Proof.
  intros Hd. unfold totalAfterReset, WalletEntity.resetDailyLimitIfNewDay,
    WalletEntity.getTodayDate, bind, gets, modify, ret. cbn. rewrite Hd. reflexivity.
Qed.

Lemma totalAfterReset_set_total (w : Wallet) (now t : Z) :
  totalAfterReset (set_lastWithdrawalDate (Some now) (set_dailyWithdrawalTotal t w)) now = t.
Proof.
  unfold totalAfterReset, WalletEntity.resetDailyLimitIfNewDay,
    WalletEntity.getTodayDate, bind, gets, modify, ret. cbn.
  case_decide as H; [contradiction H|]; reflexivity.
Qed.

Lemma totalAfterReset_reset (w : Wallet) (now : Z) :
  totalAfterReset (WalletEntity.resetDailyLimitIfNewDay now w).1 now = totalAfterReset w now.
Proof.
  unfold totalAfterReset, WalletEntity.resetDailyLimitIfNewDay,
    WalletEntity.getTodayDate, bind, gets, modify, ret. cbn.
  repeat (case_decide; cbn in * ); first [reflexivity | contradiction].
Qed.

Lemma resetDailyLimitIfNewDay_limit (w : Wallet) (now : Z) :
  dailyWithdrawalLimit (WalletEntity.resetDailyLimitIfNewDay now w).1
  = dailyWithdrawalLimit w.
Proof. destruct (resetDailyLimitIfNewDay_cases now w) as [-> | ->]; reflexivity. Qed.

(** One attempt on day [utcDay now]: the limit stays, and the total that
    the next check of that day will see grows by what was taken out. *)
Lemma withdraw_day_step (w : Wallet) (amount now limit : Z) :
  dailyWithdrawalLimit w = Some limit ->
  let out := WalletEntity.withdraw amount now w in
  dailyWithdrawalLimit out.1 = Some limit
  /\ match out.2 with
     | inr _ =>
         0 < amount
         /\ totalAfterReset out.1 now = totalAfterReset w now + amount
         /\ totalAfterReset w now + amount <= limit
     | inl _ => totalAfterReset out.1 now = totalAfterReset w now
     end.
Proof.
  intros Hl out. subst out. rewrite withdraw_cases. cbv zeta. rewrite Hl.
  destruct (Z.leb_spec amount 0); [cbn [fst snd]; auto|].
  case_decide; [cbn [fst snd]; auto|].
  destruct (Z.gtb_spec (totalAfterReset w now + amount) limit).
  { cbn [fst snd]. rewrite resetDailyLimitIfNewDay_limit, totalAfterReset_reset. auto. }
  destruct (balance w <? amount).
  { cbn [fst snd]. rewrite resetDailyLimitIfNewDay_limit, totalAfterReset_reset. auto. }
  cbn [fst snd]. split.
  - cbn -[WalletEntity.resetDailyLimitIfNewDay].
    rewrite resetDailyLimitIfNewDay_limit. exact Hl.
  - split; [lia|]. split; [|lia].
    apply (totalAfterReset_set_total
             (set_balance (balance w - amount) (WalletEntity.resetDailyLimitIfNewDay now w).1)).
Qed.

Lemma withdrawnBy_day (attempts : list (Z * Z)) (w : Wallet) (limit today : Z) :
  dailyWithdrawalLimit w = Some limit ->
  Forall (fun attempt => utcDay attempt.2 = utcDay today) attempts ->
  0 <= totalAfterReset w today ->
  0 <= withdrawnBy attempts w <= Z.max 0 (limit - totalAfterReset w today).
Proof.
  revert w. induction attempts as [|[amount now] rest IH]; intros w Hl Hday Ht.
  - cbn. lia.
  - apply Forall_cons in Hday as [Hnow Hrest]. cbn [snd] in Hnow.
    cbn [withdrawnBy].
    destruct (withdraw_day_step w amount now limit Hl) as [Hl' Hstep].
    rewrite <- !(totalAfterReset_same_day _ now today Hnow).
    rewrite <- (totalAfterReset_same_day _ now today Hnow) in Ht.
    destruct (WalletEntity.withdraw amount now w) as [w' [e|[]]]; cbn [fst snd] in Hl', Hstep.
    + specialize (IH w' Hl' Hrest).
      rewrite <- (totalAfterReset_same_day _ now today Hnow), Hstep in IH.
      apply IH, Ht.
    + destruct Hstep as (Hpos & Htot & Hle).
      specialize (IH w' Hl' Hrest).
      rewrite <- (totalAfterReset_same_day _ now today Hnow), Htot in IH.
      specialize (IH ltac:(lia)). lia.
Qed.

(** X2: on a wallet with a daily limit, the withdrawals that go through on
    one UTC day never add up to more than the limit, whatever attempts are
    made and in whatever order (the stored total is assumed not negative,
    and the limit positive, as [setDailyWithdrawalLimit] makes it). *)
Theorem X2_daily_limit_bounds_the_day
    (attempts : list (Z * Z)) (w : Wallet) (limit today : Z) :
  dailyWithdrawalLimit w = Some limit ->
  0 < limit ->
  0 <= dailyWithdrawalTotal w ->
  Forall (fun attempt => utcDay attempt.2 = utcDay today) attempts ->
  withdrawnBy attempts w <= limit.
Proof.
  intros Hl Hpos Ht Hday.
  assert (H0 : 0 <= totalAfterReset w today).
  { unfold totalAfterReset.
    destruct (resetDailyLimitIfNewDay_cases today w) as [-> | ->]; cbn; lia. }
  pose proof (withdrawnBy_day attempts w limit today Hl Hday H0). lia.
Qed.

(** Three attempts of 100.00, 60.00 and 50.00 on the same day against a
    limit of 150.00: the second is refused, 150.00 go out. *)
Lemma X2_daily_limit_bounds_the_day_witness :
  withdrawnBy [(10000, 1700000000000); (6000, 1700000001000); (5000, 1700000002000)]
    (set_balance 100000 limitedWallet) <= 15000
  /\ withdrawnBy [(10000, 1700000000000); (6000, 1700000001000); (5000, 1700000002000)]
       (set_balance 100000 limitedWallet) = 15000.
Proof.
  split; [|vm_compute; reflexivity].
  apply (X2_daily_limit_bounds_the_day _ (set_balance 100000 limitedWallet) 15000
           1700000000000 eq_refl); [lia | cbn; lia |].
  repeat constructor.
Defined.

(** ** Terminal states *)

Lemma runWalletOp_closed (op : WalletOp) (w : Wallet) :
  status w = CLOSED ->
  status (runWalletOp op w).1 = CLOSED /\ balance (runWalletOp op w).1 = balance w.
Proof.
  intros Hst. destruct op.
  2:{ cbn [runWalletOp]. rewrite withdraw_cases. rewrite Hst.
      destruct (amount <=? 0); [auto|]. case_decide; [auto | congruence]. }
  all: destruct w as [wid bal cur st lim tot last]; cbn in Hst; subst st;
    entity_unfold; cbn -[Z.add Z.sub]; entity_cases; auto; congruence.
Qed.

(** X4: CLOSED is final.  No call of the entity, and no sequence of calls,
    reopens a closed wallet or changes its balance: deposits, withdrawals
    and credits are refused, [freeze] throws, [unfreeze] and [close] do
    nothing to it. *)
Theorem X4_closed_wallet_is_final (ops : list WalletOp) (w : Wallet) :
  status w = CLOSED ->
  status (runWalletOps ops w) = CLOSED /\ balance (runWalletOps ops w) = balance w.
Proof.
  revert w. induction ops as [|op ops IH]; intros w Hst; cbn [runWalletOps]; [auto|].
  destruct (runWalletOp_closed op w Hst) as [Hst' Hbal'].
  destruct (IH _ Hst') as [H1 H2]. split; [exact H1 | congruence].
Qed.

Lemma X4_closed_wallet_is_final_witness :
  status (runWalletOps [Unfreeze; Deposit 100; Freeze; Credit 100; Close;
                        SetDailyWithdrawalLimit (Some 500); Withdraw 1 1700000000000]
            (set_status CLOSED (new_Wallet "dave" "USD"))) = CLOSED
  /\ balance (runWalletOps [Unfreeze; Deposit 100; Freeze; Credit 100; Close;
                            SetDailyWithdrawalLimit (Some 500); Withdraw 1 1700000000000]
                (set_status CLOSED (new_Wallet "dave" "USD"))) = 0.
Proof.
  exact (X4_closed_wallet_is_final
           [Unfreeze; Deposit 100; Freeze; Credit 100; Close;
            SetDailyWithdrawalLimit (Some 500); Withdraw 1 1700000000000]
           (set_status CLOSED (new_Wallet "dave" "USD")) eq_refl).
Defined.

Lemma withdraw_refused (w w' : Wallet) (amount now : Z) (e : Error) :
  WalletEntity.withdraw amount now w = (w', inl e) ->
  w' = w
  \/ (exists limit,
        (e = WithdrawalLimitExceededError amount limit
         \/ e = InsufficientFundsError (balance w) amount)
        /\ utcDay <$> lastWithdrawalDate w <> Some (utcDay now)
        /\ w' = set_dailyWithdrawalTotal 0 w).
Proof.
  intros Hrun. rewrite withdraw_cases in Hrun. cbv zeta in Hrun.
  destruct (amount <=? 0); [injection Hrun as <- _; auto|].
  case_decide; [injection Hrun as <- _; auto|].
  assert (Hreset : (WalletEntity.resetDailyLimitIfNewDay now w).1 = w
            \/ (utcDay <$> lastWithdrawalDate w <> Some (utcDay now)
                /\ (WalletEntity.resetDailyLimitIfNewDay now w).1
                   = set_dailyWithdrawalTotal 0 w)).
  { unfold WalletEntity.resetDailyLimitIfNewDay, WalletEntity.getTodayDate,
      bind, gets, modify, ret. cbn. case_decide; auto. }
  destruct (match dailyWithdrawalLimit w with
            | Some limit => totalAfterReset w now + amount >? limit
            | None => false
            end).
  { injection Hrun as <- <-. destruct Hreset as [-> | [Hday ->]]; [auto|].
    right. exists (default 0 (dailyWithdrawalLimit w)). auto 10. }
  destruct (balance w <? amount); [|discriminate].
  injection Hrun as <- <-. destruct Hreset as [-> | [Hday ->]]; [auto|].
  right. exists 0. auto 10.
Qed.

(** X5: a call of the entity that throws leaves the wallet as it was, with
    one exception: a withdrawal refused for the daily limit or for lack of
    funds on a day after the last withdrawal has already cleared the daily
    total. *)
Theorem X5_refused_call_changes_nothing (op : WalletOp) (w w' : Wallet) (e : Error) :
  runWalletOp op w = (w', inl e) ->
  w' = w
  \/ (exists amount now limit,
        op = Withdraw amount now
        /\ (e = WithdrawalLimitExceededError amount limit
            \/ e = InsufficientFundsError (balance w) amount)
        /\ utcDay <$> lastWithdrawalDate w <> Some (utcDay now)
        /\ w' = set_dailyWithdrawalTotal 0 w).
Proof.
  intros Hrun. destruct op.
  2:{ cbn [runWalletOp] in Hrun.
      destruct (withdraw_refused w w' amount now e Hrun) as [-> | (limit & He & Hday & ->)];
        [auto|].
      right. exists amount, now, limit. auto. }
  all: left; revert Hrun; destruct w as [wid bal cur st lim tot last];
    entity_unfold; cbn -[Z.add Z.sub]; entity_cases; congruence.
Qed.

(** A wallet that last withdrew yesterday: a withdrawal above its daily
    limit is refused, and the total of yesterday is gone all the same. *)
Lemma X5_refused_call_changes_nothing_witness :
  exists w', runWalletOp (Withdraw 20000 1700000000000) C7_wallet
             = (w', inl (WithdrawalLimitExceededError 20000 15000))
             /\ w' = set_dailyWithdrawalTotal 0 C7_wallet
             /\ dailyWithdrawalTotal C7_wallet = 10000.
Proof.
  eexists. split; [vm_compute; reflexivity|].
  split; [|reflexivity].
  destruct (X5_refused_call_changes_nothing (Withdraw 20000 1700000000000) C7_wallet
              _ _ ltac:(vm_compute; reflexivity)) as [H | (a & n & l & _ & _ & _ & H)];
    [discriminate H | exact H].
Defined.

(** X6: [canDebit] is a necessary check, not a sufficient one.  A
    withdrawal that goes through was allowed by [canDebit] (for a stored
    daily total that is not negative), and one that [canDebit] disallows is
    refused without touching the balance; but [canDebit] compares the one
    amount with the limit, not the total of the day, so it allows
    withdrawals that [withdraw] refuses. *)
Theorem X6_canDebit_is_necessary (w : Wallet) (amount now : Z) :
  0 <= dailyWithdrawalTotal w ->
  ((WalletEntity.withdraw amount now w).2 = inr tt -> WalletEntity.canDebit amount w = true)
  /\ (WalletEntity.canDebit amount w = false ->
      exists e, (WalletEntity.withdraw amount now w).2 = inl e
                /\ balance (WalletEntity.withdraw amount now w).1 = balance w)
  /\ (exists w0 : Wallet,
        0 <= dailyWithdrawalTotal w0
        /\ WalletEntity.canDebit 6000 w0 = true
        /\ (WalletEntity.withdraw 6000 1700000001000 w0).2
           = inl (WithdrawalLimitExceededError 6000 15000)).
Proof.
  intros Htot.
  assert (H0 : 0 <= totalAfterReset w now).
  { unfold totalAfterReset.
    destruct (resetDailyLimitIfNewDay_cases now w) as [-> | ->]; cbn; lia. }
  assert (Hok : (WalletEntity.withdraw amount now w).2 = inr tt ->
                WalletEntity.canDebit amount w = true).
  { rewrite withdraw_cases. cbv zeta. unfold WalletEntity.canDebit.
    destruct (Z.leb_spec amount 0); [discriminate|].
    case_decide as Hst; [discriminate|].
    assert (Hactive : status w = ACTIVE) by (destruct (status w); congruence).
    rewrite Hactive.
    destruct (dailyWithdrawalLimit w) as [limit|].
    - destruct (Z.gtb_spec (totalAfterReset w now + amount) limit); [discriminate|].
      destruct (Z.ltb_spec (balance w) amount); [discriminate|]. intros _.
      rewrite bool_decide_eq_true_2 by reflexivity.
      cbn. rewrite !andb_true_iff. repeat split; try apply Z.leb_le; try apply Z.ltb_lt; lia.
    - destruct (Z.ltb_spec (balance w) amount); [discriminate|]. intros _.
      rewrite bool_decide_eq_true_2 by reflexivity.
      cbn. rewrite !andb_true_iff. repeat split; try apply Z.leb_le; try apply Z.ltb_lt; lia. }
  split; [exact Hok|]. split.
  - intros Hno.
    destruct (WalletEntity.withdraw amount now w) as [w' [e|[]]] eqn:Hrun; cbn [fst snd] in *.
    + exists e. split; [reflexivity|].
      destruct (withdraw_refused w w' amount now e Hrun) as [-> | (l & _ & _ & ->)];
        reflexivity.
    + rewrite Hok in Hno by reflexivity. discriminate.
  - exists (WalletEntity.withdraw 10000 1700000000000 (set_balance 100000 limitedWallet)).1.
    split; [vm_compute; discriminate|]. split; vm_compute; reflexivity.
Qed.

Lemma X6_canDebit_is_necessary_witness :
  WalletEntity.canDebit 20000 limitedWallet = false
  /\ exists e, (WalletEntity.withdraw 20000 1700000000000 limitedWallet).2 = inl e.
Proof.
  split; [reflexivity|].
  destruct (X6_canDebit_is_necessary limitedWallet 20000 1700000000000 ltac:(cbn; lia))
    as (_ & H & _).
  destruct (H eq_refl) as (e & He & _). exists e. exact He.
Defined.

(** ** The request lock and the post-commit publish *)

Lemma set_redis_same (w : World) : set_redis (fun _ => redis w) w = w.
Proof. destruct w; reflexivity. Qed.

(** X7: when the lock of the request is held by someone else, [execute]
    fails with ConflictException before anything is started: the block is
    not run, no transaction is opened, and the world, the lock of the
    holder included, is exactly as it was. *)
Theorem X7_held_lock_refuses_the_request {A}
    (operation : TransactionContext -> M World A) (options : TransactionOptions)
    (w : World) (key holder : string) :
  lockKey options = Some key -> key <> "" ->
  redis_live (clock w) (redis w) key = Some holder ->
  TransactionManager.execute operation options w
  = (w, inl (ConflictException "Concurrent request in progress")).
Proof.
  intros Hkey Hne Hheld.
  rewrite execute_unfold.
  unfold TransactionManager.acquireLock. rewrite Hkey.
  assert (Ht : truthy (Some key) = true).
  { unfold truthy. case_decide; [contradiction | reflexivity]. }
  rewrite Ht. unfold bind, newDate, gets, modify, throw, redis_set_nx.
  change (default "" (Some key)) with key. rewrite Hheld. cbn.
  rewrite set_redis_same. reflexivity.
Qed.

Lemma X7_held_lock_refuses_the_request_witness :
  TransactionManager.execute C6_block lockedOptions lockHeldWorld
  = (lockHeldWorld, inl (ConflictException "Concurrent request in progress"))
  /\ redis_live (clock lockHeldWorld) (redis lockHeldWorld) "lock:req:r7" = Some "PROCESSING".
Proof.
  split; [|reflexivity].
  apply (X7_held_lock_refuses_the_request C6_block lockedOptions lockHeldWorld
           "lock:req:r7" "PROCESSING" eq_refl); [discriminate | reflexivity].
Defined.

Lemma publishEach_exact (events : list OutboxEvent) (w : World) :
  TransactionManager.publishEach events w
  = (set_bus (bus w ++ published_to_bus w (map payload events)) w, inr tt).
Proof.
  revert w. induction events as [|ev events IH]; intros w.
  - cbn. unfold ret, published_to_bus. destruct (publisherConnected w); cbn;
      rewrite app_nil_r; destruct w; reflexivity.
  - cbn [TransactionManager.publishEach]. unfold bind at 1. unfold try_catch.
    unfold EventPublisher.publish, bind, gets, modify, throw, ret.
    unfold published_to_bus. cbn [map].
    destruct (publisherConnected w) eqn:Hc; cbn [negb truthy default].
    + rewrite IH. unfold published_to_bus. destruct w; cbn in *. subst.
      cbn. rewrite <- app_assoc. reflexivity.
    + rewrite IH. unfold published_to_bus. rewrite Hc. reflexivity.
Qed.

Lemma publishEventsAsync_exact (events : list OutboxEvent) (w : World) :
  TransactionManager.publishEventsAsync events w
  = (set_bus (bus w ++ published_to_bus w (map payload events)) w, inr tt).
Proof.
  unfold TransactionManager.publishEventsAsync. case_decide as Hlen.
  - destruct events; [|discriminate Hlen]. unfold ret, published_to_bus.
    destruct (publisherConnected w); cbn; rewrite app_nil_r; destruct w; reflexivity.
  - apply publishEach_exact.
Qed.

Lemma saveAll_broker (events : list OutboxEvent) (manager : option EntityManager) (w : World) :
  broker (OutboxRepository.saveAll events manager w).1 = broker w.
Proof.
  revert w. induction events as [|ev events IH]; intros w; [reflexivity|].
  cbn [OutboxRepository.saveAll]. unfold bind, repo_write, em_write, modify.
  destruct manager as [m|].
  - destruct (runner w); [|reflexivity]. rewrite IH. reflexivity.
  - rewrite IH. reflexivity.
Qed.

Lemma commitTransaction_broker (w : World) : broker (commitTransaction w).1 = broker w.
Proof.
  unfold commitTransaction. destruct (runner w); [|reflexivity].
  destruct (commitFaults w) as [|[e|] rest]; reflexivity.
Qed.

Lemma finished_broker (options : TransactionOptions) (w : World) :
  broker (finished options w) = broker w.
Proof.
  unfold finished, TransactionManager.releaseLock.
  destruct (truthy (lockKey options)); reflexivity.
Qed.

(** X8: the events that a block collects with [publishEvent] reach the
    broker only after the commit, each once and in the order collected,
    and only when the publisher is connected; when it is not, the
    transaction succeeds all the same and the bus is as the block left it.
    A transaction that fails publishes nothing. *)
Theorem X8_events_reach_the_broker_after_commit {A}
    (operation : TransactionContext -> M World A)
    (options : TransactionOptions) (w wl : World) :
  TransactionManager.acquireLock options w = (wl, inr tt) ->
  let block := operation TransactionManager.context (began wl) in
  let out := TransactionManager.execute operation options w in
  match out.2 with
  | inr _ =>
      bus out.1
      = (bus block.1
           ++ published_to_bus block.1 (map payload (eventsToPublish block.1)))%list
  | inl _ => bus out.1 = bus block.1
  end.
Proof.
  intros Hlock block out. subst out. rewrite execute_unfold, Hlock. fold block.
  destruct block as [w1 [e|a]]; cbn [fst snd].
  { pose proof (finished_broker options
                  (set_runner (Some {| work := db w1; writes := [] |}) w1)) as Hb.
    unfold broker in Hb. injection Hb as Hb _ _. exact Hb. }
  set (save := if decide (0 < length (eventsToPublish w1))%nat
               then OutboxRepository.saveAll (eventsToPublish w1) (Some QueryRunnerManager)
               else ret tt).
  assert (Hsave : broker (save w1).1 = broker w1).
  { subst save. case_decide; [apply saveAll_broker | reflexivity]. }
  destruct (save w1) as [w2 [e|[]]]; cbn [fst snd] in *.
  { pose proof (finished_broker options
                  (set_runner (Some {| work := db w2; writes := [] |}) w2)) as Hb.
    unfold broker in Hb, Hsave. cbn in Hb. injection Hb as Hb _ _.
    injection Hsave as Hs _ _. congruence. }
  pose proof (commitTransaction_broker w2) as Hcommit.
  destruct (commitTransaction w2) as [w3 [e|[]]]; cbn [fst snd] in *.
  { pose proof (finished_broker options
                  (set_runner (Some {| work := db w3; writes := [] |}) w3)) as Hb.
    unfold broker in Hb, Hsave, Hcommit. cbn in Hb. injection Hb as Hb _ _.
    injection Hsave as Hs _ _. injection Hcommit as Hc _ _. congruence. }
  rewrite publishEventsAsync_exact. cbn [fst].
  pose proof (finished_broker options
                (set_bus (bus w3 ++ published_to_bus w3 (map payload (eventsToPublish w1))) w3))
    as Hb.
  unfold broker in Hb, Hsave, Hcommit. cbn in Hb. injection Hb as Hb _ _.
  injection Hsave as Hs1 Hs2 Hs3. injection Hcommit as Hc1 Hc2 Hc3.
  rewrite Hb. unfold published_to_bus. rewrite Hc1, Hc2, Hc3, Hs1, Hs2, Hs3. reflexivity.
Qed.

(** ** The coordinator, as equations *)

Lemma execute_rolls_back {A} (operation : TransactionContext -> M World A)
    (options : TransactionOptions) (w wl w1 : World) (e : Error) :
  TransactionManager.acquireLock options w = (wl, inr tt) ->
  operation TransactionManager.context (began wl) = (w1, inl e) ->
  TransactionManager.execute operation options w
  = (finished options (set_runner (Some {| work := db w1; writes := [] |}) w1), inl e).
Proof. intros Hlock Hop. rewrite execute_unfold, Hlock, Hop. reflexivity. Qed.

Lemma execute_commits {A} (operation : TransactionContext -> M World A)
    (options : TransactionOptions) (w wl w1 : World) (q : QueryRunner) (a : A) :
  TransactionManager.acquireLock options w = (wl, inr tt) ->
  operation TransactionManager.context (began wl) = (w1, inr a) ->
  runner w1 = Some q ->
  nextCommitPasses w1 ->
  TransactionManager.execute operation options w
  = (finished options (committed (eventsToPublish w1) q w1), inr a).
Proof.
  intros Hlock Hop Hq Hpass. rewrite execute_unfold, Hlock, Hop.
  assert (Hsave : (if decide (0 < length (eventsToPublish w1))%nat
                   then OutboxRepository.saveAll (eventsToPublish w1) (Some QueryRunnerManager)
                   else ret tt) w1
                  = (set_runner (Some {| work := withOutbox (eventsToPublish w1) (work q);
                       writes := (writes q ++ outboxWrites (eventsToPublish w1))%list |}) w1,
                     inr tt)).
  { case_decide as Hlen.
    - apply saveAll_runner, Hq.
    - destruct (eventsToPublish w1) as [|ev l]; [|cbn in Hlen; lia].
      unfold ret. cbn. rewrite app_nil_r. destruct w1, q; cbn in *; subst; reflexivity. }
  rewrite Hsave. unfold commitTransaction, nextCommitPasses in *.
  cbn [runner set_runner commitFaults].
  destruct (commitFaults w1) as [|[e|] rest] eqn:Hf; [|contradiction|];
    rewrite publishEventsAsync_exact; cbn [fst]; f_equal;
    unfold committed, published_to_bus; rewrite Hf; destruct w1; cbn in *; subst;
    reflexivity.
Qed.

Lemma finished_noOptions (w : World) : finished noOptions w = set_runner None w.
Proof. reflexivity. Qed.

Lemma acquireLock_noOptions (w : World) :
  TransactionManager.acquireLock noOptions w = (w, inr tt).
Proof. reflexivity. Qed.

(** ** The fraud consumer: settling deliveries, retries, rules *)

Lemma acquireLock_down (eventId : string) (w : Worker) :
  redisAvailable w = false ->
  FraudDetectionConsumer.acquireLock eventId w = (w, inl (PlainError "Connection is closed.")).
Proof.
  intros Hdown. unfold FraudDetectionConsumer.acquireLock, redisCommand, bind, gets.
  cbn. rewrite Hdown. reflexivity.
Qed.

Lemma handleProcessingError_run (msg : AmqpMessage) (e : Error) (w : Worker) :
  let count := default 0 (retryCount msg) in
  FraudDetectionConsumer.handleProcessingError msg e w
  = ({| w_redis := w_redis w; fraud_alerts := fraud_alerts w;
        channel := (channel w ++
          if count <? 3
          then [SendToQueue
                  (fraudDetectionQueue (w_config w) +:+ ".wait."
                     +:+ pretty (FraudDetectionConsumer.retryDelay count))
                  (content msg) (count + 1) (routingKey msg);
                Ack (deliveryTag msg)]
          else [Nack (deliveryTag msg) false false])%list;
        w_clock := w_clock w; redisAvailable := redisAvailable w;
        w_config := w_config w |}, inr tt).
Proof.
  cbv zeta. unfold FraudDetectionConsumer.handleProcessingError.
  change FRAUD_CONSTANTS.MAX_ATTEMPTS with 3.
  destruct (default 0 (retryCount msg) <? 3).
  - unfold bind, gets, w_channel, modify. cbn -[pretty FraudDetectionConsumer.retryDelay Z.add].
    rewrite <- app_assoc. reflexivity.
  - unfold w_channel, modify. reflexivity.
Qed.

Lemma handleMessage_unfold (msg : AmqpMessage) (event : WalletEventPayload) (w : Worker) :
  content msg = Some event ->
  FraudDetectionConsumer.handleMessage msg w =
  match FraudDetectionConsumer.acquireLock
          (FraudDetectionConsumer.generateIdempotencyKey event) w with
  | (w1, inr isNew) =>
      if negb isNew then w_channel (Ack (deliveryTag msg)) w1
      else match FraudDetectionConsumer.processFraudChecks event w1 with
           | (w2, inr _) => w_channel (Ack (deliveryTag msg)) w2
           | (w2, inl e) => FraudDetectionConsumer.handleProcessingError msg e w2
           end
  | (w1, inl e) => FraudDetectionConsumer.handleProcessingError msg e w1
  end.
Proof.
  intros Hc. unfold FraudDetectionConsumer.handleMessage. rewrite Hc.
  unfold try_catch, bind.
  destruct (FraudDetectionConsumer.acquireLock _ w) as [w1 [e|[|]]];
    cbn [negb]; try reflexivity.
  destruct (FraudDetectionConsumer.processFraudChecks event w1) as [w2 [e|[]]];
    reflexivity.
Qed.

(** X9: [handleMessage] never throws, and it settles the delivery exactly
    once, as the last thing it does on the channel: an ack or a nack
    without requeue of its own delivery tag, before which it has at most
    re-queued the message for a retry. *)
Theorem X9_every_delivery_is_settled_once (msg : AmqpMessage) (w : Worker) :
  let out := FraudDetectionConsumer.handleMessage msg w in
  out.2 = inr tt
  /\ exists before last,
       channel out.1 = (channel w ++ before ++ [last])%list
       /\ (last = Ack (deliveryTag msg) \/ last = Nack (deliveryTag msg) false false)
       /\ filter (fun a => settles (deliveryTag msg) a = true) before = []
       /\ (length before <= 1)%nat.
Proof.
  intros out. subst out.
  destruct (content msg) as [event|] eqn:Hc.
  2:{ unfold FraudDetectionConsumer.handleMessage. rewrite Hc.
      unfold w_channel, modify. cbn. split; [reflexivity|].
      exists [], (Nack (deliveryTag msg) false false). cbn. auto. }
  rewrite (handleMessage_unfold msg event w Hc).
  destruct (redisAvailable w) eqn:Hup.
  - rewrite (acquireLock_unfold _ _ Hup). cbv zeta.
    destruct (redis_live _ _ _); cbn [negb].
    + unfold w_channel, modify. cbn. split; [reflexivity|].
      exists [], (Ack (deliveryTag msg)). cbn. auto.
    + set (w1 := w_set_redis _ w).
      assert (Hup1 : redisAvailable w1 = true)
        by (subst w1; destruct w as [r alerts ch clk up cfg]; exact Hup).
      assert (Hch1 : channel w1 = channel w)
        by (subst w1; destruct w as [r alerts ch clk up cfg]; reflexivity).
      pose proof (processFraudChecks_strings event w1 Hup1) as Hp. cbv zeta in Hp.
      destruct (FraudDetectionConsumer.processFraudChecks event w1) as [w2 r].
      cbn [fst snd] in Hp. destruct Hp as (-> & _ & Hch & _).
      unfold w_channel, modify. cbn. rewrite Hch, Hch1. split; [reflexivity|].
      exists [], (Ack (deliveryTag msg)). cbn. auto.
  - rewrite (acquireLock_down _ _ Hup), handleProcessingError_run. cbv zeta.
    cbn [fst snd channel]. split; [reflexivity|].
    destruct (default 0 (retryCount msg) <? 3).
    + eexists [_], (Ack (deliveryTag msg)). cbn. auto.
    + exists [], (Nack (deliveryTag msg) false false). cbn. auto.
Qed.

(** X10: when the cache cannot be reached, no rule runs and nothing is
    recorded (no deduplication key, no alert); the message is parked in the
    wait queue of its retry count, with the count raised by one, and acked:
    1000 ms on the first failure, 2000 on the second, 4000 on the third;
    from a count of 3 on it is rejected without requeue, to the dead-letter
    queue. *)
Theorem X10_cache_outage_parks_the_message
    (msg : AmqpMessage) (event : WalletEventPayload) (w : Worker) :
  content msg = Some event ->
  redisAvailable w = false ->
  let count := default 0 (retryCount msg) in
  let out := FraudDetectionConsumer.handleMessage msg w in
  out.2 = inr tt
  /\ w_redis out.1 = w_redis w
  /\ fraud_alerts out.1 = fraud_alerts w
  /\ (count < 3 ->
      channel out.1
      = (channel w ++
           [SendToQueue
              (fraudDetectionQueue (w_config w) +:+ ".wait."
                 +:+ pretty (FraudDetectionConsumer.retryDelay count))
              (Some event) (count + 1) (routingKey msg);
            Ack (deliveryTag msg)])%list)
  /\ (3 <= count ->
      channel out.1 = (channel w ++ [Nack (deliveryTag msg) false false])%list)
  /\ (0 <= count < 3 -> FraudDetectionConsumer.retryDelay count = 1000 * 2 ^ count).
Proof.
  intros Hc Hdown count out. subst out.
  rewrite (handleMessage_unfold msg event w Hc), (acquireLock_down _ _ Hdown),
    handleProcessingError_run. cbv zeta. fold count. rewrite Hc.
  cbn [fst snd w_redis fraud_alerts channel].
  split; [reflexivity|]. split; [reflexivity|]. split; [reflexivity|].
  split; [|split].
  - intros Hlt. destruct (Z.ltb_spec count 3); [reflexivity | lia].
  - intros Hge. destruct (Z.ltb_spec count 3); [lia | reflexivity].
  - intros Hrange.
    assert (Hcases : count = 0 \/ count = 1 \/ count = 2) by lia.
    destruct Hcases as [-> | [-> | ->]]; reflexivity.
Qed.

Lemma X10_cache_outage_parks_the_message_witness :
  channel (FraudDetectionConsumer.handleMessage C9_msg C9_worker_down).1
  = [SendToQueue "fraud_detection.wait.1000" (Some C9_event) 1 "wallet.funds_withdrawn";
     Ack 1%nat].
Proof.
  pose proof (X10_cache_outage_parks_the_message C9_msg C9_event C9_worker_down
                eq_refl eq_refl) as H.
  cbv zeta in H. destruct H as (_ & _ & _ & H & _).
  rewrite H by (cbn; lia). reflexivity.
Defined.

Lemma detectRapidWithdrawals_run (event : WalletEventPayload) (w : Worker) :
  redisAvailable w = true ->
  let cfg := w_config w in
  let key := "withdrawals:" +:+ pl_walletId event in
  let windowMs := fraudDetectionTimeWindowMinutes cfg * 60 * 1000 in
  let members := windowAfter windowMs (pl_time event) (zset_of (w_redis w) key) in
  let count := Z.of_nat (length members) in
  exists r,
    FraudDetectionConsumer.detectRapidWithdrawals event w
    = ({| w_redis := r;
          fraud_alerts := (fraud_alerts w ++
            if count >? fraudDetectionMaxWithdrawals cfg
            then [rapidAlert cfg (pl_walletId event) count] else [])%list;
          channel := channel w; w_clock := w_clock w; redisAvailable := true;
          w_config := cfg |}, inr tt)
    /\ zset_of r key = members
    /\ strings r = strings (w_redis w).
Proof.
  intros Hup. destruct w as [r alerts ch clk up cfg]. cbn in Hup. subst up.
  cbv zeta. cbn [w_config w_redis fraud_alerts channel w_clock].
  unfold FraudDetectionConsumer.detectRapidWithdrawals, redisCommand, bind, gets, modify, ret.
  cbn -[Z.gtb Z.mul Z.sub pretty filter zset_of].
  change (FRAUD_CONSTANTS.WITHDRAWALS_PREFIX +:+ pl_walletId event)
    with ("withdrawals:" +:+ pl_walletId event).
  set (key := "withdrawals:" +:+ pl_walletId event).
  assert (Hz : zset_of
            (redis_expire clk key (fraudDetectionTimeWindowMinutes cfg * 60)
               (redis_zremrangebyscore key
                  (pl_time event - fraudDetectionTimeWindowMinutes cfg * 60 * 1000)
                  (redis_zadd key (pl_time event) (pretty (pl_time event)) r))) key
          = windowAfter (fraudDetectionTimeWindowMinutes cfg * 60 * 1000) (pl_time event)
              (zset_of r key)).
  { unfold zset_of, redis_expire, redis_zremrangebyscore, redis_zadd, windowAfter.
    cbn [zsets]. rewrite lookup_insert_eq. cbn [default].
    unfold zset_of. cbn [zsets]. rewrite lookup_insert_eq. reflexivity. }
  unfold redis_zcard. rewrite Hz.
  destruct (_ >? fraudDetectionMaxWithdrawals cfg);
    unfold FraudDetectionConsumer.saveFraudAlert, modify, w_add_alert, rapidAlert, ret;
    cbn [w_set_redis w_redis fraud_alerts channel w_clock redisAvailable w_config fst snd];
    rewrite ?app_nil_r;
    (eexists; split; [reflexivity | split; [exact Hz | reflexivity]]).
Qed.

Lemma filter_Forall_id {A} (P : A -> Prop) `{forall x, Decision (P x)} (l : list A) :
  Forall P l -> filter P l = l.
Proof.
  induction 1 as [|x l Hx Hl IH]; [reflexivity|].
  rewrite filter_cons_True by exact Hx. rewrite IH. reflexivity.
Qed.

Lemma windowAfter_grows (windowMs now : Z) (seen : list Z) :
  Forall (fun t => t < now) seen ->
  Forall (fun t => now - t < windowMs) seen ->
  0 < windowMs ->
  windowAfter windowMs now (map windowEntry seen) = map windowEntry (seen ++ [now]).
Proof.
  intros Hlt Hspan Hpos. unfold windowAfter.
  rewrite (filter_Forall_id (fun e => e.2 <> pretty now)).
  2:{ apply Forall_forall. intros e He. apply list_elem_of_fmap in He as (t & -> & Ht).
      cbn. intros Heq. apply (inj pretty) in Heq.
      rewrite Forall_forall in Hlt. specialize (Hlt t Ht). lia. }
  change [(now, pretty now)] with (map windowEntry [now]). rewrite <- map_app.
  apply filter_Forall_id. apply Forall_forall. intros e He.
  apply list_elem_of_fmap in He as (t & -> & Ht). cbn.
  apply elem_of_app in Ht as [Ht | Ht].
  - rewrite Forall_forall in Hspan. specialize (Hspan t Ht). lia.
  - apply list_elem_of_singleton in Ht as ->. lia.
Qed.

Lemma detectAll_counts (events : list WalletEventPayload) (walletId : string)
    (seen : list Z) (w : Worker) :
  redisAvailable w = true ->
  let cfg := w_config w in
  let windowMs := fraudDetectionTimeWindowMinutes cfg * 60 * 1000 in
  zset_of (w_redis w) ("withdrawals:" +:+ walletId) = map windowEntry seen ->
  Forall (fun e => pl_walletId e = walletId) events ->
  StronglySorted Z.lt (seen ++ map pl_time events) ->
  (forall a b, a ∈ (seen ++ map pl_time events)%list ->
               b ∈ (seen ++ map pl_time events)%list -> b - a < windowMs) ->
  let out := detectAll events w in
  out.2 = inr tt
  /\ fraud_alerts out.1
     = (fraud_alerts w
          ++ map (fun k => rapidAlert cfg walletId (Z.of_nat k))
               (filter (fun k => fraudDetectionMaxWithdrawals cfg < Z.of_nat k)
                  (seq (S (length seen)) (length events))))%list.
Proof.
  revert seen w. induction events as [|event rest IH]; intros seen w Hup; cbv zeta;
    intros Hz Hid Hsorted Hspan.
  - cbn. rewrite app_nil_r. auto.
  - apply Forall_cons in Hid as [Hid1 Hid].
    set (windowMs := fraudDetectionTimeWindowMinutes (w_config w) * 60 * 1000) in *.
    cbn [detectAll]. unfold bind.
    destruct (detectRapidWithdrawals_run event w Hup) as (r & Hrun & Hmembers & _).
    cbv zeta in Hrun, Hmembers. rewrite Hid1 in Hrun, Hmembers. rewrite Hrun.
    rewrite Hz in Hrun, Hmembers |- *.
    cbn [map] in Hsorted, Hspan.
    assert (Hpos : 0 < windowMs).
    { specialize (Hspan (pl_time event) (pl_time event)).
      assert (Hin : pl_time event ∈ (seen ++ pl_time event :: map pl_time rest)%list)
        by (apply elem_of_app; right; left).
      specialize (Hspan Hin Hin). lia. }
    assert (Hlt : Forall (fun t => t < pl_time event) seen).
    { apply Forall_forall. intros t Ht.
      clear - Hsorted Ht. induction seen as [|s seen IHs]; [inversion Ht|].
      cbn in Hsorted. apply StronglySorted_inv in Hsorted as [Hrest Hall].
      apply elem_of_cons in Ht as [-> | Ht].
      - rewrite Forall_forall in Hall. apply Hall. apply elem_of_app. right. left.
      - apply IHs; assumption. }
    assert (Hsp : Forall (fun t => pl_time event - t < windowMs) seen).
    { apply Forall_forall. intros t Ht. apply Hspan.
      - apply elem_of_app. left. exact Ht.
      - apply elem_of_app. right. left. }
    pose proof (windowAfter_grows windowMs (pl_time event) seen Hlt Hsp Hpos) as Hgrow.
    unfold windowMs in Hgrow. rewrite Hgrow in Hmembers |- *.
    rewrite length_map, length_app. cbn [length].
    replace (length seen + 1)%nat with (S (length seen)) by lia.
    set (w1 := {| w_redis := r; fraud_alerts := _; channel := channel w;
                  w_clock := w_clock w; redisAvailable := true; w_config := w_config w |}).
    specialize (IH (seen ++ [pl_time event])%list w1 eq_refl).
    cbv zeta in IH. cbn [w_redis w_config w1] in IH.
    specialize (IH Hmembers Hid).
    rewrite <- app_assoc in IH. cbn [app] in IH.
    specialize (IH Hsorted Hspan).
    destruct IH as [Hok Halerts]. split; [exact Hok|].
    rewrite Halerts. cbn [fraud_alerts w1].
    rewrite length_app. cbn [length].
    replace (length seen + 1)%nat with (S (length seen)) by lia.
    rewrite <- app_assoc. f_equal.
    cbn [seq]. rewrite filter_cons.
    rewrite Z.gtb_ltb.
    destruct (Z.ltb_spec (fraudDetectionMaxWithdrawals (w_config w))
                (Z.of_nat (S (length seen))));
      case_decide; try lia; reflexivity.
Qed.

(** X11: withdrawals of one wallet that arrive in the order of their
    timestamps, all within one time window, starting from an empty window:
    the first [fraudDetectionMaxWithdrawals] of them raise no
    rapid-withdrawal alert, and each later one raises exactly one, which
    carries the count reached. *)
Theorem X11_rapid_withdrawals_alert_from_the_next_one
    (events : list WalletEventPayload) (walletId : string) (w : Worker) :
  redisAvailable w = true ->
  let cfg := w_config w in
  let windowMs := fraudDetectionTimeWindowMinutes cfg * 60 * 1000 in
  zset_of (w_redis w) ("withdrawals:" +:+ walletId) = [] ->
  Forall (fun e => pl_walletId e = walletId) events ->
  StronglySorted Z.lt (map pl_time events) ->
  (forall a b, a ∈ map pl_time events -> b ∈ map pl_time events -> b - a < windowMs) ->
  let out := detectAll events w in
  out.2 = inr tt
  /\ fraud_alerts out.1
     = (fraud_alerts w
          ++ map (fun k => rapidAlert cfg walletId (Z.of_nat k))
               (filter (fun k => fraudDetectionMaxWithdrawals cfg < Z.of_nat k)
                  (seq 1 (length events))))%list.
Proof.
  intros Hup cfg windowMs Hz Hid Hsorted Hspan out.
  exact (detectAll_counts events walletId [] w Hup Hz Hid Hsorted Hspan).
Qed.

Lemma X11_rapid_withdrawals_alert_from_the_next_one_witness :
  map (fun a => details a !! "withdrawalCount")
      (fraud_alerts (detectAll fiveWithdrawals C9_worker).1)
  = [Some "4"; Some "5"].
Proof.
  pose proof (X11_rapid_withdrawals_alert_from_the_next_one fiveWithdrawals "w1" C9_worker
                eq_refl eq_refl) as H.
  cbv zeta in H. destruct H as [_ H].
  - repeat constructor.
  - cbn. repeat (constructor; [|repeat constructor; lia]). constructor.
  - cbn. intros a b Ha Hb.
    repeat (apply elem_of_cons in Ha as [-> | Ha]); try (apply elem_of_nil in Ha; contradiction);
    repeat (apply elem_of_cons in Hb as [-> | Hb]); try (apply elem_of_nil in Hb; contradiction);
    lia.
  - rewrite H. vm_compute. reflexivity.
Defined.

(** X12: the rules look at withdrawals only.  An event of any other type
    (a completed transfer, to which the queue is bound as well) changes
    nothing, whatever its amount; a withdrawal raises the high-value alert
    exactly when it carries an amount strictly above the threshold. *)
Theorem X12_high_value_alert_only_for_withdrawals
    (event : WalletEventPayload) (w : Worker) :
  redisAvailable w = true ->
  let cfg := w_config w in
  let out := FraudDetectionConsumer.processFraudChecks event w in
  (pl_eventType event <> "FUNDS_WITHDRAWN" -> out = (w, inr tt))
  /\ (pl_eventType event = "FUNDS_WITHDRAWN" ->
      filter isHighValue (fraud_alerts out.1)
      = (filter isHighValue (fraud_alerts w)
           ++ match orNull (pl_amount event) with
              | Some amount =>
                  if fraudDetectionThreshold cfg <? amount
                  then [highValueAlert cfg event amount] else []
              | None => []
              end)%list).
Proof.
  intros Hup cfg out. subst out. unfold FraudDetectionConsumer.processFraudChecks.
  change (WalletEventType_toString FUNDS_WITHDRAWN) with "FUNDS_WITHDRAWN".
  split; intros Hty; (case_decide; [|try contradiction; try reflexivity]); [contradiction|].
  unfold bind.
  destruct (detectRapidWithdrawals_run event w Hup) as (r & Hrun & _). cbv zeta in Hrun.
  rewrite Hrun.
  unfold FraudDetectionConsumer.detectHighValueTransaction, bind, gets,
    FraudDetectionConsumer.saveFraudAlert, modify, ret, w_add_alert.
  cbn [w_config fst snd fraud_alerts]. fold cfg.
  assert (Hrapid : forall count,
            filter isHighValue
              (fraud_alerts w ++ (if count >? fraudDetectionMaxWithdrawals cfg
                                  then [rapidAlert cfg (pl_walletId event) count] else []))%list
            = filter isHighValue (fraud_alerts w)).
  { intros count. rewrite filter_app.
    destruct (count >? fraudDetectionMaxWithdrawals cfg); [|apply app_nil_r].
    rewrite filter_cons_False by (unfold isHighValue; cbn; discriminate).
    apply app_nil_r. }
  destruct (orNull (pl_amount event)) as [amount|]; cbn [fst snd fraud_alerts].
  - rewrite Z.gtb_ltb. destruct (fraudDetectionThreshold cfg <? amount);
      cbn [fst snd fraud_alerts].
    + rewrite filter_app, Hrapid.
      rewrite filter_cons_True by reflexivity. reflexivity.
    + rewrite Hrapid, app_nil_r. reflexivity.
  - rewrite Hrapid, app_nil_r. reflexivity.
Qed.

(** A withdrawal of 20000.00 against the threshold of 10000.00, and a
    completed transfer of the same amount. *)
Lemma X12_high_value_alert_only_for_withdrawals_witness :
  filter isHighValue (fraud_alerts (FraudDetectionConsumer.processFraudChecks C9_event C9_worker).1)
  = [highValueAlert defaultConfig C9_event 2000000].
Proof.
  pose proof (X12_high_value_alert_only_for_withdrawals C9_event C9_worker eq_refl) as H.
  cbv zeta in H. destruct H as [_ H]. rewrite (H eq_refl). reflexivity.
Defined.

Lemma filter_drops_member (member : string) (l : list (Z * string)) :
  member ∈ map snd l ->
  (length (filter (fun e => e.2 <> member) l) < length l)%nat.
Proof.
  induction l as [|e l IH]; cbn [map]; intros Hin; [apply elem_of_nil in Hin; contradiction|].
  destruct (decide (e.2 = member)) as [Heq|Hne].
  - rewrite filter_cons_False by (intros Hn; contradiction).
    cbn [length]. pose proof (length_filter (fun e0 : Z * string => e0.2 <> member) l). lia.
  - rewrite filter_cons_True by exact Hne. cbn [length].
    apply elem_of_cons in Hin as [Heq | Hin]; [congruence|].
    specialize (IH Hin). lia.
Qed.

(** X13: the window holds one member per timestamp.  A withdrawal whose
    timestamp is already in the window of its wallet does not raise the
    count: withdrawals that carry the same instant are counted once. *)
Theorem X13_same_instant_counts_once (event : WalletEventPayload) (w : Worker) :
  redisAvailable w = true ->
  let key := "withdrawals:" +:+ pl_walletId event in
  pretty (pl_time event) ∈ map snd (zset_of (w_redis w) key) ->
  let out := FraudDetectionConsumer.detectRapidWithdrawals event w in
  out.2 = inr tt
  /\ redis_zcard key (w_redis out.1) <= redis_zcard key (w_redis w).
Proof.
  intros Hup key Hin out. subst out.
  destruct (detectRapidWithdrawals_run event w Hup) as (r & Hrun & Hmembers & _).
  cbv zeta in Hrun, Hmembers. rewrite Hrun. cbn [fst snd w_redis].
  split; [reflexivity|]. unfold redis_zcard. fold key in Hmembers. rewrite Hmembers.
  unfold windowAfter.
  pose proof (length_filter
                (fun e : Z * string =>
                   pl_time event - fraudDetectionTimeWindowMinutes (w_config w) * 60 * 1000 < e.1)
                (filter (fun e => e.2 <> pretty (pl_time event)) (zset_of (w_redis w) key)
                   ++ [(pl_time event, pretty (pl_time event))])%list) as Hlen.
  rewrite length_app in Hlen. cbn [length] in Hlen.
  pose proof (filter_drops_member _ _ Hin). lia.
Qed.

(** The same withdrawal event seen twice by the rule: the count stays 1. *)
Lemma X13_same_instant_counts_once_witness :
  let once := (FraudDetectionConsumer.detectRapidWithdrawals C9_event C9_worker).1 in
  let twice := (FraudDetectionConsumer.detectRapidWithdrawals
                  {| pl_walletId := "w1"; pl_eventType := "FUNDS_WITHDRAWN";
                     pl_amount := Some 500; pl_timestamp := "2024-01-01T00:00:00.000Z";
                     pl_time := 1704067200000 |} once).1 in
  redis_zcard "withdrawals:w1" (w_redis once) = 1
  /\ redis_zcard "withdrawals:w1" (w_redis twice) <= 1.
Proof.
  intros once twice. split; [vm_compute; reflexivity|].
  pose proof (X13_same_instant_counts_once
                {| pl_walletId := "w1"; pl_eventType := "FUNDS_WITHDRAWN";
                   pl_amount := Some 500; pl_timestamp := "2024-01-01T00:00:00.000Z";
                   pl_time := 1704067200000 |} once eq_refl) as H.
  cbv zeta in H. destruct H as [_ H].
  - vm_compute. repeat constructor.
  - exact H.
Defined.

(** ** The outbox relay *)

Lemma publishBatch_exact (events : list OutboxEvent) (ids : list string) (w : World) :
  OutboxRelayService.publishBatch events ids w
  = (set_bus (bus w ++ published_to_bus w (map payload events)) w,
     inr (ids ++ if publisherConnected w then map outbox_id events else [])%list).
Proof.
  revert ids w. induction events as [|ev events IH]; intros ids w.
  - cbn. unfold ret, published_to_bus. destruct (publisherConnected w); cbn;
      rewrite !app_nil_r; destruct w; reflexivity.
  - cbn [OutboxRelayService.publishBatch]. unfold bind at 1. unfold try_catch.
    unfold EventPublisher.publish, bind, gets, modify, throw, ret.
    unfold published_to_bus. cbn [map].
    destruct (publisherConnected w) eqn:Hc; cbn [negb truthy default].
    + rewrite IH. unfold published_to_bus. destruct w; cbn in *. subst.
      cbn. rewrite <- !app_assoc. reflexivity.
    + rewrite IH. unfold published_to_bus. rewrite Hc. reflexivity.
Qed.

Lemma unpublished_after_mark (ids : list string) (rows : list OutboxEvent) :
  filter unpublished (map (OutboxRepository.mark_published ids) rows)
  = filter (fun ev => outbox_id ev ∉ ids) (filter unpublished rows).
Proof.
  induction rows as [|ev rows IH]; [reflexivity|].
  cbn [map]. unfold OutboxRepository.mark_published at 1.
  destruct (decide (outbox_id ev ∈ ids)) as [Hin|Hout].
  - rewrite filter_cons_False by (unfold unpublished; cbn; discriminate).
    rewrite IH. destruct (decide (unpublished ev)) as [Hu|Hp].
    + rewrite (filter_cons_True unpublished) by exact Hu.
      rewrite filter_cons_False by (intros Hn; contradiction). reflexivity.
    + rewrite (filter_cons_False unpublished) by exact Hp. reflexivity.
  - destruct (decide (unpublished ev)) as [Hu|Hp].
    + rewrite !(filter_cons_True unpublished) by exact Hu.
      rewrite filter_cons_True by exact Hout. rewrite IH. reflexivity.
    + rewrite !(filter_cons_False unpublished) by exact Hp. exact IH.
Qed.

Lemma filter_out_taken {A B} `{EqDecision B} (f : A -> B) (P : A -> Prop)
    `{forall x, Decision (P x)} (l : list A) (n : nat) :
  NoDup (map f l) ->
  (forall x, x ∈ l -> (P x <-> f x ∉ map f (take n l))) ->
  filter P l = drop n l.
Proof.
  revert n. induction l as [|x l IH]; intros n Hnd HP; [destruct n; reflexivity|].
  cbn [map] in Hnd. apply NoDup_cons in Hnd as [Hx Hnd].
  destruct n as [|n].
  - cbn [drop]. apply filter_Forall_id, Forall_forall. intros y Hy.
    apply HP; [exact Hy|]. cbn. apply not_elem_of_nil.
  - cbn [drop]. rewrite filter_cons_False.
    2:{ intros HPx. apply HP in HPx; [|left]. apply HPx. cbn. left. }
    apply IH; [exact Hnd|]. intros y Hy.
    rewrite (HP y) by (right; exact Hy). cbn [take map].
    rewrite not_elem_of_cons. split; [intros [_ H1]; exact H1|].
    intros H1. split; [|exact H1]. intros Heq. apply Hx. rewrite <- Heq.
    apply list_elem_of_fmap. exists y. auto.
Qed.

Lemma mark_published_nil (rows : list OutboxEvent) :
  map (OutboxRepository.mark_published []) rows = rows.
Proof.
  induction rows as [|ev rows IH]; [reflexivity|]. cbn [map]. rewrite IH.
  unfold OutboxRepository.mark_published. case_decide as Hin; [|reflexivity].
  apply elem_of_nil in Hin. contradiction.
Qed.

Lemma markAsPublished_run (ids : list string) (w : World) :
  ids <> [] ->
  exists j,
    OutboxRepository.markAsPublished ids w
    = (set_journal j
         (set_db (fun s =>
            {| wallets := wallets s; wallet_events := wallet_events s;
               transfer_sagas := transfer_sagas s; idempotency_keys := idempotency_keys s;
               outbox_events := map (OutboxRepository.mark_published ids) (outbox_events s);
               event_seq := event_seq s; uuid_seq := uuid_seq s |}) w), inr tt).
Proof.
  intros Hne. unfold OutboxRepository.markAsPublished.
  case_decide as Hlen; [destruct ids; [contradiction | discriminate Hlen]|].
  unfold modify. eexists. reflexivity.
Qed.

(** One pass of an idle relay, as an equation on the host. *)
Lemma handleCron_idle (w : World) :
  let batch := take 100 (pendingRows w) in
  exists w',
    OutboxRelayService.handleCron (idleRelay w) = (idleRelay w', inr tt)
    /\ bus w' = (bus w ++ published_to_bus w (map payload batch))%list
    /\ (publisherConnected w = false \/ batch = [] -> w' = w)
    /\ (publisherConnected w = true ->
        outbox_events (db w')
        = map (OutboxRepository.mark_published (map outbox_id batch)) (outbox_events (db w))
        /\ wallets (db w') = wallets (db w)
        /\ wallet_events (db w') = wallet_events (db w)
        /\ transfer_sagas (db w') = transfer_sagas (db w)
        /\ idempotency_keys (db w') = idempotency_keys (db w)).
Proof.
  intros batch.
  unfold OutboxRelayService.handleCron, idleRelay.
  unfold bind at 1. unfold gets at 1. cbn [isProcessing].
  unfold bind at 1. unfold modify at 1. unfold try_finally, try_catch.
  unfold bind at 1. unfold onHost at 1.
  unfold OutboxRepository.findUnpublished, gets.
  cbn [host set_isProcessing isProcessing].
  change (take 100 (filter (fun ev => published ev = false) (outbox_events (db w))))
    with batch.
  case_decide as Hlen.
  { unfold ret, modify. cbn. exists w. split; [reflexivity|].
    destruct batch; [|discriminate Hlen]. unfold published_to_bus. cbn [map].
    split; [destruct (publisherConnected w); rewrite app_nil_r; reflexivity|].
    split; [reflexivity|]. intros _. rewrite mark_published_nil. auto. }
  unfold bind at 1. unfold onHost at 1. cbn [host isProcessing].
  rewrite publishBatch_exact. cbn [app].
  destruct (publisherConnected w) eqn:Hc.
  - case_decide as Hids.
    2:{ exfalso. apply Hids. rewrite length_map. destruct batch; cbn in *; [congruence | lia]. }
    unfold onHost.
    cbn [host isProcessing].
    destruct (markAsPublished_run (map outbox_id batch)
                (set_bus (bus w ++ published_to_bus w (map payload batch)) w)) as [j Hj].
    { destruct batch; [contradiction Hlen; reflexivity | discriminate]. }
    rewrite Hj. unfold modify. cbn [set_isProcessing isProcessing host].
    eexists. split; [reflexivity|].
    split; [reflexivity|]. split.
    { intros [Hf | Hb]; [discriminate Hf|]. rewrite Hb in Hlen. contradiction Hlen. reflexivity. }
    intros _. cbn. auto.
  - case_decide as Hids; [cbn in Hids; lia|].
    unfold ret, modify. cbn [set_isProcessing isProcessing host].
    exists (set_bus (bus w ++ published_to_bus w (map payload batch)) w).
    split; [reflexivity|]. split; [reflexivity|].
    split; [|discriminate].
    intros _. unfold published_to_bus. rewrite Hc, app_nil_r. destruct w; reflexivity.
Qed.

(** X14: one pass of the relay never throws and ends with the relay idle
    again.  It hands the first 100 pending rows to the publisher, oldest
    first; with the publisher connected exactly those rows are marked as
    published and the rest stays pending; with the publisher down nothing
    is marked and nothing changes, so every row is tried again on the next
    pass.  A pass that finds the relay busy does nothing. *)
Theorem X14_relay_marks_what_it_published (p : RelayProcess) :
  let w := host p in
  let batch := take 100 (pendingRows w) in
  let out := OutboxRelayService.handleCron p in
  out.2 = inr tt
  /\ (isProcessing p = true -> out.1 = p)
  /\ (isProcessing p = false ->
      isProcessing out.1 = false
      /\ bus (host out.1) = (bus w ++ published_to_bus w (map payload batch))%list
      /\ (publisherConnected w = false -> host out.1 = w)
      /\ (publisherConnected w = true ->
          NoDup (map outbox_id (outbox_events (db w))) ->
          pendingRows (host out.1) = drop 100 (pendingRows w)
          /\ map payload (outbox_events (db (host out.1)))
             = map payload (outbox_events (db w)))).
Proof.
  intros w batch out. subst out.
  destruct p as [busy w0]. cbn [host] in w. subst w.
  destruct busy.
  { unfold OutboxRelayService.handleCron, bind, gets, ret. cbn.
    split; [reflexivity|]. split; [reflexivity | discriminate]. }
  destruct (handleCron_idle w0) as (w' & Hrun & Hbus & Hsame & Hmark).
  cbv zeta in Hbus, Hsame, Hmark. unfold idleRelay in Hrun. rewrite Hrun.
  cbn [fst snd host isProcessing].
  split; [reflexivity|]. split; [discriminate|]. intros _.
  split; [reflexivity|]. split; [exact Hbus|]. split; [auto|].
  intros Hc Hnd. destruct (Hmark Hc) as (Hrows & _).
  unfold pendingRows at 1. rewrite Hrows. split.
  - rewrite unpublished_after_mark. fold (pendingRows w0).
    apply (filter_out_taken outbox_id).
    + unfold pendingRows. eapply sublist_NoDup; [exact Hnd|].
      apply (fmap_sublist outbox_id). apply sublist_filter.
    + intros ev _. reflexivity.
  - rewrite map_map. apply map_ext. intros ev.
    unfold OutboxRepository.mark_published. case_decide; reflexivity.
Qed.

Lemma withOutbox_rows (events : list OutboxEvent) (s : Store) :
  exists rows,
    outbox_events (withOutbox events s) = (outbox_events s ++ rows)%list
    /\ map payload rows = map payload events
    /\ map published rows = map published events.
Proof.
  revert s. induction events as [|ev events IH]; intros s.
  - exists []. cbn. rewrite app_nil_r. auto.
  - cbn [withOutbox fold_left]. fold (withOutbox events (insert_outbox ev s)).
    destruct (IH (insert_outbox ev s)) as (rows & Hrows & Hp & Hf).
    eexists (_ :: rows). rewrite Hrows. cbn [insert_outbox outbox_events].
    rewrite <- app_assoc. split; [reflexivity|]. cbn. rewrite Hp, Hf. auto.
Qed.

Lemma filter_Forall_not {A} (P : A -> Prop) `{forall x, Decision (P x)} (l : list A) :
  Forall (fun x => ~ P x) l -> filter P l = [].
Proof.
  induction 1 as [|x l Hx Hl IH]; [reflexivity|].
  rewrite filter_cons_False by exact Hx. exact IH.
Qed.

(** X15: delivery is at least once, and on the fast path twice.  The
    events of a committed transaction are handed to the publisher right
    after the commit, but their outbox rows are left unpublished; so the
    next pass of the relay hands the same payloads to the publisher again
    (here: no other row was pending, and the batch holds them all). *)
Theorem X15_committed_events_are_published_twice {A}
    (operation : TransactionContext -> M World A) (options : TransactionOptions)
    (w wl w1 : World) (q : QueryRunner) (a : A) :
  TransactionManager.acquireLock options w = (wl, inr tt) ->
  operation TransactionManager.context (began wl) = (w1, inr a) ->
  runner w1 = Some q ->
  nextCommitPasses w1 ->
  publisherConnected w1 = true ->
  Forall unpublished (eventsToPublish w1) ->
  filter unpublished (outbox_events (work q)) = [] ->
  (length (eventsToPublish w1) <= 100)%nat ->
  let out := TransactionManager.execute operation options w in
  let relayed := OutboxRelayService.handleCron (idleRelay out.1) in
  let messages := map (busMessage (config w1)) (map payload (eventsToPublish w1)) in
  out.2 = inr a
  /\ map payload (pendingRows out.1) = map payload (eventsToPublish w1)
  /\ bus out.1 = (bus w1 ++ messages)%list
  /\ bus (host relayed.1) = (bus w1 ++ messages ++ messages)%list.
Proof.
  intros Hlock Hop Hq Hpass Hconn Hunp Hnone Hlen out relayed messages.
  assert (Hout : out = (finished options (committed (eventsToPublish w1) q w1), inr a)).
  { subst out. apply execute_commits with (wl := wl); assumption. }
  destruct (withOutbox_rows (eventsToPublish w1) (work q)) as (rows & Hrows & Hpay & Hflag).
  assert (Hpending : pendingRows out.1 = rows).
  { rewrite Hout. cbn [fst]. unfold pendingRows. rewrite finished_db.
    cbn [committed db]. rewrite Hrows, filter_app, Hnone. cbn [app].
    apply filter_Forall_id. apply Forall_forall. intros row Hrow.
    unfold unpublished.
    apply list_elem_of_lookup in Hrow as [i Hi].
    assert (Hi' : map published rows !! i = Some (published row))
      by (rewrite list_lookup_fmap, Hi; reflexivity).
    rewrite Hflag in Hi'. rewrite list_lookup_fmap in Hi'.
    destruct (eventsToPublish w1 !! i) as [ev|] eqn:Hev; [|discriminate].
    cbn in Hi'. injection Hi' as <-.
    rewrite Forall_forall in Hunp. apply Hunp.
    apply list_elem_of_lookup. exists i. exact Hev. }
  assert (Hbroker : broker out.1
                    = ((bus w1 ++ messages)%list, publisherConnected w1, config w1)).
  { rewrite Hout. cbn [fst]. rewrite finished_broker. unfold broker, committed.
    cbn [bus publisherConnected config]. unfold published_to_bus. rewrite Hconn.
    reflexivity. }
  unfold broker in Hbroker. injection Hbroker as Hbus Hc Hcfg.
  split; [rewrite Hout; reflexivity|].
  split; [rewrite Hpending; exact Hpay|].
  split; [exact Hbus|].
  destruct (handleCron_idle out.1) as (w' & Hrun & Hbus' & _). cbv zeta in Hbus'.
  subst relayed. rewrite Hrun. cbn [fst host idleRelay]. rewrite Hbus', Hbus, Hpending.
  rewrite take_ge.
  2:{ assert (Hl : length (map payload rows) = length (map payload (eventsToPublish w1)))
        by (rewrite Hpay; reflexivity).
      rewrite !length_map in Hl. lia. }
  unfold published_to_bus. rewrite Hc, Hcfg, Hpay, Hconn. rewrite <- app_assoc. reflexivity.
Qed.

(** A first deposit on a new wallet: the FUNDS_DEPOSITED message is on the
    bus once after the call, twice after the next pass of the relay. *)
Lemma X15_committed_events_are_published_twice_witness :
  let body := WalletService.idempotentBody "erin" 2500 FUNDS_DEPOSITED
                (fun _ => WalletEntity.deposit 2500) None true in
  let out := TransactionManager.execute body (WalletService.idempotentOptions None)
               emptyWorld in
  let relayed := OutboxRelayService.handleCron (idleRelay out.1) in
  map (fun m => m.1.2) (bus out.1) = ["wallet.funds_deposited"]
  /\ map (fun m => m.1.2) (bus (host relayed.1))
     = ["wallet.funds_deposited"; "wallet.funds_deposited"].
Proof.
  intros body out relayed.
  pose proof (X15_committed_events_are_published_twice body
                (WalletService.idempotentOptions None) emptyWorld emptyWorld
                (body TransactionManager.context (began emptyWorld)).1
                _ (BalanceResponse 2500 "erin")
                eq_refl ltac:(vm_compute; reflexivity) ltac:(vm_compute; reflexivity)
                I eq_refl) as H.
  cbv zeta in H. destruct H as (_ & _ & H1 & H2).
  - vm_compute. repeat constructor.
  - vm_compute. reflexivity.
  - vm_compute. lia.
  - fold out in H1, H2. fold relayed in H2.
    split; [rewrite H1 | rewrite H2]; vm_compute; reflexivity.
Defined.

(** The same deposit, seen from the coordinator: one message after the
    commit. *)
Lemma X8_events_reach_the_broker_after_commit_witness :
  let body := WalletService.idempotentBody "erin" 2500 FUNDS_DEPOSITED
                (fun _ => WalletEntity.deposit 2500) None true in
  let out := TransactionManager.execute body (WalletService.idempotentOptions None)
               emptyWorld in
  out.2 = inr (BalanceResponse 2500 "erin")
  /\ map (fun m => (m.1.1, m.1.2)) (bus out.1) = [("wallet_events", "wallet.funds_deposited")].
Proof.
  intros body out.
  pose proof (X8_events_reach_the_broker_after_commit body
                (WalletService.idempotentOptions None) emptyWorld emptyWorld eq_refl) as H.
  cbv zeta in H. fold out in H.
  assert (Hout : out.2 = inr (BalanceResponse 2500 "erin")) by (vm_compute; reflexivity).
  rewrite Hout in H. split; [exact Hout|]. rewrite H. vm_compute. reflexivity.
Defined.

(** ** Freezing, unfreezing and closing a wallet *)

Lemma stateChangeBody_refused (w : World) (walletId : string) (ty : WalletEventType)
    (operation : M Wallet unit) (metadata : gmap string string)
    (wallet wallet' : Wallet) (e : Error) :
  wallets (db w) !! walletId = Some wallet ->
  operation wallet = (wallet', inl e) ->
  WalletService.stateChangeBody walletId ty operation metadata
    TransactionManager.context (began w)
  = (began w, inl e).
Proof.
  intros Hw Hop. unfold WalletService.stateChangeBody, WalletRepository.findById,
    bind, gets, call.
  cbn [began db set_runner set_eventsToPublish]. rewrite Hw, Hop. reflexivity.
Qed.

Lemma stateChangeBody_missing (w : World) (walletId : string) (ty : WalletEventType)
    (operation : M Wallet unit) (metadata : gmap string string) :
  wallets (db w) !! walletId = None ->
  WalletService.stateChangeBody walletId ty operation metadata
    TransactionManager.context (began w)
  = (began w, inl (PlainError ("Wallet " +:+ walletId +:+ " not found"))).
Proof.
  intros Hw. unfold WalletService.stateChangeBody, WalletRepository.findById, bind, gets.
  cbn [began db set_runner set_eventsToPublish]. rewrite Hw. reflexivity.
Qed.

Lemma stateChangeBody_ok (w : World) (walletId : string) (ty : WalletEventType)
    (operation : M Wallet unit) (metadata : gmap string string)
    (wallet wallet' : Wallet) :
  wallets (db w) !! walletId = Some wallet ->
  operation wallet = (wallet', inr tt) ->
  WalletService.stateChangeBody walletId ty operation metadata
    TransactionManager.context (began w)
  = (set_eventsToPublish [stateChangeOutbox w walletId ty metadata]
       (set_runner (Some {| work := stateChangeView w ty metadata wallet';
                            writes := [SaveWallet (wallet_id wallet');
                                       InsertEvent (wallet_id wallet') ty] |}) w),
     inr tt).
Proof.
  intros Hw Hop. unfold WalletService.stateChangeBody, WalletRepository.findById,
    WalletRepository.saveWithEvent, WalletRepository.withManager,
    bind, gets, call, em_write, newDate, ret, modify.
  cbn [began db set_runner set_eventsToPublish]. rewrite Hw, Hop.
  cbn. destruct w; reflexivity.
Qed.

Lemma executeStateChange_refused (w : World) (walletId : string) (ty : WalletEventType)
    (operation : M Wallet unit) (metadata : gmap string string)
    (wallet wallet' : Wallet) (e : Error) :
  wallets (db w) !! walletId = Some wallet ->
  operation wallet = (wallet', inl e) ->
  WalletService.executeStateChange walletId ty operation metadata w
  = (set_runner None (set_eventsToPublish [] w), inl e).
Proof.
  intros Hw Hop. unfold WalletService.executeStateChange. fold noOptions.
  rewrite (execute_rolls_back _ noOptions w w (began w) e (acquireLock_noOptions w)
             (stateChangeBody_refused w walletId ty operation metadata wallet wallet' e Hw Hop)).
  rewrite finished_noOptions. destruct w; reflexivity.
Qed.

Lemma executeStateChange_missing (w : World) (walletId : string) (ty : WalletEventType)
    (operation : M Wallet unit) (metadata : gmap string string) :
  wallets (db w) !! walletId = None ->
  WalletService.executeStateChange walletId ty operation metadata w
  = (set_runner None (set_eventsToPublish [] w),
     inl (PlainError ("Wallet " +:+ walletId +:+ " not found"))).
Proof.
  intros Hw. unfold WalletService.executeStateChange. fold noOptions.
  rewrite (execute_rolls_back _ noOptions w w (began w) _ (acquireLock_noOptions w)
             (stateChangeBody_missing w walletId ty operation metadata Hw)).
  rewrite finished_noOptions. destruct w; reflexivity.
Qed.

Lemma executeStateChange_ok (w : World) (walletId : string) (ty : WalletEventType)
    (operation : M Wallet unit) (metadata : gmap string string)
    (wallet wallet' : Wallet) :
  wallets (db w) !! walletId = Some wallet ->
  operation wallet = (wallet', inr tt) ->
  nextCommitPasses w ->
  WalletService.executeStateChange walletId ty operation metadata w
  = (stateChanged w walletId ty metadata wallet', inr tt).
Proof.
  intros Hw Hop Hpass. unfold WalletService.executeStateChange. fold noOptions.
  rewrite (execute_commits _ noOptions w w _ _ tt (acquireLock_noOptions w)
             (stateChangeBody_ok w walletId ty operation metadata wallet wallet' Hw Hop)
             eq_refl Hpass).
  rewrite finished_noOptions. unfold stateChanged.
  cbn [eventsToPublish set_eventsToPublish set_runner].
  unfold committed. destruct w; reflexivity.
Qed.

Lemma withdraw_body_refused (walletId : string) (amount : Z) (rid : option string)
    (w : World) (wallet wallet' : Wallet) (e : Error) :
  wallets (db w) !! walletId = Some wallet ->
  WalletEntity.withdraw amount (clock w) wallet = (wallet', inl e) ->
  WalletService.idempotentBody walletId amount FUNDS_WITHDRAWN
    (fun now => WalletEntity.withdraw amount now) rid false TransactionManager.context (began w)
  = (began w, inl e).
Proof.
  intros Hw Hop.
  unfold WalletService.idempotentBody, WalletRepository.findByIdWithLock, repo_read,
    bind, em_read, newDate, gets, call, ret.
  run. rewrite Hw. run. rewrite Hop. reflexivity.
Qed.

(** Money operations on a wallet that exists and is not ACTIVE. *)
Lemma money_refused_when_not_active (walletId : string) (amount : Z) (rid : option string)
    (w : World) (wallet : Wallet) :
  wallets (db w) !! walletId = Some wallet ->
  status wallet <> ACTIVE -> 0 < amount ->
  freshRequest rid w ->
  let d := WalletService.deposit walletId amount rid w in
  let wd := WalletService.withdraw walletId amount rid w in
  d.2 = inl (WalletNotActiveError (status wallet)) /\ db d.1 = db w
  /\ wd.2 = inl (WalletNotActiveError (status wallet)) /\ db wd.1 = db w.
Proof.
  intros Hw Hna Hpos Hfresh d wd.
  destruct (acquireLock_fresh rid w Hfresh) as [r Hr].
  assert (Hw' : wallets (db (set_redis (fun _ => r) w)) !! walletId = Some wallet)
    by (destruct w; exact Hw).
  assert (Hd : d = (finished (WalletService.idempotentOptions rid)
                      (set_runner (Some {| work := db w; writes := [] |})
                         (began (set_redis (fun _ => r) w))),
                    inl (WalletNotActiveError (status wallet)))).
  { subst d. unfold WalletService.deposit, WalletService.executeIdempotentTransaction.
    unfold bind at 1. unfold bind at 1.
    rewrite (findByRequestId_fresh rid w Hfresh).
    rewrite execute_unfold, Hr.
    rewrite (deposit_body_not_active walletId amount rid (set_redis (fun _ => r) w) wallet)
      by assumption.
    destruct w; reflexivity. }
  assert (Hwd : wd = (finished (WalletService.idempotentOptions rid)
                        (set_runner (Some {| work := db w; writes := [] |})
                           (began (set_redis (fun _ => r) w))),
                      inl (WalletNotActiveError (status wallet)))).
  { subst wd. unfold WalletService.withdraw, WalletService.executeIdempotentTransaction.
    unfold bind at 1. unfold bind at 1.
    rewrite (findByRequestId_fresh rid w Hfresh).
    rewrite execute_unfold, Hr.
    rewrite (withdraw_body_refused walletId amount rid (set_redis (fun _ => r) w) wallet
               wallet (WalletNotActiveError (status wallet)) Hw').
    - destruct w; reflexivity.
    - rewrite withdraw_cases. destruct (Z.leb_spec amount 0); [lia|].
      case_decide; [reflexivity | contradiction]. }
  rewrite Hd, Hwd. cbn [fst snd]. rewrite !finished_db.
  destruct w; auto.
Qed.

Lemma freeze_run (wallet : Wallet) :
  status wallet <> CLOSED ->
  WalletEntity.freeze wallet = (set_status FROZEN wallet, inr tt).
Proof.
  intros Hst. unfold WalletEntity.freeze, bind, gets, modify, throw. cbn.
  case_decide; [contradiction | reflexivity].
Qed.

(** X16: freezing a wallet that is not closed sets its status to FROZEN in
    the store, records a WALLET_FROZEN event with the reason, drops the
    cached balance, and from then on every deposit and withdrawal of a
    positive amount on it, by a request that is new (no idempotency record
    answers it and no other request holds its lock), is refused with
    WalletNotActiveError, the balance staying as it was. *)
Theorem X16_frozen_wallet_takes_no_money
    (walletId reason : string) (frozenBy : option string) (w : World) (wallet : Wallet)
    (amount : Z) (rid : option string) :
  wallets (db w) !! walletId = Some wallet ->
  wallet_id wallet = walletId ->
  status wallet <> CLOSED ->
  nextCommitPasses w ->
  let frozen := WalletService.freezeWallet walletId reason frozenBy w in
  let d := WalletService.deposit walletId amount rid frozen.1 in
  let wd := WalletService.withdraw walletId amount rid frozen.1 in
  frozen.2 = inr tt
  /\ wallets (db frozen.1) !! walletId = Some (set_status FROZEN wallet)
  /\ (exists row, last (wallet_events (db frozen.1)) = Some row
                  /\ event_walletId row = walletId /\ eventType row = WALLET_FROZEN
                  /\ event_metadata row !! "reason" = Some reason)
  /\ strings (redis frozen.1) !! WalletService.getBalanceCacheKey walletId = None
  /\ (0 < amount -> freshRequest rid frozen.1 ->
      d.2 = inl (WalletNotActiveError FROZEN)
      /\ wd.2 = inl (WalletNotActiveError FROZEN)
      /\ wallets (db d.1) !! walletId = Some (set_status FROZEN wallet)
      /\ wallets (db wd.1) !! walletId = Some (set_status FROZEN wallet)).
Proof.
  intros Hw Hid Hst Hpass frozen d wd.
  assert (Hrun : frozen
                 = (set_redis (redis_del (WalletService.getBalanceCacheKey walletId))
                      (stateChanged w walletId WALLET_FROZEN (freezeMetadata w reason frozenBy)
                         (set_status FROZEN wallet)), inr tt)).
  { subst frozen. unfold WalletService.freezeWallet. unfold bind at 1. unfold newDate, gets.
    fold (freezeMetadata w reason frozenBy). unfold bind.
    rewrite (executeStateChange_ok w walletId WALLET_FROZEN WalletEntity.freeze _ wallet
               (set_status FROZEN wallet) Hw (freeze_run wallet Hst) Hpass).
    reflexivity. }
  assert (Hstored : wallets (db frozen.1) !! walletId = Some (set_status FROZEN wallet)).
  { rewrite Hrun. cbn. rewrite Hid. apply lookup_insert_eq. }
  split; [rewrite Hrun; reflexivity|].
  split; [exact Hstored|].
  split.
  { rewrite Hrun. eexists. split.
    - cbn. rewrite last_snoc. reflexivity.
    - cbn. rewrite Hid. split; [reflexivity|]. split; [reflexivity|].
      unfold freezeMetadata. apply lookup_insert_eq. }
  split; [rewrite Hrun; cbn; apply lookup_delete_eq|].
  intros Hpos Hfresh.
  pose proof (money_refused_when_not_active walletId amount rid frozen.1
                (set_status FROZEN wallet) Hstored ltac:(discriminate) Hpos Hfresh) as H.
  cbv zeta in H. fold d wd in H. destruct H as (Hd & Hdb1 & Hwd & Hdb2).
  rewrite Hdb1, Hdb2. auto.
Qed.

Lemma X16_frozen_wallet_takes_no_money_witness :
  let frozen := (WalletService.freezeWallet "carol" "chargeback" None carolWorld).1 in
  status <$> wallets (db frozen) !! "carol" = Some FROZEN
  /\ (WalletService.deposit "carol" 1000 (Some "r5") frozen).2
     = inl (WalletNotActiveError FROZEN)
  /\ (WalletService.withdraw "carol" 1000 (Some "r5") frozen).2
     = inl (WalletNotActiveError FROZEN).
Proof.
  intros frozen.
  pose proof (X16_frozen_wallet_takes_no_money "carol" "chargeback" None carolWorld
                (activeWallet "carol" 5000) 1000 (Some "r5")
                eq_refl eq_refl ltac:(discriminate) I) as H.
  cbv zeta in H. fold frozen in H. destruct H as (_ & Hw & _ & _ & H).
  rewrite Hw. split; [reflexivity|].
  destruct H as (Hd & Hwd & _); [lia | intros _; split; vm_compute; reflexivity |].
  split; [exact Hd | exact Hwd].
Defined.

Lemma unfreeze_noop (wallet : Wallet) :
  status wallet <> FROZEN -> WalletEntity.unfreeze wallet = (wallet, inr tt).
Proof.
  intros Hst. unfold WalletEntity.unfreeze, bind, gets, modify, ret. cbn.
  case_decide; [contradiction | reflexivity].
Qed.

(** X17: [unfreezeWallet] on a wallet that is not frozen (ACTIVE, or
    CLOSED) succeeds and leaves every wallet as it was, and yet it writes
    the audit trail: a WALLET_UNFROZEN event and an outbox row of that type
    are committed with the save of the wallet, as one transaction. *)
Theorem X17_unfreeze_of_unfrozen_wallet_is_recorded
    (walletId : string) (unfrozenBy : option string) (w : World) (wallet : Wallet) :
  wallets (db w) !! walletId = Some wallet ->
  wallet_id wallet = walletId ->
  status wallet <> FROZEN ->
  nextCommitPasses w ->
  let out := WalletService.unfreezeWallet walletId unfrozenBy w in
  out.2 = inr tt
  /\ wallets (db out.1) = wallets (db w)
  /\ map eventType (wallet_events (db out.1))
     = (map eventType (wallet_events (db w)) ++ [WALLET_UNFROZEN])%list
  /\ map outbox_eventType (outbox_events (db out.1))
     = (map outbox_eventType (outbox_events (db w)) ++ [WALLET_UNFROZEN])%list
  /\ journal out.1
     = (journal w ++ [[SaveWallet walletId; InsertEvent walletId WALLET_UNFROZEN;
                       SaveOutbox WALLET_UNFROZEN]])%list.
Proof.
  intros Hw Hid Hst Hpass out.
  assert (Hrun : out
                 = (set_redis (redis_del (WalletService.getBalanceCacheKey walletId))
                      (stateChanged w walletId WALLET_UNFROZEN (unfreezeMetadata w unfrozenBy)
                         wallet), inr tt)).
  { subst out. unfold WalletService.unfreezeWallet. unfold bind at 1. unfold newDate, gets.
    fold (unfreezeMetadata w unfrozenBy). unfold bind.
    rewrite (executeStateChange_ok w walletId WALLET_UNFROZEN WalletEntity.unfreeze _ wallet
               wallet Hw (unfreeze_noop wallet Hst) Hpass).
    reflexivity. }
  rewrite Hrun. cbn [fst snd]. split; [reflexivity|].
  split; [cbn; rewrite Hid; apply insert_id; exact Hw|].
  split; [cbn; rewrite map_app; reflexivity|].
  split; [cbn; rewrite map_app; reflexivity|].
  cbn. rewrite Hid. reflexivity.
Qed.

Lemma X17_unfreeze_of_unfrozen_wallet_is_recorded_witness :
  let out := WalletService.unfreezeWallet "carol" None carolWorld in
  out.2 = inr tt
  /\ wallets (db out.1) = wallets (db carolWorld)
  /\ map eventType (wallet_events (db out.1)) = [WALLET_UNFROZEN].
Proof.
  intros out.
  pose proof (X17_unfreeze_of_unfrozen_wallet_is_recorded "carol" None carolWorld
                (activeWallet "carol" 5000) eq_refl eq_refl ltac:(discriminate) I) as H.
  cbv zeta in H. fold out in H. destruct H as (Hr & Hw & He & _).
  split; [exact Hr|]. split; [exact Hw|]. rewrite He. reflexivity.
Defined.

(** X18: a wallet is closed only when it is empty.  With a balance other
    than zero [closeWallet] fails with NonZeroBalanceError and changes
    nothing, not even the cache; with a zero balance the wallet becomes
    CLOSED whatever its status was (frozen wallets included), and the
    cached balance is dropped. *)
Theorem X18_close_needs_zero_balance
    (walletId reason : string) (closedBy : option string) (w : World) (wallet : Wallet) :
  wallets (db w) !! walletId = Some wallet ->
  wallet_id wallet = walletId ->
  let out := WalletService.closeWallet walletId reason closedBy w in
  (balance wallet <> 0 ->
     out.2 = inl (NonZeroBalanceError (balance wallet))
     /\ db out.1 = db w /\ journal out.1 = journal w /\ redis out.1 = redis w
     /\ bus out.1 = bus w)
  /\ (balance wallet = 0 -> nextCommitPasses w ->
      out.2 = inr tt
      /\ wallets (db out.1) !! walletId = Some (set_status CLOSED wallet)
      /\ strings (redis out.1) !! WalletService.getBalanceCacheKey walletId = None).
Proof.
  intros Hw Hid out. split.
  - intros Hbal.
    assert (Hclose : WalletEntity.close wallet = (wallet, inl (NonZeroBalanceError (balance wallet)))).
    { unfold WalletEntity.close, bind, gets, throw. cbn.
      case_decide; [reflexivity | contradiction]. }
    subst out. unfold WalletService.closeWallet. unfold bind at 1. unfold newDate, gets.
    unfold bind.
    rewrite (executeStateChange_refused w walletId WALLET_CLOSED WalletEntity.close _ wallet
               wallet _ Hw Hclose).
    cbn. auto.
  - intros Hbal Hpass.
    assert (Hclose : WalletEntity.close wallet = (set_status CLOSED wallet, inr tt)).
    { unfold WalletEntity.close, bind, gets, modify. cbn.
      case_decide; [contradiction | reflexivity]. }
    subst out. unfold WalletService.closeWallet. unfold bind at 1. unfold newDate, gets.
    unfold bind.
    rewrite (executeStateChange_ok w walletId WALLET_CLOSED WalletEntity.close _ wallet
               (set_status CLOSED wallet) Hw Hclose Hpass).
    cbn. rewrite Hid. split; [reflexivity|].
    split; [apply lookup_insert_eq | apply lookup_delete_eq].
Qed.

Lemma X18_close_needs_zero_balance_witness :
  (WalletService.closeWallet "carol" "left" None carolWorld).2
  = inl (NonZeroBalanceError 5000)
  /\ status <$> wallets (db (WalletService.closeWallet "carol" "left" None carolWorld).1)
                  !! "carol" = Some ACTIVE.
Proof.
  pose proof (X18_close_needs_zero_balance "carol" "left" None carolWorld
                (activeWallet "carol" 5000) eq_refl eq_refl) as H.
  cbv zeta in H. destruct H as [H _].
  destruct (H ltac:(cbn; lia)) as (Hr & Hdb & _).
  split; [exact Hr|]. rewrite Hdb. reflexivity.
Defined.

(** ** Reading the balance *)

Lemma setBalanceCache_run (walletId : string) (bal : option Z) (w : World) :
  WalletService.setBalanceCache walletId bal w
  = (set_redis (redis_set_ex (clock w) (WalletService.getBalanceCacheKey walletId)
                  (default "" (numberToString <$> bal)) 30) w, inr tt).
Proof. reflexivity. Qed.

Lemma redis_live_after_set (now t : Z) (key value : string) (ttl : Z) (r : Redis) :
  redis_live t (redis_set_ex now key value ttl r) key
  = if now + ttl * 1000 <=? t then None else Some value.
Proof.
  unfold redis_live, redis_set_ex. cbn [strings]. rewrite lookup_insert_eq. reflexivity.
Qed.

(** X19: [getBalance] never writes the store.  A live cache entry is
    answered as it is, without a look at the store; without one, a wallet
    that does not exist reads as a balance of 0 and is neither created nor
    cached, and a wallet that exists is answered from the store and its
    balance cached, as text, for the 30 seconds that follow. *)
Theorem X19_balance_reads_go_through_the_cache (walletId : string) (w : World) :
  let key := WalletService.getBalanceCacheKey walletId in
  let out := WalletService.getBalance walletId w in
  db out.1 = db w /\ journal out.1 = journal w
  /\ match redis_live (clock w) (redis w) key with
     | Some text => out = (w, inr (FromCache text, walletId))
     | None =>
         match wallets (db w) !! walletId with
         | None => out = (w, inr (FromStore 0, walletId))
         | Some wallet =>
             out.2 = inr (FromStore (balance wallet), wallet_id wallet)
             /\ forall t,
                  redis_live t (redis out.1) key
                  = if clock w + 30000 <=? t then None
                    else Some (numberToString (balance wallet))
         end
     end.
Proof.
  intros key out. subst out.
  unfold WalletService.getBalance, WalletRepository.findById, bind, newDate, gets, ret.
  cbv beta iota. fold key.
  destruct (redis_live (clock w) (redis w) key) as [text|]; [auto|].
  destruct (wallets (db w) !! walletId) as [wallet|]; [|auto].
  rewrite setBalanceCache_run. cbn [fst snd db journal set_redis redis].
  split; [reflexivity|]. split; [reflexivity|]. split; [reflexivity|].
  intros t. subst key. rewrite redis_live_after_set. reflexivity.
Qed.

(** X20: a balance read that follows a deposit or a withdrawal which
    returned shows the balance of the response of that call, as cached
    text: the call leaves it in the cache, and the read is answered from
    there (also when the call was a replay, whose response may be older
    than the stored balance). *)
Theorem X20_balance_read_after_a_write
    (walletId : string) (amount : Z) (rid : option string) (w w1 : World) (r : Response) :
  WalletService.deposit walletId amount rid w = (w1, inr r)
  \/ WalletService.withdraw walletId amount rid w = (w1, inr r) ->
  WalletService.getBalance walletId w1
  = (w1, inr (FromCache (default "" (numberToString <$> WalletService.response_balance r)),
              walletId)).
Proof.
  intros Hrun.
  assert (Hcache : exists w0,
            w1 = (WalletService.setBalanceCache walletId (WalletService.response_balance r) w0).1).
  { destruct Hrun as [Hrun | Hrun];
      unfold WalletService.deposit, WalletService.withdraw in Hrun;
      unfold bind at 1 in Hrun;
      destruct (WalletService.executeIdempotentTransaction _ _ _ _ _ _ w) as [w0 [e|res]];
      try discriminate;
      unfold bind, ret in Hrun; rewrite setBalanceCache_run in Hrun;
      injection Hrun as <- <-; exists w0; reflexivity. }
  destruct Hcache as [w0 ->]. rewrite setBalanceCache_run. cbn [fst].
  unfold WalletService.getBalance, bind, newDate, gets, ret.
  cbn [clock redis set_redis]. rewrite redis_live_after_set.
  destruct (Z.leb_spec (clock w0 + 30 * 1000) (clock w0)); [lia | reflexivity].
Qed.

(** A deposit of 10.00 on alice, who holds 100.00: the read that follows
    answers "110" from the cache. *)
Lemma X20_balance_read_after_a_write_witness :
  WalletService.getBalance "alice"
    (WalletService.deposit "alice" 1000 (Some "r1") twoWallets).1
  = ((WalletService.deposit "alice" 1000 (Some "r1") twoWallets).1,
     inr (FromCache "110", "alice")).
Proof.
  apply (X20_balance_read_after_a_write "alice" 1000 (Some "r1") twoWallets
           (WalletService.deposit "alice" 1000 (Some "r1") twoWallets).1
           (BalanceResponse 11000 "alice")).
  left. vm_compute. reflexivity.
Defined.

(** ** The steps of a saga, whatever the store refuses *)

Lemma withOutbox_tables (events : list OutboxEvent) (s : Store) :
  wallets (withOutbox events s) = wallets s
  /\ transfer_sagas (withOutbox events s) = transfer_sagas s
  /\ idempotency_keys (withOutbox events s) = idempotency_keys s
  /\ wallet_events (withOutbox events s) = wallet_events s.
Proof.
  revert s. induction events as [|ev events IH]; intros s; [auto|].
  cbn [withOutbox fold_left]. fold (withOutbox events (insert_outbox ev s)).
  destruct (IH (insert_outbox ev s)) as (-> & -> & -> & ->). auto.
Qed.

(** The outbox rows of the collected events are saved through the runner. *)
Lemma saveCollected_run (events : list OutboxEvent) (w : World) (q : QueryRunner) :
  runner w = Some q ->
  (if decide (0 < length events)%nat
   then OutboxRepository.saveAll events (Some QueryRunnerManager)
   else ret tt) w
  = (set_runner (Some {| work := withOutbox events (work q);
                         writes := (writes q ++ outboxWrites events)%list |}) w, inr tt).
Proof.
  intros Hq. case_decide as Hlen.
  - apply saveAll_runner, Hq.
  - destruct events as [|ev l]; [|cbn in Hlen; lia].
    unfold ret. cbn. rewrite app_nil_r. destruct w, q; cbn in *; subst; reflexivity.
Qed.

(** A block that leaves the committed tables alone and works through the
    runner: [execute] either commits the view of the runner, with the
    outbox rows, or leaves the tables as they were. *)
Lemma execute_view_cases {A} (operation : TransactionContext -> M World A)
    (V : Store -> A -> Prop) (w : World) :
  match operation TransactionManager.context (began w) with
  | (w1, inl _) => db w1 = db w
  | (w1, inr a) => db w1 = db w /\ exists q, runner w1 = Some q /\ V (work q) a
  end ->
  match TransactionManager.execute operation TransferSagaService.stepOptions w with
  | (w', inl _) => db w' = db w
  | (w', inr a) => exists events view, V view a /\ db w' = withOutbox events view
  end.
Proof.
  intros Hblock. rewrite execute_unfold, acquireLock_none.
  destruct (operation TransactionManager.context (began w)) as [w1 [e|a]].
  { rewrite finished_db. exact Hblock. }
  destruct Hblock as (Hdb & q & Hq & Hview).
  rewrite (saveCollected_run _ w1 q Hq).
  match goal with
  | |- context [commitTransaction ?w2] =>
      pose proof (commitTransaction_cases w2) as Hcommit;
      destruct (commitTransaction w2) as [w3 [e|[]]]
  end.
  - rewrite finished_db. cbn [db set_runner]. cbv beta iota in Hcommit.
    destruct Hcommit as (Hc & _). rewrite Hc. exact Hdb.
  - cbv beta iota in Hcommit. destruct Hcommit as (q' & Hq' & Hdb' & _).
    rewrite finished_db, publishEventsAsync_exact. cbn [fst db set_bus].
    cbn [runner set_runner] in Hq'. injection Hq' as <-.
    exists (eventsToPublish w1), (work q). split; [exact Hview | exact Hdb'].
Qed.

Lemma stepBody_cases (sagaId walletId : string) (amount : Z)
    (operation : Z -> M Wallet unit) (ty : WalletEventType)
    (metadata : gmap string string) (updateSaga : option (M TransferSaga unit))
    (w : World) :
  match TransferSagaService.stepBody sagaId walletId amount operation ty metadata
          updateSaga TransactionManager.context (began w) with
  | (w1, inl _) => db w1 = db w
  | (w1, inr _) =>
      db w1 = db w
      /\ exists q, runner w1 = Some q
           /\ stepDone sagaId walletId operation updateSaga (db w) (work q)
  end.
Proof.
  unfold TransferSagaService.stepBody, bind, em_read, em_write, newDate, gets, call,
    modify, throw, ret.
  cbn [began runner set_runner set_eventsToPublish work writes].
  destruct (wallets (db w) !! walletId) as [wallet|] eqn:Hw; [|reflexivity].
  change (clock (began w)) with (clock w).
  destruct (operation (clock w) wallet) as [wallet' [e|[]]] eqn:Hop; [reflexivity|].
  cbn [fst snd began runner set_runner set_eventsToPublish work writes set_wallets
       transfer_sagas].
  destruct (transfer_sagas (db w) !! sagaId) as [saga|] eqn:Hs; [|reflexivity].
  destruct updateSaga as [update|].
  - destruct (update saga) as [saga' [e|[]]] eqn:Hup; [reflexivity|].
    cbn. split; [reflexivity|]. eexists. split; [reflexivity|].
    exists wallet, wallet', (clock w), saga. cbn. eauto 10.
  - cbn. split; [reflexivity|]. eexists. split; [reflexivity|].
    exists wallet, wallet', (clock w), saga. cbn. eauto 10.
Qed.

(** A loop of attempts whose failures leave the tables alone. *)
Lemma retryLoop_cases {A} (op : M World A) (Q : Store -> Store -> A -> Prop)
    (initial : Z) (remaining attempt : nat) (w : World) :
  (forall w0, match op w0 with
              | (w', inl _) => db w' = db w0
              | (w', inr a) => Q (db w0) (db w') a
              end) ->
  match TransferSagaService.retryLoop op initial remaining attempt w with
  | (w', inl _) => db w' = db w
  | (w', inr a) => Q (db w) (db w') a
  end.
Proof.
  intros Hop. revert attempt w.
  induction remaining as [|remaining IH]; intros attempt w; [reflexivity|].
  cbn [TransferSagaService.retryLoop]. unfold try_catch.
  pose proof (Hop w) as Hw. destruct (op w) as [w1 [e|a]]; [|exact Hw].
  destruct (TransferSagaService.isRetryableError e); [|exact Hw].
  unfold bind.
  destruct (performExponentialBackoff_run attempt initial w1) as (Hrun & _).
  rewrite Hrun.
  assert (Hdb : db (TransferSagaService.performExponentialBackoff attempt initial w1).1
                = db w).
  { rewrite <- Hw. reflexivity. }
  specialize (IH (S attempt)
                (TransferSagaService.performExponentialBackoff attempt initial w1).1).
  rewrite Hdb in IH. exact IH.
Qed.

(** One leg of a saga, with its retries: it fails with the tables as they
    were, or it succeeds with one committed step. *)
Lemma step_cases (sagaId walletId : string) (amount : Z)
    (operation : Z -> M Wallet unit) (ty : WalletEventType)
    (metadata : gmap string string) (updateSaga : option (M TransferSaga unit))
    (w : World) :
  match TransferSagaService.executeTransactionalStep sagaId walletId amount operation
          ty metadata updateSaga w with
  | (w', inl _) => db w' = db w
  | (w', inr _) => stepDone sagaId walletId operation updateSaga (db w) (db w')
  end.
Proof.
  unfold TransferSagaService.executeTransactionalStep, TransferSagaService.executeWithRetry,
    bind, gets.
  apply (retryLoop_cases _
           (fun s s' _ => stepDone sagaId walletId operation updateSaga s s')).
  intros w0.
  pose proof (execute_view_cases
                (TransferSagaService.stepBody sagaId walletId amount operation ty
                   metadata updateSaga)
                (fun view _ => stepDone sagaId walletId operation updateSaga (db w0) view)
                w0 (stepBody_cases _ _ _ _ _ _ _ w0)) as Hex.
  destruct (TransactionManager.execute _ _ w0) as [w' [e|a]]; [exact Hex|].
  destruct Hex as (events & view & Hdone & Hdb).
  destruct (withOutbox_tables events view) as (Hw & Hs & _).
  destruct Hdone as (wallet & wallet' & now & saga & H1 & H2 & H3 & H4 & H5).
  exists wallet, wallet', now, saga. rewrite Hdb, Hw, Hs. auto.
Qed.

(** ** Creating a wallet on first use *)

Lemma getOrCreate_cases (id cur : string) (w : World) :
  match WalletRepository.getOrCreate id cur None w with
  | (w', inl _) => db w' = db w
  | (w', inr wallet) =>
      transfer_sagas (db w') = transfer_sagas (db w)
      /\ idempotency_keys (db w') = idempotency_keys (db w)
      /\ match wallets (db w) !! id with
         | Some found => wallet = found /\ db w' = db w
         | None =>
             wallet = new_Wallet id cur
             /\ wallets (db w') = <[id := new_Wallet id cur]> (wallets (db w))
             /\ wallet_events (db w')
                = (wallet_events (db w)
                     ++ if decide (noHistory id (db w)) then [createdEvent id cur w]
                        else [])%list
         end
  end.
Proof.
  unfold WalletRepository.getOrCreate, WalletRepository.withManager,
    WalletRepository.runInTransaction, startTransaction, rollbackTransaction, release,
    try_finally, try_catch, bind, em_read, em_write, newDate, gets, modify, throw, ret.
  cbn [runner set_runner work writes].
  destruct (wallets (db w) !! id) as [found|] eqn:Hfound.
  - unfold commitTransaction. cbn [runner set_runner commitFaults].
    destruct (commitFaults w) as [|[e|] rest]; cbn; rewrite ?Hfound; auto.
  - cbn [runner set_runner work writes].
    assert (Hins : WalletRepository.insertIfMissing (new_Wallet id cur) (db w)
                   = set_wallets (insert id (new_Wallet id cur)) (db w)).
    { unfold WalletRepository.insertIfMissing. cbn [wallet_id new_Wallet].
      rewrite Hfound. reflexivity. }
    rewrite Hins. cbn [wallets set_wallets]. rewrite lookup_insert_eq.
    cbn [runner set_runner work writes wallet_events set_wallets].
    unfold noHistory.
    destruct (filter (fun ev => event_walletId ev = id) (wallet_events (db w)))
      as [|ev l] eqn:Hhist.
    + cbn [length]. case_decide as Hz; [|contradiction].
      case_decide as Hn; [|contradiction].
      unfold commitTransaction. cbn [runner set_runner commitFaults clock].
      destruct (commitFaults w) as [|[e|] rest]; cbn; rewrite ?Hfound; auto.
    + cbn [length]. case_decide as Hz; [discriminate Hz|].
      case_decide as Hn; [discriminate Hn|].
      unfold commitTransaction. cbn [runner set_runner commitFaults clock].
      destruct (commitFaults w) as [|[e|] rest]; cbn; rewrite ?Hfound, ?app_nil_r; auto.
Qed.

(** X23: [getOrCreate] outside a transaction never overwrites a wallet.
    A wallet that exists is returned as it is stored, whatever currency is
    asked for, and the tables are as they were; a wallet that does not
    exist is created empty and ACTIVE in the currency asked for, the other
    wallets are as they were, and one WALLET_CREATED row is added to the
    history unless the identifier already has history.  A call that fails
    leaves the tables as they were.  A second call, in any currency,
    returns the wallet of the first and changes nothing. *)
Theorem X23_getOrCreate_creates_once (id cur other : string) (w : World) :
  let out := WalletRepository.getOrCreate id cur None w in
  match out.2 with
  | inl _ => db out.1 = db w
  | inr wallet =>
      wallets (db out.1) !! id = Some wallet
      /\ match wallets (db w) !! id with
         | Some found => wallet = found /\ db out.1 = db w
         | None =>
             wallet = new_Wallet id cur
             /\ (forall k, k <> id -> wallets (db out.1) !! k = wallets (db w) !! k)
             /\ wallet_events (db out.1)
                = (wallet_events (db w)
                     ++ if decide (noHistory id (db w)) then [createdEvent id cur w]
                        else [])%list
         end
      /\ let again := WalletRepository.getOrCreate id other None out.1 in
         db again.1 = db out.1
         /\ forall r, again.2 = inr r -> r = wallet
  end.
Proof.
  intros out. subst out.
  pose proof (getOrCreate_cases id cur w) as Hfirst.
  destruct (WalletRepository.getOrCreate id cur None w) as [w1 [e|wallet]];
    cbn [fst snd]; [exact Hfirst|].
  destruct Hfirst as (_ & _ & Hfirst).
  assert (Hnow : wallets (db w1) !! id = Some wallet).
  { destruct (wallets (db w) !! id) as [found|] eqn:Hfound.
    - destruct Hfirst as (-> & ->). exact Hfound.
    - destruct Hfirst as (-> & -> & _). apply lookup_insert_eq. }
  split; [exact Hnow|]. split.
  - destruct (wallets (db w) !! id) as [found|]; [exact Hfirst|].
    destruct Hfirst as (Hw & Hs & Hev). split; [exact Hw|]. split; [|exact Hev].
    intros k Hk. rewrite Hs. apply lookup_insert_ne. congruence.
  - pose proof (getOrCreate_cases id other w1) as Hsecond.
    destruct (WalletRepository.getOrCreate id other None w1) as [w2 [e|again]];
      cbn [fst snd]; [split; [exact Hsecond | discriminate]|].
    destruct Hsecond as (_ & _ & Hsecond). rewrite Hnow in Hsecond.
    destruct Hsecond as (-> & ->). split; [reflexivity|]. intros r [= <-]. reflexivity.
Qed.

(** ** Money in a transfer *)

Lemma withdraw_ok_inv (amount now : Z) (w w' : Wallet) :
  WalletEntity.withdraw amount now w = (w', inr tt) ->
  0 < amount <= balance w
  /\ balance w' = balance w - amount /\ wallet_id w' = wallet_id w.
Proof.
  rewrite withdraw_cases.
  destruct (Z.leb_spec amount 0); [discriminate|].
  case_decide; [discriminate|]. cbv zeta.
  destruct (match dailyWithdrawalLimit w with
            | Some limit => totalAfterReset w now + amount >? limit
            | None => false
            end); [discriminate|].
  destruct (Z.ltb_spec (balance w) amount); [discriminate|].
  intros [= <-]. cbn [balance wallet_id set_lastWithdrawalDate set_dailyWithdrawalTotal
                      set_balance].
  split; [lia|]. split; [reflexivity|].
  destruct (resetDailyLimitIfNewDay_cases now w) as [-> | ->]; reflexivity.
Qed.

Lemma credit_ok_inv (amount : Z) (w w' : Wallet) :
  WalletEntity.credit amount w = (w', inr tt) ->
  0 < amount /\ balance w' = balance w + amount /\ wallet_id w' = wallet_id w.
Proof.
  intros Hrun. destruct (Z.leb_spec amount 0) as [Hle|Hpos].
  { unfold WalletEntity.credit, WalletEntity.validatePositiveAmount, bind, throw in Hrun.
    destruct (Z.leb_spec amount 0); [discriminate | lia]. }
  destruct (decide (status w = ACTIVE)) as [Hst|Hst].
  - rewrite (credit_active amount w Hpos Hst) in Hrun. injection Hrun as <-. auto.
  - rewrite (credit_not_active amount w Hpos Hst) in Hrun. discriminate.
Qed.

Lemma balanceOf_lookup (s : Store) (id : string) (wallet : Wallet) :
  wallets s !! id = Some wallet -> balanceOf s id = balance wallet.
Proof. intros H. unfold balanceOf. rewrite H. reflexivity. Qed.

Lemma balanceOf_same (s s' : Store) :
  wallets s' = wallets s -> forall id, balanceOf s' id = balanceOf s id.
Proof. intros H id. unfold balanceOf. rewrite H. reflexivity. Qed.

Lemma wellKeyed_same (s s' : Store) :
  wallets s' = wallets s -> wellKeyed s -> wellKeyed s'.
Proof. unfold wellKeyed. intros ->. auto. Qed.

Lemma adjusted_wellKeyed (id : string) (delta : Z) (s s' : Store) :
  adjusted id delta s s' -> wellKeyed s -> wellKeyed s'.
Proof.
  intros (x & x' & Hx & Hs & Hid & _) Hkeys k y. rewrite Hs.
  destruct (decide (k = id)) as [->|Hne].
  - rewrite lookup_insert_eq. intros [= <-]. exact Hid.
  - rewrite lookup_insert_ne by congruence. apply Hkeys.
Qed.

Lemma adjusted_balanceOf (id : string) (delta : Z) (s s' : Store) :
  adjusted id delta s s' ->
  forall k, balanceOf s' k = if decide (k = id) then balanceOf s k + delta else balanceOf s k.
Proof.
  intros (x & x' & Hx & Hs & _ & Hbal) k. unfold balanceOf. rewrite Hs.
  case_decide as Hk.
  - subst k. rewrite lookup_insert_eq, Hx. cbn. exact Hbal.
  - rewrite lookup_insert_ne by congruence. reflexivity.
Qed.

Lemma adjusted_same (id : string) (delta : Z) (s s' s'' : Store) :
  adjusted id delta s s' -> wallets s'' = wallets s' -> adjusted id delta s s''.
Proof.
  intros (x & x' & Hx & Hs & Hrest) Heq. exists x, x'. rewrite Heq. auto.
Qed.

Lemma stepDone_withdraw (sagaId id : string) (amount : Z)
    (updateSaga : option (M TransferSaga unit)) (s s' : Store) :
  wellKeyed s ->
  stepDone sagaId id (fun now => WalletEntity.withdraw amount now) updateSaga s s' ->
  adjusted id (- amount) s s' /\ 0 < amount <= balanceOf s id.
Proof.
  intros Hkeys (x & x' & now & saga & Hx & Hop & Hs & _).
  apply withdraw_ok_inv in Hop. destruct Hop as (Hamt & Hbal & Hid).
  rewrite (Hkeys _ _ Hx) in Hid. rewrite Hid in Hs.
  split; [exists x, x'; repeat split; auto; lia|].
  rewrite (balanceOf_lookup _ _ _ Hx). exact Hamt.
Qed.

Lemma stepDone_credit (sagaId id : string) (amount : Z)
    (updateSaga : option (M TransferSaga unit)) (s s' : Store) :
  wellKeyed s ->
  stepDone sagaId id (fun _ => WalletEntity.credit amount) updateSaga s s' ->
  adjusted id amount s s' /\ 0 < amount.
Proof.
  intros Hkeys (x & x' & now & saga & Hx & Hop & Hs & _).
  apply credit_ok_inv in Hop. destruct Hop as (Hamt & Hbal & Hid).
  rewrite (Hkeys _ _ Hx) in Hid. rewrite Hid in Hs.
  split; [exists x, x'; repeat split; auto|exact Hamt].
Qed.

(** ** The legs of a saga, whatever the infrastructure refuses *)

(** A block that leaves the committed tables alone and works through the
    runner, run by the coordinator without a lock: the view of the runner
    is committed, with the outbox rows, or the tables stay as they were;
    an error after the commit is the error of the release. *)
Lemma executeUnder_view_cases {A} (faults : Outages)
    (operation : TransactionContext -> M World A)
    (V : Store -> Prop) (w : World) :
  match operation TransactionManager.context (began w) with
  | (w1, inl _) => db w1 = db w
  | (w1, inr a) => db w1 = db w /\ exists q, runner w1 = Some q /\ V (work q)
  end ->
  match TransactionManager.executeUnder faults operation
          TransferSagaService.stepOptions w with
  | (w', inl e) =>
      db w' = db w
      \/ (releaseFails faults = Some e
          /\ exists events view, V view /\ db w' = withOutbox events view)
  | (w', inr a) => exists events view, V view /\ db w' = withOutbox events view
  end.
Proof.
  intros Hblock.
  destruct (connectFails faults) as [e|] eqn:Hconnect.
  { rewrite (executeUnder_not_started faults operation _ w w e) by auto. auto. }
  destruct (startFails faults) as [e|] eqn:Hstart.
  { rewrite (executeUnder_not_started faults operation _ w w e) by auto. auto. }
  rewrite (executeUnder_started faults operation _ w w) by auto.
  destruct (attempted_cases faults operation w) as [_ Hcases].
  cbv zeta in Hcases.
  destruct (cleanup_tables faults TransferSagaService.stepOptions
              (attempted faults operation w).1) as [Hdb _].
  assert (Hclean : cleanup faults TransferSagaService.stepOptions
                     (attempted faults operation w).1
                   = match releaseFails faults with
                     | Some e => ((attempted faults operation w).1, inl e)
                     | None => (set_runner None (attempted faults operation w).1, inr tt)
                     end).
  { unfold cleanup, failing, bind, release, modify, throw, ret. cbn.
    destruct (releaseFails faults); reflexivity. }
  assert (Hview : forall w' a, committedWith (operation TransactionManager.context (began w))
                                 a w' ->
                    exists events view, V view /\ db w' = withOutbox events view).
  { intros w' a (Hb & q & Hq & Hd & _).
    destruct (operation TransactionManager.context (began w)) as [w1 [e|a']];
      [discriminate Hb|].
    destruct Hblock as (_ & q' & Hq' & HV). cbn [fst] in Hq, Hd.
    rewrite Hq in Hq'. injection Hq' as <-. eauto. }
  assert (Hnone : forall w', nothingPersisted (operation TransactionManager.context (began w))
                               w' -> db w' = db w).
  { intros w' [Hd _]. rewrite Hd.
    destruct (operation TransactionManager.context (began w)) as [w1 [e|a']];
      [exact Hblock | apply Hblock]. }
  rewrite Hclean in Hdb |- *.
  destruct (attempted faults operation w) as [wt [e|a]]; cbn [fst snd] in *.
  - destruct Hcases as (Hnothing & _).
    destruct (releaseFails faults); left; rewrite <- (Hnone wt Hnothing); reflexivity.
  - destruct Hcases as (Hcommitted & _).
    destruct (releaseFails faults) as [e|].
    + right. split; [reflexivity|]. exact (Hview wt a Hcommitted).
    + destruct (Hview wt a Hcommitted) as (events & view & HV & Hd).
      exists events, view. split; [exact HV | exact Hd].
Qed.

(** A loop of attempts: an attempt that fails leaves the tables alone, or
    has committed and fails with an error that is not retried. *)
Lemma retryLoopUnder_cases {A} (op : nat -> M World A) (Q Q' : Store -> Store -> Prop)
    (initial : Z) (remaining attempt : nat) (w : World) :
  (forall k w0, match op k w0 with
                | (w', inl e) =>
                    db w' = db w0
                    \/ (TransferSagaService.isRetryableError e = false
                        /\ Q' (db w0) (db w'))
                | (w', inr _) => Q (db w0) (db w')
                end) ->
  match TransferSagaService.retryLoopUnder op initial remaining attempt w with
  | (w', inl _) => db w' = db w \/ Q' (db w) (db w')
  | (w', inr _) => Q (db w) (db w')
  end.
Proof.
  intros Hop. revert attempt w.
  induction remaining as [|remaining IH]; intros attempt w; [left; reflexivity|].
  cbn [TransferSagaService.retryLoopUnder]. unfold try_catch.
  pose proof (Hop attempt w) as Hw. destruct (op attempt w) as [w1 [e|a]]; [|exact Hw].
  destruct (TransferSagaService.isRetryableError e) eqn:Hretry.
  - destruct Hw as [Hw | [Hno _]]; [|congruence].
    unfold bind.
    destruct (performExponentialBackoff_run attempt initial w1) as (Hrun & _).
    rewrite Hrun.
    assert (Hdb : db (TransferSagaService.performExponentialBackoff attempt initial w1).1
                  = db w).
    { rewrite <- Hw. reflexivity. }
    specialize (IH (S attempt)
                  (TransferSagaService.performExponentialBackoff attempt initial w1).1).
    rewrite Hdb in IH. exact IH.
  - unfold throw. destruct Hw as [Hw | [_ HQ]]; auto.
Qed.

(** One leg of a saga, with its retries: when it returns, one step is
    committed; when it fails, the tables are as they were, or one step is
    committed and the release of the runner failed. *)
Lemma stepUnder_cases (faults : nat -> Outages) (sagaId walletId : string) (amount : Z)
    (operation : Z -> M Wallet unit) (ty : WalletEventType)
    (metadata : gmap string string) (updateSaga : option (M TransferSaga unit))
    (w : World) :
  releaseNotRetried faults ->
  match TransferSagaService.executeTransactionalStepUnder faults sagaId walletId amount
          operation ty metadata updateSaga w with
  | (w', inl _) =>
      db w' = db w
      \/ (stepDone sagaId walletId operation updateSaga (db w) (db w')
          /\ releaseFailure faults)
  | (w', inr _) => stepDone sagaId walletId operation updateSaga (db w) (db w')
  end.
Proof.
  intros Hquiet.
  unfold TransferSagaService.executeTransactionalStepUnder,
    TransferSagaService.executeWithRetryUnder, bind, gets.
  apply (retryLoopUnder_cases _
           (fun s s' => stepDone sagaId walletId operation updateSaga s s')
           (fun s s' => stepDone sagaId walletId operation updateSaga s s'
                        /\ releaseFailure faults)).
  intros k w0.
  pose proof (executeUnder_view_cases (faults k)
                (TransferSagaService.stepBody sagaId walletId amount operation ty
                   metadata updateSaga)
                (fun view => stepDone sagaId walletId operation updateSaga (db w0) view)
                w0 (stepBody_cases _ _ _ _ _ _ _ w0)) as Hex.
  assert (Hdone : forall w', (exists events view,
                     stepDone sagaId walletId operation updateSaga (db w0) view
                     /\ db w' = withOutbox events view) ->
                   stepDone sagaId walletId operation updateSaga (db w0) (db w')).
  { intros w' (events & view & Hdone & Hdb).
    destruct (withOutbox_tables events view) as (Hw & Hs & _).
    destruct Hdone as (wallet & wallet' & now & saga & H1 & H2 & H3 & H4 & H5).
    exists wallet, wallet', now, saga. rewrite Hdb, Hw, Hs. auto. }
  destruct (TransactionManager.executeUnder _ _ _ w0) as [w' [e|a]].
  - destruct Hex as [Hdb | [Hrel Hview]]; [left; exact Hdb|].
    right. split; [exact (Hquiet k e Hrel)|].
    split; [exact (Hdone w' Hview) | exists k, e; exact Hrel].
  - exact (Hdone w' Hex).
Qed.

(** ** The legs of a transfer *)

Lemma executeTransferUnder_run (faults : SagaOutages) (from to : string) (amount : Z)
    (rid : option string) :
  TransferSagaService.executeTransferUnder faults from to amount rid =
  (existing <- (if truthy rid
                then failing (findKeyFails faults)
                       (IdempotencyRepository.findByRequestId (default "" rid))
                else ret None) ;;
   match existing with
   | Some key => ret (response key)
   | None => transferRunUnder faults from to amount rid
   end).
Proof. reflexivity. Qed.

Lemma debitFromSenderUnder_cases (faults : SagaOutages) (saga : TransferSaga) (w : World) :
  releaseNotRetried (debitOutages faults) ->
  match TransferSagaService.debitFromSenderUnder faults saga w with
  | (w', inl _) =>
      db w' = db w
      \/ stepDone (saga_id saga) (fromWalletId saga)
           (fun now => WalletEntity.withdraw (saga_amount saga) now)
           (Some SagaEntity.markAsDebited) (db w) (db w')
  | (w', inr _) =>
      stepDone (saga_id saga) (fromWalletId saga)
        (fun now => WalletEntity.withdraw (saga_amount saga) now)
        (Some SagaEntity.markAsDebited) (db w) (db w')
  end.
Proof.
  intros Hquiet. unfold TransferSagaService.debitFromSenderUnder, bind.
  pose proof (stepUnder_cases (debitOutages faults) (saga_id saga) (fromWalletId saga)
                (saga_amount saga)
                (fun now => WalletEntity.withdraw (saga_amount saga) now) FUNDS_WITHDRAWN
                (<["sagaId" := saga_id saga]> {[ "transferTo" := toWalletId saga ]})
                (Some SagaEntity.markAsDebited) w Hquiet) as Hstep.
  destruct (TransferSagaService.executeTransactionalStepUnder _ _ _ _ _ _ _ _ w)
    as [w1 [e|[]]].
  - destruct Hstep as [Hdb | [Hdone _]]; [left; exact Hdb | right; exact Hdone].
  - unfold failing, WalletService.invalidateBalanceCache, modify, throw.
    destruct (debitCacheFails faults); [right|]; exact Hstep.
Qed.

Lemma creditToReceiverUnder_cases (faults : SagaOutages) (saga : TransferSaga) (w : World) :
  releaseNotRetried (creditOutages faults) ->
  match TransferSagaService.creditToReceiverUnder faults saga w with
  | (w', inl _) =>
      db w' = db w
      \/ (stepDone (saga_id saga) (toWalletId saga)
            (fun _ => WalletEntity.credit (saga_amount saga)) None (db w) (db w')
          /\ (releaseFailure (creditOutages faults) \/ creditCacheFails faults <> None))
  | (w', inr _) =>
      stepDone (saga_id saga) (toWalletId saga)
        (fun _ => WalletEntity.credit (saga_amount saga)) None (db w) (db w')
  end.
Proof.
  intros Hquiet. unfold TransferSagaService.creditToReceiverUnder, bind.
  pose proof (stepUnder_cases (creditOutages faults) (saga_id saga) (toWalletId saga)
                (saga_amount saga)
                (fun _ => WalletEntity.credit (saga_amount saga)) FUNDS_DEPOSITED
                (<["sagaId" := saga_id saga]> {[ "transferFrom" := fromWalletId saga ]})
                None w Hquiet) as Hstep.
  destruct (TransferSagaService.executeTransactionalStepUnder _ _ _ _ _ _ _ _ w)
    as [w1 [e|[]]].
  - destruct Hstep as [Hdb | [Hdone Hrel]]; [left; exact Hdb|].
    right. split; [exact Hdone | left; exact Hrel].
  - unfold failing, WalletService.invalidateBalanceCache, modify, throw.
    destruct (creditCacheFails faults) eqn:Hcache; [|exact Hstep].
    right. split; [exact Hstep | right; discriminate].
Qed.

(** Compensation: the refund is committed, or the tables are as they
    were; it returns only when the refund is committed. *)
Lemma compensateUnder_cases (faults : SagaOutages) (sagaId from : string) (amount : Z)
    (reason : string) (w : World) :
  releaseNotRetried (compensationOutages faults) ->
  match TransferSagaService.compensateUnder faults sagaId from amount reason w with
  | (w', inl _) =>
      db w' = db w
      \/ stepDone sagaId from (fun _ => WalletEntity.credit amount)
           (Some (SagaEntity.markAsCompensated reason)) (db w) (db w')
  | (w', inr _) =>
      stepDone sagaId from (fun _ => WalletEntity.credit amount)
        (Some (SagaEntity.markAsCompensated reason)) (db w) (db w')
  end.
Proof.
  intros Hquiet. unfold TransferSagaService.compensateUnder, try_catch. unfold bind at 1.
  pose proof (stepUnder_cases (compensationOutages faults) sagaId from amount
                (fun _ => WalletEntity.credit amount)
                TRANSFER_COMPENSATED (<["sagaId" := sagaId]> {[ "reason" := reason ]})
                (Some (SagaEntity.markAsCompensated reason)) w Hquiet) as Hstep.
  destruct (TransferSagaService.executeTransactionalStepUnder _ _ _ _ _ _ _ _ w)
    as [w1 [e|[]]].
  - destruct Hstep as [Hdb | [Hdone _]]; [left; exact Hdb | right; exact Hdone].
  - unfold bind, newDate, gets, failing, EventPublisher.publish, bind, gets, modify, throw.
    destruct (publishFailedFails faults); [right; exact Hstep|].
    destruct (publisherConnected w1); cbn; auto.
Qed.

Lemma markAsDebited_inv (saga saga' : TransferSaga) :
  SagaEntity.markAsDebited saga = (saga', inr tt) ->
  state saga = PENDING /\ saga' = set_state DEBITED saga.
Proof.
  unfold SagaEntity.markAsDebited, bind, gets, modify, throw.
  case_decide as Hst; [discriminate|]. intros [= <-].
  split; [|reflexivity]. destruct (state saga); congruence.
Qed.

Lemma markAsCompensated_inv (reason : string) (saga saga' : TransferSaga) :
  SagaEntity.markAsCompensated reason saga = (saga', inr tt) ->
  state saga = DEBITED /\ saga' = compensated reason saga.
Proof.
  intros Hrun. destruct (decide (state saga = DEBITED)) as [Hst|Hst].
  - rewrite (markAsCompensated_debited reason saga Hst) in Hrun.
    injection Hrun as <-. auto.
  - unfold SagaEntity.markAsCompensated, bind, gets, throw in Hrun.
    case_decide; [discriminate | contradiction].
Qed.

Lemma save_saga_wallets (saga : TransferSaga) (s : Store) :
  wallets (save_saga saga s).1 = wallets s.
Proof. unfold save_saga. case_decide; reflexivity. Qed.

Lemma save_saga_existing (saga : TransferSaga) (s : Store) :
  saga_id saga <> "" ->
  save_saga saga s = (set_transfer_sagas (insert (saga_id saga) saga) s, saga).
Proof. intros Hne. unfold save_saga. case_decide; [contradiction | reflexivity]. Qed.

Lemma uuid_not_empty (n : nat) : uuid n <> "".
Proof. unfold uuid. discriminate. Qed.

(** [getOrCreate] of the receiver, whatever fails: the wallets are as they
    were, or the receiver was missing and is there now, empty. *)
Lemma getOrCreateUnder_wallets (faults : Outages) (id cur : string) (w : World) :
  let out := WalletRepository.getOrCreateUnder faults id cur w in
  wallets (db out.1) = wallets (db w)
  \/ (wallets (db w) !! id = None
      /\ wallets (db out.1) = <[id := new_Wallet id cur]> (wallets (db w))).
Proof.
  cbv zeta.
  unfold WalletRepository.getOrCreateUnder, WalletRepository.runInTransactionUnder.
  destruct faults as [fset fconnect fstart frollback frelease fdel].
  cbn [connectFails startFails rollbackFails releaseFails].
  destruct fconnect; [left; reflexivity|].
  destruct fstart; [left; reflexivity|].
  unfold WalletRepository.getOrCreate, WalletRepository.withManager, failing,
    startTransaction, rollbackTransaction, release,
    try_finally, try_catch, bind, em_read, em_write, newDate, gets, modify, throw, ret.
  cbn [runner set_runner work writes].
  destruct (wallets (db w) !! id) as [found|] eqn:Hfound.
  - unfold commitTransaction. cbn [runner set_runner commitFaults].
    destruct (commitFaults w) as [|[e|] rest], frollback, frelease; cbn; auto.
  - cbn [runner set_runner work writes].
    assert (Hins : WalletRepository.insertIfMissing (new_Wallet id cur) (db w)
                   = set_wallets (insert id (new_Wallet id cur)) (db w)).
    { unfold WalletRepository.insertIfMissing. cbn [wallet_id new_Wallet].
      rewrite Hfound. reflexivity. }
    rewrite Hins. cbn [wallets set_wallets]. rewrite lookup_insert_eq.
    cbn [runner set_runner work writes wallet_events set_wallets].
    case_decide as Hz;
      unfold commitTransaction; cbn [runner set_runner commitFaults clock];
      destruct (commitFaults w) as [|[e|] rest], frollback, frelease; cbn; auto.
Qed.

Lemma getOrCreateUnder_balances (faults : Outages) (id cur : string) (w : World) :
  let out := WalletRepository.getOrCreateUnder faults id cur w in
  (forall k, balanceOf (db out.1) k = balanceOf (db w) k)
  /\ (wellKeyed (db w) -> wellKeyed (db out.1)).
Proof.
  cbv zeta. destruct (getOrCreateUnder_wallets faults id cur w) as [Hw | [Hnone Hw]].
  - split; [apply balanceOf_same, Hw | apply wellKeyed_same, Hw].
  - split.
    + intros k. unfold balanceOf. rewrite Hw.
      destruct (decide (k = id)) as [->|Hk].
      * rewrite lookup_insert_eq, Hnone. reflexivity.
      * rewrite lookup_insert_ne by congruence. reflexivity.
    + intros Hkeys k y. rewrite Hw.
      destruct (decide (k = id)) as [->|Hk].
      * rewrite lookup_insert_eq. intros [= <-]. reflexivity.
      * rewrite lookup_insert_ne by congruence. apply Hkeys.
Qed.

(** What a committed debit and a committed credit do to the tables. *)
Lemma debit_done (saga : TransferSaga) (s s' : Store) :
  wellKeyed s -> transfer_sagas s !! saga_id saga = Some saga ->
  stepDone (saga_id saga) (fromWalletId saga)
    (fun now => WalletEntity.withdraw (saga_amount saga) now)
    (Some SagaEntity.markAsDebited) s s' ->
  adjusted (fromWalletId saga) (- saga_amount saga) s s'
  /\ 0 < saga_amount saga <= balanceOf s (fromWalletId saga)
  /\ transfer_sagas s' = <[saga_id saga := set_state DEBITED saga]> (transfer_sagas s).
Proof.
  intros Hkeys Hsaga Hdone.
  destruct (stepDone_withdraw _ _ _ _ _ _ Hkeys Hdone) as (Hadj & Hamt).
  split; [exact Hadj|]. split; [exact Hamt|].
  destruct Hdone as (x & x' & now & sg & _ & _ & _ & Hsg & sg' & Hup & Hs).
  rewrite Hsaga in Hsg. injection Hsg as <-.
  apply markAsDebited_inv in Hup. destruct Hup as (_ & ->). exact Hs.
Qed.

Lemma credit_done (sagaId to : string) (amount : Z) (s s' : Store) :
  wellKeyed s ->
  stepDone sagaId to (fun _ => WalletEntity.credit amount) None s s' ->
  adjusted to amount s s' /\ transfer_sagas s' = transfer_sagas s.
Proof.
  intros Hkeys Hdone.
  destruct (stepDone_credit _ _ _ _ _ _ Hkeys Hdone) as (Hadj & _).
  split; [exact Hadj|].
  destruct Hdone as (x & x' & now & sg & _ & _ & _ & _ & Hs). exact Hs.
Qed.

Lemma refund_done (reason : string) (current : TransferSaga) (s s' : Store) :
  wellKeyed s -> transfer_sagas s !! saga_id current = Some current ->
  stepDone (saga_id current) (fromWalletId current)
    (fun _ => WalletEntity.credit (saga_amount current))
    (Some (SagaEntity.markAsCompensated reason)) s s' ->
  adjusted (fromWalletId current) (saga_amount current) s s'
  /\ state current = DEBITED
  /\ transfer_sagas s' = <[saga_id current := compensated reason current]> (transfer_sagas s).
Proof.
  intros Hkeys Hsaga Hdone.
  destruct (stepDone_credit _ _ _ _ _ _ Hkeys Hdone) as (Hadj & _).
  split; [exact Hadj|].
  destruct Hdone as (x & x' & now & sg & _ & _ & _ & Hsg & sg' & Hup & Hs).
  rewrite Hsaga in Hsg. injection Hsg as <-.
  apply markAsCompensated_inv in Hup. destruct Hup as (Hst & ->).
  split; [exact Hst | exact Hs].
Qed.

(** The [catch] block of a transfer: it always throws; it leaves the
    wallets alone, unless the saga is DEBITED and the refund is committed. *)
Lemma transferRecoveryUnder_cases (faults : SagaOutages) (saga current : TransferSaga)
    (error : Error) (w : World) :
  releaseNotRetried (compensationOutages faults) ->
  transfer_sagas (db w) !! saga_id saga = Some current ->
  match transferRecoveryUnder faults saga error w with
  | (w', r) =>
      (exists e, r = inl e)
      /\ (db w' = db w
          \/ (state current <> DEBITED /\ wallets (db w') = wallets (db w))
          \/ (state current = DEBITED
              /\ stepDone (saga_id current) (fromWalletId current)
                   (fun _ => WalletEntity.credit (saga_amount current))
                   (Some (SagaEntity.markAsCompensated (message error)))
                   (db w) (db w')))
  end.
Proof.
  intros Hquiet Hcur. unfold transferRecoveryUnder. unfold bind at 1.
  unfold failing at 1. destruct (findSagaFails faults) as [e|].
  { unfold throw. split; [eauto | left; reflexivity]. }
  unfold TransferSagaRepository.findById, gets. rewrite Hcur.
  case_decide as Hst.
  - unfold bind.
    pose proof (compensateUnder_cases faults (saga_id current) (fromWalletId current)
                  (saga_amount current) (message error) w Hquiet) as Hcomp.
    destruct (TransferSagaService.compensateUnder _ _ _ _ _ w) as [w1 [e|[]]].
    + split; [eauto|]. destruct Hcomp; auto.
    + unfold throw. split; [eauto|]. auto.
  - unfold bind, call, SagaEntity.markAsFailed, bind, modify, ret, throw, failing,
      TransferSagaRepository.save.
    cbn [fst snd].
    destruct (saveFailedFails faults) as [e|]; [split; [eauto | left; reflexivity]|].
    match goal with
    | |- context [save_saga ?sg ?s] =>
        pose proof (save_saga_wallets sg s) as Hw; destruct (save_saga sg s) as [s1 saved]
    end.
    cbn [fst] in Hw. cbn. split; [eauto|]. right; left. auto.
Qed.

(** The [try] block of a transfer, for a saga that is in the store: the
    debit is not committed; or it is committed and the credit is not; or
    both are committed and the saga is still DEBITED, a call having failed
    after the commit of the credit; or both are committed and the saga is
    COMPLETED. *)
Lemma transferAttemptUnder_cases (faults : SagaOutages) (from to : string) (amount : Z)
    (rid : option string) (saga : TransferSaga) (w : World) :
  releaseNotRetried (debitOutages faults) -> releaseNotRetried (creditOutages faults) ->
  wellKeyed (db w) ->
  transfer_sagas (db w) !! saga_id saga = Some saga -> saga_id saga <> "" ->
  fromWalletId saga = from -> toWalletId saga = to -> saga_amount saga = amount ->
  match transferAttemptUnder faults from to amount rid saga w with
  | (w', r) =>
      ((exists e, r = inl e) /\ db w' = db w)
      \/ ((exists e, r = inl e)
          /\ adjusted from (- amount) (db w) (db w')
          /\ 0 < amount <= balanceOf (db w) from
          /\ transfer_sagas (db w') !! saga_id saga = Some (set_state DEBITED saga))
      \/ ((exists e, r = inl e)
          /\ failsAfterCredit faults
          /\ exists s3,
               adjusted from (- amount) (db w) s3
               /\ adjusted to amount s3 (db w')
               /\ 0 < amount <= balanceOf (db w) from
               /\ transfer_sagas (db w') !! saga_id saga = Some (set_state DEBITED saga))
      \/ (exists s3,
            adjusted from (- amount) (db w) s3
            /\ adjusted to amount s3 (db w')
            /\ 0 < amount <= balanceOf (db w) from
            /\ transfer_sagas (db w') !! saga_id saga = Some (set_state COMPLETED saga)
            /\ (r = inr (completedTransfer (saga_id saga) from to amount)
                \/ exists e, r = inl e))
  end.
Proof.
  intros Hquiet1 Hquiet2 Hkeys Hsaga Hid <- <- <-.
  unfold transferAttemptUnder. unfold bind at 1.
  pose proof (debitFromSenderUnder_cases faults saga w Hquiet1) as Hdebit.
  assert (Hdebited : forall w1,
            stepDone (saga_id saga) (fromWalletId saga)
              (fun now => WalletEntity.withdraw (saga_amount saga) now)
              (Some SagaEntity.markAsDebited) (db w) (db w1) ->
            adjusted (fromWalletId saga) (- saga_amount saga) (db w) (db w1)
            /\ 0 < saga_amount saga <= balanceOf (db w) (fromWalletId saga)
            /\ transfer_sagas (db w1) !! saga_id saga = Some (set_state DEBITED saga)
            /\ wellKeyed (db w1)).
  { intros w1 Hdone. destruct (debit_done saga _ _ Hkeys Hsaga Hdone) as (Ha & Hb & Hs).
    split; [exact Ha|]. split; [exact Hb|].
    split; [rewrite Hs; apply lookup_insert_eq | eapply adjusted_wellKeyed; eauto]. }
  destruct (TransferSagaService.debitFromSenderUnder faults saga w) as [w1 [e|[]]].
  { destruct Hdebit as [Hdb | Hdone]; [left; eauto|].
    destruct (Hdebited w1 Hdone) as (Ha & Hb & Hs & _). right; left. eauto 10. }
  destruct (Hdebited w1 Hdebit) as (Hadj1 & Hamt & Hsagas1 & Hkeys1).
  clear Hdebited Hdebit.
  unfold bind at 1. unfold failing at 1.
  destruct (reloadAfterDebitFails faults) as [e|].
  { unfold throw. right; left. eauto 10. }
  unfold TransferSagaRepository.findById at 1, gets at 1. rewrite Hsagas1.
  unfold bind at 1.
  pose proof (creditToReceiverUnder_cases faults (set_state DEBITED saga) w1 Hquiet2)
    as Hcredit.
  cbn [saga_id toWalletId saga_amount set_state] in Hcredit.
  assert (Hcredited : forall w2,
            stepDone (saga_id saga) (toWalletId saga)
              (fun _ => WalletEntity.credit (saga_amount saga)) None (db w1) (db w2) ->
            adjusted (toWalletId saga) (saga_amount saga) (db w1) (db w2)
            /\ transfer_sagas (db w2) !! saga_id saga = Some (set_state DEBITED saga)).
  { intros w2 Hdone. destruct (credit_done _ _ _ _ _ Hkeys1 Hdone) as (Ha & Hs).
    split; [exact Ha | rewrite Hs; exact Hsagas1]. }
  destruct (TransferSagaService.creditToReceiverUnder faults (set_state DEBITED saga) w1)
    as [w2 [e|[]]].
  { destruct Hcredit as [Hdb | [Hdone Hcause]].
    - right; left. rewrite Hdb. eauto 10.
    - destruct (Hcredited w2 Hdone) as (Hadj2 & Hsagas2).
      right; right; left. split; [eauto|].
      split; [destruct Hcause as [Hc | Hc]; [left; exact Hc | right; left; exact Hc]|].
      exists (db w1). auto. }
  destruct (Hcredited w2 Hcredit) as (Hadj2 & Hsagas2). clear Hcredited Hcredit.
  unfold bind at 1. unfold failing at 1.
  destruct (reloadAfterCreditFails faults) as [e|] eqn:Hreload.
  { unfold throw. right; right; left. split; [eauto|].
    split; [right; right; left; rewrite Hreload; discriminate|]. exists (db w1). auto. }
  unfold TransferSagaRepository.findById at 1, gets at 1. rewrite Hsagas2.
  unfold bind at 1. unfold call, SagaEntity.markAsCompleted, bind, gets, modify, ret, throw.
  cbn [state set_state fst snd]. case_decide as Hd; [congruence|].
  cbn [fst snd]. unfold failing at 1.
  destruct (saveCompletedFails faults) as [e|] eqn:Hsave.
  { right; right; left. split; [eauto|].
    split; [right; right; right; rewrite Hsave; discriminate|]. exists (db w1). auto. }
  unfold TransferSagaRepository.save.
  rewrite save_saga_existing by exact Hid.
  match goal with
  | |- context [set_journal ?j (set_db ?f w2)] => set (w3 := set_journal j (set_db f w2))
  end.
  assert (Hadj3 : adjusted (toWalletId saga) (saga_amount saga) (db w1) (db w3)).
  { eapply adjusted_same; [exact Hadj2 | reflexivity]. }
  assert (Hsagas3 : transfer_sagas (db w3) !! saga_id saga
                    = Some (set_state COMPLETED saga)).
  { subst w3. cbn. apply lookup_insert_eq. }
  clearbody w3.
  assert (Hdone : forall (w' : World) (r : Error + Response),
            wallets (db w') = wallets (db w3) ->
            transfer_sagas (db w') = transfer_sagas (db w3) ->
            r = inr (completedTransfer (saga_id saga) (fromWalletId saga)
                       (toWalletId saga) (saga_amount saga))
            \/ (exists e, r = inl e) ->
            exists s3,
              adjusted (fromWalletId saga) (- saga_amount saga) (db w) s3
              /\ adjusted (toWalletId saga) (saga_amount saga) s3 (db w')
              /\ 0 < saga_amount saga <= balanceOf (db w) (fromWalletId saga)
              /\ transfer_sagas (db w') !! saga_id saga = Some (set_state COMPLETED saga)
              /\ (r = inr (completedTransfer (saga_id saga) (fromWalletId saga)
                             (toWalletId saga) (saga_amount saga))
                  \/ exists e, r = inl e)).
  { intros w' r Hw' Hs' Hr. exists (db w1). rewrite Hs'.
    split; [exact Hadj1|]. split; [eapply adjusted_same; eauto|]. auto. }
  unfold newDate, gets, failing, EventPublisher.publish, bind, gets, modify, throw.
  cbv beta iota.
  destruct (publishCompletedFails faults) as [e|];
    [right; right; right; apply Hdone; eauto|].
  destruct (publisherConnected w3); cbn [negb];
    [|right; right; right; apply Hdone; eauto].
  destruct (truthy rid);
    [|right; right; right; apply Hdone; [reflexivity | reflexivity | left; reflexivity]].
  destruct (saveKeyFails faults) as [e|];
    [right; right; right; apply Hdone; eauto|].
  unfold IdempotencyRepository.save, repo_write, bind, modify, ret.
  right; right; right. apply Hdone; [reflexivity | reflexivity | left; reflexivity].
Qed.

(** ** A transfer, whatever the infrastructure refuses *)

Ltac balances :=
  repeat match goal with
         | H : adjusted _ _ _ ?s |- context [balanceOf ?s _] =>
             rewrite !(adjusted_balanceOf _ _ _ _ H)
         | H : forall k, balanceOf ?s k = balanceOf ?s' k |- context [balanceOf ?s _] =>
             rewrite !H
         | H : db ?w = _ |- context [db ?w] => rewrite !H
         end;
  repeat case_decide; try congruence; try lia.

Lemma compensated_records (reason : string) (saga : TransferSaga) (s : Store) :
  transfer_sagas s !! saga_id saga = Some (compensated reason saga) ->
  sagaRecords COMPENSATED (fromWalletId saga) (toWalletId saga) (saga_amount saga) s.
Proof.
  intros Hs. exists (saga_id saga), (compensated reason saga). auto.
Qed.

Lemma transferRunUnder_cases (faults : SagaOutages) (from to : string) (amount : Z)
    (rid : option string) (w : World) :
  wellKeyed (db w) -> releasesNotRetried faults ->
  match transferRunUnder faults from to amount rid w with
  | (w', r) =>
      (forall id, id <> from -> id <> to -> balanceOf (db w') id = balanceOf (db w) id)
      /\ TransferOutcome faults from to amount (db w) (db w') r
      /\ (forall res, r = inr res ->
            (exists sagaId, res = completedTransfer sagaId from to amount)
            /\ balanceOf (db w') from = balanceOf (db w) from - amount
            /\ balanceOf (db w') to = balanceOf (db w) to + amount)
  end.
Proof.
  intros Hkeys (Hquiet1 & Hquiet2 & Hquiet3). unfold transferRunUnder.
  case_decide as Hne.
  { unfold throw. split; [auto|]. split; [apply NothingMoved; auto | discriminate]. }
  unfold bind at 1. unfold failing at 1.
  destruct (findSenderFails faults) as [e|];
    [unfold throw; split; [auto|]; split; [apply NothingMoved; auto | discriminate]|].
  unfold WalletRepository.findById, gets.
  destruct (wallets (db w) !! from) as [fromWallet|] eqn:Hfrom;
    [|unfold throw; split; [auto|]; split; [apply NothingMoved; auto | discriminate]].
  unfold bind at 1.
  destruct (getOrCreateUnder_balances (getReceiverOutages faults) to (currency fromWallet) w)
    as [Hbal1 Hkeys1].
  specialize (Hkeys1 Hkeys).
  destruct (WalletRepository.getOrCreateUnder (getReceiverOutages faults) to
              (currency fromWallet) w) as [w1 [e|toWallet]]; cbn [fst] in Hbal1, Hkeys1.
  { split; [auto|]. split; [apply NothingMoved; auto | discriminate]. }
  case_decide as Hcur.
  { unfold throw. split; [auto|]. split; [apply NothingMoved; auto | discriminate]. }
  unfold bind at 1. unfold failing at 1.
  destruct (insertSagaFails faults) as [e|];
    [unfold throw; split; [auto|]; split; [apply NothingMoved; auto | discriminate]|].
  unfold TransferSagaRepository.save at 1.
  unfold save_saga at 1. cbn [saga_id new_TransferSaga].
  case_decide as Hempty; [|contradiction].
  fold (savedSaga from to amount (currency fromWallet) (db w1)).
  set (saga := savedSaga from to amount (currency fromWallet) (db w1)).
  match goal with
  | |- context [set_journal ?j (set_db ?f w1)] => set (w2 := set_journal j (set_db f w1))
  end.
  assert (Hw2 : wallets (db w2) = wallets (db w1)) by reflexivity.
  assert (Hs2 : transfer_sagas (db w2) !! saga_id saga = Some saga).
  { subst w2 saga. cbn. apply lookup_insert_eq. }
  assert (Hid : saga_id saga <> "") by apply uuid_not_empty.
  assert (Hbal2 : forall k, balanceOf (db w2) k = balanceOf (db w) k).
  { intros k. rewrite <- Hbal1. apply balanceOf_same, Hw2. }
  assert (Hkeys2 : wellKeyed (db w2)) by (eapply wellKeyed_same; eauto).
  clearbody w2. clear Hw2 Hbal1 Hkeys1 Hempty.
  unfold bind at 1. unfold newDate at 1, gets at 1.
  unfold bind at 1. unfold failing at 1.
  destruct (publishInitiatedFails faults) as [e|];
    [unfold throw; split; [auto|]; split; [apply NothingMoved; auto | discriminate]|].
  unfold EventPublisher.publish at 1.
  unfold bind at 1. unfold gets at 1.
  destruct (publisherConnected w2); cbn [negb];
    [|unfold throw; split; [auto|]; split; [apply NothingMoved; auto | discriminate]].
  unfold bind at 1. unfold gets at 1. unfold modify at 1.
  match goal with
  | |- context [set_bus ?b w2] => set (w3 := set_bus b w2)
  end.
  assert (Hdb3 : db w3 = db w2) by reflexivity.
  clearbody w3.
  unfold try_catch.
  pose proof (transferAttemptUnder_cases faults from to amount rid saga w3) as Hattempt.
  rewrite Hdb3 in Hattempt.
  specialize (Hattempt Hquiet1 Hquiet2 Hkeys2 Hs2 Hid eq_refl eq_refl eq_refl).
  destruct (transferAttemptUnder faults from to amount rid saga w3) as [w4 r].
  destruct Hattempt as [((e & ->) & Hdb4)
                       | [((e & ->) & Hadj & Hamt & Hs4)
                         | [((e & ->) & Hlate & s3 & Hadj1 & Hadj2 & Hamt & Hs4)
                           | (s3 & Hadj1 & Hadj2 & Hamt & Hs4 & Hr)]]].
  - (* the debit is not committed *)
    pose proof (transferRecoveryUnder_cases faults saga saga e w4 Hquiet3) as Hrec.
    rewrite Hdb4 in Hrec. specialize (Hrec Hs2).
    destruct (transferRecoveryUnder faults saga e w4) as [w5 r5].
    destruct Hrec as ((e5 & ->) & [Hdb5 | [(_ & Hw5) | (Hst & _)]]);
      try discriminate Hst.
    + rewrite Hdb5. split; [auto|]. split; [apply NothingMoved; auto | discriminate].
    + assert (Hbal5 : forall k, balanceOf (db w5) k = balanceOf (db w) k).
      { intros k. rewrite <- Hbal2. apply balanceOf_same, Hw5. }
      split; [auto|]. split; [apply NothingMoved; auto | discriminate].
  - (* the debit is committed, the credit is not *)
    rewrite Hbal2 in Hamt.
    assert (Hkeys4 : wellKeyed (db w4)) by (eapply adjusted_wellKeyed; eauto).
    pose proof (transferRecoveryUnder_cases faults saga (set_state DEBITED saga) e w4
                  Hquiet3 Hs4) as Hrec.
    destruct (transferRecoveryUnder faults saga e w4) as [w5 r5].
    destruct Hrec as ((e5 & ->) & [Hdb5 | [(Hst & _) | (_ & Hdone)]]).
    + rewrite Hdb5.
      assert (Hrecord : sagaRecords DEBITED from to amount (db w4)).
      { exists (saga_id saga), (set_state DEBITED saga). auto. }
      split; [intros; balances|]. split; [|discriminate].
      apply DebitPending; eauto; balances.
    + cbn in Hst. congruence.
    + cbn [saga_id fromWalletId saga_amount set_state] in Hdone.
      apply (stepDone_credit _ _ _ _ _ _ Hkeys4) in Hdone.
      destruct Hdone as (Hrefund & _).
      change (fromWalletId saga) with from in Hrefund.
      change (saga_amount saga) with amount in Hrefund.
      split; [intros; balances|]. split; [|discriminate].
      apply NothingMoved; balances.
  - (* both legs are committed, the saga is still DEBITED *)
    rewrite Hbal2 in Hamt.
    assert (Hkeys3 : wellKeyed s3) by (eapply adjusted_wellKeyed; eauto).
    assert (Hkeys4 : wellKeyed (db w4)) by (eapply adjusted_wellKeyed; eauto).
    pose proof (transferRecoveryUnder_cases faults saga (set_state DEBITED saga) e w4
                  Hquiet3 Hs4) as Hrec.
    destruct (transferRecoveryUnder faults saga e w4) as [w5 r5].
    destruct Hrec as ((e5 & ->) & [Hdb5 | [(Hst & _) | (_ & Hdone)]]).
    + rewrite Hdb5. split; [intros; balances|]. split; [|discriminate].
      apply AmountMoved; auto; balances.
    + cbn in Hst. congruence.
    + destruct (refund_done (message e) (set_state DEBITED saga) _ _ Hkeys4 Hs4 Hdone)
        as (Hrefund & _ & Hs5).
      cbn [saga_id fromWalletId saga_amount set_state] in Hrefund, Hs5.
      change (fromWalletId saga) with from in Hrefund.
      change (saga_amount saga) with amount in Hrefund.
      assert (Hrecord : sagaRecords COMPENSATED from to amount (db w5)).
      { apply (compensated_records (message e) (set_state DEBITED saga)).
        rewrite Hs5. apply lookup_insert_eq. }
      split; [intros; balances|]. split; [|discriminate].
      apply CreditedAndRefunded; eauto; balances.
  - (* both legs are committed, the saga is COMPLETED *)
    rewrite Hbal2 in Hamt.
    destruct Hr as [-> | (e & ->)].
    + split; [intros; balances|]. split; [apply AmountMoved; auto; balances|].
      intros res [= <-]. split; [eauto|]. split; balances.
    + pose proof (transferRecoveryUnder_cases faults saga (set_state COMPLETED saga) e w4
                    Hquiet3 Hs4) as Hrec.
      destruct (transferRecoveryUnder faults saga e w4) as [w5 r5].
      destruct Hrec as ((e5 & ->) & [Hdb5 | [(_ & Hw5) | (Hst & _)]]);
        try discriminate Hst.
      * rewrite Hdb5. split; [intros; balances|].
        split; [apply AmountMoved; auto; balances | discriminate].
      * pose proof (balanceOf_same _ _ Hw5) as Hbal5.
        split; [intros; balances|]. split; [apply AmountMoved; auto; balances|].
        discriminate.
Qed.

Lemma twoWallets_wellKeyed : wellKeyed (db twoWallets).
Proof.
  change (map_Forall (fun id wallet => wallet_id wallet = id)
            (<["alice" := activeWallet "alice" 10000]>
               (<["bob" := activeWallet "bob" 0]> (∅ : gmap string Wallet)))).
  apply map_Forall_insert_2; [reflexivity|].
  apply map_Forall_insert_2; [reflexivity|].
  apply map_Forall_empty.
Qed.

Lemma noOutages_releasesNotRetried (faults : SagaOutages) :
  debitOutages faults = (fun _ => noOutages) ->
  creditOutages faults = (fun _ => noOutages) ->
  compensationOutages faults = (fun _ => noOutages) ->
  releasesNotRetried faults.
Proof.
  intros H1 H2 H3. unfold releasesNotRetried, releaseNotRetried.
  rewrite H1, H2, H3. repeat split; intros attempt e; discriminate.
Qed.

(** X21: a transfer, whatever awaited calls outside the bodies of its
    transactions the infrastructure refuses (reads and writes of the
    repositories, deletions in the cache, the publisher, the commits, and
    the calls of the coordinator on the query runner, whose release never
    fails with an error that is retried), changes no balance
    but those of the sender and of the receiver, and ends in one of four
    ways: nothing moved; the amount left the sender, the call failed and a
    saga in state DEBITED records it; the amount left the sender and
    reached the receiver; or the receiver holds the amount and the sender
    has it back, the saga being COMPENSATED and the call having failed.
    The last way, which creates money, takes a call that fails after the
    commit of the credit and before the saga is saved as COMPLETED: when
    there is none, the two balances together never exceed what they
    were.  A call that returns a response, and was not answered from the
    idempotency record, moved exactly the amount and reports the saga as
    COMPLETED. *)
Theorem X21_transfer_creates_money_only_after_the_credit
    (faults : SagaOutages) (from to : string) (amount : Z) (rid : option string)
    (w : World) :
  wellKeyed (db w) -> releasesNotRetried faults ->
  let out := TransferSagaService.executeTransferUnder faults from to amount rid w in
  (forall id, id <> from -> id <> to -> balanceOf (db out.1) id = balanceOf (db w) id)
  /\ TransferOutcome faults from to amount (db w) (db out.1) out.2
  /\ (~ failsAfterCredit faults ->
      balanceOf (db out.1) from + balanceOf (db out.1) to
      <= balanceOf (db w) from + balanceOf (db w) to)
  /\ ((truthy rid = true -> idempotency_keys (db w) !! default "" rid = None) ->
      forall res, out.2 = inr res ->
        (exists sagaId, res = completedTransfer sagaId from to amount)
        /\ balanceOf (db out.1) from = balanceOf (db w) from - amount
        /\ balanceOf (db out.1) to = balanceOf (db w) to + amount).
Proof.
  intros Hkeys Hquiet out.
  assert (Hcases : (exists e, out = (w, inl e))
                   \/ (exists stored, truthy rid = true
                         /\ idempotency_keys (db w) !! default "" rid = Some stored
                         /\ out = (w, inr stored))
                   \/ out = transferRunUnder faults from to amount rid w).
  { subst out. rewrite executeTransferUnder_run. unfold bind.
    destruct (truthy rid) eqn:Ht; [|right; right; reflexivity].
    unfold failing. destruct (findKeyFails faults) as [e|]; [left; eauto|].
    unfold IdempotencyRepository.findByRequestId, gets.
    destruct (idempotency_keys (db w) !! default "" rid) as [stored|] eqn:Hk;
      cbn; rewrite ?Hk; cbn; eauto 10. }
  assert (Hsum : forall s' r,
            TransferOutcome faults from to amount (db w) s' r ->
            ~ failsAfterCredit faults ->
            balanceOf s' from + balanceOf s' to
            <= balanceOf (db w) from + balanceOf (db w) to).
  { intros s' r [Hf Ht | Hamt Hf Ht _ _ | _ Hamt Hf Ht | _ _ Hlate _ _ _ _] Hno;
      [lia | lia | lia | contradiction]. }
  clearbody out. destruct Hcases as [(e & ->) | [(stored & Ht & Hk & ->) | ->]].
  - cbn [fst snd]. split; [auto|]. split; [apply NothingMoved; reflexivity|].
    split; [lia | discriminate].
  - cbn [fst snd]. split; [auto|]. split; [apply NothingMoved; reflexivity|].
    split; [lia|]. intros Hfresh. rewrite (Hfresh Ht) in Hk. discriminate.
  - pose proof (transferRunUnder_cases faults from to amount rid w Hkeys Hquiet) as Hrun.
    destruct (transferRunUnder faults from to amount rid w) as [w' r].
    destruct Hrun as (H1 & H2 & H3). cbn [fst snd].
    split; [exact H1|]. split; [exact H2|]. split; [exact (Hsum _ _ H2) | auto].
Qed.

(** alice sends 25.00 of her 100.00 to bob, who holds nothing.  With no
    outage bob gets them.  When Redis is lost after the credit, alice is
    refunded and bob keeps the 25.00. *)
Lemma X21_transfer_creates_money_only_after_the_credit_witness :
  let out := TransferSagaService.executeTransferUnder noSagaOutages
               "alice" "bob" 2500 None twoWallets in
  let late := TransferSagaService.executeTransferUnder cacheLostAfterCredit
                "alice" "bob" 2500 None twoWallets in
  (out.2 = inr (completedTransfer "uuid-0" "alice" "bob" 2500)
   /\ balanceOf (db out.1) "alice" = 7500
   /\ balanceOf (db out.1) "bob" = 2500)
  /\ (late.2 = inl (PlainError "Connection is closed.")
      /\ balanceOf (db late.1) "alice" = 10000
      /\ balanceOf (db late.1) "bob" = 2500
      /\ balanceOf (db late.1) "carol" = 0).
Proof.
  cbv zeta. split.
  - destruct (X21_transfer_creates_money_only_after_the_credit noSagaOutages
                "alice" "bob" 2500 None twoWallets twoWallets_wellKeyed
                (noOutages_releasesNotRetried noSagaOutages eq_refl eq_refl eq_refl))
      as (_ & _ & _ & Hmoved).
    assert (Hres : (TransferSagaService.executeTransferUnder noSagaOutages
                      "alice" "bob" 2500 None twoWallets).2
                   = inr (completedTransfer "uuid-0" "alice" "bob" 2500))
      by (vm_compute; reflexivity).
    destruct (Hmoved ltac:(discriminate) _ Hres) as (_ & Ha & Hb).
    split; [exact Hres|]. split; [rewrite Ha | rewrite Hb]; vm_compute; reflexivity.
  - destruct (X21_transfer_creates_money_only_after_the_credit cacheLostAfterCredit
                "alice" "bob" 2500 None twoWallets twoWallets_wellKeyed
                (noOutages_releasesNotRetried cacheLostAfterCredit
                   eq_refl eq_refl eq_refl))
      as (Hothers & _).
    split; [vm_compute; reflexivity|]. split; [vm_compute; reflexivity|].
    split; [vm_compute; reflexivity|].
    rewrite (Hothers "carol") by discriminate. vm_compute. reflexivity.
Defined.

(** ** Recovery of a saga that is stuck after its debit *)

Lemma debitedWorld_wellKeyed : wellKeyed (db debitedWorld).
Proof.
  change (map_Forall (fun id wallet => wallet_id wallet = id)
            (<["alice" := activeWallet "alice" 5000]>
               (<["alice" := activeWallet "alice" 10000]>
                  (<["bob" := activeWallet "bob" 0]> (∅ : gmap string Wallet))))).
  repeat (apply map_Forall_insert_2; [reflexivity|]).
  apply map_Forall_empty.
Qed.

(** A saga that is not DEBITED is left alone. *)
Lemma recoverSagaUnder_settled (faults : SagaOutages) (sagaId : string)
    (saga : TransferSaga) (w : World) :
  transfer_sagas (db w) !! sagaId = Some saga -> state saga <> DEBITED ->
  db (TransferSagaService.recoverSagaUnder faults sagaId w).1 = db w.
Proof.
  intros Hsaga Hst. unfold TransferSagaService.recoverSagaUnder, bind, failing,
    TransferSagaRepository.findById, gets, throw.
  destruct (findSagaFails faults); [reflexivity|].
  rewrite Hsaga. case_decide; [contradiction | reflexivity].
Qed.

(** The compensation of a saga that is in the store: the refund is
    committed and the saga, which was DEBITED, is COMPENSATED, or the
    tables are as they were and the call fails. *)
Lemma compensation_settles (faults : SagaOutages) (saga : TransferSaga) (reason : string)
    (w : World) :
  releaseNotRetried (compensationOutages faults) ->
  wellKeyed (db w) -> transfer_sagas (db w) !! saga_id saga = Some saga ->
  match TransferSagaService.compensateUnder faults (saga_id saga) (fromWalletId saga)
          (saga_amount saga) reason w with
  | (w', r) =>
      (db w' = db w /\ exists e, r = inl e)
      \/ (state saga = DEBITED
          /\ creditedTo (fromWalletId saga) (saga_amount saga) (db w) (db w')
          /\ transfer_sagas (db w') !! saga_id saga = Some (compensated reason saga))
  end.
Proof.
  intros Hquiet Hkeys Hsaga.
  pose proof (compensateUnder_cases faults (saga_id saga) (fromWalletId saga)
                (saga_amount saga) reason w Hquiet) as Hcomp.
  assert (Hrefund : forall w',
            stepDone (saga_id saga) (fromWalletId saga)
              (fun _ => WalletEntity.credit (saga_amount saga))
              (Some (SagaEntity.markAsCompensated reason)) (db w) (db w') ->
            state saga = DEBITED
            /\ creditedTo (fromWalletId saga) (saga_amount saga) (db w) (db w')
            /\ transfer_sagas (db w') !! saga_id saga = Some (compensated reason saga)).
  { intros w' Hdone.
    destruct (refund_done reason saga _ _ Hkeys Hsaga Hdone) as (Hadj & Hst & Hs).
    split; [exact Hst|]. split; [exact (adjusted_balanceOf _ _ _ _ Hadj)|].
    rewrite Hs. apply lookup_insert_eq. }
  destruct (TransferSagaService.compensateUnder _ _ _ _ _ w) as [w' [e|[]]].
  - destruct Hcomp as [Hdb | Hdone]; [left; eauto | right; auto].
  - right; auto.
Qed.

Lemma recoverSagaUnder_cases (faults : SagaOutages) (saga : TransferSaga) (w : World) :
  releaseNotRetried (creditOutages faults) ->
  releaseNotRetried (compensationOutages faults) ->
  wellKeyed (db w) ->
  transfer_sagas (db w) !! saga_id saga = Some saga ->
  saga_id saga <> "" -> state saga = DEBITED ->
  match TransferSagaService.recoverSagaUnder faults (saga_id saga) w with
  | (w', r) => RecoveryOutcome faults saga (db w) (db w') r
  end.
Proof.
  intros Hquiet2 Hquiet3 Hkeys Hsaga Hne Hst.
  unfold TransferSagaService.recoverSagaUnder. unfold bind at 1. unfold failing at 1.
  destruct (findSagaFails faults) as [e|].
  { unfold throw. apply NothingSettled; eauto. }
  unfold TransferSagaRepository.findById, gets. rewrite Hsaga.
  case_decide as Hd; [|contradiction].
  unfold try_catch. unfold bind at 1.
  (* compensation after a credit that the saga does not record *)
  assert (Hafter : forall w1 reason,
            recoveryFailsAfterCredit faults ->
            stepDone (saga_id saga) (toWalletId saga)
              (fun _ => WalletEntity.credit (saga_amount saga)) None (db w) (db w1) ->
            match TransferSagaService.compensateUnder faults (saga_id saga)
                    (fromWalletId saga) (saga_amount saga) reason w1 with
            | (w', r) => RecoveryOutcome faults saga (db w) (db w') r
            end).
  { intros w1 reason Hcause Hdone.
    destruct (credit_done _ _ _ _ _ Hkeys Hdone) as (Hadj & Hsagas1).
    assert (Hkeys1 : wellKeyed (db w1)) by (eapply adjusted_wellKeyed; eauto).
    assert (Hsaga1 : transfer_sagas (db w1) !! saga_id saga = Some saga)
      by (rewrite Hsagas1; exact Hsaga).
    pose proof (compensation_settles faults saga reason w1 Hquiet3 Hkeys1 Hsaga1) as Hcomp.
    destruct (TransferSagaService.compensateUnder _ _ _ _ _ w1) as [w2 r2].
    destruct Hcomp as [(Hdb & He) | (_ & Hrefund & Hs2)].
    - apply CreditNotRecorded; auto.
      + rewrite Hdb. exact (adjusted_balanceOf _ _ _ _ Hadj).
      + rewrite Hdb, Hsaga1. cbn. rewrite Hst. reflexivity.
    - apply SettledTwice; auto.
      + exists (db w1). split; [exact (adjusted_balanceOf _ _ _ _ Hadj) | exact Hrefund].
      + rewrite Hs2. reflexivity. }
  pose proof (creditToReceiverUnder_cases faults saga w Hquiet2) as Hcredit.
  destruct (TransferSagaService.creditToReceiverUnder faults saga w) as [w1 [e|[]]].
  - (* the credit failed *)
    destruct Hcredit as [Hdb | [Hdone Hcause]].
    + assert (Hkeys1 : wellKeyed (db w1)) by (rewrite Hdb; exact Hkeys).
      assert (Hsaga1 : transfer_sagas (db w1) !! saga_id saga = Some saga)
        by (rewrite Hdb; exact Hsaga).
      pose proof (compensation_settles faults saga ("Recovery failed: " +:+ message e) w1
                    Hquiet3 Hkeys1 Hsaga1) as Hcomp.
      destruct (TransferSagaService.compensateUnder _ _ _ _ _ w1) as [w2 r2].
      rewrite Hdb in Hcomp.
      destruct Hcomp as [(Hdb2 & He) | (_ & Hrefund & Hs2)].
      * apply NothingSettled; auto.
      * apply SenderRefunded; [exact Hrefund | rewrite Hs2; reflexivity].
    + apply Hafter; [|exact Hdone].
      destruct Hcause as [Hc | Hc]; [left; exact Hc | right; left; exact Hc].
  - (* the credit is committed *)
    unfold bind at 1. unfold call, SagaEntity.markAsCompleted, bind, gets, modify,
      ret, throw.
    rewrite Hst. case_decide as Hd2; [congruence|]. cbn [fst snd].
    unfold failing at 1.
    destruct (saveCompletedFails faults) as [e|] eqn:Hsave.
    { apply Hafter; [|exact Hcredit]. right; right. rewrite Hsave. discriminate. }
    destruct (credit_done _ _ _ _ _ Hkeys Hcredit) as (Hadj & Hsagas1).
    assert (Hkeys1 : wellKeyed (db w1)) by (eapply adjusted_wellKeyed; eauto).
    unfold TransferSagaRepository.save.
    rewrite save_saga_existing by exact Hne.
    match goal with
    | |- context [set_journal ?j (set_db ?f w1)] => set (w3 := set_journal j (set_db f w1))
    end.
    assert (Hadj3 : adjusted (toWalletId saga) (saga_amount saga) (db w) (db w3)).
    { eapply adjusted_same; [exact Hadj | reflexivity]. }
    assert (Hkeys3 : wellKeyed (db w3)).
    { eapply wellKeyed_same; [|exact Hkeys1]. reflexivity. }
    assert (Hsaga3 : transfer_sagas (db w3) !! saga_id (set_state COMPLETED saga)
                     = Some (set_state COMPLETED saga)).
    { subst w3. cbn. apply lookup_insert_eq. }
    clearbody w3.
    assert (Hcredited : forall (w' : World) (r : Error + unit),
              db w' = db w3 -> RecoveryOutcome faults saga (db w) (db w') r).
    { intros w' r Hdb. apply ReceiverCredited.
      - rewrite Hdb. exact (adjusted_balanceOf _ _ _ _ Hadj3).
      - rewrite Hdb. cbn [saga_id set_state] in Hsaga3. rewrite Hsaga3. reflexivity. }
    assert (Hcatch : forall (w4 : World) reason, db w4 = db w3 ->
              match TransferSagaService.compensateUnder faults (saga_id saga)
                      (fromWalletId saga) (saga_amount saga) reason w4 with
              | (w', r) => RecoveryOutcome faults saga (db w) (db w') r
              end).
    { intros w4 reason Hdb4.
      assert (Hkeys4 : wellKeyed (db w4)) by (rewrite Hdb4; exact Hkeys3).
      assert (Hsaga4 : transfer_sagas (db w4) !! saga_id (set_state COMPLETED saga)
                       = Some (set_state COMPLETED saga)) by (rewrite Hdb4; exact Hsaga3).
      pose proof (compensation_settles faults (set_state COMPLETED saga) reason w4
                    Hquiet3 Hkeys4 Hsaga4) as Hcomp.
      cbn [saga_id fromWalletId saga_amount set_state] in Hcomp.
      destruct (TransferSagaService.compensateUnder _ _ _ _ _ w4) as [w5 r5].
      destruct Hcomp as [(Hdb5 & _) | (Hbad & _)]; [|discriminate Hbad].
      apply Hcredited. rewrite Hdb5. exact Hdb4. }
    unfold newDate, gets, failing, EventPublisher.publish, bind, gets, modify, throw.
    cbv beta iota.
    destruct (publishCompletedFails faults) as [e|]; [apply Hcatch; reflexivity|].
    destruct (publisherConnected w3); cbn [negb]; [|apply Hcatch; reflexivity].
    apply Hcredited. reflexivity.
Qed.

(** X22: recovery of a saga in state DEBITED, whatever awaited calls
    outside the bodies of its transactions the infrastructure refuses (the
    release of a runner never failing with an error that is retried),
    changes the balances in one of five ways: the
    call fails and the tables are as they were; the receiver is credited
    with the amount and the saga is COMPLETED; the sender is refunded the
    amount and the saga is COMPENSATED; the receiver is credited, the call
    fails and the saga is still DEBITED; or the receiver is credited and
    the sender refunded, the saga being COMPENSATED.  The last two, in
    which the debt is settled without a record or settled twice, take a
    call that fails after the commit of the credit and before the saga is
    saved as COMPLETED.  After a call that returned, a second call changes
    nothing in the tables. *)
Theorem X22_recovery_settles_twice_only_after_the_credit
    (faults : SagaOutages) (sagaId : string) (saga : TransferSaga) (w : World) :
  wellKeyed (db w) ->
  releaseNotRetried (creditOutages faults) ->
  releaseNotRetried (compensationOutages faults) ->
  transfer_sagas (db w) !! sagaId = Some saga -> saga_id saga = sagaId ->
  sagaId <> "" -> state saga = DEBITED ->
  let out := TransferSagaService.recoverSagaUnder faults sagaId w in
  RecoveryOutcome faults saga (db w) (db out.1) out.2
  /\ (out.2 = inr tt ->
      forall again,
        db (TransferSagaService.recoverSagaUnder again sagaId out.1).1 = db out.1).
Proof.
  intros Hkeys Hquiet2 Hquiet3 Hsaga <- Hne Hst out.
  pose proof (recoverSagaUnder_cases faults saga w Hquiet2 Hquiet3 Hkeys Hsaga Hne Hst)
    as Hcases.
  fold out in Hcases. destruct out as [w' r]. cbn [fst snd].
  split; [exact Hcases|]. intros -> again.
  assert (Hsettled : exists saga',
            transfer_sagas (db w') !! saga_id saga = Some saga' /\ state saga' <> DEBITED).
  { destruct Hcases as [_ (e & He) | _ Hs | _ Hs | _ _ _ (e & He) | _ _ Hs];
      try discriminate He;
      destruct (transfer_sagas (db w') !! saga_id saga) as [saga'|];
      try discriminate Hs; cbn in Hs; injection Hs as Hs;
      exists saga'; (split; [reflexivity | rewrite Hs; discriminate]). }
  destruct Hsettled as (saga' & Hs' & Hst').
  exact (recoverSagaUnder_settled again (saga_id saga) saga' w' Hs' Hst').
Qed.

(** The saga of [debitedWorld], of 50.00 from alice, who is down to 50.00,
    to bob.  With no outage bob is credited and a second run does nothing.
    When Redis is lost after the credit, bob keeps the 50.00 and alice is
    refunded. *)
Lemma X22_recovery_settles_twice_only_after_the_credit_witness :
  let out := TransferSagaService.recoverSagaUnder noSagaOutages "saga-1" debitedWorld in
  let late := TransferSagaService.recoverSagaUnder cacheLostAfterCredit "saga-1"
                debitedWorld in
  (out.2 = inr tt
   /\ balanceOf (db out.1) "alice" = 5000
   /\ balanceOf (db out.1) "bob" = 5000
   /\ db (TransferSagaService.recoverSagaUnder noSagaOutages "saga-1" out.1).1 = db out.1)
  /\ (late.2 = inr tt
      /\ balanceOf (db late.1) "alice" = 10000
      /\ balanceOf (db late.1) "bob" = 5000
      /\ state <$> transfer_sagas (db late.1) !! "saga-1" = Some COMPENSATED
      /\ db (TransferSagaService.recoverSagaUnder noSagaOutages "saga-1" late.1).1
         = db late.1).
Proof.
  cbv zeta.
  assert (Hquiet : forall faults : SagaOutages,
            creditOutages faults = (fun _ => noOutages) ->
            compensationOutages faults = (fun _ => noOutages) ->
            releaseNotRetried (creditOutages faults)
            /\ releaseNotRetried (compensationOutages faults)).
  { intros faults -> ->. split; intros attempt e; discriminate. }
  split.
  - destruct (Hquiet noSagaOutages eq_refl eq_refl) as [H2 H3].
    destruct (X22_recovery_settles_twice_only_after_the_credit noSagaOutages "saga-1"
                debitedSaga debitedWorld debitedWorld_wellKeyed H2 H3
                eq_refl eq_refl ltac:(discriminate) eq_refl) as (_ & Hagain).
    assert (Hres : (TransferSagaService.recoverSagaUnder noSagaOutages "saga-1"
                      debitedWorld).2 = inr tt) by (vm_compute; reflexivity).
    split; [exact Hres|]. split; [vm_compute; reflexivity|].
    split; [vm_compute; reflexivity | exact (Hagain Hres noSagaOutages)].
  - destruct (Hquiet cacheLostAfterCredit eq_refl eq_refl) as [H2 H3].
    destruct (X22_recovery_settles_twice_only_after_the_credit cacheLostAfterCredit
                "saga-1" debitedSaga debitedWorld debitedWorld_wellKeyed H2 H3
                eq_refl eq_refl ltac:(discriminate) eq_refl) as (_ & Hagain).
    assert (Hres : (TransferSagaService.recoverSagaUnder cacheLostAfterCredit "saga-1"
                      debitedWorld).2 = inr tt) by (vm_compute; reflexivity).
    split; [exact Hres|]. split; [vm_compute; reflexivity|].
    split; [vm_compute; reflexivity|]. split; [vm_compute; reflexivity|].
    exact (Hagain Hres noSagaOutages).
Defined.

(** ** With no outage, the service is the one without them *)

Lemma executeUnder_reliable {A} :
  @TransactionManager.executeUnder A noOutages = @TransactionManager.execute A.
Proof.
  extensionality operation. extensionality options. extensionality w.
  apply executeUnder_noOutages.
Qed.

Lemma retryLoopUnder_constant {A} (op : M World A) (initial : Z)
    (remaining attempt : nat) :
  TransferSagaService.retryLoopUnder (fun _ => op) initial remaining attempt
  = TransferSagaService.retryLoop op initial remaining attempt.
Proof.
  revert attempt. induction remaining as [|remaining IH]; intros attempt; [reflexivity|].
  cbn [TransferSagaService.retryLoopUnder TransferSagaService.retryLoop].
  f_equal. extensionality error. rewrite IH. reflexivity.
Qed.

Lemma executeTransactionalStepUnder_reliable :
  TransferSagaService.executeTransactionalStepUnder (fun _ => noOutages)
  = TransferSagaService.executeTransactionalStep.
Proof.
  extensionality sagaId. extensionality walletId. extensionality amount.
  extensionality operation. extensionality ty. extensionality metadata.
  extensionality updateSaga.
  unfold TransferSagaService.executeTransactionalStepUnder,
    TransferSagaService.executeTransactionalStep,
    TransferSagaService.executeWithRetryUnder, TransferSagaService.executeWithRetry.
  rewrite executeUnder_reliable. f_equal. extensionality cfg.
  apply retryLoopUnder_constant.
Qed.

Lemma getOrCreateUnder_reliable (id cur : string) :
  WalletRepository.getOrCreateUnder noOutages id cur
  = WalletRepository.getOrCreate id cur None.
Proof.
  extensionality w. reflexivity.
Qed.

Ltac reliable :=
  cbv beta iota delta
    [failing noSagaOutages findKeyFails findSenderFails getReceiverOutages
     insertSagaFails publishInitiatedFails debitOutages debitCacheFails
     reloadAfterDebitFails creditOutages creditCacheFails reloadAfterCreditFails
     saveCompletedFails publishCompletedFails saveKeyFails findSagaFails
     compensationOutages publishFailedFails saveFailedFails];
  rewrite ?executeTransactionalStepUnder_reliable, ?getOrCreateUnder_reliable.

Lemma executeTransferUnder_reliable (from to : string) (amount : Z) (rid : option string) :
  TransferSagaService.executeTransferUnder noSagaOutages from to amount rid
  = TransferSagaService.executeTransfer from to amount rid.
Proof.
  unfold TransferSagaService.executeTransferUnder, TransferSagaService.executeTransfer,
    TransferSagaService.debitFromSenderUnder, TransferSagaService.debitFromSender,
    TransferSagaService.creditToReceiverUnder, TransferSagaService.creditToReceiver,
    TransferSagaService.compensateUnder, TransferSagaService.compensate.
  reliable. reflexivity.
Qed.

Lemma recoverSagaUnder_reliable (sagaId : string) :
  TransferSagaService.recoverSagaUnder noSagaOutages sagaId
  = TransferSagaService.recoverSaga sagaId.
Proof.
  unfold TransferSagaService.recoverSagaUnder, TransferSagaService.recoverSaga,
    TransferSagaService.creditToReceiverUnder, TransferSagaService.creditToReceiver,
    TransferSagaService.compensateUnder, TransferSagaService.compensate.
  reliable. reflexivity.
Qed.

(** ** Requests that were answered *)

(** [execute] returns only after a commit of the view of the runner. *)
Lemma execute_inr_inv {A} (operation : TransactionContext -> M World A)
    (options : TransactionOptions) (w w' : World) (a : A) :
  TransactionManager.execute operation options w = (w', inr a) ->
  exists wl w1 q,
    TransactionManager.acquireLock options w = (wl, inr tt)
    /\ operation TransactionManager.context (began wl) = (w1, inr a)
    /\ runner w1 = Some q
    /\ db w' = withOutbox (eventsToPublish w1) (work q).
Proof.
  rewrite execute_unfold.
  destruct (TransactionManager.acquireLock options w) as [wl [e|[]]] eqn:Hlock;
    [discriminate|].
  destruct (operation TransactionManager.context (began wl)) as [w1 [e|a']] eqn:Hop;
    [discriminate|].
  destruct (runner w1) as [q|] eqn:Hq.
  - rewrite (saveCollected_run _ w1 q Hq).
    match goal with
    | |- context [commitTransaction ?w2] =>
        pose proof (commitTransaction_cases w2) as Hcommit;
        destruct (commitTransaction w2) as [w3 [e|[]]]
    end; [discriminate|].
    cbv beta iota in Hcommit. destruct Hcommit as (q' & Hq' & Hdb & _).
    cbn [runner set_runner] in Hq'. injection Hq' as <-.
    rewrite publishEventsAsync_exact. cbn [fst]. intros [= <- <-].
    exists wl, w1, q. rewrite finished_db. cbn [db set_bus]. auto.
  - case_decide as Hlen.
    + rewrite (saveAll_no_runner _ w1 Hq); [discriminate|].
      destruct (eventsToPublish w1); [cbn in Hlen; lia | discriminate].
    + unfold ret, commitTransaction. rewrite Hq. discriminate.
Qed.

(** A deposit or withdrawal block that returns has written its response
    under the request id, through the runner. *)
Lemma idempotentBody_key (walletId : string) (amount : Z) (ty : WalletEventType)
    (operation : Z -> M Wallet unit) (rid : string) (autoCreate : bool)
    (w w1 : World) (r : Response) :
  rid <> "" ->
  WalletService.idempotentBody walletId amount ty operation (Some rid) autoCreate
    TransactionManager.context w = (w1, inr r) ->
  exists q, runner w1 = Some q /\ idempotency_keys (work q) !! rid = Some r.
Proof.
  intros Hne. unfold WalletService.idempotentBody. unfold bind at 1.
  destruct ((if autoCreate
             then WalletRepository.getOrCreate walletId "USD"
                    (Some (manager TransactionManager.context))
             else _) w) as [wa [e|wallet]]; [discriminate|].
  unfold bind at 1. unfold newDate at 1, gets at 1.
  unfold bind at 1. unfold call at 1.
  destruct (operation (clock wa) wallet) as [wallet' [e|[]]]; [discriminate|].
  unfold ret at 1. cbn [fst].
  unfold WalletRepository.saveWithEvent, WalletRepository.withManager, bind, em_write,
    newDate, gets, modify, ret, IdempotencyRepository.save, repo_write, em_write.
  cbn [manager TransactionManager.context publishEvent].
  destruct (runner wa) as [q0|] eqn:Hq0; [|discriminate].
  cbn [runner set_runner set_eventsToPublish clock work writes].
  assert (Ht : truthy (Some rid) = true).
  { unfold truthy. case_decide; [contradiction | reflexivity]. }
  rewrite Ht. unfold modify. cbn [runner set_runner set_eventsToPublish work writes
                                  requestId response default].
  intros [= <- <-]. eexists. split; [reflexivity|].
  cbn. apply lookup_insert_eq.
Qed.

Lemma executeIdempotentTransaction_key (walletId : string) (amount : Z)
    (ty : WalletEventType) (operation : Z -> M Wallet unit) (rid : string)
    (autoCreate : bool) (w w1 : World) (r : Response) :
  rid <> "" ->
  WalletService.executeIdempotentTransaction walletId amount ty operation (Some rid)
    autoCreate w = (w1, inr r) ->
  idempotency_keys (db w1) !! rid = Some r.
Proof.
  intros Hne. unfold WalletService.executeIdempotentTransaction. unfold bind at 1.
  assert (Ht : truthy (Some rid) = true).
  { unfold truthy. case_decide; [contradiction | reflexivity]. }
  rewrite Ht. unfold IdempotencyRepository.findByRequestId, gets.
  change (default "" (Some rid)) with rid.
  destruct (idempotency_keys (db w) !! rid) as [stored|] eqn:Hk; cbn [fmap option_fmap option_map].
  - unfold ret. cbn. intros [= <- <-]. exact Hk.
  - intros Hrun. apply execute_inr_inv in Hrun.
    destruct Hrun as (wl & wb & q & _ & Hbody & Hq & Hdb).
    apply (idempotentBody_key _ _ _ _ _ _ _ _ _ Hne) in Hbody.
    destruct Hbody as (q' & Hq' & Hkey). rewrite Hq in Hq'. injection Hq' as <-.
    rewrite Hdb. destruct (withOutbox_tables (eventsToPublish wb) (work q))
      as (_ & _ & -> & _). exact Hkey.
Qed.

(** X24: a request id that was answered is never applied again.  After a
    deposit or a withdrawal with a request id has returned a response, the
    response is stored under that id, and every later deposit, withdrawal
    or transfer that carries the id, whatever wallet and amount it names,
    is answered with that response and leaves tables, journal and bus as
    they are. *)
Theorem X24_answered_request_is_never_applied_again
    (walletId : string) (amount : Z) (rid : string) (w w1 : World) (r : Response) :
  rid <> "" ->
  WalletService.deposit walletId amount (Some rid) w = (w1, inr r)
  \/ WalletService.withdraw walletId amount (Some rid) w = (w1, inr r) ->
  idempotency_keys (db w1) !! rid = Some r
  /\ forall (walletId' to' : string) (amount' : Z),
       let d := WalletService.deposit walletId' amount' (Some rid) w1 in
       let wd := WalletService.withdraw walletId' amount' (Some rid) w1 in
       TransferSagaService.executeTransfer walletId' to' amount' (Some rid) w1
       = (w1, inr r)
       /\ d.2 = inr r /\ db d.1 = db w1 /\ journal d.1 = journal w1 /\ bus d.1 = bus w1
       /\ wd.2 = inr r /\ db wd.1 = db w1 /\ journal wd.1 = journal w1
       /\ bus wd.1 = bus w1.
Proof.
  intros Hne Hrun.
  assert (Hkey : idempotency_keys (db w1) !! rid = Some r).
  { destruct Hrun as [Hrun | Hrun];
      unfold WalletService.deposit, WalletService.withdraw in Hrun;
      unfold bind at 1 in Hrun;
      match type of Hrun with
      | context [WalletService.executeIdempotentTransaction ?a ?b ?c ?d ?e ?f w] =>
          pose proof (executeIdempotentTransaction_key a b c d rid f w) as Hk;
          destruct (WalletService.executeIdempotentTransaction a b c d e f w)
            as [w0 [e0|res]]; [discriminate|]
      end;
      specialize (Hk w0 res Hne eq_refl);
      unfold bind, ret in Hrun; rewrite setBalanceCache_run in Hrun;
      injection Hrun as <- <-; exact Hk. }
  split; [exact Hkey|]. intros walletId' to' amount'.
  exact (replay_returns_stored_response w1 rid r walletId' to' amount' Hne Hkey).
Qed.

(** A deposit of 10.00 on alice under the id r1, then a withdrawal of
    99.00 from bob under the same id: answered with the response of the
    deposit, and bob keeps what he has. *)
Lemma X24_answered_request_is_never_applied_again_witness :
  let w1 := (WalletService.deposit "alice" 1000 (Some "r1") twoWallets).1 in
  let again := WalletService.withdraw "bob" 9900 (Some "r1") w1 in
  again.2 = inr (BalanceResponse 11000 "alice") /\ db again.1 = db w1.
Proof.
  cbv zeta.
  destruct (X24_answered_request_is_never_applied_again "alice" 1000 "r1" twoWallets
              (WalletService.deposit "alice" 1000 (Some "r1") twoWallets).1
              (BalanceResponse 11000 "alice") ltac:(discriminate)
              ltac:(left; vm_compute; reflexivity)) as (_ & Hagain).
  destruct (Hagain "bob" "bob" 9900) as (_ & _ & _ & _ & _ & H1 & H2 & _).
  split; [exact H1 | exact H2].
Defined.

(** ** Paging through the history *)






(** With equal [created_at] the pages need not fit together: the store
    may answer the first page from one order and the second from the
    other, so that one event comes twice and the other never. *)
Lemma pages_with_ties_can_repeat :
  exists first second : list WalletEvent,
    WalletRepository.historyAnswer "alice" 1 0 tiedWorld first
    /\ WalletRepository.historyAnswer "alice" 1 1 tiedWorld second
    /\ first = second
    /\ length (filter (fun ev => event_walletId ev = "alice")
                 (wallet_events (db tiedWorld))) = 2%nat.
Proof.
  exists (take 1 tiedEvents), (take 1 tiedEvents).
  split; [|split; [|split; reflexivity]].
  - exists tiedEvents. split; [reflexivity|]. split; [|reflexivity].
    repeat constructor; unfold WalletRepository.newerFirst; cbn; lia.
  - exists (reverse tiedEvents). split; [apply reverse_Permutation|].
    split; [|reflexivity].
    repeat constructor; unfold WalletRepository.newerFirst; cbn; lia.
Qed.

(** ** The history is append-only *)

Create HintDb history.

Lemma grows_set_wallets f : grows (set_wallets f).
Proof. intros s. reflexivity. Qed.

Lemma grows_set_transfer_sagas f : grows (set_transfer_sagas f).
Proof. intros s. reflexivity. Qed.

Lemma grows_set_idempotency_keys f : grows (set_idempotency_keys f).
Proof. intros s. reflexivity. Qed.

Lemma grows_insert_event now ev : grows (insert_event now ev).
Proof. intros s. cbn. apply prefix_app_r. reflexivity. Qed.

Lemma grows_insert_outbox ev : grows (insert_outbox ev).
Proof. intros s. reflexivity. Qed.

Lemma grows_insertIfMissing wallet : grows (WalletRepository.insertIfMissing wallet).
Proof.
  intros s. unfold WalletRepository.insertIfMissing.
  destruct (wallets s !! wallet_id wallet); reflexivity.
Qed.

#[local] Hint Resolve grows_set_wallets grows_set_transfer_sagas
  grows_set_idempotency_keys grows_insert_event grows_insert_outbox
  grows_insertIfMissing : history.

Lemma appendOnly_ret {A} (a : A) : appendOnly (ret a).
Proof. intros events w H. exact H. Qed.

Lemma appendOnly_throw {A} (e : Error) : appendOnly (@throw World A e).
Proof. intros events w H. exact H. Qed.

Lemma appendOnly_gets {A} (f : World -> A) : appendOnly (gets f).
Proof. intros events w H. exact H. Qed.

Lemma appendOnly_modify (f : World -> World) :
  (forall w, db (f w) = db w /\ runner (f w) = runner w) -> appendOnly (modify f).
Proof.
  intros Hf events w H. unfold modify, keepsHistory in *. cbn [fst].
  destruct (Hf w) as (-> & ->). exact H.
Qed.

Lemma appendOnly_bind {A B} (m : M World A) (f : A -> M World B) :
  appendOnly m -> (forall a, appendOnly (f a)) -> appendOnly (bind m f).
Proof.
  intros Hm Hf events w H. unfold bind. specialize (Hm events w H).
  destruct (m w) as [w1 [e|a]]; [exact Hm|]. apply Hf, Hm.
Qed.

Lemma appendOnly_try_catch {A} (m : M World A) (h : Error -> M World A) :
  appendOnly m -> (forall e, appendOnly (h e)) -> appendOnly (try_catch m h).
Proof.
  intros Hm Hh events w H. unfold try_catch. specialize (Hm events w H).
  destruct (m w) as [w1 [e|a]]; [|exact Hm]. apply Hh, Hm.
Qed.

Lemma appendOnly_try_finally {A} (m : M World A) (fin : M World unit) :
  appendOnly m -> appendOnly fin -> appendOnly (try_finally m fin).
Proof.
  intros Hm Hf events w H. unfold try_finally. specialize (Hm events w H).
  destruct (m w) as [w1 r]. specialize (Hf events w1 Hm).
  destruct (fin w1) as [w2 [e|u]]; exact Hf.
Qed.

Lemma appendOnly_call {E A} (method : M E A) (obj : E) :
  appendOnly (@call World E A method obj).
Proof.
  intros events w H. unfold call. destruct (method obj) as [o [e|a]]; exact H.
Qed.

Lemma appendOnly_em_read {A} (f : Store -> A) : appendOnly (em_read f).
Proof. intros events w H. unfold em_read. destruct (runner w); exact H. Qed.

Lemma appendOnly_em_write (op : WriteOp) (f : Store -> Store) :
  grows f -> appendOnly (em_write op f).
Proof.
  intros Hf events w (Hdb & Hq). unfold em_write.
  destruct (runner w) as [q|] eqn:Hrun;
    [|split; [exact Hdb | cbn; rewrite Hrun; discriminate]].
  split; [exact Hdb|]. cbn. intros q' [= <-]. cbn.
  etransitivity; [apply (Hq q eq_refl) | apply Hf].
Qed.

Lemma appendOnly_repo_write (manager : option EntityManager) (op : WriteOp)
    (f : Store -> Store) :
  grows f -> appendOnly (repo_write manager op f).
Proof.
  intros Hf. destruct manager as [m|]; [apply appendOnly_em_write, Hf|].
  intros events w (Hdb & Hq). unfold repo_write, modify. cbn.
  split; [etransitivity; [exact Hdb | apply Hf] | exact Hq].
Qed.

Lemma appendOnly_startTransaction : appendOnly startTransaction.
Proof.
  intros events w (Hdb & Hq). unfold startTransaction, modify. cbn.
  split; [exact Hdb|]. intros q [= <-]. exact Hdb.
Qed.

Lemma appendOnly_rollbackTransaction : appendOnly rollbackTransaction.
Proof. exact appendOnly_startTransaction. Qed.

Lemma appendOnly_release : appendOnly release.
Proof.
  intros events w (Hdb & Hq). unfold release, modify. cbn.
  split; [exact Hdb | discriminate].
Qed.

Lemma appendOnly_commitTransaction : appendOnly commitTransaction.
Proof.
  intros events w (Hdb & Hq). unfold commitTransaction.
  destruct (runner w) as [q|] eqn:Hrun;
    [|split; [exact Hdb | cbn; rewrite Hrun; discriminate]].
  specialize (Hq q eq_refl).
  destruct (commitFaults w) as [|[e|] rest]; cbn;
    (split; [assumption|]); intros q' Hq'; cbn in Hq'; rewrite ?Hrun in Hq';
    injection Hq' as <-; assumption.
Qed.

Lemma appendOnly_publish (event : WalletEventMessage) (exchange : option string) :
  appendOnly (EventPublisher.publish event exchange).
Proof.
  intros events w H. unfold EventPublisher.publish, bind, gets.
  destruct (publisherConnected w); exact H.
Qed.

Lemma appendOnly_randomJitter : appendOnly randomJitter.
Proof. intros events w H. exact H. Qed.

Lemma appendOnly_sleep ms : appendOnly (sleep ms).
Proof. intros events w H. exact H. Qed.

Lemma appendOnly_saga_save (saga : TransferSaga) :
  appendOnly (TransferSagaRepository.save saga).
Proof.
  intros events w (Hdb & Hq). unfold TransferSagaRepository.save, save_saga.
  case_decide; cbn; split; assumption.
Qed.

#[local] Hint Resolve appendOnly_ret appendOnly_throw appendOnly_gets appendOnly_call
  appendOnly_em_read appendOnly_startTransaction appendOnly_rollbackTransaction
  appendOnly_release appendOnly_commitTransaction appendOnly_publish
  appendOnly_randomJitter appendOnly_sleep appendOnly_saga_save : history.

Ltac history_step :=
  match goal with
  | |- appendOnly (bind _ _) => apply appendOnly_bind; [|intros ?]
  | |- appendOnly (try_catch _ _) => apply appendOnly_try_catch; [|intros ?]
  | |- appendOnly (try_finally _ _) => apply appendOnly_try_finally
  | |- appendOnly (modify _) => apply appendOnly_modify; intros ?; split; reflexivity
  | |- appendOnly (em_write _ _) => apply appendOnly_em_write; solve [auto with history]
  | |- appendOnly (repo_write _ _ _) =>
      apply appendOnly_repo_write; solve [auto with history]
  | |- appendOnly (match ?x with _ => _ end) => destruct x
  | |- appendOnly (if ?c then _ else _) => destruct c
  | |- appendOnly (let '(_, _) := ?x in _) => destruct x
  | |- appendOnly _ => solve [auto with history]
  end.

Ltac history_auto := repeat history_step.

Lemma appendOnly_saveAll (events : list OutboxEvent) (manager : option EntityManager) :
  appendOnly (OutboxRepository.saveAll events manager).
Proof.
  induction events as [|ev events IH]; cbn [OutboxRepository.saveAll].
  - history_auto.
  - apply appendOnly_bind; [|intros _; exact IH]. history_auto.
Qed.

Lemma appendOnly_publishEach (events : list OutboxEvent) :
  appendOnly (TransactionManager.publishEach events).
Proof.
  induction events as [|ev events IH]; cbn [TransactionManager.publishEach].
  - history_auto.
  - apply appendOnly_bind; [|intros _; exact IH]. history_auto.
Qed.

#[local] Hint Resolve appendOnly_saveAll appendOnly_publishEach : history.

Lemma appendOnly_execute {A} (operation : TransactionContext -> M World A)
    (options : TransactionOptions) :
  appendOnly (operation TransactionManager.context) ->
  appendOnly (TransactionManager.execute operation options).
Proof.
  intros Hop.
  unfold TransactionManager.execute, TransactionManager.acquireLock,
    TransactionManager.releaseLock, TransactionManager.publishEventsAsync, newDate.
  history_auto.
Qed.

Lemma appendOnly_getOrCreate (id cur : string) (manager : option EntityManager) :
  appendOnly (WalletRepository.getOrCreate id cur manager).
Proof.
  unfold WalletRepository.getOrCreate, WalletRepository.withManager,
    WalletRepository.runInTransaction, newDate.
  history_auto.
Qed.

Lemma appendOnly_saveWithEvent wallet ty amount metadata manager :
  appendOnly (WalletRepository.saveWithEvent wallet ty amount metadata manager).
Proof.
  unfold WalletRepository.saveWithEvent, WalletRepository.withManager,
    WalletRepository.runInTransaction, newDate.
  history_auto.
Qed.

#[local] Hint Resolve appendOnly_getOrCreate appendOnly_saveWithEvent : history.

Lemma appendOnly_idempotentBody walletId amount ty operation rid autoCreate :
  appendOnly (WalletService.idempotentBody walletId amount ty operation rid autoCreate
                TransactionManager.context).
Proof.
  unfold WalletService.idempotentBody, WalletRepository.findByIdWithLock,
    IdempotencyRepository.save, repo_read, newDate.
  cbn [manager publishEvent TransactionManager.context].
  history_auto.
Qed.

Lemma appendOnly_stateChange walletId ty operation metadata :
  appendOnly (WalletService.executeStateChange walletId ty operation metadata).
Proof.
  unfold WalletService.executeStateChange. apply appendOnly_execute.
  unfold WalletService.stateChangeBody, WalletRepository.findById, newDate.
  cbn [manager publishEvent TransactionManager.context].
  history_auto.
Qed.

Lemma appendOnly_retryLoop {A} (op : M World A) (initial : Z) (remaining attempt : nat) :
  appendOnly op -> appendOnly (TransferSagaService.retryLoop op initial remaining attempt).
Proof.
  intros Hop. revert attempt.
  induction remaining as [|remaining IH]; intros attempt;
    cbn [TransferSagaService.retryLoop]; [history_auto|].
  apply appendOnly_try_catch; [exact Hop|]. intros e.
  destruct (TransferSagaService.isRetryableError e); [|history_auto].
  apply appendOnly_bind; [|intros _; apply IH].
  unfold TransferSagaService.performExponentialBackoff. history_auto.
Qed.

Lemma appendOnly_step sagaId walletId amount operation ty metadata updateSaga :
  appendOnly (TransferSagaService.executeTransactionalStep sagaId walletId amount
                operation ty metadata updateSaga).
Proof.
  unfold TransferSagaService.executeTransactionalStep,
    TransferSagaService.executeWithRetry.
  apply appendOnly_bind; [history_auto|]. intros cfg.
  apply appendOnly_retryLoop, appendOnly_execute.
  unfold TransferSagaService.stepBody, newDate.
  cbn [publishEvent TransactionManager.context].
  history_auto.
Qed.

#[local] Hint Resolve appendOnly_step : history.

Lemma appendOnly_compensate sagaId from amount reason :
  appendOnly (TransferSagaService.compensate sagaId from amount reason).
Proof. unfold TransferSagaService.compensate, newDate. history_auto. Qed.

#[local] Hint Resolve appendOnly_compensate : history.

Lemma appendOnly_afterCall (c : ServiceCall) (events : list WalletEvent) (w : World) :
  keepsHistory events w -> keepsHistory events (afterCall c w).
Proof.
  revert events w. change (forall events w, keepsHistory events w ->
                             keepsHistory events (afterCall c w)).
  destruct c; cbn [afterCall];
    match goal with
    | |- forall events w, keepsHistory events w -> keepsHistory events (?op w).1 =>
        change (appendOnly op)
    end.
  - unfold WalletService.deposit, WalletService.executeIdempotentTransaction,
      WalletService.setBalanceCache, IdempotencyRepository.findByRequestId, newDate.
    repeat first [ apply appendOnly_execute, appendOnly_idempotentBody | history_step ].
  - unfold WalletService.withdraw, WalletService.executeIdempotentTransaction,
      WalletService.setBalanceCache, IdempotencyRepository.findByRequestId, newDate.
    repeat first [ apply appendOnly_execute, appendOnly_idempotentBody | history_step ].
  - unfold TransferSagaService.executeTransfer, TransferSagaService.debitFromSender,
      TransferSagaService.creditToReceiver, WalletService.invalidateBalanceCache,
      IdempotencyRepository.findByRequestId, IdempotencyRepository.save,
      WalletRepository.findById, TransferSagaRepository.findById, newDate.
    history_auto.
  - unfold WalletService.freezeWallet, WalletService.invalidateBalanceCache, newDate.
    repeat first [ apply appendOnly_stateChange | history_step ].
  - unfold WalletService.unfreezeWallet, WalletService.invalidateBalanceCache, newDate.
    repeat first [ apply appendOnly_stateChange | history_step ].
  - unfold WalletService.closeWallet, WalletService.invalidateBalanceCache, newDate.
    repeat first [ apply appendOnly_stateChange | history_step ].
  - unfold WalletService.getBalance, WalletService.setBalanceCache,
      WalletRepository.findById, newDate.
    history_auto.
  - unfold WalletService.getHistory, WalletRepository.getEventHistory. history_auto.
  - unfold TransferSagaService.recoverSaga, TransferSagaService.creditToReceiver,
      WalletService.invalidateBalanceCache, TransferSagaRepository.findById, newDate.
    history_auto.
Qed.

(** X26: no call of the service removes or rewrites a row of the wallet
    history.  Starting with no transaction open, after any sequence of
    deposits, withdrawals, transfers, freezes, unfreezes, closures, reads
    and saga recoveries, whether they return or throw and whatever commits
    the store refuses, the history that was there is the beginning of the
    history that is there. *)
Theorem X26_history_is_append_only (calls : list ServiceCall) (w : World) :
  runner w = None ->
  wallet_events (db w) `prefix_of` wallet_events (db (afterCalls calls w)).
Proof.
  intros Hq.
  assert (Hinv : keepsHistory (wallet_events (db w)) w).
  { split; [reflexivity|]. rewrite Hq. discriminate. }
  revert Hinv. generalize (wallet_events (db w)) as events. clear Hq.
  revert w. induction calls as [|c calls IH]; intros w events Hinv.
  - exact (proj1 Hinv).
  - cbn [afterCalls fold_left]. apply (IH (afterCall c w)).
    apply appendOnly_afterCall, Hinv.
Qed.

(** The 101 events of alice stay in place under a deposit, a transfer to a
    wallet that does not exist yet and a closure. *)
Lemma X26_history_is_append_only_witness :
  wallet_events (db C8_world)
    `prefix_of`
  wallet_events (db (afterCalls [CallDeposit "alice" 1000 (Some "r1");
                                 CallTransfer "alice" "bob" 400 None;
                                 CallClose "bob" "done" None] C8_world)).
Proof.
  apply (X26_history_is_append_only _ C8_world). reflexivity.
Defined.

(** ** Money operations on a wallet that does not exist *)

Lemma deposit_active (amount : Z) (wallet : Wallet) :
  0 < amount -> status wallet = ACTIVE ->
  WalletEntity.deposit amount wallet
  = (set_balance (balance wallet + amount) wallet, inr tt).
Proof.
  intros Hpos Hst. unfold WalletEntity.deposit, WalletEntity.validatePositiveAmount,
    WalletEntity.ensureWalletActive.
  destruct (amount <=? 0) eqn:Hle; [apply Z.leb_le in Hle; lia|].
  unfold bind, gets, modify, ret. cbn. rewrite Hst.
  case_decide; [congruence | reflexivity].
Qed.

Lemma withdraw_body_missing (walletId : string) (amount : Z) (rid : option string)
    (w : World) :
  wallets (db w) !! walletId = None ->
  WalletService.idempotentBody walletId amount FUNDS_WITHDRAWN
    (fun now => WalletEntity.withdraw amount now) rid false
    TransactionManager.context (began w)
  = (began w, inl (PlainError ("Wallet " +:+ walletId +:+ " not found"))).
Proof.
  intros Hw. unfold WalletService.idempotentBody, WalletRepository.findByIdWithLock,
    repo_read, bind, em_read, throw.
  cbn [manager TransactionManager.context began runner set_runner set_eventsToPublish work].
  rewrite Hw. reflexivity.
Qed.

Lemma deposit_body_creates (walletId : string) (amount : Z) (rid : option string)
    (w : World) :
  wallets (db w) !! walletId = None -> 0 < amount ->
  exists w1 q,
    WalletService.idempotentBody walletId amount FUNDS_DEPOSITED
      (fun _ => WalletEntity.deposit amount) rid true TransactionManager.context (began w)
    = (w1, inr (BalanceResponse amount walletId))
    /\ runner w1 = Some q
    /\ wallets (work q)
       = <[walletId := set_balance amount (new_Wallet walletId "USD")]> (wallets (db w))
    /\ map eventType (wallet_events (work q))
       = (map eventType (wallet_events (db w))
            ++ creationEvents walletId (db w) ++ [FUNDS_DEPOSITED])%list
    /\ writes q
       = (creationWrites walletId (db w)
            ++ [SaveWallet walletId; InsertEvent walletId FUNDS_DEPOSITED]
            ++ keyWrites rid)%list
    /\ map outbox_eventType (eventsToPublish w1) = [FUNDS_DEPOSITED]
    /\ commitFaults w1 = commitFaults w /\ journal w1 = journal w.
Proof.
  intros Hw Hpos.
  assert (Hins : WalletRepository.insertIfMissing (new_Wallet walletId "USD") (db w)
                 = set_wallets (insert walletId (new_Wallet walletId "USD")) (db w)).
  { unfold WalletRepository.insertIfMissing. cbn [wallet_id new_Wallet].
    rewrite Hw. reflexivity. }
  assert (Hdep : WalletEntity.deposit amount (new_Wallet walletId "USD")
                 = (set_balance amount (new_Wallet walletId "USD"), inr tt)).
  { rewrite (deposit_active amount (new_Wallet walletId "USD") Hpos eq_refl).
    reflexivity. }
  unfold WalletService.idempotentBody, WalletRepository.getOrCreate,
    WalletRepository.withManager, WalletRepository.saveWithEvent,
    IdempotencyRepository.save, repo_write, bind, em_read, em_write, newDate, gets,
    modify, ret, call, throw.
  unfold creationWrites, creationEvents, keyWrites, noHistory.
  run. rewrite Hw. run. rewrite Hins. run. rewrite lookup_insert_eq. run.
  destruct (filter (fun ev => event_walletId ev = walletId) (wallet_events (db w)))
    as [|ev l] eqn:Hhist; run;
    repeat case_decide; try discriminate; try congruence; run;
    rewrite Hdep; run;
    destruct (truthy rid); run;
    eexists _, _; (split; [reflexivity|]); (split; [reflexivity|]);
    run; rewrite ?map_app, ?insert_insert_eq; run; rewrite <- ?app_assoc; auto 10.
Qed.

(** X27: on a wallet that does not exist and for a request that is new (no
    idempotency record answers it and no other request holds its lock), a
    withdrawal fails with "Wallet ... not found" and creates nothing,
    whereas a deposit of a positive
    amount whose commit passes creates the wallet, ACTIVE and in USD, and
    credits it, all in one transaction: the journal gains one entry with
    the insertion of the wallet, its WALLET_CREATED row unless the
    identifier has history, the save of the credited wallet, the
    FUNDS_DEPOSITED row, the idempotency record if the request has an id,
    and the outbox row. *)
Theorem X27_missing_wallet_is_created_by_a_deposit_only
    (walletId : string) (amount : Z) (rid : option string) (w : World) :
  wallets (db w) !! walletId = None ->
  freshRequest rid w ->
  let wd := WalletService.withdraw walletId amount rid w in
  let d := WalletService.deposit walletId amount rid w in
  (wd.2 = inl (PlainError ("Wallet " +:+ walletId +:+ " not found"))
   /\ db wd.1 = db w /\ journal wd.1 = journal w)
  /\ (0 < amount -> nextCommitPasses w ->
      d.2 = inr (BalanceResponse amount walletId)
      /\ wallets (db d.1)
         = <[walletId := set_balance amount (new_Wallet walletId "USD")]> (wallets (db w))
      /\ map eventType (wallet_events (db d.1))
         = (map eventType (wallet_events (db w))
              ++ creationEvents walletId (db w) ++ [FUNDS_DEPOSITED])%list
      /\ journal d.1
         = (journal w
              ++ [creationWrites walletId (db w)
                    ++ [SaveWallet walletId; InsertEvent walletId FUNDS_DEPOSITED]
                    ++ keyWrites rid ++ [SaveOutbox FUNDS_DEPOSITED]])%list).
Proof.
  intros Hw Hfresh wd d.
  destruct (acquireLock_fresh rid w Hfresh) as [r Hr].
  set (wl := set_redis (fun _ => r) w) in *.
  assert (Hwl : wallets (db wl) !! walletId = None) by exact Hw.
  split.
  - assert (Hrun : wd = (finished (WalletService.idempotentOptions rid)
                           (set_runner (Some {| work := db wl; writes := [] |}) (began wl)),
                         inl (PlainError ("Wallet " +:+ walletId +:+ " not found")))).
    { subst wd. unfold WalletService.withdraw, WalletService.executeIdempotentTransaction.
      unfold bind at 1. unfold bind at 1.
      rewrite (findByRequestId_fresh rid w Hfresh).
      rewrite (execute_rolls_back _ _ w wl (began wl) _ Hr
                 (withdraw_body_missing walletId amount rid wl Hwl)).
      reflexivity. }
    rewrite Hrun. cbn [fst snd]. rewrite finished_db, finished_journal. auto.
  - intros Hpos Hpass.
    destruct (deposit_body_creates walletId amount rid wl Hwl Hpos)
      as (w1 & q & Hbody & Hq & Hwallets & Hevents & Hwrites & Houtbox & Hfaults & Hj).
    assert (Hpass1 : nextCommitPasses w1).
    { unfold nextCommitPasses in *. rewrite Hfaults. exact Hpass. }
    assert (Hrun : d = (set_redis (redis_set_ex
                          (clock (finished (WalletService.idempotentOptions rid)
                                    (committed (eventsToPublish w1) q w1)))
                          (WalletService.getBalanceCacheKey walletId)
                          (numberToString amount) 30)
                          (finished (WalletService.idempotentOptions rid)
                             (committed (eventsToPublish w1) q w1)),
                        inr (BalanceResponse amount walletId))).
    { subst d. unfold WalletService.deposit, WalletService.executeIdempotentTransaction.
      unfold bind at 1. unfold bind at 1.
      rewrite (findByRequestId_fresh rid w Hfresh).
      rewrite (execute_commits _ _ w wl w1 q _ Hr Hbody Hq Hpass1).
      unfold bind, ret. rewrite setBalanceCache_run. reflexivity. }
    rewrite Hrun. cbn [fst snd db journal set_redis].
    rewrite finished_db, finished_journal. cbn [db journal committed].
    destruct (withOutbox_tables (eventsToPublish w1) (work q)) as (-> & _ & _ & ->).
    split; [reflexivity|]. split; [exact Hwallets|]. split; [exact Hevents|].
    rewrite Hj, Hwrites. unfold outboxWrites.
    rewrite <- (map_map outbox_eventType SaveOutbox), Houtbox.
    cbn [map]. rewrite <- !app_assoc. reflexivity.
Qed.

(** In a world without wallets: a withdrawal from dora is refused, a
    deposit of 5.00 creates her wallet with that balance. *)
Lemma X27_missing_wallet_is_created_by_a_deposit_only_witness :
  (WalletService.withdraw "dora" 500 (Some "r1") emptyWorld).2
  = inl (PlainError "Wallet dora not found")
  /\ (WalletService.deposit "dora" 500 (Some "r1") emptyWorld).2
     = inr (BalanceResponse 500 "dora")
  /\ balance <$> wallets (db (WalletService.deposit "dora" 500 (Some "r1") emptyWorld).1)
                   !! "dora" = Some 500.
Proof.
  assert (Hfresh : freshRequest (Some "r1") emptyWorld).
  { intros _. split; reflexivity. }
  destruct (X27_missing_wallet_is_created_by_a_deposit_only "dora" 500 (Some "r1")
              emptyWorld eq_refl Hfresh) as ((Hwd & _) & Hd).
  destruct (Hd ltac:(lia) I) as (Hres & Hwallets & _).
  split; [exact Hwd|]. split; [exact Hres|]. rewrite Hwallets. reflexivity.
Defined.
